(* ===== verification/_CoqProject ===== *)
-Q . S2P
Prelude.v
JSNumber.v
Format.v
JSDate.v
Ledger.v
Registry.v
MonthView.v
Resolver.v
App.v
Session.v
LedgerRuns.v
Faults.v
Async.v
View.v
Styles.v
Elements.v
Legacy.v
Refinement.v
Double.v
