(* ===== verification/Prelude.v ===== *)
(** * Spendy expense tracker: a verification development

    The program is a single React Native component, [App] in [src/App.js]
    (an earlier revision of the same component is [src/unnamed/part_000]).
    It keeps a ledger of income and expense transactions, a registry of
    category names per transaction type and a reference month in
    [useState] cells, derives the month's totals and category groups on
    every render, and persists ledger, registry and theme to three storage
    slots.

    ** Files and the code they model

    - [Prelude] (this file): the JavaScript idioms the components share:
      string truthiness, [Array.prototype.includes] and [some],
      [String.prototype.trim], a stable sort by a comparator ([sortBy]) and
      the order of [Object.values] on string keys ([firstKeys]); the
      tactics [js_cases], [js_reflect] and [by_computation]; the hint
      databases [ledger] and [ledger_rw]; the lemmas on [filter], [fmap],
      [NoDup] and sorting that the components reuse; sums of integers
      over a list ([Zsum]) with their lemmas on permutations, filters and
      partitions; a search over the numbers below a bound ([allBelow]).
    - [JSNumber]: the interface [JSNumber] of the operations the code
      performs on amounts ([+], [-], the sign of a comparator's result,
      the value of a decimal literal), the laws [JSNumberLaws] and
      [JSNumberCompare] under which sums may be regrouped and a difference
      changes sign when its operands are swapped, the interface
      [JSNumberWhole] of the numbers that add whole numbers exactly below
      a bound, the loop [reduce_add],
      [parseFloat] on the grammar of decimal literals, and the exact
      instance [xnum] (rationals, NaN and the two infinities) that
      satisfies the laws and evaluates the examples.
    - [JSDate]: the part of [Date] the code uses, on local civil time:
      the getters, [setDate], [setMonth] and [new Date(y, m, d)], with the
      overflow normalisation of ECMAScript's MakeDay as a fuelled loop; on
      top of it [isSameMonth] and [isFutureMonth], the rollover rule of
      [handleAddTransaction] ([transactionDate]), [changeMonth] and
      [selectMonthYear].
    - [Ledger]: the transaction record and the form; the ledger part of
      [handleAddTransaction] ([addTransaction]: guard, id, date, parsed
      amount, prepend); [confirmDelete]'s removal by id; the dependency
      test and the delete and reassign branches of
      [executeCategoryDeletion].
    - [Registry]: the [categories] object; the registry part of
      [handleAddNewCategory] ([addCategory]: trim, blank and duplicate
      guards, append); the removal of a name; the chips offered as
      reassignment targets.
    - [MonthView]: [getFilteredTransactions], [getTotals] and
      [getGroupedTransactions] (the [forEach] loop as [buildGroups], the
      comparator, the sort), and the reference definition [groupsSpec] of
      the groups as the partition of the filtered list by key.
    - [Resolver]: [handleDeleteCategoryInitiation] and
      [executeCategoryDeletion] on the six cells they use ([Store]), the
      buttons of the confirmation alert and of the Delete Category modal
      as the step function [resolverStep] and the relation [step], and the
      integrity invariant [resolverInv].
    - [App]: all cells ([AppState]), every handler on the whole state, the
      controls of the screen and of the three modals with the conditions
      under which each is on screen ([appStep]), [loadData] and the three
      save effects over the storage slots ([World], [worldStep]).
    - [Format]: [Number.prototype.toFixed] on the exact numbers
      ([xnum_toFixed], an instance of the interface [JSNumberFormat]
      through which [formatCurrency] calls it), with the zero padding of
      its digits ([padStart]).
    - [Session]: runs of events on the component ([runApp]), the states
      of a session ([reachable]: what [loadData] leaves and what the
      events make of it), their shape [wfState], the presses that
      lead back to the plain screen ([dismissals]), and the expansion of
      a block ([isExpanded] of [App]) along a run, and the presses that
      show a month ([selectMonth]).
    - [LedgerRuns]: the readings of [Date.now()] along a run
      ([clockOf], [ticking]) and the invariant [ledgerInv] of the ledger
      under every control: well-formed records ([wfLedger] of [Ledger])
      and an alert that has seen the ledger as it is.
    - [Faults]: the save effects with the outcome of each [setItem]
      ([saveEffectsWith], [worldStepWith], [runWorldWith]): a write that
      fails is caught and logged, and its slot keeps what it held until
      the cell is set again.
    - [Async]: the save effects as calls of [AsyncStorage.setItem] that
      complete later: the writes an effect issues ([issued]), the writes
      under way in the order of issue ([AsyncWorld]), a press or the
      completion of a write as one action ([asyncStep], [runAsync]), and
      the storage once the writes under way have completed ([settled]).
    - [View]: what [App] returns, as a record of what is on screen: the
      tables [THEMES] and [MONTHS], [formatCurrency], [getMonthYear],
      [renderTransactionItem], [renderCategoryBlock], [renderFooter], the
      summary card, the chips of the modals and the month grid
      ([render], [renderApp]).
    - [Styles]: the sheet [styles] of [src/App.js] ([StyleSheet.create],
      lines 791 to 1215), every entry with its properties in source
      order, in eight parts ([screenStyles] to [footerStyles]); objects
      as lists of bindings read like an object ([getProp], the last
      binding of a key wins) and as finite maps ([toMap]); style arrays
      ([flatten], [when]); a list of the names the JSX reads
      ([usedStyles], gathered by hand for the lemmas on the sheet); the
      inline styles of the list.
    - [Elements]: the style array of every element of the JSX that can
      be pressed or typed into ([fab], [typeButton], [categoryChip],
      [monthCell], [reassignButton] and the others), each with the
      colour of what is behind it, and the elements drawn in a state
      ([controls]).
    - [Legacy], module [V0]: the component of [src/unnamed/part_000] on
      its twelve cells: its handlers, save effects, controls
      ([V0.appStep]), flat list ([V0.render]) and style sheet
      ([V0.styles], lines 583 to 941).  The helpers the two
      revisions have in common ([isSameMonth], [isFutureMonth], the
      filter, [getTotals], [formatCurrency], the tables) are the same
      code in both and are modelled once.
    - [Refinement]: the projection [project] of a state of the current
      component on the cells of the earlier one, the embedding [embed] of
      its controls, and [simulate], the presses of the current revision
      that do what a control of the earlier one did.
    - [Double]: IEEE 754 binary64 as an instance of [JSNumber] and
      [JSNumberFormat], on the Standard Library's [SpecFloat]: [+] and
      [-] rounded to nearest even, decimal literals rounded once
      ([d_of_decimal]), [toFixed] on the exact value of a double, what
      [parseFloat] reads of its text ([d_rounded]), and the doubles of
      the integers ([d_of_Z], [d_to_Z]), which [+] adds exactly below
      2^53 (the instance of [JSNumberWhole]).

    ** How state and operations correspond to the code

    Every [useState] cell is a field of a record; a handler is a function
    from the state it closes over to the next state, with every [setX]
    call of the handler applied.  Guards are the handler's own conditions
    and early returns; a guard that fails returns the error as a value
    ([inl]) and the state is left as it was.  Clock readings ([new Date()],
    [Date.now()]) are arguments of the handlers and of the events that
    call them.  Where a callback runs later than the render that created
    it (the Delete button of the category alert), the state that render
    saw is kept apart from the current state: values read from the
    closure come from the former, functional updates apply to the latter.
    An effect is a function of the state before and after a render and of
    the storage.  Its dependencies are compared as [Object.is] compares
    them.  The ledger is an array and the registry an object, and every
    call of [setTransactions] or [setCategories] in the code passes a new
    one ([[...transactions]], the result of [filter], [map] or
    [JSON.parse], a spread): the cells carry the reference of what they
    hold ([transactionsRef], [categoriesRef] of [Store]), every call of
    the setter counts it up, and an effect runs when the reference
    differs, also when the contents are the same.  The theme and
    [isLoaded] are compared by value.  That a cell changes only through
    its setter is [cellsTracked].

    ** What the theorems show

    - dates: the normalisation always ends in a valid civil date; the
      rollover rule puts a new transaction in the reference month, on
      today's day or the month's last; [changeMonth] moves by one month
      up to the 28th and skips or repeats a month after it;
      [isFutureMonth] compares year and month.
    - ledger: the add handler on both branches, ids distinct as long as
      clock readings are fresh, removal by id, the bulk operations on
      exactly the dependents.
    - registry: each branch of the add handler, removal, and names
      distinct per type under both.
    - month view: the filter as a sublist holding exactly the month's
      records; the loop equal to the reference partition; keys distinct;
      group totals adding up to income plus expense in exact arithmetic
      (under [JSNumberLaws], which doubles do not satisfy) and, on
      doubles, for whole amounts whose absolute values stay below 2^53 in
      all ([double_group_totals_sum]), but not for amounts with decimals
      ([double_group_totals_differ]); the sorted
      list a permutation of the groups with income groups first and
      totals not increasing within a type, in which the groups of a tie
      keep the order of the ledger.
    - resolver: each terminal choice of a deletion request with its
      effect on ledger, registry and form; the only failure; the
      invariant along every run without a close request of the modal;
      from every state with the modal open and a target selected that
      has transactions, the close request followed by a deletion request
      for the target breaks it.
    - app: integrity of category references under every control but that
      close request; nothing written or pressed before the load; storage
      in sync with the cells after every event; a reload restoring what
      was saved exactly when every amount is finite; a failed load
      overwriting the slots.
    - sessions: every reachable state has the shape [wfState], by rule
      induction on [reachable]; from every loaded state at most four
      accepted presses lead back to the plain screen without touching
      the data; an open deletion request can always be completed; with
      a clock that moves on between two saves the ids of the ledger stay
      distinct and its records well formed along every run and across
      restarts, and two saves within one millisecond share an id; a
      block is expanded exactly when its header has been pressed an odd
      number of times, whatever else happened to it; the picker leads
      from the plain screen to any month of any year but the years 0 to
      99.
    - failing writes: the state in memory does not depend on them; a
      write of the ledger that fails is made again exactly when the
      ledger is set again, be it to the same contents; whenever the
      write of the registry fails as a category is added and a
      transaction is then saved on it, the storage holds a ledger that
      refers to a category the stored registry lacks, and the next start
      loads it without notice.
    - asynchronous writes: the cells do not depend on when the writes
      complete; when the writes of each slot complete in the order of
      issue, the session is, once its writes have completed, the session
      whose writes complete at once, so the storage catches up with the
      cells; whenever two different writes of one slot are under way and
      the later completes first, the slot is left with the older value,
      nothing is under way, and the storage is out of sync.
    - view: every reachable state renders when the stored theme is one
      the component wrote; what the list and the modals show is exactly
      what their controls accept; the digits of a printed amount read
      back as the amount rounded to two decimals.
    - revisions: on the controls they share and outside a category
      deletion the current component steps as the earlier one does on
      the shared cells ([project]); every step of the earlier one is
      matched by at most two of the current one ([simulate]); the two
      draw the same month; the earlier [handleAddNewCategory] lists a
      name twice where the current one refuses it.
    - styles: no entry and no property of the sheet is written twice,
      so reading it as a list and as an object agree; every style the
      JSX reads is an entry; the entries no element reads are the four of
      the rows of the earlier flat list; only [container] depends on the
      device; the current sheet keeps every entry of the earlier one but
      [label]; a style array is the union of its entries in which the
      later wins; the padding under the list is enough for the add
      button.
    - elements: in both themes and in every state every coloured text
      of a control has a colour other than what it is drawn on; the chip the
      view marks is the one drawn in the highlight colour and the button
      it disables the one drawn dimmed; which properties of the sheet the
      inline styles override.
    - doubles: swapping the operands of a subtraction flips its sign,
      so the groups are sorted on the numbers the program computes with;
      sums of doubles cannot be regrouped, and the totals of the groups
      of a month need not add up to the totals of the month; a printed
      double reads back as the double nearest to the decimal printed,
      and an amount typed with two decimals is shown as typed.

    Theorems with hypotheses are applied to the ledgers and states of
    the examples ([marchLedger], [foodStore], [readyToSave], [afterSave],
    [foodToBills], [deleteFoodOpen], [foodAgain], [saveNotWritten],
    [petsTyped], [twoUnderWay], [expandedFood], [cameBack]) by witnesses
    that end in [Defined].

    ** Bounds, fuel, abstractions

    [normDay] takes [dayFuel d = |d| + 1] steps, enough because every step
    moves the day by at least 28 toward the month; the handlers pass days
    between 0 and 31, for which two steps suffice.  Amounts are abstract:
    the handlers and the view are defined over [JSNumber] and proved for
    every instance; theorems that regroup sums assume [JSNumberLaws],
    which the exact numbers [xnum] satisfy and doubles do not
    ([double_add_not_assoc]), or [JSNumberWhole], which doubles satisfy
    with the bound 2^53: an integer below it has at most 53 binary digits
    and is a double, and so is every partial sum of amounts whose
    absolute values stay below it in all; the sort needs
    [JSNumberCompare], which both satisfy.  The examples of the sessions run on [xnum], those of
    [Double] on doubles.  Doubles are the finite values, zeros, infinities
    and one NaN of [SpecFloat] at precision 53 and exponent bound 1024; a
    decimal literal of any length is rounded once, from the quotient and
    remainder of its integer division.  Dates are local civil
    dates without time zone or daylight saving, so [toISOString] followed
    by [new Date(iso)] is the identity, and [dateISO] is kept as a date.
    The year of a date is any integer: the range of [Date] (the years
    -271821 to 275760, beyond which the code has an Invalid Date) is not
    modelled, and the theorems on dates, on the picker and on the shape
    of the states hold of the code for the years within it.
    The formatting of [toLocaleDateString] is a parameter ([Locale]) with
    the en-US instance for the examples.  [trim] removes ASCII white
    space.  The sort is a stable insertion sort, as the language requires
    stability and leaves the order under an inconsistent comparator open.
    Storage slots hold the value [JSON.parse] reads of the text
    [JSON.stringify] wrote: strings and lists as they were, an amount as
    JSON carries numbers ([num_json]: NaN and the infinities are written
    as [null], which [Number(...)] and [+] read as 0); text that does not
    parse is [Corrupt].  Writes succeed and complete at once in [App];
    [Faults] gives each write its outcome and [Async] the moment it
    completes; the three reads fail together ([readOk]), and no event
    comes before the load completes, as the spinner has no controls.
    The effects of the first render run ([mountEffects]) and find the
    data not loaded.  An alert or a modal takes the presses from what is
    under it: that is how React Native stacks them, and [appStep] takes
    it as given, with the alert over the Delete Category modal over the
    Add Transaction modal over the picker over the screen, the order in
    which they can be opened.
    [toFixed] prints the exact number
    rounded half up at the digit, which is the integer the standard
    chooses; it has no fuel, the digits come from stdpp's [pretty].  The
    long month and year text of [toLocaleString] is a parameter
    ([LocaleLong]) with the en-US instance for the examples.  A session
    is a finite list of events; [dismissals] has at most four.  The
    render is a function of the state and the clock: a record holds the
    texts and flags that depend on the state, and [THEMES] on a key
    other than the two themes is [None], where the code reads
    [undefined] and throws on its first use, or, on a name that
    [Object.prototype] defines such as [constructor], a value all of
    whose colours are [undefined].  The numbers of the sheet
    are its decimal literals as rationals; [Platform.OS] and
    [StatusBar.currentHeight] are the fields of a parameter
    ([Platform]); a style read from the sheet under a name it lacks is
    [None], which a style array skips like [false].  Colours are compared
    as texts, [white] being the text of its six digits.  That a typed
    amount is shown as typed is settled on doubles by evaluation, for
    the ten thousand amounts below 100 ([printsBack_below]); a bound
    that keeps the evaluation short.

    ** Not modelled

    The layout React Native computes from the styles (sizes and
    positions on screen), the fixed labels, and the style arrays of the
    elements that are only shown (titles, labels, the summary card); how
    far two colours are apart; a write that both fails and completes
    late (the two are modelled apart); the JSON text itself, which needs the shortest digits
    [JSON.stringify] prints for a double, and with it a stored text that
    parses to a value of another shape than the one written; the exponent
    form [toFixed] prints from 1e21; the text of [toLocaleString] and
    [toLocaleDateString] for locales other than en-US; gestures and
    animation of the native components. *)

From stdpp Require Export base tactics option list strings numbers sorting.
From Stdlib Require Export Ascii ZArith Lia.

(** This file: notation scope, tactics, hint database, JavaScript idioms on
    strings and arrays, and shared list lemmas. *)

Declare Scope js_scope.
Delimit Scope js_scope with js.

Create HintDb ledger discriminated.
Create Rewrite HintDb ledger_rw.

(** ** Tactics *)

(** Case analysis on every decision in sight, the way a handler branches. *)
Ltac js_cases :=
  repeat first [ case_bool_decide | case_decide | case_match ];
  simplify_eq/=; try done.

(** Unfold the boolean wrappers of decidable propositions in hypotheses. *)
Ltac js_reflect :=
  repeat match goal with
  | H : bool_decide _ = true |- _ => apply bool_decide_eq_true_1 in H
  | H : bool_decide _ = false |- _ => apply bool_decide_eq_false_1 in H
  | H : negb _ = true |- _ => apply negb_true_iff in H
  | H : negb _ = false |- _ => apply negb_false_iff in H
  | H : _ && _ = true |- _ => apply andb_prop in H; destruct H
  end.

(** Settle a decidable proposition by evaluating its decision. *)
Ltac by_computation := apply (bool_decide_unpack _); vm_compute; exact I.

(** ** Bounded search *)

(** Whether a test holds of every number below [n]. *)
Definition allBelow (P : N → bool) (n : N) : bool :=
  (N.iter n (λ s, (N.succ s.1, s.2 && P s.1)) (0%N, true)).2.

(** ** JavaScript idioms *)

(** A string in a condition: the empty string is falsy, any other truthy. *)
Definition truthy (s : string) : bool := bool_decide (s ≠ "").

(** [Array.prototype.includes] with strict equality. *)
Definition includes `{EqDecision A} (x : A) (l : list A) : bool :=
  bool_decide (x ∈ l).

(** [Array.prototype.some]. *)
Definition some {A} (P : A → Prop) `{∀ x, Decision (P x)} (l : list A) : bool :=
  bool_decide (Exists P l).

(** [String.prototype.trim], on the ASCII white space characters. *)
Fixpoint trimStart (s : string) : string :=
  match s with
  | EmptyString => EmptyString
  | String c s' => if Ascii.is_space c then trimStart s' else s
  end.

Definition trimEnd (s : string) : string :=
  String.rev (trimStart (String.rev s)).

Definition trim (s : string) : string := trimEnd (trimStart s).

(** [Array.prototype.sort(cmp)]: a stable sort; [x] goes before [y] when
    [cmp x y] is negative or zero.  Written as an insertion sort, which is
    what every stable sort computes when the comparator is consistent. *)
Fixpoint insertBy {A} (cmp : A → A → Z) (x : A) (l : list A) : list A :=
  match l with
  | [] => [x]
  | y :: l' =>
      if bool_decide (cmp x y ≤ 0)%Z then x :: y :: l'
      else y :: insertBy cmp x l'
  end.

Definition sortBy {A} (cmp : A → A → Z) (l : list A) : list A :=
  foldr (insertBy cmp) [] l.

(** The keys of a list in the order of their first occurrence. *)
Fixpoint firstKeys `{EqDecision K} (l : list K) : list K :=
  match l with
  | [] => []
  | k :: l' => k :: filter (λ k', k' ≠ k) (firstKeys l')
  end.

(** ** Lemmas on the idioms *)

Lemma truthy_true s : truthy s = true ↔ s ≠ "".
Proof. unfold truthy. by rewrite bool_decide_eq_true. Qed.

Lemma truthy_false s : truthy s = false ↔ s = "".
Proof.
  unfold truthy. rewrite bool_decide_eq_false.
  destruct (decide (s = "")); naive_solver.
Qed.

Lemma includes_true `{EqDecision A} (x : A) l : includes x l = true ↔ x ∈ l.
Proof. unfold includes. by rewrite bool_decide_eq_true. Qed.

Lemma includes_false `{EqDecision A} (x : A) l : includes x l = false ↔ x ∉ l.
Proof. unfold includes. by rewrite bool_decide_eq_false. Qed.

Lemma some_true {A} (P : A → Prop) `{∀ x, Decision (P x)} l :
  some P l = true ↔ ∃ x, x ∈ l ∧ P x.
Proof. unfold some. by rewrite bool_decide_eq_true, Exists_exists. Qed.

Lemma some_false {A} (P : A → Prop) `{∀ x, Decision (P x)} l :
  some P l = false ↔ ∀ x, x ∈ l → ¬ P x.
Proof.
  unfold some. rewrite bool_decide_eq_false, <-Forall_Exists_neg, Forall_forall.
  done.
Qed.

#[export] Hint Rewrite truthy_true truthy_false : ledger_rw.
#[export] Hint Rewrite @includes_true @includes_false : ledger_rw.

(** ** Lists: [filter], [fmap], [NoDup] *)

Section list_lemmas.
Context {A B : Type}.
Implicit Types (l : list A) (f : A → B).

(** A filter and its complement split the length. *)
Lemma length_filter_complement (P : A → Prop) `{∀ x, Decision (P x)} l :
  length (filter P l) + length (filter (λ x, ¬ P x) l) = length l.
Proof.
  induction l as [|x l IH]; [done|].
  rewrite !filter_cons. destruct (decide (P x)); js_cases; simpl; lia.
Qed.

(** A filter nothing fails is the identity. *)
Lemma filter_all (P : A → Prop) `{∀ x, Decision (P x)} l :
  Forall P l → filter P l = l.
Proof.
  induction 1 as [|x l Hx _ IH]; [done|].
  by rewrite filter_cons_True, IH.
Qed.

(** A filter nothing passes is empty. *)
Lemma filter_none (P : A → Prop) `{∀ x, Decision (P x)} l :
  Forall (λ x, ¬ P x) l → filter P l = [].
Proof.
  induction 1 as [|x l Hx _ IH]; [done|].
  by rewrite filter_cons_False.
Qed.

(** Filtering keeps the keys of a list distinct. *)
Lemma NoDup_fmap_filter f (P : A → Prop) `{∀ x, Decision (P x)} l :
  NoDup (f <$> l) → NoDup (f <$> filter P l).
Proof.
  intros Hl. eapply sublist_NoDup; [exact Hl|].
  apply fmap_sublist, sublist_filter.
Qed.

(** A map that fixes every element is the identity. *)
Lemma fmap_fixed (g : A → A) l : Forall (λ x, g x = x) l → g <$> l = l.
Proof. induction 1; [done|]. rewrite fmap_cons. congruence. Qed.

(** What holds of every element holds of those a filter keeps. *)
Lemma Forall_filter (Q P : A → Prop) `{∀ x, Decision (P x)} l :
  Forall Q l → Forall Q (filter P l).
Proof.
  rewrite !Forall_forall. intros HQ x [_ Hx]%list_elem_of_filter. auto.
Qed.

(** Filtering a mapped list filters the list by the composed test. *)
Lemma filter_fmap f (P : B → Prop) `{∀ y, Decision (P y)} l :
  filter P (f <$> l) = f <$> filter (λ x, P (f x)) l.
Proof.
  induction l as [|x l IH]; [done|].
  rewrite fmap_cons, !filter_cons. destruct (decide (P (f x))); simpl;
    by rewrite IH.
Qed.

(** Two tests that exclude each other split the elements passing either. *)
Lemma length_filter_or (P Q : A → Prop)
    `{∀ x, Decision (P x), ∀ x, Decision (Q x)} l :
  (∀ x, P x → Q x → False) →
  length (filter (λ x, P x ∨ Q x) l) =
  length (filter P l) + length (filter Q l).
Proof.
  intros Hdisj. induction l as [|x l IH]; [done|].
  rewrite !filter_cons.
  destruct (decide (P x)), (decide (Q x)), (decide (P x ∨ Q x));
    simpl; rewrite ?IH; try lia; naive_solver.
Qed.

(** With distinct keys, exactly one element has a key that occurs. *)
Lemma length_filter_key `{EqDecision B} f (k : B) l :
  NoDup (f <$> l) → k ∈ f <$> l → length (filter (λ x, f x = k) l) = 1.
Proof.
  induction l as [|x l IH]; [by intros _ ?%elem_of_nil|].
  rewrite fmap_cons, NoDup_cons, elem_of_cons, filter_cons.
  intros [Hx Hl] Hk. destruct (decide (f x = k)) as [<-|Hne]; simpl.
  - rewrite filter_none; [done|]. apply Forall_forall. intros y Hy Hfy.
    apply Hx, list_elem_of_fmap. eauto.
  - apply IH; [done|]. by destruct Hk.
Qed.

(** Removing a key that does not occur changes nothing. *)
Lemma filter_key_absent `{EqDecision B} f (k : B) l :
  k ∉ f <$> l → filter (λ x, f x ≠ k) l = l.
Proof.
  intros Hk. apply filter_all, Forall_forall. intros x Hx <-.
  apply Hk, list_elem_of_fmap. eauto.
Qed.

(** The elements of each key, over distinct keys that cover the list, are
    as many as the list has. *)
Lemma length_partition `{EqDecision B} (f : A → B) (ks : list B) : ∀ l,
  NoDup ks → (∀ x, x ∈ l → f x ∈ ks) →
  sum_list ((λ k, length (filter (λ x, f x = k) l)) <$> ks) = length l.
Proof.
  induction ks as [|k ks IH]; intros l Hnd Hks.
  { destruct l as [|x l]; [done|].
    by destruct (proj1 (elem_of_nil (f x))); apply Hks; left. }
  apply NoDup_cons in Hnd as [Hk Hnd]. rewrite fmap_cons. simpl.
  rewrite <-(length_filter_complement (λ x, f x = k) l). f_equal.
  rewrite <-(IH (filter (λ x, f x ≠ k) l)); [|done|].
  - f_equal. apply list_fmap_ext. intros i k' Hk'%list_elem_of_lookup_2.
    rewrite list_filter_filter. f_equal. apply list_filter_iff.
    intros x. split; [intros ->; split; [done|by intros ->]|by intros [? _]].
  - intros x [Hne Hx]%list_elem_of_filter.
    apply Hks, elem_of_cons in Hx as [?|?]; done.
Qed.

End list_lemmas.

#[export] Hint Resolve NoDup_filter NoDup_fmap_filter sublist_filter : ledger.

(** ** Strings: [trim] *)

Lemma trimStart_idemp s : trimStart (trimStart s) = trimStart s.
Proof.
  induction s as [|c s IH]; [done|]. simpl.
  destruct (Ascii.is_space c) eqn:Hc; [done|]. simpl. by rewrite Hc.
Qed.

Lemma trimStart_nonspace c s :
  Ascii.is_space c = false → trimStart (String c s) = String c s.
Proof. intros Hc. simpl. by rewrite Hc. Qed.

Lemma trimStart_head s c s' :
  trimStart s = String c s' → Ascii.is_space c = false.
Proof.
  induction s as [|d s IH]; [done|]. simpl.
  destruct (Ascii.is_space d) eqn:Hd; [done|]. by intros [= <- _].
Qed.

(** ** Sorting *)

Section sorting.
Context {A : Type} (cmp : A → A → Z).
Implicit Types (x y : A) (l : list A).

Lemma insertBy_Permutation x l : insertBy cmp x l ≡ₚ x :: l.
Proof.
  induction l as [|y l IH]; [done|]. simpl. case_bool_decide; [done|].
  by rewrite IH, Permutation_swap.
Qed.

Lemma sortBy_Permutation l : sortBy cmp l ≡ₚ l.
Proof.
  induction l as [|x l IH]; [done|]. simpl.
  by rewrite insertBy_Permutation, IH.
Qed.

Lemma sortBy_length l : length (sortBy cmp l) = length l.
Proof. by rewrite sortBy_Permutation. Qed.

Lemma elem_of_sortBy x l : x ∈ sortBy cmp l ↔ x ∈ l.
Proof. by rewrite sortBy_Permutation. Qed.

Lemma sortBy_nil_iff l : sortBy cmp l = [] ↔ l = [].
Proof.
  split; [|by intros ->]. intros Hs.
  apply Permutation_nil_r. by rewrite <-Hs, sortBy_Permutation.
Qed.

(** The sort is stable: elements that the comparator does not put
    after one another stay in the order they had. *)
Lemma insertBy_filter (P : A → Prop) `{!∀ x, Decision (P x)} x l :
  (∀ y, P x → P y → y ∈ l → (cmp x y ≤ 0)%Z) →
  filter P (insertBy cmp x l) = filter P (x :: l).
Proof.
  induction l as [|y l IH]; intros Hle; [done|]. simpl.
  case_bool_decide as Hc; [done|].
  rewrite (filter_cons _ y), IH, !filter_cons
    by (intros; apply Hle; auto using list_elem_of_further).
  repeat case_decide; try done. destruct Hc. apply Hle; auto using list_elem_of_here.
Qed.

Lemma sortBy_stable (P : A → Prop) `{!∀ x, Decision (P x)} l :
  (∀ x y, P x → P y → (cmp x y ≤ 0)%Z) →
  filter P (sortBy cmp l) = filter P l.
Proof.
  intros Hle. induction l as [|x l IH]; [done|]. simpl.
  rewrite insertBy_filter, !filter_cons, IH by auto. done.
Qed.

(** The order the sort establishes: any relation the comparator decides
    one way or the other. *)
Context (R : relation A).
Context (cmp_le : ∀ x y, (cmp x y ≤ 0)%Z → R x y).
Context (cmp_gt : ∀ x y, (0 < cmp x y)%Z → R y x).

Lemma insertBy_HdRel x y l : R y x → HdRel R y l → HdRel R y (insertBy cmp x l).
Proof.
  intros Hyx Hl. destruct l as [|z l]; simpl; [by constructor|].
  case_bool_decide; constructor; [done|]. by inversion Hl.
Qed.

Lemma insertBy_Sorted x l : Sorted R l → Sorted R (insertBy cmp x l).
Proof.
  induction 1 as [|y l Hl IH Hy]; simpl; [by repeat constructor|].
  case_bool_decide as Hc.
  - constructor; [by constructor|]. constructor. by apply cmp_le.
  - constructor; [done|]. apply insertBy_HdRel; [|done]. apply cmp_gt. lia.
Qed.

Lemma sortBy_Sorted l : Sorted R (sortBy cmp l).
Proof.
  induction l as [|x l IH]; simpl; [constructor|by apply insertBy_Sorted].
Qed.

End sorting.

(** ** First occurrences *)

Section first_keys.
Context `{EqDecision K}.
Implicit Types (k : K) (l : list K).

Lemma elem_of_firstKeys k l : k ∈ firstKeys l ↔ k ∈ l.
Proof.
  induction l as [|k' l IH]; [done|]. simpl.
  rewrite !elem_of_cons, list_elem_of_filter, IH.
  destruct (decide (k = k')); naive_solver.
Qed.

Lemma NoDup_firstKeys l : NoDup (firstKeys l).
Proof.
  induction l as [|k l IH]; simpl; [constructor|].
  apply NoDup_cons. split; [|by apply NoDup_filter].
  by intros [? _]%list_elem_of_filter.
Qed.

(** A key seen before adds nothing; a new key goes to the end. *)
Lemma firstKeys_snoc l k :
  firstKeys (l ++ [k]) = if decide (k ∈ l) then firstKeys l else firstKeys l ++ [k].
Proof.
  induction l as [|k' l IH]; simpl.
  { done. }
  rewrite IH.
  destruct (decide (k ∈ l)) as [Hl|Hl], (decide (k ∈ k' :: l)) as [Hkl|Hkl];
    rewrite elem_of_cons in Hkl; [done|tauto| |].
  - destruct Hkl as [->|]; [|done].
    rewrite filter_app, filter_cons_False by (by intros []).
    by rewrite filter_nil, app_nil_r.
  - rewrite filter_app, filter_cons_True; [done|]. intros ->. tauto.
Qed.

End first_keys.

(** ** Sums of integers *)

(** The sum of the integers [f] gives of the elements of a list. *)
Fixpoint Zsum {A} (f : A → Z) (l : list A) : Z :=
  match l with
  | [] => 0
  | x :: l' => f x + Zsum f l'
  end%Z.

Section zsum.
Context {A : Type}.
#[local] Open Scope Z_scope.
Implicit Types (f g : A → Z) (l : list A).

Lemma Zsum_cons f x l : Zsum f (x :: l) = f x + Zsum f l.
Proof. done. Qed.

Lemma Zsum_app f l1 l2 : Zsum f (l1 ++ l2) = Zsum f l1 + Zsum f l2.
Proof. induction l1 as [|x l1 IH]; simpl; [done|]. rewrite IH. lia. Qed.

Lemma Zsum_fmap {B} (h : B → A) f (l : list B) : Zsum f (h <$> l) = Zsum (f ∘ h) l.
Proof. induction l as [|x l IH]; csimpl; [done|]. by rewrite IH. Qed.

Lemma Zsum_ext f g l : (∀ x, x ∈ l → f x = g x) → Zsum f l = Zsum g l.
Proof.
  induction l as [|x l IH]; intros Hfg; simpl; [done|].
  rewrite Hfg, IH; [done| |left]. intros y Hy. apply Hfg. by right.
Qed.

Lemma Zsum_le f g l : (∀ x, x ∈ l → f x ≤ g x) → Zsum f l ≤ Zsum g l.
Proof.
  induction l as [|x l IH]; intros Hfg; simpl; [done|].
  pose proof (Hfg x ltac:(left)). pose proof (IH ltac:(intros y Hy; apply Hfg; by right)).
  lia.
Qed.

Lemma Zsum_abs f l : Z.abs (Zsum f l) ≤ Zsum (Z.abs ∘ f) l.
Proof. induction l as [|x l IH]; simpl; lia. Qed.

Lemma Zsum_nonneg f l : (∀ x, 0 ≤ f x) → 0 ≤ Zsum f l.
Proof. intros Hf. induction l as [|x l IH]; simpl; [done|]. specialize (Hf x). lia. Qed.

#[export] Instance Zsum_Permutation f : Proper ((≡ₚ) ==> (=)) (Zsum f).
Proof. induction 1; simpl; lia. Qed.

(** A filter and its complement split the sum. *)
Lemma Zsum_filter_complement f (P : A → Prop) `{∀ x, Decision (P x)} l :
  Zsum f (filter P l) + Zsum f (filter (λ x, ¬ P x) l) = Zsum f l.
Proof.
  induction l as [|x l IH]; [done|].
  rewrite !filter_cons. destruct (decide (P x)); js_cases; simpl; lia.
Qed.

Lemma Zsum_filter_le f (P : A → Prop) `{∀ x, Decision (P x)} l :
  (∀ x, 0 ≤ f x) → Zsum f (filter P l) ≤ Zsum f l.
Proof.
  intros Hf. pose proof (Zsum_filter_complement f P l).
  pose proof (Zsum_nonneg f (filter (λ x, ¬ P x) l) Hf). lia.
Qed.

End zsum.

(** The sums over the keys of a partition add up to the sum of the list. *)
Lemma Zsum_partition {A} `{EqDecision B} (f : A → Z) (key : A → B) (ks : list B) : ∀ l,
  NoDup ks → (∀ x, x ∈ l → key x ∈ ks) →
  Zsum (λ k, Zsum f (filter (λ x, key x = k) l)) ks = Zsum f l.
Proof.
  induction ks as [|k ks IH]; intros l Hnd Hks.
  { destruct l as [|x l]; [done|].
    by destruct (proj1 (elem_of_nil (key x))); apply Hks; left. }
  apply NoDup_cons in Hnd as [Hk Hnd]. simpl.
  rewrite <-(Zsum_filter_complement f (λ x, key x = k) l). f_equal.
  rewrite <-(IH (filter (λ x, key x ≠ k) l)); [|done|].
  - apply Zsum_ext. intros k' Hk'.
    rewrite list_filter_filter. f_equal. apply list_filter_iff.
    intros x. split; [intros ->; split; [done|by intros ->]|by intros [? _]].
  - intros x [Hne Hx]%list_elem_of_filter.
    apply Hks, elem_of_cons in Hx as [?|?]; done.
Qed.

(** ** Bounded search *)

Lemma allBelow_iter P n :
  ∃ b, N.iter n (λ s, (N.succ s.1, s.2 && P s.1)) (0%N, true) = (n, b) ∧
       (b = true → ∀ k, (k < n)%N → P k = true).
Proof.
  induction n as [|n (b & Hit & Hb)] using N.peano_ind.
  - exists true. split; [done|]. intros _ k. lia.
  - exists (b && P n). rewrite N.iter_succ, Hit. split; [done|].
    intros [Hb' Hn]%andb_prop k Hk.
    destruct (decide (k = n)) as [->|]; [done|]. apply Hb; [done|lia].
Qed.

(** A search that succeeds has tested every number below its bound. *)
Lemma allBelow_spec P n k : allBelow P n = true → (k < n)%N → P k = true.
Proof.
  unfold allBelow. destruct (allBelow_iter P n) as (b & -> & Hb). simpl.
  intros ->. by apply Hb.
Qed.
