(* ===== verification/JSNumber.v ===== *)
(** Numbers as the program uses them: an interface for the arithmetic on
    amounts ([JSNumber]), the laws under which sums may be regrouped
    ([JSNumberLaws]), the numbers that add whole numbers exactly below a
    bound ([JSNumberWhole]), the [reduce] loop that adds a list, the
    grammar of [parseFloat], and the exact instance [xnum] (rationals with
    NaN and the two infinities) that satisfies the laws. *)

From S2P Require Import Prelude.
From Stdlib Require Import QArith.

(** ** The interface *)

(** What the code does with a number: the literal [0], [a + b], [a - b],
    the sign of a comparator's result as [Array.prototype.sort] reads it
    (negative, zero or positive; NaN counts as zero), the values
    [parseFloat] can produce, and what [JSON.parse] reads of the number
    [JSON.stringify] wrote ([num_json]): the number itself when it is
    finite, and [null] for NaN and the infinities, which every use of an
    amount ([Number(...)], [+]) reads as [0]. *)
Class JSNumber (T : Type) := {
  num_zero : T;
  num_nan : T;
  num_inf : bool → T;
  num_of_decimal : bool → N → Z → T;
  num_add : T → T → T;
  num_sub : T → T → T;
  num_sgn : T → Z;
  num_json : T → T;
}.

(** The laws of exact arithmetic, up to an equivalence on numbers. *)
Class JSNumberLaws (T : Type) `{JSNumber T, Equiv T} := {
  num_equivalence :: Equivalence (≡@{T});
  num_add_proper :: Proper ((≡) ==> (≡) ==> (≡)) (num_add (T:=T));
  num_sgn_proper :: Proper ((≡) ==> (=)) (num_sgn (T:=T));
  num_add_assoc (a b c : T) : num_add a (num_add b c) ≡ num_add (num_add a b) c;
  num_add_comm (a b : T) : num_add a b ≡ num_add b a;
  num_add_0_l (a : T) : num_add num_zero a ≡ a;
}.

(** The one law the sort needs: swapping the operands of a comparison
    flips its sign. *)
Class JSNumberCompare (T : Type) `{JSNumber T} := {
  num_sgn_sub_antisym (a b : T) :
    num_sgn (num_sub a b) = (- num_sgn (num_sub b a))%Z;
}.

(** Numbers that add whole numbers exactly below a bound: the number of an
    integer, the integer of a number that is whole, and the bound. *)
Class JSNumberWhole (T : Type) `{JSNumber T} := {
  num_of_Z : Z → T;
  num_to_Z : T → Z;
  num_whole_bound : Z;
  num_of_Z_0 : num_of_Z 0 = num_zero;
  num_add_of_Z (a b : Z) :
    (Z.abs a < num_whole_bound)%Z → (Z.abs b < num_whole_bound)%Z →
    num_add (num_of_Z a) (num_of_Z b) = num_of_Z (a + b)%Z;
}.

(** ** Adding a list: [reduce((acc, x) => acc + x, 0)] *)

Definition reduce_add `{JSNumber T} (l : list T) : T :=
  fold_left num_add l num_zero.

(** ** [parseFloat] *)

(** The value of a decimal digit character. *)
Definition digit_of (c : ascii) : option N :=
  let n := N_of_ascii c in
  if bool_decide (48 ≤ n ≤ 57)%N then Some (n - 48)%N else None.

(** The longest run of decimal digits at the head of a string: its value
    on top of [acc], how many digits it has on top of [k], and the rest. *)
Fixpoint parse_digits (acc : N) (k : nat) (s : string) : N * nat * string :=
  match s with
  | String c s' =>
      match digit_of c with
      | Some d => parse_digits (acc * 10 + d) (S k) s'
      | None => (acc, k, s)
      end
  | EmptyString => (acc, k, s)
  end.

(** An optional sign: whether it is a minus, and the rest. *)
Definition parse_sign (s : string) : bool * string :=
  match s with
  | String "-" s' => (true, s')
  | String "+" s' => (false, s')
  | _ => (false, s)
  end.

(** An exponent part [e] or [E], optional sign, at least one digit; an
    incomplete exponent is not part of the literal and counts as zero. *)
Definition parse_exponent (s : string) : Z :=
  match s with
  | String c s' =>
      if bool_decide (c = "e"%char ∨ c = "E"%char) then
        let '(neg, s'') := parse_sign s' in
        let '(x, nx, _) := parse_digits 0 0 s'' in
        if bool_decide (nx = 0%nat) then 0%Z
        else if neg then (- Z.of_N x)%Z else Z.of_N x
      else 0%Z
  | EmptyString => 0%Z
  end.

(** An unsigned literal: mantissa and decimal exponent, or nothing. *)
Definition parse_unsigned (s : string) : option (N * Z) :=
  let '(i, ni, r1) := parse_digits 0 0 s in
  match r1 with
  | String "." r1' =>
      let '(m, nf, r2) := parse_digits i 0 r1' in
      if bool_decide (ni = 0 ∧ nf = 0)%nat then None
      else Some (m, (parse_exponent r2 - Z.of_nat nf)%Z)
  | _ =>
      if bool_decide (ni = 0%nat) then None
      else Some (i, parse_exponent r1)
  end.

(** Whether [p] is a prefix of [s]. *)
Fixpoint starts_with (p s : string) : bool :=
  match p, s with
  | EmptyString, _ => true
  | String a p', String b s' => bool_decide (a = b) && starts_with p' s'
  | String _ _, EmptyString => false
  end.

(** [parseFloat(s)]: leading white space is skipped, the longest prefix
    that is a decimal literal is converted, and NaN is returned when there
    is none. *)
Definition parseFloat `{JSNumber T} (s : string) : T :=
  let '(neg, r) := parse_sign (trimStart s) in
  if starts_with "Infinity" r then num_inf neg
  else match parse_unsigned r with
       | Some (m, e) => num_of_decimal neg m e
       | None => num_nan
       end.

(** ** The exact instance *)

(** Rationals, NaN, and the two infinities ([true] is the negative one). *)
Inductive xnum : Type :=
  | XNaN
  | XInf (neg : bool)
  | XFin (q : Q).

#[export] Instance Q_eq_dec : EqDecision Q.
Proof. solve_decision. Defined.

#[export] Instance xnum_eq_dec : EqDecision xnum.
Proof. solve_decision. Defined.

Definition xnum_of_decimal (neg : bool) (m : N) (e : Z) : xnum :=
  let v := if neg then (- Z.of_N m)%Z else Z.of_N m in
  XFin (match e with
        | Z0 => inject_Z v
        | Zpos p => inject_Z (v * 10 ^ Zpos p)
        | Zneg p => Qmake v (10 ^ p)
        end).

Definition xnum_add (a b : xnum) : xnum :=
  match a, b with
  | XNaN, _ | _, XNaN => XNaN
  | XInf s, XInf s' => if bool_decide (s = s') then XInf s else XNaN
  | XInf s, XFin _ | XFin _, XInf s => XInf s
  | XFin p, XFin q => XFin (p + q)
  end.

Definition xnum_neg (a : xnum) : xnum :=
  match a with
  | XNaN => XNaN
  | XInf s => XInf (negb s)
  | XFin q => XFin (- q)
  end.

Definition xnum_sub (a b : xnum) : xnum := xnum_add a (xnum_neg b).

Definition xnum_sgn (a : xnum) : Z :=
  match a with
  | XNaN => 0
  | XInf s => if s then -1 else 1
  | XFin q => Z.sgn (Qnum q)
  end.

(** A finite number is written and read back; NaN and the infinities are
    written as [null]. *)
Definition xnum_json (a : xnum) : xnum :=
  match a with
  | XFin q => XFin q
  | XNaN | XInf _ => XFin 0
  end.

#[export] Instance xnum_number : JSNumber xnum := {
  num_zero := XFin 0;
  num_nan := XNaN;
  num_inf := XInf;
  num_of_decimal := xnum_of_decimal;
  num_add := xnum_add;
  num_sub := xnum_sub;
  num_sgn := xnum_sgn;
  num_json := xnum_json;
}.

(** Two exact numbers are equivalent when they are the same special value
    or equal as rationals. *)
Inductive xnum_equiv : Equiv xnum :=
  | XNaN_equiv : XNaN ≡ XNaN
  | XInf_equiv s : XInf s ≡ XInf s
  | XFin_equiv p q : Qeq p q → XFin p ≡ XFin q.
#[export] Existing Instance xnum_equiv.

(** Equivalence of exact numbers as a boolean, for evaluation. *)
Definition xnum_eqb (a b : xnum) : bool :=
  match a, b with
  | XNaN, XNaN => true
  | XInf s, XInf s' => bool_decide (s = s')
  | XFin p, XFin q => Qeq_bool p q
  | _, _ => false
  end.

(** ** Sums under the laws *)

Section sums.
Context `{JSNumberLaws T}.
Implicit Types (a b : T) (l : list T).

Lemma num_add_0_r a : num_add a num_zero ≡ a.
Proof. by rewrite num_add_comm, num_add_0_l. Qed.

(** The loop started from [a] adds [a] to the loop started from zero. *)
Lemma fold_add_acc l a : fold_left num_add l a ≡ num_add a (reduce_add l).
Proof.
  unfold reduce_add. revert a.
  induction l as [|x l IH] using rev_ind; intros a; simpl.
  - by rewrite num_add_0_r.
  - rewrite !fold_left_app. simpl. by rewrite (IH a), num_add_assoc.
Qed.

Lemma reduce_add_nil : reduce_add (T:=T) [] = num_zero.
Proof. done. Qed.

Lemma reduce_add_cons a l : reduce_add (a :: l) ≡ num_add a (reduce_add l).
Proof.
  unfold reduce_add at 1. simpl. by rewrite fold_add_acc, num_add_0_l.
Qed.

Lemma reduce_add_app l1 l2 :
  reduce_add (l1 ++ l2) ≡ num_add (reduce_add l1) (reduce_add l2).
Proof.
  unfold reduce_add at 1. rewrite fold_left_app. apply fold_add_acc.
Qed.

Lemma reduce_add_snoc l a : reduce_add (l ++ [a]) = num_add (reduce_add l) a.
Proof. unfold reduce_add. by rewrite fold_left_app. Qed.

(** Regrouping four terms, the step every partition argument needs. *)
Lemma num_add_swap_inner a b c d :
  num_add (num_add a b) (num_add c d) ≡ num_add (num_add a c) (num_add b d).
Proof.
  rewrite <-(num_add_assoc a b), <-(num_add_assoc a c).
  apply num_add_proper; [done|].
  rewrite !num_add_assoc. apply num_add_proper; [apply num_add_comm|done].
Qed.

(** Moving the last of three terms one place to the left. *)
Lemma num_add_shuffle a b c :
  num_add (num_add a b) c ≡ num_add (num_add a c) b.
Proof.
  rewrite <-!num_add_assoc. apply num_add_proper; [done|apply num_add_comm].
Qed.

(** Adding [a] to the term of one key in a list of terms with distinct
    keys adds [a] to their sum. *)
Lemma reduce_add_update `{EqDecision K} (f : K → T) (k0 : K) a (ks : list K) :
  NoDup ks → k0 ∈ ks →
  reduce_add ((λ k, if decide (k = k0) then num_add (f k) a else f k) <$> ks)
  ≡ num_add (reduce_add (f <$> ks)) a.
Proof.
  induction 1 as [|k ks Hk Hnd IH]; [by intros ?%elem_of_nil|].
  rewrite !fmap_cons, !reduce_add_cons, elem_of_cons.
  intros Hin. destruct (decide (k = k0)) as [->|Hne].
  - rewrite (list_fmap_ext _ f ks); [apply num_add_shuffle|].
    intros i k Hi. rewrite decide_False; [done|]. intros ->.
    apply Hk. by eapply list_elem_of_lookup_2.
  - rewrite IH by (by destruct Hin). apply num_add_assoc.
Qed.

(** The sum does not depend on the order of the list. *)
#[export] Instance reduce_add_perm : Proper ((≡ₚ) ==> (≡)) (reduce_add (T:=T)).
Proof.
  intros l1 l2 Hp. induction Hp as [|x l1 l2 _ IH|x y l|l1 l2 l3 _ IH1 _ IH2].
  - done.
  - by rewrite !reduce_add_cons, IH.
  - rewrite !reduce_add_cons, !num_add_assoc.
    apply num_add_proper; [apply num_add_comm|done].
  - by rewrite IH1.
Qed.

End sums.

(** ** The exact instance satisfies the laws *)

#[export] Instance xnum_equiv_equivalence : Equivalence (≡@{xnum}).
Proof.
  split.
  - intros [| |q]; constructor. reflexivity.
  - intros a b []; constructor. by symmetry.
  - intros a b c [] Hbc; inversion_clear Hbc; constructor. by etransitivity.
Qed.

Lemma xnum_eqb_equiv a b : xnum_eqb a b = true ↔ a ≡ b.
Proof.
  split.
  - destruct a as [|s|p], b as [|s'|q]; simpl; try done; intros Hab.
    + apply bool_decide_eq_true_1 in Hab as ->. constructor.
    + constructor. by apply Qeq_bool_iff.
  - intros [|s|p q Hpq]; simpl;
      [done|by apply bool_decide_eq_true_2|by apply Qeq_bool_iff].
Qed.

#[export] Instance xnum_equiv_dec : RelDecision (≡@{xnum}).
Proof.
  refine (λ a b, cast_if (decide (xnum_eqb a b = true)));
    by rewrite <-xnum_eqb_equiv.
Defined.

(** Case analysis on exact numbers down to the sign of an infinity. *)
Local Ltac xnum_cases lem :=
  cbn; first [ by constructor | constructor; by apply lem | done ].

#[export] Instance xnum_add_proper :
  Proper ((≡) ==> (≡) ==> (≡)) xnum_add.
Proof.
  intros a a' [|[]|p p' Hp] b b' [|[]|q q' Hq]; xnum_cases Qplus_comp.
Qed.

#[export] Instance xnum_neg_proper : Proper ((≡) ==> (≡)) xnum_neg.
Proof. intros a a' [|[]|p p' Hp]; xnum_cases Qopp_comp. Qed.

#[export] Instance xnum_sgn_proper : Proper ((≡) ==> (=)) xnum_sgn.
Proof.
  intros a a' [|s|p q Hpq]; simpl; [done..|].
  unfold Qeq in Hpq. destruct p as [p1 p2], q as [q1 q2]; simpl in *.
  destruct p1, q1; simpl in *; lia.
Qed.

#[export] Instance xnum_laws : JSNumberLaws xnum.
Proof.
  split; try apply _.
  - intros [|[]|p] [|[]|q] [|[]|r]; xnum_cases Qplus_assoc.
  - intros [|[]|p] [|[]|q]; xnum_cases Qplus_comm.
  - intros [|[]|p]; xnum_cases Qplus_0_l.
Qed.

#[export] Instance xnum_compare : JSNumberCompare xnum.
Proof.
  split. intros [|[]|[p1 p2]] [|[]|[q1 q2]]; cbn; try done.
  rewrite <-Z.sgn_opp. f_equal. lia.
Qed.
