(* ===== verification/Format.v ===== *)
(** [Number.prototype.toFixed] as [formatCurrency] of [src/App.js] uses it:
    an interface for printing a number with a fixed number of decimals
    ([JSNumberFormat]), the instance for the exact numbers [xnum], and the
    round trip with [parseFloat]: a printed amount reads back as the amount
    rounded to the decimals printed. *)

From stdpp Require Import pretty.
From S2P Require Import Prelude JSNumber.
From Stdlib Require Import QArith Qround Lqa.

(** ** The interface *)

(** [x.toFixed(f)]. *)
Class JSNumberFormat (T : Type) := { num_toFixed : nat → T → string }.

(** ** The exact instance *)

(** A run of zeros. *)
Fixpoint zeros (n : nat) : string :=
  match n with O => "" | S n' => String "0" (zeros n') end.

(** [s.padStart(width, "0")]. *)
Definition padStart (width : nat) (s : string) : string :=
  zeros (width - String.length s) +:+ s.

(** The integer [n] for which [n / 10^f - q] is closest to zero, the larger
    one of two. *)
Definition scaled (f : nat) (q : Q) : N :=
  Z.to_N (Qfloor (q * inject_Z (10 ^ Z.of_nat f) + (1 # 2))).

(** The digits of [n] with a point before the last [f] of them, at least
    one digit before the point. *)
Definition pointed (f : nat) (n : N) : string :=
  match f with
  | O => pretty n
  | S _ => pretty (n `div` 10 ^ N.of_nat f)%N +:+ "." +:+
           padStart f (pretty (n `mod` 10 ^ N.of_nat f)%N)
  end.

(** [toFixed] on the exact numbers.  The sign is printed for every number
    below zero, also when the digits are all zero. *)
Definition xnum_toFixed (f : nat) (a : xnum) : string :=
  match a with
  | XNaN => "NaN"
  | XInf neg => if neg then "-Infinity" else "Infinity"
  | XFin q =>
      if Qle_bool 0 q then pointed f (scaled f q)
      else "-" +:+ pointed f (scaled f (- q))
  end.

#[export] Instance xnum_format : JSNumberFormat xnum :=
  {| num_toFixed := xnum_toFixed |}.

(** The number a printed number stands for. *)
Definition rounded (f : nat) (a : xnum) : xnum :=
  match a with
  | XFin q =>
      if Qle_bool 0 q
      then XFin (Z.of_N (scaled f q) # Z.to_pos (10 ^ Z.of_nat f))
      else XFin (- Z.of_N (scaled f (- q)) # Z.to_pos (10 ^ Z.of_nat f))
  | _ => a
  end.

(** ** Digits *)

Lemma digit_of_pretty_N_char d :
  (d < 10)%N → digit_of (pretty_N_char d) = Some d.
Proof.
  intros Hd.
  assert (d = 0 ∨ d = 1 ∨ d = 2 ∨ d = 3 ∨ d = 4 ∨ d = 5 ∨ d = 6 ∨ d = 7 ∨
          d = 8 ∨ d = 9)%N as Hcases by lia.
  by repeat destruct Hcases as [->|Hcases]; subst.
Qed.

Lemma string_app_cons c (s1 s2 : string) :
  String c s1 +:+ s2 = String c (s1 +:+ s2).
Proof. done. Qed.

Lemma string_app_assoc (s1 s2 s3 : string) :
  (s1 +:+ s2) +:+ s3 = s1 +:+ (s2 +:+ s3).
Proof.
  induction s1 as [|c s1 IH]; [done|]. by rewrite !string_app_cons, IH.
Qed.

Lemma string_app_nil_r (s : string) : s +:+ "" = s.
Proof. induction s as [|c s IH]; [done|]. by rewrite string_app_cons, IH. Qed.

Lemma string_length_app (s1 s2 : string) :
  String.length (s1 +:+ s2) = (String.length s1 + String.length s2)%nat.
Proof. induction s1 as [|c s1 IH]; simpl; [done|by rewrite IH]. Qed.

Lemma pretty_N_go_app x : ∀ s, pretty_N_go x s = pretty_N_go x "" +:+ s.
Proof.
  induction (N.lt_wf_0 x) as [x _ IH]; intros s.
  destruct (decide (x = 0%N)) as [->|Hx]; [done|].
  rewrite !(pretty_N_go_step x) by lia.
  rewrite (IH (x `div` 10)%N) by (apply N.div_lt; lia).
  rewrite (IH (x `div` 10)%N ltac:(apply N.div_lt; lia) (String _ "")).
  by rewrite string_app_assoc.
Qed.

(** The digits of [x], most significant first, are read back on top of
    the accumulator; there are as many as [x] needs. *)
Lemma parse_digits_pretty_N_go x : ∀ acc k s,
  ∃ d, parse_digits acc k (pretty_N_go x s) =
         parse_digits (acc * 10 ^ N.of_nat d + x)%N (k + d) s ∧
       String.length (pretty_N_go x "") = d ∧
       (x < 10 ^ N.of_nat d)%N ∧
       ((0 < x)%N → (10 ^ N.of_nat (d - 1) ≤ x)%N ∧ (0 < d)%nat).
Proof.
  induction (N.lt_wf_0 x) as [x _ IH]; intros acc k s.
  destruct (decide (x = 0%N)) as [->|Hx].
  { exists 0%nat. rewrite !pretty_N_go_0, Nat.add_0_r.
    split_and!; [f_equal|done| |]; lia. }
  rewrite !(pretty_N_go_step x) by lia.
  destruct (IH (x `div` 10)%N ltac:(apply N.div_lt; lia) acc k
              (String (pretty_N_char (x `mod` 10)) s))
    as (d & -> & Hlen & Hlt & Hge).
  exists (S d). simpl.
  rewrite digit_of_pretty_N_char by (apply N.mod_lt; lia).
  rewrite pretty_N_go_app, string_length_app, Hlen. simpl.
  rewrite Nat.sub_0_r, Nat2N.inj_succ, N.pow_succ_r'.
  pose proof (N.div_mod x 10). pose proof (N.mod_lt x 10).
  split_and!; [f_equal; lia|lia|lia|intros _].
  destruct (decide (x `div` 10 = 0)%N) as [Hz|Hnz].
  - rewrite Hz in Hlen. destruct d; [simpl; lia|done].
  - destruct Hge as [Hge Hd]; [lia|]. destruct d as [|d]; [lia|].
    simpl in Hge. rewrite Nat.sub_0_r in Hge.
    rewrite Nat2N.inj_succ, N.pow_succ_r'. split; [|lia].
    pose proof (N.Div0.mul_div_le x 10) as Hm.
    etrans; [|exact Hm]. by apply N.mul_le_mono_l.
Qed.

(** The same for the digits as printed, where zero prints one digit. *)
Lemma parse_digits_pretty (x : N) acc k s :
  ∃ d, parse_digits acc k (pretty x +:+ s) =
         parse_digits (acc * 10 ^ N.of_nat d + x)%N (k + d) s ∧
       String.length (pretty x) = d ∧ (0 < d)%nat ∧
       ∀ f, (0 < f)%nat → (x < 10 ^ N.of_nat f)%N → (d ≤ f)%nat.
Proof.
  unfold pretty, pretty_N. case_decide as Hx.
  { subst. exists 1%nat. rewrite string_app_cons. simpl.
    split_and!; [f_equal; lia|done|lia|lia]. }
  rewrite <-pretty_N_go_app.
  destruct (parse_digits_pretty_N_go x acc k s) as (d & -> & Hlen & Hlt & Hge).
  destruct Hge as [Hge Hd]; [lia|].
  exists d. split_and!; [done..|]. intros f Hf Hxf.
  destruct (decide (d ≤ f)%nat) as [|Hgt]; [done|].
  assert (10 ^ N.of_nat f ≤ 10 ^ N.of_nat (d - 1))%N
    by (apply N.pow_le_mono_r; lia). lia.
Qed.

Lemma parse_digits_zeros z : ∀ acc k s,
  parse_digits acc k (zeros z +:+ s) =
  parse_digits (acc * 10 ^ N.of_nat z)%N (k + z) s.
Proof.
  induction z as [|z IH]; intros acc k s.
  - simpl. rewrite Nat.add_0_r. f_equal. lia.
  - simpl zeros. rewrite string_app_cons. simpl. rewrite IH.
    f_equal; [|lia]. rewrite Nat2N.inj_succ, N.pow_succ_r'. lia.
Qed.

(** The decimals, padded to their width, are read back as they are. *)
Lemma parse_digits_padStart f (b : N) acc :
  (0 < f)%nat → (b < 10 ^ N.of_nat f)%N →
  parse_digits acc 0 (padStart f (pretty b)) =
    ((acc * 10 ^ N.of_nat f + b)%N, f, "").
Proof.
  intros Hf Hb. unfold padStart. rewrite parse_digits_zeros.
  destruct (parse_digits_pretty b 0 0 "") as (d & _ & Hlen & Hd & Hle).
  rewrite Hlen. specialize (Hle f Hf Hb).
  rewrite <-(string_app_nil_r (pretty b)).
  destruct (parse_digits_pretty b (acc * 10 ^ N.of_nat (f - d)) (0 + (f - d)) "")
    as (d' & -> & Hlen' & _). simpl. assert (d' = d) as -> by congruence.
  replace (f - d + d)%nat with f by lia. do 2 f_equal.
  rewrite <-N.mul_assoc, <-N.pow_add_r. do 3 f_equal. lia.
Qed.

Lemma parse_digits_point acc k s :
  parse_digits acc k ("." +:+ s) = (acc, k, String "." s).
Proof. done. Qed.

(** What is printed is a decimal literal of [f] decimals. *)
Lemma parse_unsigned_pointed f n :
  parse_unsigned (pointed f n) = Some (n, (- Z.of_nat f)%Z).
Proof.
  unfold parse_unsigned, pointed. destruct f as [|f].
  - rewrite <-(string_app_nil_r (pretty n)).
    destruct (parse_digits_pretty n 0 0 "") as (d & -> & _ & Hd & _). simpl.
    rewrite bool_decide_false by lia. done.
  - destruct (parse_digits_pretty (n `div` 10 ^ N.of_nat (S f)) 0 0
                ("." +:+ padStart (S f) (pretty (n `mod` 10 ^ N.of_nat (S f))%N)))
      as (d & -> & _ & Hd & _).
    rewrite parse_digits_point, parse_digits_padStart
      by (try apply N.mod_lt; try apply N.pow_nonzero; lia).
    rewrite bool_decide_false by lia. simpl parse_exponent.
    pose proof (N.div_mod n (10 ^ N.of_nat (S f))). do 2 f_equal; lia.
Qed.

(** ** A printed number starts with a digit *)

Definition digit_led (s : string) : Prop :=
  ∃ c r d, s = String c r ∧ digit_of c = Some d.

Lemma pretty_N_go_digit_led x : ∀ s, (0 < x)%N → digit_led (pretty_N_go x s).
Proof.
  induction (N.lt_wf_0 x) as [x _ IH]; intros s Hx.
  rewrite pretty_N_go_step by done.
  destruct (decide (x `div` 10 = 0)%N) as [->|Hnz].
  - rewrite pretty_N_go_0. eexists _, _, _. split; [done|].
    by apply digit_of_pretty_N_char, N.mod_lt.
  - apply IH; [apply N.div_lt; lia|by apply N.neq_0_lt_0].
Qed.

Lemma pretty_digit_led (x : N) s : digit_led (pretty x +:+ s).
Proof.
  unfold pretty, pretty_N. case_decide; [by eexists _, _, 0%N|].
  rewrite <-pretty_N_go_app. apply pretty_N_go_digit_led. lia.
Qed.

Lemma pointed_digit_led f n : digit_led (pointed f n).
Proof.
  destruct f; simpl; [|apply pretty_digit_led].
  rewrite <-(string_app_nil_r (pretty n)). apply pretty_digit_led.
Qed.

(** A string that starts with a digit has no white space to skip, no
    sign, and is not [Infinity]. *)
Lemma digit_led_head s :
  digit_led s →
  trimStart s = s ∧ parse_sign s = (false, s) ∧ starts_with "Infinity" s = false.
Proof.
  intros (c & r & d & -> & Hd).
  destruct c as [[] [] [] [] [] [] [] []]; by vm_compute in Hd.
Qed.

(** [parseFloat] reads a printed number, with or without its sign. *)
Lemma parseFloat_pointed `{JSNumber T} (neg : bool) f n :
  parseFloat (T:=T) (if neg then "-" +:+ pointed f n else pointed f n) =
  num_of_decimal neg n (- Z.of_nat f).
Proof.
  destruct (digit_led_head _ (pointed_digit_led f n)) as (Ht & Hs & Hi).
  unfold parseFloat. destruct neg.
  - rewrite string_app_cons, trimStart_nonspace by done.
    cbv [parse_sign]. change ("" +:+ ?s) with s.
    by rewrite Hi, parse_unsigned_pointed.
  - by rewrite Ht, Hs, Hi, parse_unsigned_pointed.
Qed.

(** ** The round trip *)

(** The value of a literal with [f] decimals. *)
Lemma xnum_of_decimal_neg_exp (neg : bool) (m : N) (f : nat) :
  xnum_of_decimal neg m (- Z.of_nat f) =
  XFin ((if neg then - Z.of_N m else Z.of_N m)%Z # Z.to_pos (10 ^ Z.of_nat f)).
Proof.
  unfold xnum_of_decimal. destruct f as [|f]; [done|]. simpl.
  change (Z.of_nat (S f)) with (Z.pos (Pos.of_succ_nat f)).
  by rewrite <-Pos2Z.inj_pow.
Qed.

(** A number printed with [f] decimals reads back as the number rounded to
    [f] decimals; NaN and the infinities read back as themselves. *)
Theorem toFixed_parseFloat f (a : xnum) :
  parseFloat (num_toFixed f a) ≡ rounded f a.
Proof.
  destruct a as [|[]|q]; simpl; [done..|]. unfold xnum_toFixed.
  destruct (Qle_bool 0 q).
  - by rewrite (parseFloat_pointed false), xnum_of_decimal_neg_exp.
  - by rewrite (parseFloat_pointed true), xnum_of_decimal_neg_exp.
Qed.

(** ** Rounding *)

(** The integer printed is within a half of the number scaled, the half
    going up. *)
Theorem scaled_bounds f (q : Q) :
  0 <= q →
  inject_Z (Z.of_N (scaled f q)) - (1 # 2) <= q * inject_Z (10 ^ Z.of_nat f) ∧
  q * inject_Z (10 ^ Z.of_nat f) < inject_Z (Z.of_N (scaled f q)) + (1 # 2).
Proof.
  intros Hq. unfold scaled.
  set (y := q * inject_Z (10 ^ Z.of_nat f)).
  assert (0 <= y) as Hy.
  { apply Qmult_le_0_compat; [done|].
    change 0 with (inject_Z 0). rewrite <-Zle_Qle. lia. }
  assert (0 ≤ Qfloor (y + (1 # 2)))%Z as Hn.
  { apply (Qfloor_resp_le (inject_Z 0)). change (inject_Z 0) with 0.
    clearbody y. lra. }
  rewrite Z2N.id by done.
  pose proof (Qfloor_le (y + (1 # 2))). pose proof (Qlt_floor (y + (1 # 2))) as Hlt.
  rewrite inject_Z_plus in Hlt. change (inject_Z 1) with 1 in Hlt.
  clearbody y. set (n := inject_Z _) in *. clearbody n. split; lra.
Qed.

(** ** Amounts as the screen prints them *)

Example toFixed_examples :
  num_toFixed 2 (parseFloat (T:=xnum) "12.5") = "12.50" ∧
  num_toFixed 2 (parseFloat (T:=xnum) "0.005") = "0.01" ∧
  num_toFixed 2 (parseFloat (T:=xnum) "1000") = "1000.00" ∧
  num_toFixed 2 (parseFloat (T:=xnum) "-5") = "-5.00" ∧
  num_toFixed 2 (parseFloat (T:=xnum) "-0.001") = "-0.00" ∧
  num_toFixed 2 (parseFloat (T:=xnum) "abc") = "NaN".
Proof. by vm_compute. Qed.
