(* ===== verification/JSDate.v ===== *)
(** The part of JavaScript's [Date] that [src/App.js] uses, on local civil
    time: the getters, [setDate], [setMonth], the constructor
    [new Date(y, m, d)], and on top of them the helpers [isSameMonth] and
    [isFutureMonth], the rollover rule of [handleAddTransaction], and the
    month navigation of [changeMonth] and [selectMonthYear]. *)

From S2P Require Import Prelude.

#[local] Open Scope Z_scope.

(** ** Civil dates *)

(** A date object: year, month index (0 is January), day of the month, and
    the milliseconds elapsed in the day.  The getters are the projections.
    The year is any integer: the range of a [Date], 100 million days either
    side of 1970 (the years -271821 to 275760), beyond which the code has
    an Invalid Date, is not modelled, and what is proved of a date holds
    of the code for the years within it. *)
Record JSDate : Type := mkDate {
  getFullYear : Z;
  getMonth : Z;
  getDate : Z;
  timeOfDay : Z;
}.

#[export] Instance JSDate_eq_dec : EqDecision JSDate.
Proof. solve_decision. Defined.

Definition isLeapYear (y : Z) : bool :=
  ((y mod 4 =? 0) && negb (y mod 100 =? 0)) || (y mod 400 =? 0).

Definition daysInMonth (y m : Z) : Z :=
  match m with
  | 1 => if isLeapYear y then 29 else 28
  | 3 | 5 | 8 | 10 => 30
  | _ => 31
  end.

Definition nextMonth (y m : Z) : Z * Z :=
  if m =? 11 then (y + 1, 0) else (y, m + 1).

Definition prevMonth (y m : Z) : Z * Z :=
  if m =? 0 then (y - 1, 11) else (y, m - 1).

(** A date every field of which is in range. *)
Definition validDate (d : JSDate) : Prop :=
  0 ≤ getMonth d ≤ 11 ∧ 1 ≤ getDate d ≤ daysInMonth (getFullYear d) (getMonth d).

#[export] Instance validDate_dec d : Decision (validDate d).
Proof. unfold validDate. apply _. Defined.

(** ** Normalisation (ECMAScript MakeDay) *)

(** A month index outside 0..11 carries into the year. *)
Definition normMonth (y m : Z) : Z * Z := (y + m / 12, m mod 12).

(** A day outside the month carries into the neighbouring months, one month
    per step. *)
Fixpoint normDay (fuel : nat) (y m d : Z) : Z * Z * Z :=
  match fuel with
  | O => (y, m, d)
  | S fuel' =>
      if d <? 1 then
        let '(y', m') := prevMonth y m in
        normDay fuel' y' m' (d + daysInMonth y' m')
      else if daysInMonth y m <? d then
        let '(y', m') := nextMonth y m in
        normDay fuel' y' m' (d - daysInMonth y m)
      else (y, m, d)
  end.

(** Steps that suffice for a day [d]: every step moves it by 28 or more. *)
Definition dayFuel (d : Z) : nat := S (Z.to_nat (Z.abs d)).

(** The date with the given fields after normalisation. *)
Definition makeDate (y m d t : Z) : JSDate :=
  let '(y1, m1) := normMonth y m in
  let '(y2, m2, d2) := normDay (dayFuel d) y1 m1 d in
  mkDate y2 m2 d2 t.

(** [date.setDate(n)]. *)
Definition setDate (date : JSDate) (n : Z) : JSDate :=
  makeDate (getFullYear date) (getMonth date) n (timeOfDay date).

(** [date.setMonth(m)]: the day of the month is kept and may overflow. *)
Definition setMonth (date : JSDate) (m : Z) : JSDate :=
  makeDate (getFullYear date) m (getDate date) (timeOfDay date).

(** [new Date(y, m, d)]: local midnight; a year 0..99 means 1900 + year. *)
Definition newDate (y m d : Z) : JSDate :=
  makeDate (if bool_decide (0 ≤ y ≤ 99) then 1900 + y else y) m d 0.

(** [a > b] on dates compares the instants. *)
Definition dateGt (a b : JSDate) : bool :=
  bool_decide (
    getFullYear b < getFullYear a ∨
    (getFullYear b = getFullYear a ∧
     (getMonth b < getMonth a ∨
      (getMonth b = getMonth a ∧
       (getDate b < getDate a ∨
        (getDate b = getDate a ∧ timeOfDay b < timeOfDay a)))))).

(** ** The helpers of [App] *)

(** [isSameMonth(d1, d2)]. *)
Definition isSameMonth (d1 d2 : JSDate) : bool :=
  bool_decide (getMonth d1 = getMonth d2) &&
  bool_decide (getFullYear d1 = getFullYear d2).

(** [isFutureMonth(date)], with the clock reading [now]. *)
Definition isFutureMonth (now date : JSDate) : bool :=
  let viewed := newDate (getFullYear date) (getMonth date) 1 in
  let current := newDate (getFullYear now) (getMonth now) 1 in
  dateGt viewed current.

(** The date [handleAddTransaction] gives a new transaction: today's day of
    the month in the reference month, moved back to the last day of the
    reference month when that month is too short. *)
Definition transactionDate (now currentDate : JSDate) : JSDate :=
  let td := setDate currentDate (getDate now) in
  if bool_decide (getMonth td ≠ getMonth currentDate) then setDate td 0 else td.

(** [changeMonth(direction)]. *)
Definition changeMonth (direction : Z) (currentDate : JSDate) : JSDate :=
  setMonth currentDate (getMonth currentDate + direction).

(** [selectMonthYear(monthIndex)] with the picker's year. *)
Definition selectMonthYear (pickerYear monthIndex : Z) : JSDate :=
  newDate pickerYear monthIndex 1.

(** The month that follows or precedes by [k] months. *)
Definition addMonths (k : Z) (y m : Z) : Z * Z := normMonth y (m + k).

(** ** Days in a month *)

Lemma daysInMonth_bounds y m : 28 ≤ daysInMonth y m ≤ 31.
Proof.
  unfold daysInMonth. repeat case_match; lia.
Qed.

(** Bring the bounds of every month length in the goal into the context. *)
Ltac days_bounds :=
  repeat match goal with
  | |- context [daysInMonth ?y ?m] =>
      lazymatch goal with
      | _ : 28 ≤ daysInMonth y m ≤ 31 |- _ => fail
      | _ => pose proof (daysInMonth_bounds y m)
      end
  end.

Lemma nextMonth_range y m :
  0 ≤ m ≤ 11 → 0 ≤ (nextMonth y m).2 ≤ 11.
Proof. unfold nextMonth. intros. case_match; simpl; lia. Qed.

Lemma prevMonth_range y m :
  0 ≤ m ≤ 11 → 0 ≤ (prevMonth y m).2 ≤ 11.
Proof. unfold prevMonth. intros. case_match; simpl; lia. Qed.

Lemma prevMonth_nextMonth y m :
  0 ≤ m ≤ 11 →
  prevMonth (nextMonth y m).1 (nextMonth y m).2 = (y, m).
Proof.
  unfold nextMonth, prevMonth. intros.
  destruct (Z.eqb_spec m 11); simpl.
  - f_equal; lia.
  - destruct (Z.eqb_spec (m + 1) 0); [lia|]. f_equal; lia.
Qed.

Lemma nextMonth_prevMonth y m :
  0 ≤ m ≤ 11 →
  nextMonth (prevMonth y m).1 (prevMonth y m).2 = (y, m).
Proof.
  unfold nextMonth, prevMonth. intros.
  destruct (Z.eqb_spec m 0); simpl.
  - f_equal; lia.
  - destruct (Z.eqb_spec (m - 1) 11); [lia|]. f_equal; lia.
Qed.

Lemma nextMonth_ne y m : 0 ≤ m ≤ 11 → (nextMonth y m).2 ≠ m.
Proof. unfold nextMonth. intros. case_match; simpl; lia. Qed.

Lemma normMonth_range y m : 0 ≤ (normMonth y m).2 ≤ 11.
Proof. unfold normMonth. simpl. pose proof (Z.mod_pos_bound m 12). lia. Qed.

Lemma normMonth_id y m : 0 ≤ m ≤ 11 → normMonth y m = (y, m).
Proof.
  intros. unfold normMonth.
  rewrite Z.div_small, Z.mod_small by lia. f_equal. lia.
Qed.

(** ** One step of the normalisation *)

Lemma normDay_fixed fuel y m d :
  1 ≤ d ≤ daysInMonth y m → normDay fuel y m d = (y, m, d).
Proof.
  intros Hd. destruct fuel as [|fuel]; [done|]. simpl.
  destruct (Z.ltb_spec d 1); [lia|].
  destruct (Z.ltb_spec (daysInMonth y m) d); [lia|done].
Qed.

Lemma normDay_over fuel y m d :
  daysInMonth y m < d →
  normDay (S fuel) y m d =
  normDay fuel (nextMonth y m).1 (nextMonth y m).2 (d - daysInMonth y m).
Proof.
  intros Hd. simpl. pose proof (daysInMonth_bounds y m).
  destruct (Z.ltb_spec d 1); [lia|].
  destruct (Z.ltb_spec (daysInMonth y m) d); [|lia].
  by destruct (nextMonth y m).
Qed.

Lemma normDay_under fuel y m d :
  d < 1 →
  normDay (S fuel) y m d =
  normDay fuel (prevMonth y m).1 (prevMonth y m).2
    (d + daysInMonth (prevMonth y m).1 (prevMonth y m).2).
Proof.
  intros Hd. simpl.
  destruct (Z.ltb_spec d 1); [|lia].
  by destruct (prevMonth y m).
Qed.

(** ** Normalisation ends in a valid date *)

(** How far a day is from its month: zero exactly when it is in range. *)
Definition dayExcess (y m d : Z) : Z :=
  if d <? 1 then 1 - d
  else if daysInMonth y m <? d then d - daysInMonth y m
  else 0.

(** The three positions of a day: before, after, or within its month. *)
Local Ltac day_cases y m d :=
  pose proof (daysInMonth_bounds y m);
  destruct (Z.ltb_spec d 1);
  [|destruct (Z.ltb_spec (daysInMonth y m) d)].

Lemma dayExcess_abs y m d : dayExcess y m d ≤ Z.abs d + 1.
Proof. unfold dayExcess. day_cases y m d; lia. Qed.

Lemma dayExcess_under y m d :
  d < 1 →
  dayExcess (prevMonth y m).1 (prevMonth y m).2
    (d + daysInMonth (prevMonth y m).1 (prevMonth y m).2)
  ≤ Z.max 0 (dayExcess y m d - 28).
Proof.
  intros. unfold dayExcess at 2. day_cases y m d; [|lia..].
  unfold dayExcess.
  day_cases (prevMonth y m).1 (prevMonth y m).2
    (d + daysInMonth (prevMonth y m).1 (prevMonth y m).2); lia.
Qed.

Lemma dayExcess_over y m d :
  daysInMonth y m < d →
  dayExcess (nextMonth y m).1 (nextMonth y m).2 (d - daysInMonth y m)
  ≤ Z.max 0 (dayExcess y m d - 28).
Proof.
  intros. unfold dayExcess at 2. day_cases y m d; [lia| |lia].
  unfold dayExcess.
  day_cases (nextMonth y m).1 (nextMonth y m).2 (d - daysInMonth y m); lia.
Qed.

Lemma dayExcess_0 y m d :
  dayExcess y m d ≤ 0 → 1 ≤ d ≤ daysInMonth y m.
Proof. unfold dayExcess. day_cases y m d; lia. Qed.

Lemma normDay_valid fuel : ∀ y m d,
  0 ≤ m ≤ 11 → dayExcess y m d ≤ 28 * Z.of_nat fuel →
  validDate (let '(y', m', d') := normDay fuel y m d in mkDate y' m' d' 0).
Proof.
  induction fuel as [|fuel IH]; intros y m d Hm Hx.
  { assert (1 ≤ d ≤ daysInMonth y m) by (apply dayExcess_0; lia).
    by rewrite normDay_fixed. }
  day_cases y m d.
  - rewrite normDay_under by done. pose proof (dayExcess_under y m d).
    apply IH; [by apply prevMonth_range|lia].
  - rewrite normDay_over by done. pose proof (dayExcess_over y m d).
    apply IH; [by apply nextMonth_range|lia].
  - by rewrite normDay_fixed.
Qed.

(** Whatever the year, the month index and the day, the fuel [dayFuel] lets
    the normalisation finish. *)
Lemma makeDate_valid y m d t : validDate (makeDate y m d t).
Proof.
  unfold makeDate. pose proof (normMonth_range y m) as Hm.
  destruct (normMonth y m) as [y1 m1]; simpl in Hm.
  pose proof (normDay_valid (dayFuel d) y1 m1 d Hm) as Hv.
  destruct (normDay (dayFuel d) y1 m1 d) as [[y2 m2] d2].
  apply Hv. pose proof (dayExcess_abs y1 m1 d). unfold dayFuel. lia.
Qed.

Lemma setDate_valid date n : validDate (setDate date n).
Proof. apply makeDate_valid. Qed.

Lemma setMonth_valid date m : validDate (setMonth date m).
Proof. apply makeDate_valid. Qed.

Lemma newDate_valid y m d : validDate (newDate y m d).
Proof. apply makeDate_valid. Qed.

#[export] Hint Resolve makeDate_valid setDate_valid setMonth_valid newDate_valid : ledger.

(** ** [makeDate] on the days the program passes *)

(** A day within the month is kept. *)
Lemma makeDate_fixed y m d t :
  1 ≤ d ≤ daysInMonth (normMonth y m).1 (normMonth y m).2 →
  makeDate y m d t = mkDate (normMonth y m).1 (normMonth y m).2 d t.
Proof.
  intros Hd. unfold makeDate. destruct (normMonth y m) as [y1 m1].
  by rewrite normDay_fixed.
Qed.

(** A day up to 28 past the end of the month lands in the next month. *)
Lemma makeDate_over y m d t :
  let ym := normMonth y m in
  daysInMonth ym.1 ym.2 < d ≤ daysInMonth ym.1 ym.2 + 28 →
  makeDate y m d t =
  mkDate (nextMonth ym.1 ym.2).1 (nextMonth ym.1 ym.2).2
         (d - daysInMonth ym.1 ym.2) t.
Proof.
  intros ym Hd. unfold makeDate, dayFuel. fold ym.
  destruct ym as [y1 m1]; simpl fst in *; simpl snd in *.
  rewrite normDay_over, normDay_fixed; [done| |lia].
  pose proof (daysInMonth_bounds (nextMonth y1 m1).1 (nextMonth y1 m1).2). lia.
Qed.

(** Day zero is the last day of the previous month. *)
Lemma makeDate_zero y m t :
  let ym := normMonth y m in
  let pm := prevMonth ym.1 ym.2 in
  makeDate y m 0 t = mkDate pm.1 pm.2 (daysInMonth pm.1 pm.2) t.
Proof.
  intros ym pm. unfold makeDate. fold ym. change (dayFuel 0) with 1%nat.
  destruct ym as [y1 m1]; simpl fst in *; simpl snd in *.
  rewrite normDay_under, normDay_fixed; [done| |lia].
  fold pm. pose proof (daysInMonth_bounds pm.1 pm.2). lia.
Qed.

(** ** Comparison and month tests *)

Lemma isSameMonth_true d1 d2 :
  isSameMonth d1 d2 = true ↔
  getMonth d1 = getMonth d2 ∧ getFullYear d1 = getFullYear d2.
Proof.
  unfold isSameMonth. by rewrite andb_true_iff, !bool_decide_eq_true.
Qed.

Lemma isSameMonth_false d1 d2 :
  isSameMonth d1 d2 = false ↔
  ¬ (getMonth d1 = getMonth d2 ∧ getFullYear d1 = getFullYear d2).
Proof. by rewrite <-isSameMonth_true, not_true_iff_false. Qed.

#[export] Instance isSameMonth_equivalence :
  Equivalence (λ d1 d2, isSameMonth d1 d2 = true).
Proof.
  split; hnf; intros *; rewrite !isSameMonth_true; intuition congruence.
Qed.

Lemma dateGt_irrefl a : dateGt a a = false.
Proof. unfold dateGt. apply bool_decide_eq_false. lia. Qed.

Lemma dateGt_trans a b c :
  dateGt a b = true → dateGt b c = true → dateGt a c = true.
Proof. unfold dateGt. rewrite !bool_decide_eq_true. lia. Qed.

Lemma dateGt_asym a b : dateGt a b = true → dateGt b a = false.
Proof.
  unfold dateGt. rewrite bool_decide_eq_true, bool_decide_eq_false. lia.
Qed.

(** The first day of a month whose index is in range. *)
Lemma newDate_first y m :
  ¬ (0 ≤ y ≤ 99) → 0 ≤ m ≤ 11 → newDate y m 1 = mkDate y m 1 0.
Proof.
  intros Hy Hm. unfold newDate. rewrite bool_decide_eq_false_2 by done.
  rewrite makeDate_fixed; rewrite normMonth_id by done; simpl; [done|].
  pose proof (daysInMonth_bounds y m). lia.
Qed.

(** ** The rollover rule *)

(** The date computed, in closed form. *)
Lemma transactionDate_eq now currentDate :
  validDate currentDate → 1 ≤ getDate now ≤ 31 →
  transactionDate now currentDate =
  mkDate (getFullYear currentDate) (getMonth currentDate)
    (Z.min (getDate now)
       (daysInMonth (getFullYear currentDate) (getMonth currentDate)))
    (timeOfDay currentDate).
Proof.
  destruct currentDate as [y m d t]. intros [Hm _] Hn; simpl in *.
  pose proof (daysInMonth_bounds y m). unfold transactionDate, setDate; simpl.
  destruct (decide (getDate now ≤ daysInMonth y m)).
  - rewrite makeDate_fixed; rewrite normMonth_id by done; simpl; [|lia].
    rewrite bool_decide_eq_false_2 by (by intros []). f_equal. lia.
  - rewrite makeDate_over; rewrite normMonth_id by done; simpl; [|lia].
    rewrite bool_decide_eq_true_2 by by apply nextMonth_ne.
    pose proof (nextMonth_range y m Hm).
    rewrite makeDate_zero, normMonth_id by done. simpl.
    rewrite prevMonth_nextMonth by done. simpl. f_equal. lia.
Qed.

(** C2: for a valid reference date and a clock whose day of the month is
    1..31, the date [handleAddTransaction] computes lies in the reference
    month and year, on today's day of the month when the reference month
    has that day and on its last day otherwise; it is a valid date, and the
    time of day is the reference date's. *)
Theorem transactionDate_rollover now currentDate :
  validDate currentDate → 1 ≤ getDate now ≤ 31 →
  let date := transactionDate now currentDate in
  let last := daysInMonth (getFullYear currentDate) (getMonth currentDate) in
  isSameMonth date currentDate = true ∧ validDate date ∧
  getDate date = (if bool_decide (getDate now ≤ last) then getDate now else last) ∧
  timeOfDay date = timeOfDay currentDate.
Proof.
  intros Hv Hn date last. subst date. rewrite transactionDate_eq by done.
  destruct Hv as [Hm _]. pose proof (daysInMonth_bounds
    (getFullYear currentDate) (getMonth currentDate)) as Hb. fold last in Hb |- *.
  split_and!; [by apply isSameMonth_true|split; simpl; lia| |done].
  simpl. case_bool_decide; lia.
Qed.

(** On the 31st with February 2025 as the reference month the date is
    February 28th. *)
Lemma transactionDate_rollover_witness :
  let date := transactionDate (mkDate 2025 11 31 0) (mkDate 2025 1 10 7) in
  isSameMonth date (mkDate 2025 1 10 7) = true ∧ validDate date ∧
  getDate date = 28 ∧ timeOfDay date = 7.
Proof.
  exact (transactionDate_rollover (mkDate 2025 11 31 0) (mkDate 2025 1 10 7)
           ltac:(by vm_compute) ltac:(by vm_compute)).
Defined.

(** ** Month navigation *)

(** Every date the handlers store is a valid civil date, whatever
    the clock, the reference date, the direction and the picker's year and
    month: the normalisation always finishes within its fuel. *)
Lemma handler_dates_valid now currentDate direction pickerYear monthIndex :
  validDate (transactionDate now currentDate) ∧
  validDate (changeMonth direction currentDate) ∧
  validDate (selectMonthYear pickerYear monthIndex).
Proof.
  unfold transactionDate, changeMonth, selectMonthYear.
  case_bool_decide; auto with ledger.
Qed.

(** While the reference day is at most the 28th, [changeMonth] moves by
    exactly [direction] months, across year boundaries, and keeps the day
    and the time of day. *)
Lemma changeMonth_exact direction currentDate :
  validDate currentDate → getDate currentDate ≤ 28 →
  changeMonth direction currentDate =
  let ym := addMonths direction (getFullYear currentDate) (getMonth currentDate) in
  mkDate ym.1 ym.2 (getDate currentDate) (timeOfDay currentDate).
Proof.
  destruct currentDate as [y m d t]. intros [_ Hd] Hd'; simpl in *.
  unfold changeMonth, setMonth, addMonths; simpl.
  rewrite makeDate_fixed; [done|]. days_bounds. lia.
Qed.

Lemma changeMonth_exact_witness :
  validDate (mkDate 2025 11 15 0) ∧ getDate (mkDate 2025 11 15 0) ≤ 28 ∧
  changeMonth 1 (mkDate 2025 11 15 0) = mkDate 2026 0 15 0.
Proof.
  split; [by vm_compute|]. split; [by vm_compute|].
  exact (changeMonth_exact 1 (mkDate 2025 11 15 0)
           ltac:(by vm_compute) ltac:(by vm_compute)).
Defined.

(** C38: when the reference day does not exist in the month [changeMonth]
    aims at, the result is in the month after it: the arrow skips a month
    going forward and stays in place going backward. *)
Theorem changeMonth_overflow direction currentDate :
  let ym := addMonths direction (getFullYear currentDate) (getMonth currentDate) in
  validDate currentDate → daysInMonth ym.1 ym.2 < getDate currentDate →
  changeMonth direction currentDate =
  mkDate (nextMonth ym.1 ym.2).1 (nextMonth ym.1 ym.2).2
    (getDate currentDate - daysInMonth ym.1 ym.2) (timeOfDay currentDate).
Proof.
  destruct currentDate as [y m d t]. intros ym [_ Hd] Hd'; simpl in *.
  subst ym. unfold changeMonth, setMonth, addMonths in *; simpl.
  rewrite makeDate_over; [done|]. cbv zeta.
  unfold normMonth in *; simpl in *.
  pose proof (daysInMonth_bounds y m). days_bounds. lia.
Qed.

(** From January 31st the forward arrow shows March. *)
Lemma changeMonth_overflow_witness :
  validDate (mkDate 2025 0 31 0) ∧
  daysInMonth (addMonths 1 2025 0).1 (addMonths 1 2025 0).2 < 31 ∧
  changeMonth 1 (mkDate 2025 0 31 0) = mkDate 2025 2 3 0.
Proof.
  split; [by vm_compute|]. split; [by vm_compute|].
  exact (changeMonth_overflow 1 (mkDate 2025 0 31 0)
           ltac:(by vm_compute) ltac:(by vm_compute)).
Defined.

(** From March 31st the backward arrow stays in March: February cannot
    be reached with the arrows. *)
Lemma changeMonth_back_stuck y t :
  getMonth (changeMonth (-1) (mkDate y 2 31 t)) = 2 ∧
  getFullYear (changeMonth (-1) (mkDate y 2 31 t)) = y.
Proof.
  unfold changeMonth, setMonth; simpl. change (2 + -1) with 1.
  rewrite makeDate_over; rewrite normMonth_id by lia; [done|].
  simpl. unfold daysInMonth. case_match; lia.
Qed.

(** ** Future months *)

(** For years outside 0..99, a month is in the future exactly when its
    year and month come after the clock's year and month. *)
Lemma isFutureMonth_spec now date :
  ¬ (0 ≤ getFullYear now ≤ 99) → ¬ (0 ≤ getFullYear date ≤ 99) →
  0 ≤ getMonth now ≤ 11 → 0 ≤ getMonth date ≤ 11 →
  isFutureMonth now date = true ↔
  getFullYear now < getFullYear date ∨
  (getFullYear now = getFullYear date ∧ getMonth now < getMonth date).
Proof.
  intros. unfold isFutureMonth. rewrite !newDate_first by done.
  unfold dateGt. rewrite bool_decide_eq_true. simpl. lia.
Qed.

Lemma isFutureMonth_spec_witness :
  isFutureMonth (mkDate 2025 10 8 0) (mkDate 2025 11 1 0) = true ↔
  2025 < 2025 ∨ (2025 = 2025 ∧ 10 < 11).
Proof.
  exact (isFutureMonth_spec (mkDate 2025 10 8 0) (mkDate 2025 11 1 0)
           ltac:(simpl; lia) ltac:(simpl; lia) ltac:(simpl; lia) ltac:(simpl; lia)).
Defined.

(** The month being viewed is never in the future of a clock in it. *)
Lemma isFutureMonth_same now date :
  isSameMonth now date = true → isFutureMonth now date = false.
Proof.
  intros [Hm Hy]%isSameMonth_true. unfold isFutureMonth.
  rewrite Hm, Hy. apply dateGt_irrefl.
Qed.

(** A year 0..99 is read as 1900 + year by [new Date(y, m, 1)]: with the
    clock in 1950, January of the year 60 counts as a future month. *)
Example isFutureMonth_two_digit_year :
  isFutureMonth (mkDate 1950 0 1 0) (mkDate 60 0 1 0) = true.
Proof. by vm_compute. Qed.
