(* ===== verification/Ledger.v ===== *)
(** The transaction ledger of [src/App.js]: the transaction record, the
    entry form, the creation of a transaction in [handleAddTransaction],
    removal by id in [confirmDelete], and the dependency test and the two
    bulk operations of the category deletion handlers. *)

From stdpp Require Import pretty.
From S2P Require Import Prelude JSNumber JSDate.

(** ** Data *)

(** The two values the [type] field takes. *)
Inductive TxType : Set := Income | Expense.

#[export] Instance TxType_eq_dec : EqDecision TxType.
Proof. solve_decision. Defined.

(** The string a type is written as in group keys and in storage. *)
Definition type_name (ty : TxType) : string :=
  match ty with Income => "Income" | Expense => "Expense" end.

(** A stored transaction, with the fields in the order of the object
    literal of [handleAddTransaction]. *)
Record Transaction (T : Type) : Type := mkTransaction {
  tx_id : string;
  tx_dateISO : JSDate;
  tx_displayDate : string;
  tx_type : TxType;
  tx_amount : T;
  tx_category : string;
  tx_note : string;
}.
Arguments mkTransaction {T}.
Arguments tx_id {T}.
Arguments tx_dateISO {T}.
Arguments tx_displayDate {T}.
Arguments tx_type {T}.
Arguments tx_amount {T}.
Arguments tx_category {T}.
Arguments tx_note {T}.

#[export] Instance Transaction_eq_dec `{EqDecision T} : EqDecision (Transaction T).
Proof. solve_decision. Defined.

(** The [newTransaction] form state: the amount is the text typed. *)
Record NewTransaction : Type := mkNewTransaction {
  nt_type : TxType;
  nt_amount : string;
  nt_category : string;
  nt_note : string;
}.

#[export] Instance NewTransaction_eq_dec : EqDecision NewTransaction.
Proof. solve_decision. Defined.

(** The form [handleAddTransaction] resets to, also the initial form. *)
Definition emptyForm : NewTransaction := mkNewTransaction Expense "" "" "".

(** What a handler reports instead of changing state. *)
Inductive ValidationError : Set :=
  | MissingInfo
  | BlankCategoryName
  | CategoryExists
  | NoReassignTarget.

#[export] Instance ValidationError_eq_dec : EqDecision ValidationError.
Proof. solve_decision. Defined.

(** The three calls [Alert.alert(title, message)] of the handlers: in
    [handleAddTransaction], in [handleAddNewCategory] and in
    [executeCategoryDeletion]. *)
Definition missingInfoAlert : string * string :=
  ("Missing Info", "Please enter an amount and select a category.").

Definition categoryExistsAlert : string * string :=
  ("Error", "Category already exists.").

Definition noReassignTargetAlert : string * string :=
  ("Error", "Please select a category to reassign to.").

(** The alert a failure shows; a blank category name returns without
    one. *)
Definition alert_of (e : ValidationError) : option (string * string) :=
  match e with
  | MissingInfo => Some missingInfoAlert
  | BlankCategoryName => None
  | CategoryExists => Some categoryExistsAlert
  | NoReassignTarget => Some noReassignTargetAlert
  end.

(** Locale dependent formatting of a date, [toLocaleDateString]. *)
Class Locale := { toLocaleDateString : JSDate → string }.

(** ** Operations *)

Section ledger.
Context {T : Type} `{JSNumber T, Locale}.
Implicit Types (t : Transaction T) (txs : list (Transaction T)).
Implicit Types (c target : string) (ty : TxType).

(** [{ ...t, category: c }]. *)
Definition set_category c t : Transaction T :=
  mkTransaction (tx_id t) (tx_dateISO t) (tx_displayDate t) (tx_type t)
    (tx_amount t) c (tx_note t).

(** The object literal of [handleAddTransaction]: id from the millisecond
    clock, date by the rollover rule, the form's fields, the amount
    parsed. *)
Definition buildTransaction (now : JSDate) (nowMs : Z) (currentDate : JSDate)
    (form : NewTransaction) : Transaction T :=
  let date := transactionDate now currentDate in
  mkTransaction (pretty nowMs) date (toLocaleDateString date)
    (nt_type form) (parseFloat (nt_amount form)) (nt_category form)
    (nt_note form).

(** The ledger part of [handleAddTransaction]: the guard on the form, then
    the new transaction in front of the others. *)
Definition addTransaction (now : JSDate) (nowMs : Z) (currentDate : JSDate)
    (form : NewTransaction) txs : ValidationError + list (Transaction T) :=
  if negb (truthy (nt_amount form)) || negb (truthy (nt_category form))
  then inl MissingInfo
  else inr (buildTransaction now nowMs currentDate form :: txs).

(** The Delete button of [confirmDelete]:
    [prev.filter(t => t.id !== id)]. *)
Definition removeTransaction (id : string) txs : list (Transaction T) :=
  filter (λ t, tx_id t ≠ id) txs.

(** A transaction of category [c] and type [ty]. *)
Definition dependsOn c ty t : Prop := tx_category t = c ∧ tx_type t = ty.

#[export] Instance dependsOn_dec c ty t : Decision (dependsOn c ty t).
Proof. unfold dependsOn. apply _. Defined.

(** The transactions that depend on a category. *)
Definition dependents c ty txs : list (Transaction T) :=
  filter (dependsOn c ty) txs.

(** [transactions.some(t => t.category === c && t.type === ty)]. *)
Definition hasTransactions c ty txs : bool := some (dependsOn c ty) txs.

(** The delete branch of [executeCategoryDeletion]. *)
Definition deleteCategoryTransactions c ty txs : list (Transaction T) :=
  filter (λ t, ¬ dependsOn c ty t) txs.

(** The reassign branch of [executeCategoryDeletion]. *)
Definition reassignTransactions c ty target txs : list (Transaction T) :=
  (λ t, if decide (dependsOn c ty t) then set_category target t else t) <$> txs.

(** The ids of a ledger, in order. *)
Definition ids txs : list string := tx_id <$> txs.

(** Every id was printed from a clock reading before [n]. *)
Definition idsBefore (n : Z) txs : Prop :=
  Forall (λ t, ∃ k : Z, tx_id t = pretty k ∧ (k < n)%Z) txs.

(** A record as [handleAddTransaction] builds it: a valid date, shown as
    the locale prints it, under a category. *)
Definition wfTransaction t : Prop :=
  validDate (tx_dateISO t) ∧
  tx_displayDate t = toLocaleDateString (tx_dateISO t) ∧
  tx_category t ≠ "".

(** A ledger of such records whose ids are distinct and printed from
    clock readings before [n]. *)
Definition wfLedger (n : Z) txs : Prop :=
  idsBefore n txs ∧ NoDup (ids txs) ∧ Forall wfTransaction txs.

(** ** Adding *)

Lemma set_category_id c t : tx_id (set_category c t) = tx_id t.
Proof. done. Qed.

Lemma addTransaction_inr now nowMs cd form txs :
  nt_amount form ≠ "" → nt_category form ≠ "" →
  addTransaction now nowMs cd form txs =
  inr (buildTransaction now nowMs cd form :: txs).
Proof.
  intros Ha Hc. unfold addTransaction.
  by rewrite (proj2 (truthy_true _) Ha), (proj2 (truthy_true _) Hc).
Qed.

Lemma addTransaction_inl now nowMs cd form txs :
  nt_amount form = "" ∨ nt_category form = "" →
  addTransaction now nowMs cd form txs = inl MissingInfo.
Proof.
  unfold addTransaction. intros [Ha|Hc].
  - by rewrite (proj2 (truthy_false _) Ha).
  - rewrite (proj2 (truthy_false _) Hc). by rewrite orb_true_r.
Qed.

(** C1: [handleAddTransaction] either reports the missing information,
    exactly when the amount text or the category is empty, or returns the
    ledger with the new record in front of the unchanged old ones. *)
Theorem addTransaction_spec now nowMs cd form txs :
  (addTransaction now nowMs cd form txs = inl MissingInfo ∧
   (nt_amount form = "" ∨ nt_category form = "")) ∨
  (addTransaction now nowMs cd form txs =
     inr (buildTransaction now nowMs cd form :: txs) ∧
   nt_amount form ≠ "" ∧ nt_category form ≠ "").
Proof.
  destruct (decide (nt_amount form = "")) as [Ha|Ha];
    [by left; split; [apply addTransaction_inl|]; left|].
  destruct (decide (nt_category form = "")) as [Hc|Hc];
    [by left; split; [apply addTransaction_inl|]; right|].
  right. by rewrite addTransaction_inr.
Qed.

(** A successful add makes the ledger exactly one longer. *)
Lemma addTransaction_length now nowMs cd form txs txs' :
  addTransaction now nowMs cd form txs = inr txs' →
  length txs' = S (length txs).
Proof.
  unfold addTransaction. case_match; [done|]. by intros [= <-].
Qed.

(** When the clock reading was not used for an id before, a
    successful add keeps the ids of the ledger distinct. *)
Lemma addTransaction_NoDup now nowMs cd form txs txs' :
  NoDup (ids txs) → pretty nowMs ∉ ids txs →
  addTransaction now nowMs cd form txs = inr txs' →
  NoDup (ids txs').
Proof.
  unfold addTransaction. intros Hnd Hfresh. case_match; [done|].
  intros [= <-]. unfold ids. rewrite fmap_cons. by apply NoDup_cons.
Qed.

(** An id printed from an earlier clock reading differs from the one
    printed now. *)
Lemma idsBefore_fresh n txs : idsBefore n txs → pretty n ∉ ids txs.
Proof.
  unfold idsBefore, ids. rewrite Forall_forall.
  intros Hb (t & Ht & Hin)%list_elem_of_fmap.
  destruct (Hb t Hin) as (k & Hk & Hlt). rewrite Hk in Ht.
  apply (inj pretty) in Ht. lia.
Qed.

Lemma idsBefore_mono n n' txs :
  (n ≤ n')%Z → idsBefore n txs → idsBefore n' txs.
Proof.
  intros Hn Hb. eapply Forall_impl; [exact Hb|].
  intros t (k & Hk & Hlt). exists k. split; [done|lia].
Qed.

(** With a clock that has advanced since the last add, the ids stay
    printed from earlier readings, so they stay distinct for ever after. *)
Lemma addTransaction_idsBefore now nowMs cd form txs txs' :
  idsBefore nowMs txs →
  addTransaction now nowMs cd form txs = inr txs' →
  idsBefore (nowMs + 1) txs' ∧ pretty nowMs ∉ ids txs.
Proof.
  unfold addTransaction. intros Hb. case_match; [done|]. intros [= <-].
  split; [|by apply idsBefore_fresh].
  apply Forall_cons. split.
  - exists nowMs. split; [done|lia].
  - eapply idsBefore_mono; [|done]. lia.
Qed.

(** ** Removing by id *)

Lemma elem_of_removeTransaction id txs t :
  t ∈ removeTransaction id txs ↔ t ∈ txs ∧ tx_id t ≠ id.
Proof. unfold removeTransaction. rewrite list_elem_of_filter. tauto. Qed.

Lemma removeTransaction_sublist id txs : removeTransaction id txs `sublist_of` txs.
Proof. apply sublist_filter. Qed.

(** After the Delete button no transaction with that id is left. *)
Lemma removeTransaction_absent id txs : id ∉ ids (removeTransaction id txs).
Proof.
  unfold ids. intros (t & -> & Ht)%list_elem_of_fmap.
  by apply elem_of_removeTransaction in Ht as [_ ?].
Qed.

(** C4: with distinct ids, deleting an id that is present makes the
    ledger exactly one shorter. *)
Theorem removeTransaction_length id txs :
  NoDup (ids txs) → id ∈ ids txs →
  S (length (removeTransaction id txs)) = length txs.
Proof.
  intros Hnd Hin. unfold removeTransaction.
  pose proof (length_filter_complement (λ t, tx_id t ≠ id) txs) as Hlen.
  rewrite (list_filter_iff (λ t, ¬ tx_id t ≠ id) (λ t, tx_id t = id)) in Hlen.
  - rewrite (length_filter_key tx_id) in Hlen by done. lia.
  - intros t. destruct (decide (tx_id t = id)); naive_solver.
Qed.

(** Deleting an id that is not in the ledger leaves it as it is. *)
Lemma removeTransaction_missing id txs :
  id ∉ ids txs → removeTransaction id txs = txs.
Proof. apply filter_key_absent. Qed.

Lemma removeTransaction_NoDup id txs :
  NoDup (ids txs) → NoDup (ids (removeTransaction id txs)).
Proof. apply NoDup_fmap_filter. Qed.

Lemma removeTransaction_idsBefore n id txs :
  idsBefore n txs → idsBefore n (removeTransaction id txs).
Proof. apply Forall_filter. Qed.

(** ** Dependents of a category *)

Lemma hasTransactions_true c ty txs :
  hasTransactions c ty txs = true ↔ ∃ t, t ∈ txs ∧ dependsOn c ty t.
Proof. apply some_true. Qed.

Lemma hasTransactions_false c ty txs :
  hasTransactions c ty txs = false ↔ dependents c ty txs = [].
Proof.
  unfold hasTransactions, dependents. rewrite some_false. split.
  - intros Hno. apply filter_none, Forall_forall, Hno.
  - intros Hnil t Ht Hd. by eapply filter_nil_not_elem_of.
Qed.

(** ** Deleting the dependents *)

Lemma elem_of_deleteCategoryTransactions c ty txs t :
  t ∈ deleteCategoryTransactions c ty txs ↔ t ∈ txs ∧ ¬ dependsOn c ty t.
Proof. unfold deleteCategoryTransactions. rewrite list_elem_of_filter. tauto. Qed.

(** The delete branch removes the dependents and nothing else: what is
    left and what was removed add up to the ledger, in length. *)
Lemma deleteCategoryTransactions_length c ty txs :
  length (deleteCategoryTransactions c ty txs) + length (dependents c ty txs)
  = length txs.
Proof.
  unfold deleteCategoryTransactions, dependents.
  pose proof (length_filter_complement (dependsOn c ty) txs). lia.
Qed.

(** After the delete branch no transaction depends on the category. *)
Lemma deleteCategoryTransactions_clean c ty txs :
  hasTransactions c ty (deleteCategoryTransactions c ty txs) = false.
Proof.
  apply some_false. by intros t [_ ?]%elem_of_deleteCategoryTransactions.
Qed.

(** A category without dependents: the delete branch changes nothing. *)
Lemma deleteCategoryTransactions_none c ty txs :
  hasTransactions c ty txs = false → deleteCategoryTransactions c ty txs = txs.
Proof.
  unfold hasTransactions. rewrite some_false. intros Hno.
  by apply filter_all, Forall_forall.
Qed.

(** The dependents of any other category are kept, in order. *)
Lemma dependents_deleteCategoryTransactions c ty c' ty' txs :
  (c', ty') ≠ (c, ty) →
  dependents c' ty' (deleteCategoryTransactions c ty txs) = dependents c' ty' txs.
Proof.
  intros Hne. unfold dependents, deleteCategoryTransactions.
  rewrite list_filter_filter. apply list_filter_iff.
  unfold dependsOn. intros t. split; [tauto|]. intros [? ?].
  split; [done|]. intros [? ?]. apply Hne. congruence.
Qed.

Lemma deleteCategoryTransactions_NoDup c ty txs :
  NoDup (ids txs) → NoDup (ids (deleteCategoryTransactions c ty txs)).
Proof. apply NoDup_fmap_filter. Qed.

(** ** Reassigning the dependents *)

Lemma reassignTransactions_ids c ty target txs :
  ids (reassignTransactions c ty target txs) = ids txs.
Proof.
  unfold ids, reassignTransactions. rewrite <-list_fmap_compose.
  apply list_fmap_ext. intros i t _. simpl. by case_decide.
Qed.

(** The reassign branch keeps the length and the ids of the ledger. *)
Lemma reassignTransactions_length c ty target txs :
  length (reassignTransactions c ty target txs) = length txs ∧
  ids (reassignTransactions c ty target txs) = ids txs.
Proof.
  split; [apply length_fmap|apply reassignTransactions_ids].
Qed.

(** What depends on [c'] after the reassignment, read on the old ledger. *)
Lemma dependents_reassignTransactions_length c ty target c' ty' txs :
  length (dependents c' ty' (reassignTransactions c ty target txs)) =
  length (filter (λ t,
    (dependsOn c ty t ∧ target = c' ∧ ty = ty') ∨
    (¬ dependsOn c ty t ∧ dependsOn c' ty' t)) txs).
Proof.
  unfold dependents, reassignTransactions.
  rewrite filter_fmap, length_fmap. f_equal. apply list_filter_iff.
  intros t. unfold dependsOn. case_decide; simpl; intuition congruence.
Qed.

(** Reassigning to another category leaves no transaction on the old one
    and adds exactly its dependents to those of the target. *)
Lemma reassignTransactions_moves c ty target txs :
  target ≠ c →
  dependents c ty (reassignTransactions c ty target txs) = [] ∧
  length (dependents target ty (reassignTransactions c ty target txs)) =
  length (dependents target ty txs) + length (dependents c ty txs).
Proof.
  intros Hne. split.
  - apply length_zero_iff_nil.
    rewrite dependents_reassignTransactions_length.
    rewrite filter_none; [done|]. apply Forall_forall.
    intros t _. unfold dependsOn. intuition congruence.
  - rewrite dependents_reassignTransactions_length. unfold dependents.
    rewrite <-length_filter_or by (unfold dependsOn; intuition congruence).
    f_equal. apply list_filter_iff. intros t. unfold dependsOn.
    destruct (decide (tx_category t = c)); intuition congruence.
Qed.

(** Reassigning a category to itself changes no transaction. *)
Lemma reassignTransactions_self c ty txs :
  reassignTransactions c ty c txs = txs.
Proof.
  apply fmap_fixed, Forall_forall. intros [] _. unfold dependsOn.
  case_decide; [|done]. simpl in *. by destruct_and!; subst.
Qed.

(** A transaction that is not a dependent is not touched. *)
Lemma reassignTransactions_other c ty target txs t :
  t ∈ txs → ¬ dependsOn c ty t → t ∈ reassignTransactions c ty target txs.
Proof.
  intros Hin Hnd. apply list_elem_of_fmap. exists t. by rewrite decide_False.
Qed.

(** ** Well-formed ledgers *)

Lemma wfLedger_mono n n' txs : (n ≤ n')%Z → wfLedger n txs → wfLedger n' txs.
Proof. intros Hn (Hb & Hnd & Hwf). split; [by eapply idsBefore_mono|done]. Qed.

Lemma buildTransaction_wf now nowMs cd form :
  nt_category form ≠ "" → wfTransaction (buildTransaction now nowMs cd form).
Proof.
  intros Hc. split_and!; [|done..]. simpl. unfold transactionDate.
  case_bool_decide; apply setDate_valid.
Qed.

(** An add at a clock reading not before [n] keeps the ledger well formed,
    and moves the bound past the reading. *)
Lemma addTransaction_wf n now nowMs cd form txs txs' :
  (n ≤ nowMs)%Z → wfLedger n txs →
  addTransaction now nowMs cd form txs = inr txs' → wfLedger (nowMs + 1) txs'.
Proof.
  intros Hn (Hb & Hnd & Hwf)%(wfLedger_mono _ nowMs) Hadd; [|done].
  destruct (addTransaction_idsBefore _ _ _ _ _ _ Hb Hadd) as [Hb' Hfresh].
  unfold addTransaction in Hadd. case_match eqn:Hg; [done|].
  apply (inj inr) in Hadd as <-. apply orb_false_iff in Hg as [_ Hg].
  split_and!; [done| |].
  - unfold ids. rewrite fmap_cons. by apply NoDup_cons.
  - apply Forall_cons. split; [|done]. apply buildTransaction_wf.
    apply truthy_true. by destruct (truthy _).
Qed.

Lemma removeTransaction_wf n id txs :
  wfLedger n txs → wfLedger n (removeTransaction id txs).
Proof.
  intros (Hb & Hnd & Hwf).
  split_and!; [by apply Forall_filter|by apply NoDup_fmap_filter|
               by apply Forall_filter].
Qed.

Lemma deleteCategoryTransactions_wf n c ty txs :
  wfLedger n txs → wfLedger n (deleteCategoryTransactions c ty txs).
Proof.
  intros (Hb & Hnd & Hwf).
  split_and!; [by apply Forall_filter|by apply NoDup_fmap_filter|
               by apply Forall_filter].
Qed.

(** Reassigning to a target that is a name keeps the ledger well
    formed. *)
Lemma reassignTransactions_wf n c ty target txs :
  target ≠ "" → wfLedger n txs → wfLedger n (reassignTransactions c ty target txs).
Proof.
  intros Ht (Hb & Hnd & Hwf). split_and!.
  - apply Forall_fmap. eapply Forall_impl; [exact Hb|]. intros t ?. simpl.
    by case_decide.
  - by rewrite reassignTransactions_ids.
  - apply Forall_fmap. eapply Forall_impl; [exact Hwf|].
    intros t (? & ? & ?). simpl. by case_decide.
Qed.

(** ** Amounts that do not parse *)

(** The guard looks at the text only: an amount [parseFloat] cannot read
    is stored as NaN, and one with a numeric prefix as that prefix. *)
Lemma addTransaction_unparsed now nowMs cd ty c note txs :
  c ≠ "" →
  ∃ t, addTransaction now nowMs cd (mkNewTransaction ty "abc" c note) txs =
         inr (t :: txs) ∧ tx_amount t = num_nan.
Proof. intros Hc. eexists. by rewrite addTransaction_inr. Qed.

Lemma addTransaction_prefix now nowMs cd ty c note txs :
  c ≠ "" →
  ∃ t, addTransaction now nowMs cd (mkNewTransaction ty "12abc" c note) txs =
         inr (t :: txs) ∧ tx_amount t = num_of_decimal false 12 0.
Proof. intros Hc. eexists. by rewrite addTransaction_inr. Qed.

End ledger.

(** ** The ledger of the examples *)

(** The formatting of the en-US locale: month/day/year. *)
Definition enUS : Locale :=
  {| toLocaleDateString date :=
       pretty (getMonth date + 1)%Z +:+ "/" +:+ pretty (getDate date) +:+ "/"
       +:+ pretty (getFullYear date) |}.

#[export] Existing Instance enUS.

(** A salary of 1000 and a meal of 50, both dated in March 2025, the meal
    entered last. *)
Definition salaryMarch : Transaction xnum :=
  mkTransaction "1741000000000" (mkDate 2025 2 3 0) "3/3/2025" Income
    (XFin (QArith_base.inject_Z 1000)) "Salary" "".

Definition foodMarch : Transaction xnum :=
  mkTransaction "1741000060000" (mkDate 2025 2 3 0) "3/3/2025" Expense
    (XFin (QArith_base.inject_Z 50)) "Food" "lunch".

Definition marchLedger : list (Transaction xnum) := [foodMarch; salaryMarch].

(** The form filled in for a bus ticket. *)
Definition busForm : NewTransaction := mkNewTransaction Expense "2.50" "Transport" "bus".

(** The ledger after the bus ticket is added on March 31st, 2025 while
    February 2025 is viewed. *)
Definition februaryLedger : list (Transaction xnum) :=
  buildTransaction (mkDate 2025 2 31 0) 1743400000000 (mkDate 2025 1 10 0) busForm
  :: marchLedger.

Lemma addTransaction_length_witness :
  length februaryLedger = S (length marchLedger).
Proof.
  exact (addTransaction_length (mkDate 2025 2 31 0) 1743400000000
           (mkDate 2025 1 10 0) busForm marchLedger februaryLedger eq_refl).
Defined.

Lemma addTransaction_NoDup_witness : NoDup (ids februaryLedger).
Proof.
  exact (addTransaction_NoDup (mkDate 2025 2 31 0) 1743400000000
           (mkDate 2025 1 10 0) busForm marchLedger februaryLedger
           ltac:(by apply (bool_decide_unpack _))
           ltac:(by apply (bool_decide_unpack _)) eq_refl).
Defined.

Lemma marchLedger_idsBefore : idsBefore 1743400000000 marchLedger.
Proof.
  repeat constructor; [exists 1741000060000%Z|exists 1741000000000%Z];
    by split.
Defined.

Lemma addTransaction_idsBefore_witness :
  idsBefore (1743400000000 + 1) februaryLedger ∧
  pretty 1743400000000%Z ∉ ids marchLedger.
Proof.
  exact (addTransaction_idsBefore (mkDate 2025 2 31 0) 1743400000000
           (mkDate 2025 1 10 0) busForm marchLedger februaryLedger
           marchLedger_idsBefore eq_refl).
Defined.

Lemma removeTransaction_length_witness :
  S (length (removeTransaction "1741000000000" februaryLedger)) =
  length februaryLedger.
Proof.
  exact (removeTransaction_length "1741000000000" februaryLedger
           ltac:(by apply (bool_decide_unpack _))
           ltac:(by apply (bool_decide_unpack _))).
Defined.

Lemma removeTransaction_missing_witness :
  removeTransaction "42" marchLedger = marchLedger.
Proof.
  exact (removeTransaction_missing "42" marchLedger
           ltac:(by apply (bool_decide_unpack _))).
Defined.
