(* ===== verification/Registry.v ===== *)
(** The category registry of [src/App.js]: the [categories] object with one
    ordered list of names per transaction type, the guards and the append
    of [handleAddNewCategory], and the removal of a name at the end of
    [executeCategoryDeletion]. *)

From S2P Require Import Prelude JSNumber JSDate Ledger.

(** ** Data *)

(** The [categories] state: [{ Income: [...], Expense: [...] }]. *)
Record Categories : Type := mkCategories {
  cat_Income : list string;
  cat_Expense : list string;
}.

#[export] Instance Categories_eq_dec : EqDecision Categories.
Proof. solve_decision. Defined.

(** The initial value of the [categories] state. *)
Definition defaultCategories : Categories :=
  mkCategories ["Salary"; "Gift"; "Freelance"]
               ["Food"; "Transport"; "Shopping"; "Bills"].

(** ** Operations *)

(** [categories[type]]. *)
Definition categoriesFor (cats : Categories) (ty : TxType) : list string :=
  match ty with Income => cat_Income cats | Expense => cat_Expense cats end.

(** [{ ...prev, [type]: l }]. *)
Definition setCategoriesFor (cats : Categories) (ty : TxType) (l : list string)
    : Categories :=
  match ty with
  | Income => mkCategories l (cat_Expense cats)
  | Expense => mkCategories (cat_Income cats) l
  end.

(** The registry part of [handleAddNewCategory]: a blank name returns
    silently, a name already in the list of the type is refused, any other
    is appended after trimming. *)
Definition addCategory (name : string) (ty : TxType) (cats : Categories)
    : ValidationError + Categories :=
  if negb (truthy (trim name)) then inl BlankCategoryName
  else if includes (trim name) (categoriesFor cats ty) then inl CategoryExists
  else inr (setCategoriesFor cats ty (categoriesFor cats ty ++ [trim name])).

(** The registry part of [executeCategoryDeletion]:
    [prev[type].filter(c => c !== categoryName)]. *)
Definition removeCategory (name : string) (ty : TxType) (cats : Categories)
    : Categories :=
  setCategoriesFor cats ty (filter (λ c, c ≠ name) (categoriesFor cats ty)).

(** The chips of the reassign row:
    [categories[type].filter(c => c !== name)]. *)
Definition reassignCandidates (name : string) (ty : TxType) (cats : Categories)
    : list string :=
  filter (λ c, c ≠ name) (categoriesFor cats ty).

(** Names are distinct within each type. *)
Definition uniqueCategories (cats : Categories) : Prop :=
  NoDup (cat_Income cats) ∧ NoDup (cat_Expense cats).

#[export] Instance uniqueCategories_dec cats : Decision (uniqueCategories cats).
Proof. unfold uniqueCategories. apply _. Defined.

(** ** Lookup after update *)

Lemma categoriesFor_set_eq cats ty l :
  categoriesFor (setCategoriesFor cats ty l) ty = l.
Proof. by destruct ty. Qed.

Lemma categoriesFor_set_ne cats ty ty' l :
  ty ≠ ty' → categoriesFor (setCategoriesFor cats ty l) ty' = categoriesFor cats ty'.
Proof. by destruct ty, ty'. Qed.

Lemma setCategoriesFor_id cats ty :
  setCategoriesFor cats ty (categoriesFor cats ty) = cats.
Proof. by destruct cats, ty. Qed.

#[export] Hint Rewrite categoriesFor_set_eq : ledger_rw.

Lemma uniqueCategories_for cats :
  uniqueCategories cats ↔ ∀ ty, NoDup (categoriesFor cats ty).
Proof.
  split; [by intros [??] []|].
  intros Hu. split; [apply (Hu Income)|apply (Hu Expense)].
Qed.

(** ** Adding a name *)

(** The successful branch: the trimmed name is not blank and not listed,
    and it is appended to the list of the type. *)
Lemma addCategory_inr name ty cats cats' :
  addCategory name ty cats = inr cats' ↔
  trim name ≠ "" ∧ (trim name ∉ categoriesFor cats ty) ∧
  cats' = setCategoriesFor cats ty (categoriesFor cats ty ++ [trim name]).
Proof.
  unfold addCategory. destruct (truthy (trim name)) eqn:Ht; simpl.
  - apply truthy_true in Ht.
    destruct (includes _ _) eqn:Hi; [apply includes_true in Hi|apply includes_false in Hi];
      naive_solver.
  - apply truthy_false in Ht. naive_solver.
Qed.

(** What is listed after a name is added, for either type. *)
Lemma elem_of_addCategory name ty cats cats' x ty' :
  addCategory name ty cats = inr cats' →
  x ∈ categoriesFor cats' ty' ↔
  x ∈ categoriesFor cats ty' ∨ (ty' = ty ∧ x = trim name).
Proof.
  intros (_ & _ & ->)%addCategory_inr.
  destruct (decide (ty = ty')) as [<-|Hne].
  - rewrite categoriesFor_set_eq, elem_of_app, list_elem_of_singleton.
    naive_solver.
  - rewrite categoriesFor_set_ne by done. naive_solver.
Qed.

(** C32: [handleAddNewCategory] on every branch: a name that trims to
    nothing is refused silently, a trimmed name already listed for the
    type is refused with an alert, and any other is appended, trimmed, at
    the end of the type's list while the other list is untouched. *)
Theorem addCategory_spec name ty cats :
  (trim name = "" ∧ addCategory name ty cats = inl BlankCategoryName) ∨
  (trim name ≠ "" ∧ trim name ∈ categoriesFor cats ty ∧
   addCategory name ty cats = inl CategoryExists) ∨
  (trim name ≠ "" ∧ (trim name ∉ categoriesFor cats ty) ∧
   ∃ cats', addCategory name ty cats = inr cats' ∧
     categoriesFor cats' ty = categoriesFor cats ty ++ [trim name] ∧
     ∀ ty', ty ≠ ty' → categoriesFor cats' ty' = categoriesFor cats ty').
Proof.
  unfold addCategory, truthy, includes.
  destruct (decide (trim name = "")) as [He|He].
  { left. rewrite bool_decide_eq_false_2; [done|by intros []]. }
  right. rewrite bool_decide_eq_true_2 by done. simpl.
  destruct (decide (trim name ∈ categoriesFor cats ty)) as [Hin|Hin].
  { left. by rewrite bool_decide_eq_true_2. }
  right. rewrite bool_decide_eq_false_2 by done. split_and!; [done..|].
  eexists. split_and!; [done|apply categoriesFor_set_eq|].
  intros ty' Hne. by apply categoriesFor_set_ne.
Qed.

(** Adding a category keeps the names of every type distinct. *)
Lemma addCategory_unique name ty cats cats' :
  uniqueCategories cats → addCategory name ty cats = inr cats' →
  uniqueCategories cats'.
Proof.
  rewrite !uniqueCategories_for.
  intros Hu (_ & Hnin & ->)%addCategory_inr ty'.
  destruct (decide (ty = ty')) as [<-|Hne].
  - rewrite categoriesFor_set_eq.
    apply NoDup_app. split_and!; [apply Hu| |apply NoDup_singleton].
    intros x Hx ->%list_elem_of_singleton. done.
  - rewrite categoriesFor_set_ne by done. apply Hu.
Qed.

Lemma addCategory_unique_witness :
  uniqueCategories
    (setCategoriesFor defaultCategories Expense
       (categoriesFor defaultCategories Expense ++ ["Rent"])).
Proof.
  exact (addCategory_unique " Rent " Expense defaultCategories _
           ltac:(by apply (bool_decide_unpack _)) eq_refl).
Defined.

(** ** Removing a name *)

Lemma categoriesFor_removeCategory name ty cats :
  categoriesFor (removeCategory name ty cats) ty =
  filter (λ c, c ≠ name) (categoriesFor cats ty).
Proof. apply categoriesFor_set_eq. Qed.

Lemma categoriesFor_removeCategory_ne name ty ty' cats :
  ty ≠ ty' →
  categoriesFor (removeCategory name ty cats) ty' = categoriesFor cats ty'.
Proof. apply categoriesFor_set_ne. Qed.

Lemma removeCategory_not_elem name ty cats :
  name ∉ categoriesFor (removeCategory name ty cats) ty.
Proof.
  rewrite categoriesFor_removeCategory. by intros [? _]%list_elem_of_filter.
Qed.

(** After the removal the name is no longer listed for the type, every
    other name of the type is, and the other type's list is unchanged. *)
Lemma removeCategory_spec name ty cats :
  (name ∉ categoriesFor (removeCategory name ty cats) ty) ∧
  (∀ c, c ≠ name →
     (c ∈ categoriesFor (removeCategory name ty cats) ty ↔
      c ∈ categoriesFor cats ty)) ∧
  (∀ ty', ty ≠ ty' →
     categoriesFor (removeCategory name ty cats) ty' = categoriesFor cats ty').
Proof.
  split_and!; [apply removeCategory_not_elem|..];
    rewrite ?categoriesFor_removeCategory.
  - intros c Hc. rewrite list_elem_of_filter. tauto.
  - intros ty'. apply categoriesFor_removeCategory_ne.
Qed.

(** Removing a category keeps the names of every type distinct. *)
Lemma removeCategory_unique name ty cats :
  uniqueCategories cats → uniqueCategories (removeCategory name ty cats).
Proof.
  rewrite !uniqueCategories_for.
  intros Hu ty'. destruct (decide (ty = ty')) as [<-|Hne].
  - rewrite categoriesFor_removeCategory. by apply NoDup_filter.
  - by rewrite categoriesFor_removeCategory_ne.
Qed.

Lemma removeCategory_unique_witness :
  uniqueCategories (removeCategory "Food" Expense defaultCategories).
Proof.
  exact (removeCategory_unique "Food" Expense defaultCategories
           ltac:(by apply (bool_decide_unpack _))).
Defined.

(** Membership after a removal, for either type. *)
Lemma elem_of_removeCategory x name ty ty' cats :
  x ∈ categoriesFor (removeCategory name ty cats) ty' ↔
  x ∈ categoriesFor cats ty' ∧ (ty' = ty → x ≠ name).
Proof.
  destruct (decide (ty = ty')) as [<-|Hne].
  - rewrite categoriesFor_removeCategory, list_elem_of_filter. naive_solver.
  - rewrite categoriesFor_removeCategory_ne by done. naive_solver.
Qed.

Lemma elem_of_reassignCandidates x name ty cats :
  x ∈ reassignCandidates name ty cats ↔ x ∈ categoriesFor cats ty ∧ x ≠ name.
Proof. unfold reassignCandidates. rewrite list_elem_of_filter. tauto. Qed.

(** Removing a name that is not listed changes nothing. *)
Lemma removeCategory_missing name ty cats :
  name ∉ categoriesFor cats ty → removeCategory name ty cats = cats.
Proof.
  intros Hn. unfold removeCategory. rewrite filter_all.
  - apply setCategoriesFor_id.
  - apply Forall_forall. by intros c Hc ->.
Qed.

(** The chips offered as reassignment targets are the names that remain
    after the removal. *)
Lemma reassignCandidates_removeCategory name ty cats :
  reassignCandidates name ty cats = categoriesFor (removeCategory name ty cats) ty.
Proof. by rewrite categoriesFor_removeCategory. Qed.

Lemma defaultCategories_unique : uniqueCategories defaultCategories.
Proof. by apply (bool_decide_unpack _). Qed.
