(* ===== verification/MonthView.v ===== *)
(** The derived month view of [src/App.js]: [getFilteredTransactions],
    [getTotals], and [getGroupedTransactions] with its insertion ordered
    groups and its sort; a reference definition of the groups as the
    partition of the filtered list by key, and the proof that the loop
    computes it; the sums of the view under the laws of exact arithmetic
    and for whole amounts below the bound of [JSNumberWhole]. *)

From S2P Require Import Prelude JSNumber JSDate Ledger.

(** ** Data *)

(** The object [getTotals] returns. *)
Record Totals (T : Type) : Type := mkTotals {
  income : T;
  expense : T;
  balance : T;
}.
Arguments mkTotals {T}.
Arguments income {T}.
Arguments expense {T}.
Arguments balance {T}.

#[export] Instance Totals_eq_dec `{EqDecision T} : EqDecision (Totals T).
Proof. solve_decision. Defined.

(** A group of [getGroupedTransactions]. *)
Record Group (T : Type) : Type := mkGroup {
  g_key : string;
  g_category : string;
  g_type : TxType;
  g_total : T;
  g_transactions : list (Transaction T);
}.
Arguments mkGroup {T}.
Arguments g_key {T}.
Arguments g_category {T}.
Arguments g_type {T}.
Arguments g_total {T}.
Arguments g_transactions {T}.

#[export] Instance Group_eq_dec `{EqDecision T} : EqDecision (Group T).
Proof. solve_decision. Defined.

(** ** Operations *)

Section monthview.
Context {T : Type} `{JSNumber T}.
Implicit Types (t : Transaction T) (l ts : list (Transaction T)).
Implicit Types (g : Group T) (groups : list (Group T)).
Implicit Types (k : string) (ks : list string).

(** The test of [getFilteredTransactions]:
    [isSameMonth(t.dateISO, currentDate)]. *)
Definition inMonth (currentDate : JSDate) t : Prop :=
  isSameMonth (tx_dateISO t) currentDate = true.

#[export] Instance inMonth_dec currentDate t : Decision (inMonth currentDate t).
Proof. unfold inMonth. apply _. Defined.

(** [getFilteredTransactions()]. *)
Definition getFilteredTransactions (currentDate : JSDate) l
    : list (Transaction T) :=
  filter (inMonth currentDate) l.

(** [.reduce((acc, curr) => acc + Number(curr.amount), 0)]. *)
Definition sumAmounts ts : T :=
  fold_left (λ acc curr, num_add acc (tx_amount curr)) ts num_zero.

(** [getTotals()] on the filtered transactions. *)
Definition getTotals l : Totals T :=
  let income := sumAmounts (filter (λ t, tx_type t = Income) l) in
  let expense := sumAmounts (filter (λ t, tx_type t = Expense) l) in
  mkTotals income expense (num_sub income expense).

(** The key of a transaction's group: [`${t.type}-${t.category}`]. *)
Definition groupKey t : string :=
  type_name (tx_type t) +:+ "-" +:+ tx_category t.

(** The group created for the first transaction of a key. *)
Definition emptyGroup t : Group T :=
  mkGroup (groupKey t) (tx_category t) (tx_type t) num_zero [].

(** [groups[key].transactions.push(t); groups[key].total += t.amount]. *)
Definition pushTransaction t g : Group T :=
  mkGroup (g_key g) (g_category g) (g_type g)
    (num_add (g_total g) (tx_amount t)) (g_transactions g ++ [t]).

(** One round of the [forEach] loop on the groups in insertion order. *)
Fixpoint upsertGroup t groups : list (Group T) :=
  match groups with
  | [] => [pushTransaction t (emptyGroup t)]
  | g :: groups' =>
      if decide (g_key g = groupKey t) then pushTransaction t g :: groups'
      else g :: upsertGroup t groups'
  end.

(** The [forEach] loop, then [Object.values(groups)]. *)
Definition buildGroups l : list (Group T) :=
  fold_left (λ groups t, upsertGroup t groups) l [].

(** The comparator of the sort: income before expense, then the larger
    total first. *)
Definition compareGroups (a b : Group T) : Z :=
  if decide (g_type a ≠ g_type b)
  then (if decide (g_type a = Income) then -1 else 1)%Z
  else num_sgn (num_sub (g_total b) (g_total a)).

(** [getGroupedTransactions()] on the filtered transactions. *)
Definition getGroupedTransactions l : list (Group T) :=
  sortBy compareGroups (buildGroups l).

(** ** Reference definition of the groups *)

(** The group of key [k]: the transactions of that key in list order, their
    sum, and the category and type of the first of them. *)
Definition groupOf l k : Group T :=
  let ts := filter (λ t, groupKey t = k) l in
  mkGroup k (from_option tx_category "" (head ts))
    (from_option tx_type Expense (head ts)) (sumAmounts ts) ts.

(** One group per key, in the order in which the keys first occur. *)
Definition groupsSpec l : list (Group T) :=
  groupOf l <$> firstKeys (groupKey <$> l).

(** Income groups come before expense groups. *)
Definition typeRank (ty : TxType) : Z :=
  match ty with Income => 0 | Expense => 1 end.

(** ** Filtering *)

Lemma elem_of_getFilteredTransactions cd l t :
  t ∈ getFilteredTransactions cd l ↔
  t ∈ l ∧ getMonth (tx_dateISO t) = getMonth cd ∧
  getFullYear (tx_dateISO t) = getFullYear cd.
Proof.
  unfold getFilteredTransactions, inMonth.
  rewrite list_elem_of_filter, isSameMonth_true. tauto.
Qed.

(** C5: the filtered list is a sublist of the ledger, in ledger order, and
    holds exactly the transactions whose month and year are those of the
    reference date. *)
Theorem getFilteredTransactions_spec cd l :
  getFilteredTransactions cd l `sublist_of` l ∧
  ∀ t, t ∈ getFilteredTransactions cd l ↔
       t ∈ l ∧ getMonth (tx_dateISO t) = getMonth cd ∧
       getFullYear (tx_dateISO t) = getFullYear cd.
Proof.
  split; [apply sublist_filter|]. intros t.
  apply elem_of_getFilteredTransactions.
Qed.

Lemma getFilteredTransactions_idemp cd l :
  getFilteredTransactions cd (getFilteredTransactions cd l) =
  getFilteredTransactions cd l.
Proof.
  unfold getFilteredTransactions. by rewrite list_filter_filter_l.
Qed.

(** The view only depends on the month and year of the reference date. *)
Lemma getFilteredTransactions_same_month cd cd' l :
  isSameMonth cd cd' = true →
  getFilteredTransactions cd l = getFilteredTransactions cd' l.
Proof.
  intros [Hm Hy]%isSameMonth_true. apply list_filter_iff. intros t.
  unfold inMonth. rewrite !isSameMonth_true. by rewrite Hm, Hy.
Qed.

(** ** Sums *)

Lemma sumAmounts_reduce ts : sumAmounts ts = reduce_add (tx_amount <$> ts).
Proof.
  unfold sumAmounts, reduce_add. generalize (num_zero (T:=T)).
  induction ts as [|t ts IH]; intros a; simpl; [done|]. apply IH.
Qed.

Lemma sumAmounts_snoc ts t :
  sumAmounts (ts ++ [t]) = num_add (sumAmounts ts) (tx_amount t).
Proof. unfold sumAmounts. by rewrite fold_left_app. Qed.

(** ** Group keys *)

(** Two transactions have the same group key exactly when they have the
    same type and the same category: the keys do not collide. *)
Lemma groupKey_inj t t' :
  groupKey t = groupKey t' ↔
  tx_type t = tx_type t' ∧ tx_category t = tx_category t'.
Proof.
  unfold groupKey. split; [|by intros [-> ->]].
  destruct (tx_type t), (tx_type t'); simpl; intros [=]; done.
Qed.

Lemma groupKey_dependsOn t t' :
  groupKey t = groupKey t' ↔ dependsOn (tx_category t') (tx_type t') t.
Proof. rewrite groupKey_inj. unfold dependsOn. naive_solver. Qed.

(** ** The loop computes the reference groups *)

Lemma g_key_groupOf l k : g_key (groupOf l k) = k.
Proof. done. Qed.

Lemma groupOf_snoc_other l t k :
  k ≠ groupKey t → groupOf (l ++ [t]) k = groupOf l k.
Proof.
  intros Hk. unfold groupOf.
  rewrite filter_app, filter_cons_False, filter_nil, app_nil_r; naive_solver.
Qed.

Lemma groupOf_snoc_seen l t :
  groupKey t ∈ groupKey <$> l →
  groupOf (l ++ [t]) (groupKey t) = pushTransaction t (groupOf l (groupKey t)).
Proof.
  intros (t' & Hk & Hin)%list_elem_of_fmap. unfold groupOf, pushTransaction.
  rewrite filter_app, filter_cons_True, filter_nil by done. simpl.
  rewrite sumAmounts_snoc.
  destruct (filter (λ t0, groupKey t0 = groupKey t) l) as [|t0 ts] eqn:Hf;
    [|done].
  exfalso. by eapply (filter_nil_not_elem_of _ _ t'); [exact Hf| |exact Hin].
Qed.

Lemma groupOf_snoc_new l t :
  groupKey t ∉ groupKey <$> l →
  groupOf (l ++ [t]) (groupKey t) = pushTransaction t (emptyGroup t).
Proof.
  intros Hk. unfold groupOf, pushTransaction, emptyGroup.
  rewrite filter_app, filter_cons_True, filter_nil by done.
  rewrite filter_none; [done|]. apply Forall_forall. intros t' Hin Heq.
  apply Hk, list_elem_of_fmap. eauto.
Qed.

(** A round of the loop on reference groups whose keys include the new
    transaction's: the group of that key takes it, the others stay. *)
Lemma groupOf_snoc_others l t ks :
  groupKey t ∉ ks → groupOf (l ++ [t]) <$> ks = groupOf l <$> ks.
Proof.
  intros Hk. apply list_fmap_ext. intros i k Hi.
  apply groupOf_snoc_other. intros ->.
  apply Hk. by eapply list_elem_of_lookup_2.
Qed.

Lemma upsertGroup_seen l t ks :
  NoDup ks → groupKey t ∈ groupKey <$> l → groupKey t ∈ ks →
  upsertGroup t (groupOf l <$> ks) = groupOf (l ++ [t]) <$> ks.
Proof.
  intros Hnd Hl. induction Hnd as [|k ks Hk Hnd IH]; [by intros ?%elem_of_nil|].
  rewrite !fmap_cons. simpl. intros Hin.
  destruct (decide (k = groupKey t)) as [->|Hne].
  - by rewrite groupOf_snoc_seen, groupOf_snoc_others.
  - rewrite groupOf_snoc_other by done. f_equal. apply IH.
    apply elem_of_cons in Hin as [?|?]; [congruence|done].
Qed.

(** A round of the loop for a key no group has: a new group at the end. *)
Lemma upsertGroup_new l t ks :
  groupKey t ∉ ks →
  upsertGroup t (groupOf l <$> ks) =
  (groupOf l <$> ks) ++ [pushTransaction t (emptyGroup t)].
Proof.
  induction ks as [|k ks IH]; [done|].
  rewrite not_elem_of_cons, fmap_cons. intros [Hne Hk]. simpl.
  rewrite decide_False by done. by rewrite IH.
Qed.

Lemma buildGroups_snoc l t :
  buildGroups (l ++ [t]) = upsertGroup t (buildGroups l).
Proof. unfold buildGroups. by rewrite fold_left_app. Qed.

(** The [forEach] loop computes the reference groups. *)
Lemma buildGroups_groupsSpec l : buildGroups l = groupsSpec l.
Proof.
  induction l as [|t l IH] using rev_ind; [done|].
  rewrite buildGroups_snoc, IH. unfold groupsSpec.
  rewrite fmap_app. change (groupKey <$> [t]) with [groupKey t].
  rewrite firstKeys_snoc. case_decide as Hin.
  - apply upsertGroup_seen; [apply NoDup_firstKeys|done|].
    by apply elem_of_firstKeys.
  - assert (groupKey t ∉ firstKeys (groupKey <$> l)) as Hk
      by by rewrite elem_of_firstKeys.
    rewrite fmap_app, groupOf_snoc_others, upsertGroup_new by done. simpl.
    by rewrite groupOf_snoc_new.
Qed.

(** C6: [getGroupedTransactions] implements its reference definition: it
    returns the partition of the filtered list by group key, one group per
    key in the order in which the keys first occur, each with the
    transactions of its key in list order, their left to right sum as
    total and the category and type of the first of them, sorted by the
    comparator. *)
Theorem getGroupedTransactions_spec l :
  getGroupedTransactions l = sortBy compareGroups (groupsSpec l) ∧
  getGroupedTransactions l ≡ₚ groupsSpec l.
Proof.
  unfold getGroupedTransactions. rewrite buildGroups_groupsSpec.
  split; [done|apply sortBy_Permutation].
Qed.

(** ** What the groups hold *)

Lemma elem_of_buildGroups l g :
  g ∈ buildGroups l ↔ ∃ t, t ∈ l ∧ g = groupOf l (groupKey t).
Proof.
  rewrite buildGroups_groupsSpec. unfold groupsSpec. rewrite list_elem_of_fmap.
  setoid_rewrite elem_of_firstKeys. setoid_rewrite list_elem_of_fmap.
  naive_solver.
Qed.

(** No two groups have the same key. *)
Lemma buildGroups_keys_NoDup l : NoDup (g_key <$> buildGroups l).
Proof.
  rewrite buildGroups_groupsSpec. unfold groupsSpec.
  rewrite <-list_fmap_compose, (list_fmap_ext _ id); [|done].
  rewrite list_fmap_id. apply NoDup_firstKeys.
Qed.

(** C33: a group holds exactly the transactions of its key, in list order
    and at least one; its total is their left to right sum; and each of
    them has the group's type and category. *)
Theorem buildGroups_group l g :
  g ∈ buildGroups l →
  g_transactions g = filter (λ t, groupKey t = g_key g) l ∧
  g_transactions g ≠ [] ∧
  g_total g = sumAmounts (g_transactions g) ∧
  ∀ t, t ∈ g_transactions g →
       tx_type t = g_type g ∧ tx_category t = g_category g.
Proof.
  intros (t0 & Hin & ->)%elem_of_buildGroups. simpl.
  destruct (filter (λ t, groupKey t = groupKey t0) l) as [|t1 ts] eqn:Hf.
  { exfalso. by eapply (filter_nil_not_elem_of _ _ t0); [exact Hf| |]. }
  split_and!; [done..|]. simpl. intros t Ht.
  assert (t ∈ filter (λ t, groupKey t = groupKey t0) l) as Ht'
    by by rewrite Hf.
  assert (t1 ∈ filter (λ t, groupKey t = groupKey t0) l) as Ht1
    by (rewrite Hf; apply list_elem_of_here).
  apply list_elem_of_filter in Ht' as [Hk _], Ht1 as [Hk1 _].
  apply groupKey_inj. congruence.
Qed.

(** Every filtered transaction is in the group of its key, so the
    groups cover the filtered list. *)
Lemma buildGroups_cover l t :
  t ∈ l → ∃ g, g ∈ buildGroups l ∧ g_key g = groupKey t ∧ t ∈ g_transactions g.
Proof.
  intros Hin. exists (groupOf l (groupKey t)). split_and!; [|done|].
  - apply elem_of_buildGroups. eauto.
  - simpl. by apply list_elem_of_filter.
Qed.

(** The list is empty exactly when there is no filtered transaction,
    which is when the screen shows its empty state. *)
Lemma getGroupedTransactions_nil l : getGroupedTransactions l = [] ↔ l = [].
Proof.
  unfold getGroupedTransactions. rewrite sortBy_nil_iff. split; [|by intros ->].
  destruct l as [|t l]; [done|]. intros Hnil.
  assert (groupOf (t :: l) (groupKey t) ∈ buildGroups (t :: l)) as Hg
    by (apply elem_of_buildGroups; eexists; split; [apply list_elem_of_here|done]).
  rewrite Hnil in Hg. by apply elem_of_nil in Hg.
Qed.

(** ** The sort *)

(** The sorted list holds the same groups as the loop built, and
    income groups come before expense groups, for any arithmetic. *)
Lemma getGroupedTransactions_income_first l :
  getGroupedTransactions l ≡ₚ buildGroups l ∧
  Sorted (λ a b, typeRank (g_type a) ≤ typeRank (g_type b))%Z
    (getGroupedTransactions l).
Proof.
  split; [apply sortBy_Permutation|]. apply sortBy_Sorted.
  - intros a b. unfold compareGroups.
    destruct (g_type a), (g_type b); simpl; js_cases; lia.
  - intros a b. unfold compareGroups.
    destruct (g_type a), (g_type b); simpl; js_cases; lia.
Qed.

(** When swapping the operands of a subtraction flips its sign, the
    list is sorted by the comparator: each group goes before the next. *)
Lemma getGroupedTransactions_sorted `{!JSNumberCompare T} l :
  Sorted (λ a b, compareGroups a b ≤ 0)%Z (getGroupedTransactions l).
Proof.
  apply sortBy_Sorted; [done|]. intros a b. unfold compareGroups.
  rewrite (num_sgn_sub_antisym (g_total b)).
  destruct (g_type a), (g_type b); simpl; js_cases; lia.
Qed.

(** The order of the list said without the comparator: an income group
    is before an expense group, and of two groups of one type the first
    has a total that is not below the other's. *)
Definition groupBefore (a b : Group T) : Prop :=
  (g_type a = Income ∧ g_type b = Expense) ∨
  (g_type a = g_type b ∧ (num_sgn (num_sub (g_total b) (g_total a)) ≤ 0)%Z).

#[export] Instance groupBefore_dec a b : Decision (groupBefore a b).
Proof. unfold groupBefore. apply _. Defined.

Lemma compareGroups_le a b : (compareGroups a b ≤ 0)%Z → groupBefore a b.
Proof.
  unfold compareGroups, groupBefore.
  destruct (g_type a), (g_type b); js_cases; intros; (lia || tauto).
Qed.

Lemma compareGroups_gt `{!JSNumberCompare T} a b :
  (0 < compareGroups a b)%Z → groupBefore b a.
Proof.
  unfold compareGroups, groupBefore. rewrite (num_sgn_sub_antisym (g_total b)).
  destruct (g_type a), (g_type b); js_cases; intros;
    first [lia | tauto | right; split; [done|lia]].
Qed.

(** C7: the list of groups is in order.  [getGroupedTransactions] returns
    the groups the loop built, each once, with every income group before
    every expense group next to it and, within a type, every group
    followed by one whose total is not larger.  It needs of the
    arithmetic only that swapping the operands of a subtraction flips its
    sign, which holds of exact numbers and of doubles. *)
Theorem getGroupedTransactions_order `{!JSNumberCompare T} l :
  getGroupedTransactions l ≡ₚ buildGroups l ∧
  Sorted groupBefore (getGroupedTransactions l).
Proof.
  split; [apply sortBy_Permutation|].
  apply sortBy_Sorted; auto using compareGroups_le, compareGroups_gt.
Qed.


(** ** The transactions the groups show *)

(** The groups show the transactions of the list and no other. *)
Lemma elem_of_getGroupedTransactions l t :
  (∃ g, g ∈ getGroupedTransactions l ∧ t ∈ g_transactions g) ↔ t ∈ l.
Proof.
  unfold getGroupedTransactions. setoid_rewrite elem_of_sortBy. split.
  - intros (g & (t0 & _ & ->)%elem_of_buildGroups & Ht). simpl in Ht.
    by apply list_elem_of_filter in Ht as [_ ?].
  - intros Ht. destruct (buildGroups_cover l t Ht) as (g & ? & _ & ?). eauto.
Qed.

(** The counts on the groups add up to the number of transactions. *)
Lemma group_counts_sum l :
  sum_list ((λ g, length (g_transactions g)) <$> getGroupedTransactions l) =
  length l.
Proof.
  unfold getGroupedTransactions. rewrite sortBy_Permutation.
  rewrite buildGroups_groupsSpec. unfold groupsSpec.
  rewrite <-list_fmap_compose. apply length_partition; [apply NoDup_firstKeys|].
  intros t Ht. apply elem_of_firstKeys, list_elem_of_fmap. eauto.
Qed.

End monthview.

(** ** Sums of groups and totals, under the laws of exact arithmetic *)

Section monthview_laws.
Context {T : Type} `{JSNumberLaws T}.
Implicit Types (t : Transaction T) (l ts : list (Transaction T)).

Lemma sumAmounts_filter_snoc (P : Transaction T → Prop)
    `{∀ t, Decision (P t)} l t :
  sumAmounts (filter P (l ++ [t])) =
  if decide (P t) then num_add (sumAmounts (filter P l)) (tx_amount t)
  else sumAmounts (filter P l).
Proof.
  rewrite filter_app, filter_cons, filter_nil. case_decide.
  - apply sumAmounts_snoc.
  - by rewrite app_nil_r.
Qed.

(** The sums over the keys of a partition add up to the sum of the list. *)
Lemma sumAmounts_partition l (ks : list string) :
  NoDup ks → (∀ t, t ∈ l → groupKey t ∈ ks) →
  reduce_add ((λ k, sumAmounts (filter (λ t, groupKey t = k) l)) <$> ks)
  ≡ sumAmounts l.
Proof.
  intros Hnd. induction l as [|t l IH] using rev_ind; intros Hks.
  - clear Hnd Hks. induction ks as [|k ks IH]; [done|].
    rewrite fmap_cons, reduce_add_cons, IH. apply num_add_0_l.
  - assert (groupKey t ∈ ks) as Ht
      by (apply Hks, elem_of_app; right; apply list_elem_of_here).
    rewrite sumAmounts_snoc, <-IH
      by (intros t' Ht'; apply Hks, elem_of_app; by left).
    rewrite <-(reduce_add_update _ (groupKey t)) by done.
    apply reflexive_eq. f_equal. apply list_fmap_ext. intros i k _.
    rewrite sumAmounts_filter_snoc. by destruct (decide (groupKey t = k)),
      (decide (k = groupKey t)).
Qed.

(** The sum of a list is the income part plus the expense part. *)
Lemma sumAmounts_by_type l :
  sumAmounts l ≡
  num_add (sumAmounts (filter (λ t, tx_type t = Income) l))
          (sumAmounts (filter (λ t, tx_type t = Expense) l)).
Proof.
  induction l as [|t l IH] using rev_ind.
  - by rewrite num_add_0_l.
  - rewrite sumAmounts_snoc, !sumAmounts_filter_snoc, IH.
    destruct (tx_type t); simpl.
    + apply num_add_shuffle.
    + symmetry. apply num_add_assoc.
Qed.

(** Under the laws of exact arithmetic, the totals of the groups add
    up to the month's income plus its expense. *)
Lemma group_totals_sum l :
  reduce_add (g_total <$> getGroupedTransactions l) ≡
  num_add (income (getTotals l)) (expense (getTotals l)).
Proof.
  unfold getGroupedTransactions. rewrite sortBy_Permutation. simpl.
  rewrite <-sumAmounts_by_type, buildGroups_groupsSpec. unfold groupsSpec.
  rewrite <-list_fmap_compose. apply sumAmounts_partition.
  - apply NoDup_firstKeys.
  - intros t Ht. apply elem_of_firstKeys, list_elem_of_fmap. eauto.
Qed.

(** The income total does not depend on the order of the ledger. *)
Lemma sumAmounts_perm : Proper ((≡ₚ) ==> (≡)) (sumAmounts (T:=T)).
Proof. intros l1 l2 Hp. rewrite !sumAmounts_reduce. by rewrite Hp. Qed.

End monthview_laws.

(** ** Sums of groups and totals of whole amounts *)

(** On numbers that add whole numbers exactly below a bound (doubles
    do, below 2^53), the sums of the view are the numbers of the sums of
    the amounts as integers, in whatever order the code adds them. *)

Section monthview_whole.
Context {T : Type} `{JSNumberWhole T}.
#[local] Open Scope Z_scope.
Implicit Types (t : Transaction T) (l ts : list (Transaction T)).

(** The integer of a transaction's amount. *)
Definition wholeAmount t : Z := num_to_Z (tx_amount t).

(** Every amount is a whole number. *)
Definition wholeAmounts l : Prop :=
  Forall (λ t, tx_amount t = num_of_Z (wholeAmount t)) l.

(** The sum of the absolute values of the amounts. *)
Definition magnitude l : Z := Zsum (Z.abs ∘ wholeAmount) l.

Lemma fold_add_whole (zs : list Z) : ∀ acc,
  Z.abs acc + Zsum Z.abs zs < num_whole_bound →
  fold_left num_add (num_of_Z <$> zs) (num_of_Z acc) = num_of_Z (acc + Zsum id zs).
Proof.
  induction zs as [|z zs IH]; intros acc Hb; csimpl.
  { by rewrite Z.add_0_r. }
  simpl in Hb. pose proof (Zsum_nonneg Z.abs zs Z.abs_nonneg).
  rewrite num_add_of_Z, IH by lia. f_equal. unfold id. lia.
Qed.

(** Whole numbers below the bound in all add up to the number of their
    sum. *)
Lemma reduce_add_whole (zs : list Z) :
  Zsum Z.abs zs < num_whole_bound →
  reduce_add (num_of_Z <$> zs) = num_of_Z (Zsum id zs).
Proof.
  intros Hb. unfold reduce_add. rewrite <-num_of_Z_0.
  by rewrite fold_add_whole by (simpl; lia).
Qed.

Lemma wholeAmounts_fmap ts :
  wholeAmounts ts → tx_amount <$> ts = num_of_Z <$> (wholeAmount <$> ts).
Proof.
  intros Hw. rewrite <-list_fmap_compose. apply Forall_fmap_ext_1.
  exact Hw.
Qed.

(** The sum of whole amounts is the number of their sum. *)
Lemma sumAmounts_whole ts :
  wholeAmounts ts → magnitude ts < num_whole_bound →
  sumAmounts ts = num_of_Z (Zsum wholeAmount ts).
Proof.
  intros Hw Hb. rewrite sumAmounts_reduce, wholeAmounts_fmap by done.
  rewrite reduce_add_whole, Zsum_fmap; [done|]. by rewrite Zsum_fmap.
Qed.

(** The total of a group of the list is the number of the sum of its
    amounts. *)
Lemma g_total_whole l g :
  wholeAmounts l → magnitude l < num_whole_bound → g ∈ buildGroups l →
  g_total g = num_of_Z (Zsum wholeAmount (g_transactions g)).
Proof.
  intros Hw Hb. rewrite buildGroups_groupsSpec. unfold groupsSpec.
  intros (k & -> & _)%list_elem_of_fmap. simpl.
  apply sumAmounts_whole; [by apply Forall_filter|].
  eapply Z.le_lt_trans; [apply Zsum_filter_le|done]. intros t. apply Z.abs_nonneg.
Qed.

(** What is added over the groups is added over the list. *)
Lemma groups_Zsum (h : Transaction T → Z) l :
  Zsum (λ g, Zsum h (g_transactions g)) (getGroupedTransactions l) = Zsum h l.
Proof.
  unfold getGroupedTransactions.
  rewrite sortBy_Permutation, buildGroups_groupsSpec. unfold groupsSpec.
  rewrite Zsum_fmap. apply (Zsum_partition h groupKey); [apply NoDup_firstKeys|].
  intros t Ht. apply elem_of_firstKeys, list_elem_of_fmap. eauto.
Qed.

(** The totals of the groups, as the numbers of their sums. *)
Lemma group_totals_whole l :
  wholeAmounts l → magnitude l < num_whole_bound →
  g_total <$> getGroupedTransactions l =
  num_of_Z <$> ((λ g, Zsum wholeAmount (g_transactions g)) <$> getGroupedTransactions l).
Proof.
  intros Hw Hb. rewrite <-list_fmap_compose. apply Forall_fmap_ext_1, Forall_forall.
  intros g Hg%elem_of_sortBy. by apply (g_total_whole l).
Qed.

(** Income and expense, as the numbers of their sums. *)
Lemma getTotals_whole l :
  wholeAmounts l → magnitude l < num_whole_bound →
  num_add (income (getTotals l)) (expense (getTotals l)) =
  num_of_Z (Zsum wholeAmount l).
Proof.
  intros Hw Hb. unfold getTotals. simpl.
  pose proof (Zsum_filter_le (Z.abs ∘ wholeAmount) (λ t, tx_type t = Income) l
                ltac:(intros; apply Z.abs_nonneg)) as Hi.
  pose proof (Zsum_filter_le (Z.abs ∘ wholeAmount) (λ t, tx_type t = Expense) l
                ltac:(intros; apply Z.abs_nonneg)) as He.
  pose proof (Zsum_abs wholeAmount (filter (λ t, tx_type t = Income) l)).
  pose proof (Zsum_abs wholeAmount (filter (λ t, tx_type t = Expense) l)).
  unfold magnitude in Hb.
  rewrite !sumAmounts_whole, num_add_of_Z
    by (try apply Forall_filter; unfold magnitude; (done || lia)).
  f_equal. rewrite <-(Zsum_filter_complement wholeAmount (λ t, tx_type t = Income) l).
  do 2 f_equal. apply list_filter_iff. intros t. by destruct (tx_type t).
Qed.

(** The totals of the groups add up to the number of the sum of the
    amounts when the amounts are whole numbers whose absolute values stay
    below the bound in all. *)
Lemma group_totals_sum_whole l :
  wholeAmounts l → magnitude l < num_whole_bound →
  reduce_add (g_total <$> getGroupedTransactions l) = num_of_Z (Zsum wholeAmount l).
Proof.
  intros Hw Hb. rewrite group_totals_whole by done.
  rewrite reduce_add_whole, Zsum_fmap; [f_equal; exact (groups_Zsum wholeAmount l)|].
  rewrite Zsum_fmap. eapply Z.le_lt_trans; [|exact Hb].
  unfold magnitude. rewrite <-(groups_Zsum (Z.abs ∘ wholeAmount) l).
  apply Zsum_le. intros g _. apply Zsum_abs.
Qed.

End monthview_whole.

(** ** The view of March 2025 *)

Lemma buildGroups_group_witness :
  let g := groupOf marchLedger "Expense-Food" in
  g_transactions g = filter (λ t, groupKey t = g_key g) marchLedger ∧
  g_transactions g ≠ [] ∧
  g_total g = sumAmounts (g_transactions g) ∧
  ∀ t, t ∈ g_transactions g →
       tx_type t = g_type g ∧ tx_category t = g_category g.
Proof.
  exact (buildGroups_group marchLedger (groupOf marchLedger "Expense-Food")
           ltac:(by apply (bool_decide_unpack _))).
Defined.

Lemma buildGroups_cover_witness :
  ∃ g, g ∈ buildGroups marchLedger ∧ g_key g = groupKey salaryMarch ∧
       salaryMarch ∈ g_transactions g.
Proof.
  exact (buildGroups_cover marchLedger salaryMarch
           ltac:(by apply (bool_decide_unpack _))).
Defined.

Lemma getGroupedTransactions_sorted_witness :
  Sorted (λ a b, compareGroups a b ≤ 0)%Z (getGroupedTransactions marchLedger).
Proof. exact (getGroupedTransactions_sorted marchLedger). Defined.

(** Food and transport both come to 50 in March 2025: the two groups tie
    and stay in the order of the ledger, after the salary's. *)
Definition ticketsMarch : Transaction xnum :=
  mkTransaction "1741000120000" (mkDate 2025 2 4 0) "3/4/2025" Expense
    (XFin (QArith_base.inject_Z 50)) "Transport" "tickets".

Definition tiedAt50 (g : Group xnum) : Prop :=
  g_type g = Expense ∧ g_total g = XFin (QArith_base.inject_Z 50).

#[local] Instance tiedAt50_dec g : Decision (tiedAt50 g).
Proof. unfold tiedAt50. apply _. Defined.

Lemma getGroupedTransactions_order_witness :
  getGroupedTransactions marchLedger ≡ₚ buildGroups marchLedger ∧
  Sorted groupBefore (getGroupedTransactions marchLedger).
Proof. exact (getGroupedTransactions_order marchLedger). Defined.


Example tied_groups_in_ledger_order :
  g_key <$> getGroupedTransactions [foodMarch; ticketsMarch; salaryMarch] =
    ["Income-Salary"; "Expense-Food"; "Expense-Transport"] ∧
  g_key <$> getGroupedTransactions [ticketsMarch; foodMarch; salaryMarch] =
    ["Income-Salary"; "Expense-Transport"; "Expense-Food"].
Proof. by vm_compute. Qed.

Lemma group_totals_sum_witness :
  reduce_add (g_total <$> getGroupedTransactions marchLedger) ≡
  num_add (income (getTotals marchLedger)) (expense (getTotals marchLedger)).
Proof. exact (group_totals_sum marchLedger). Defined.

(** The view of March 2025 on the ledger with a salary of 1000 and a
    meal of 50: both transactions are shown, the totals are 1000, 50 and
    950, and there are two groups, the salary's before the meal's although
    the meal comes first in the ledger. *)
Example march_2025_view :
  let shown := getFilteredTransactions (mkDate 2025 2 20 0) marchLedger in
  shown = marchLedger ∧
  getFilteredTransactions (mkDate 2025 3 20 0) marchLedger = [] ∧
  getTotals shown =
    mkTotals (XFin (QArith_base.inject_Z 1000)) (XFin (QArith_base.inject_Z 50))
      (XFin (QArith_base.inject_Z 950)) ∧
  (λ g, (g_key g, g_total g, g_transactions g)) <$> getGroupedTransactions shown =
    [("Income-Salary", XFin (QArith_base.inject_Z 1000), [salaryMarch]);
     ("Expense-Food", XFin (QArith_base.inject_Z 50), [foodMarch])].
Proof. by vm_compute. Qed.
