(* ===== verification/Resolver.v ===== *)
(** Category deletion in [src/App.js]: [handleDeleteCategoryInitiation],
    [executeCategoryDeletion], and the buttons of the confirmation alert
    and of the Delete Category modal, on the part of the component state
    they read and write; the phases of a deletion request as a step
    relation; the integrity of category references. *)

From S2P Require Import Prelude JSNumber JSDate Ledger Registry.

(** ** State *)

(** The [categoryToDelete] state: [{ name, type }]. *)
Record CategoryRef : Type := mkCategoryRef {
  cr_name : string;
  cr_type : TxType;
}.

#[export] Instance CategoryRef_eq_dec : EqDecision CategoryRef.
Proof. solve_decision. Defined.

(** The [action] argument of [executeCategoryDeletion]. *)
Inductive DeletionAction : Set := ActDelete | ActReassign.

(** The state cells the deletion handlers use.  The ledger is an array
    and the registry an object: what the cell holds is a reference, and a
    setter that is given a new array or object ([[...transactions]], the
    result of [filter] or [map], a spread) stores a new reference whatever
    the contents.  [transactionsRef] and [categoriesRef] number the
    references: each call of the setter counts one up. *)
Record Store (T : Type) : Type := mkStore {
  transactions : list (Transaction T);
  categories : Categories;
  newTransaction : NewTransaction;
  deleteModalVisible : bool;
  categoryToDelete : option CategoryRef;
  reassignCategory : string;
  transactionsRef : nat;
  categoriesRef : nat;
}.
Arguments mkStore {T}.
Arguments transactions {T}.
Arguments categories {T}.
Arguments newTransaction {T}.
Arguments deleteModalVisible {T}.
Arguments categoryToDelete {T}.
Arguments reassignCategory {T}.
Arguments transactionsRef {T}.
Arguments categoriesRef {T}.

(** The confirmation alert of a category without transactions.  Its Delete
    button calls the [executeCategoryDeletion] of the render that opened
    the alert, which closes over the state of that render. *)
Record ConfirmAlert (T : Type) : Type := mkConfirmAlert {
  ca_category : CategoryRef;
  ca_seen : Store T;
}.
Arguments mkConfirmAlert {T}.
Arguments ca_category {T}.
Arguments ca_seen {T}.

(** A store and the alert that may be open over it. *)
Record Resolver (T : Type) : Type := mkResolver {
  store : Store T;
  confirmAlert : option (ConfirmAlert T);
}.
Arguments mkResolver {T}.
Arguments store {T}.
Arguments confirmAlert {T}.

(** The phase of a deletion request. *)
Inductive Phase : Set := Idle | SimpleConfirm | ConflictResolution.

(** What the user can do to a deletion request. *)
Inductive ResolverEvent : Type :=
  | LongPressCategory (categoryName : string)
  | AlertCancel
  | AlertDelete
  | ModalDeleteAll
  | ModalSelectTarget (cat : string)
  | ModalReassign
  | ModalCancel
  | ModalRequestClose.

#[export] Instance ResolverEvent_eq_dec : EqDecision ResolverEvent.
Proof. solve_decision. Defined.

(** ** Handlers *)

Section resolver.
Context {T : Type} `{JSNumber T}.
Implicit Types (st seen : Store T) (r : Resolver T).
Implicit Types (categoryName : string) (type : TxType).

(** [{ ...prev, category: '' }] on the form. *)
Definition clearFormCategory (form : NewTransaction) : NewTransaction :=
  mkNewTransaction (nt_type form) (nt_amount form) "" (nt_note form).

(** The reset at the end of [executeCategoryDeletion] and in the Cancel
    button of the modal. *)
Definition closeDeleteModal st : Store T :=
  mkStore (transactions st) (categories st) (newTransaction st) false None ""
    (transactionsRef st) (categoriesRef st).

(** [handleDeleteCategoryInitiation(categoryName)]: with transactions on the
    category the modal opens, without any the confirmation alert does. *)
Definition handleDeleteCategoryInitiation categoryName st : Resolver T :=
  let type := nt_type (newTransaction st) in
  if hasTransactions categoryName type (transactions st) then
    mkResolver
      (mkStore (transactions st) (categories st) (newTransaction st) true
         (Some (mkCategoryRef categoryName type)) (reassignCategory st)
         (transactionsRef st) (categoriesRef st))
      None
  else
    mkResolver st (Some (mkConfirmAlert (mkCategoryRef categoryName type) st)).

(** [executeCategoryDeletion(categoryName, type, action)] as called from a
    render that saw the state [seen], applied to the current state [st]:
    values read from the closure come from [seen], functional updates
    apply to [st]. *)
Definition executeCategoryDeletion seen categoryName type
    (action : DeletionAction) st : ValidationError + Store T :=
  let updated :=
    match action with
    | ActDelete =>
        inr (deleteCategoryTransactions categoryName type (transactions seen))
    | ActReassign =>
        if negb (truthy (reassignCategory seen)) then inl NoReassignTarget
        else inr (reassignTransactions categoryName type
                    (reassignCategory seen) (transactions seen))
    end in
  match updated with
  | inl e => inl e
  | inr updatedTransactions =>
      inr (mkStore updatedTransactions
             (removeCategory categoryName type (categories st))
             (if decide (nt_category (newTransaction seen) = categoryName)
              then clearFormCategory (newTransaction st)
              else newTransaction st)
             false None "" (S (transactionsRef st)) (S (categoriesRef st)))
  end.

(** A handler that fails leaves the state as it is. *)
Definition orUnchanged st (res : ValidationError + Store T) : Store T :=
  match res with inl _ => st | inr st' => st' end.

(** The phase a state is in. *)
Definition phase r : Phase :=
  match confirmAlert r with
  | Some _ => SimpleConfirm
  | None => if deleteModalVisible (store r) then ConflictResolution else Idle
  end.

(** What an event does; [None] when the control is not on screen or is
    disabled in the current phase. *)
Definition resolverStep (e : ResolverEvent) r : option (Resolver T) :=
  let st := store r in
  match phase r, e with
  | Idle, LongPressCategory categoryName =>
      if includes categoryName (categoriesFor (categories st) (nt_type (newTransaction st)))
      then Some (handleDeleteCategoryInitiation categoryName st)
      else None
  | SimpleConfirm, AlertCancel => Some (mkResolver st None)
  | SimpleConfirm, AlertDelete =>
      match confirmAlert r with
      | Some a =>
          Some (mkResolver
            (orUnchanged st
               (executeCategoryDeletion (ca_seen a) (cr_name (ca_category a))
                  (cr_type (ca_category a)) ActDelete st))
            None)
      | None => None
      end
  | ConflictResolution, ModalDeleteAll =>
      match categoryToDelete st with
      | Some c =>
          Some (mkResolver
            (orUnchanged st
               (executeCategoryDeletion st (cr_name c) (cr_type c) ActDelete st))
            None)
      | None => None
      end
  | ConflictResolution, ModalSelectTarget cat =>
      match categoryToDelete st with
      | Some c =>
          if includes cat (reassignCandidates (cr_name c) (cr_type c) (categories st))
          then Some (mkResolver
                 (mkStore (transactions st) (categories st) (newTransaction st)
                    (deleteModalVisible st) (categoryToDelete st) cat
                    (transactionsRef st) (categoriesRef st))
                 None)
          else None
      | None => None
      end
  | ConflictResolution, ModalReassign =>
      match categoryToDelete st with
      | Some c =>
          if truthy (reassignCategory st)
          then Some (mkResolver
                 (orUnchanged st
                    (executeCategoryDeletion st (cr_name c) (cr_type c)
                       ActReassign st))
                 None)
          else None
      | None => None
      end
  | ConflictResolution, ModalCancel => Some (mkResolver (closeDeleteModal st) None)
  | ConflictResolution, ModalRequestClose =>
      Some (mkResolver
        (mkStore (transactions st) (categories st) (newTransaction st) false
           (categoryToDelete st) (reassignCategory st)
           (transactionsRef st) (categoriesRef st))
        None)
  | _, _ => None
  end.

(** The step relation of the deletion request. *)
Inductive step : Resolver T → ResolverEvent → Resolver T → Prop :=
  | step_event e r r' : resolverStep e r = Some r' → step r e r'.

(** Runs: sequences of events from one state to another. *)
Inductive steps : Resolver T → list ResolverEvent → Resolver T → Prop :=
  | steps_nil r : steps r [] r
  | steps_cons r e r' es r'' : step r e r' → steps r' es r'' → steps r (e :: es) r''.

(** Running a list of events, for evaluation. *)
Fixpoint run (es : list ResolverEvent) r : option (Resolver T) :=
  match es with
  | [] => Some r
  | e :: es' =>
      match resolverStep e r with
      | Some r' => run es' r'
      | None => None
      end
  end.

(** ** Integrity *)

(** Every transaction's category is listed for the transaction's type. *)
Definition referencesLive (txs : list (Transaction T)) (cats : Categories) : Prop :=
  Forall (λ t, tx_category t ∈ categoriesFor cats (tx_type t)) txs.

#[export] Instance referencesLive_dec txs cats : Decision (referencesLive txs cats).
Proof. unfold referencesLive. apply _. Defined.

(** The reassignment target, when one is selected, is one of the chips the
    modal offers for the category being deleted. *)
Definition targetOffered st : Prop :=
  reassignCategory st = "" ∨
  ∃ c, categoryToDelete st = Some c ∧ deleteModalVisible st = true ∧
       reassignCategory st ∈ reassignCandidates (cr_name c) (cr_type c) (categories st).

(** An open alert saw the state as it still is. *)
Definition alertFresh r : Prop :=
  match confirmAlert r with
  | Some a => ca_seen a = store r
  | None => True
  end.

(** The invariant of the deletion request. *)
Definition resolverInv r : Prop :=
  referencesLive (transactions (store r)) (categories (store r)) ∧
  targetOffered (store r) ∧ alertFresh r.

(** ** Initiation *)

(** C36: a deletion request for a category with transactions opens the
    modal with the category and the form's type recorded; one for a
    category without transactions opens the confirmation alert; neither
    changes ledger, registry or form. *)
Theorem handleDeleteCategoryInitiation_spec categoryName st :
  let r := handleDeleteCategoryInitiation categoryName st in
  let type := nt_type (newTransaction st) in
  transactions (store r) = transactions st ∧
  categories (store r) = categories st ∧
  newTransaction (store r) = newTransaction st ∧
  reassignCategory (store r) = reassignCategory st ∧
  if hasTransactions categoryName type (transactions st)
  then confirmAlert r = None ∧ deleteModalVisible (store r) = true ∧
       categoryToDelete (store r) = Some (mkCategoryRef categoryName type)
  else store r = st ∧
       confirmAlert r = Some (mkConfirmAlert (mkCategoryRef categoryName type) st).
Proof.
  unfold handleDeleteCategoryInitiation. simpl. by case_match.
Qed.

(** ** Execution *)

Lemma executeCategoryDeletion_delete seen categoryName type st :
  executeCategoryDeletion seen categoryName type ActDelete st =
  inr (mkStore
         (deleteCategoryTransactions categoryName type (transactions seen))
         (removeCategory categoryName type (categories st))
         (if decide (nt_category (newTransaction seen) = categoryName)
          then clearFormCategory (newTransaction st) else newTransaction st)
         false None "" (S (transactionsRef st)) (S (categoriesRef st))).
Proof. done. Qed.

Lemma executeCategoryDeletion_reassign seen categoryName type st :
  reassignCategory seen ≠ "" →
  executeCategoryDeletion seen categoryName type ActReassign st =
  inr (mkStore
         (reassignTransactions categoryName type (reassignCategory seen)
            (transactions seen))
         (removeCategory categoryName type (categories st))
         (if decide (nt_category (newTransaction seen) = categoryName)
          then clearFormCategory (newTransaction st) else newTransaction st)
         false None "" (S (transactionsRef st)) (S (categoriesRef st))).
Proof.
  intros Ht. unfold executeCategoryDeletion.
  by rewrite (proj2 (truthy_true _) Ht).
Qed.

(** Reassignment without a target fails with the alert's error. *)
Lemma executeCategoryDeletion_no_target seen categoryName type st :
  reassignCategory seen = "" →
  executeCategoryDeletion seen categoryName type ActReassign st =
  inl NoReassignTarget.
Proof.
  intros Ht. unfold executeCategoryDeletion.
  by rewrite (proj2 (truthy_false _) Ht).
Qed.

(** C37: [executeCategoryDeletion] fails exactly when it is asked to
    reassign and no target is selected, and then with the error of the
    "Please select a category" alert; deleting never fails. *)
Theorem executeCategoryDeletion_error seen categoryName type action st e :
  executeCategoryDeletion seen categoryName type action st = inl e ↔
  action = ActReassign ∧ reassignCategory seen = "" ∧ e = NoReassignTarget.
Proof.
  destruct action.
  - rewrite executeCategoryDeletion_delete. naive_solver.
  - destruct (decide (reassignCategory seen = "")) as [He|He].
    + rewrite executeCategoryDeletion_no_target by done. naive_solver.
    + rewrite executeCategoryDeletion_reassign by done. naive_solver.
Qed.

(** Deleting a category that has no transactions removes it from the
    registry and leaves the ledger as it is. *)
Lemma executeCategoryDeletion_no_dependents categoryName type st st' :
  hasTransactions categoryName type (transactions st) = false →
  executeCategoryDeletion st categoryName type ActDelete st = inr st' →
  transactions st' = transactions st ∧
  categoryName ∉ categoriesFor (categories st') type.
Proof.
  rewrite executeCategoryDeletion_delete. intros Hno [= <-]. simpl.
  split; [by apply deleteCategoryTransactions_none|].
  apply removeCategory_not_elem.
Qed.

(** C9: the delete choice removes exactly the dependents and the category:
    the ledger shrinks by the number of dependents, none is left, and the
    name is gone from the registry. *)
Theorem executeCategoryDeletion_delete_all categoryName type st st' :
  executeCategoryDeletion st categoryName type ActDelete st = inr st' →
  length (transactions st') + length (dependents categoryName type (transactions st))
    = length (transactions st) ∧
  hasTransactions categoryName type (transactions st') = false ∧
  categoryName ∉ categoriesFor (categories st') type.
Proof.
  rewrite executeCategoryDeletion_delete. intros [= <-]. simpl. split_and!.
  - apply deleteCategoryTransactions_length.
  - apply deleteCategoryTransactions_clean.
  - apply removeCategory_not_elem.
Qed.

(** C10: the reassign choice with a target other than the category keeps
    the ledger's length, leaves no transaction on the category, adds its
    dependents to the target's, and removes the name from the registry. *)
Theorem executeCategoryDeletion_reassign_spec categoryName type st st' :
  reassignCategory st ≠ categoryName →
  executeCategoryDeletion st categoryName type ActReassign st = inr st' →
  length (transactions st') = length (transactions st) ∧
  dependents categoryName type (transactions st') = [] ∧
  length (dependents (reassignCategory st) type (transactions st')) =
    length (dependents (reassignCategory st) type (transactions st)) +
    length (dependents categoryName type (transactions st)) ∧
  categoryName ∉ categoriesFor (categories st') type.
Proof.
  intros Hne. destruct (decide (reassignCategory st = "")) as [He|He].
  { by rewrite executeCategoryDeletion_no_target. }
  rewrite executeCategoryDeletion_reassign by done. intros [= <-]. simpl.
  destruct (reassignTransactions_moves categoryName type
              (reassignCategory st) (transactions st) Hne) as [Hnil Hlen].
  split_and!; [apply length_fmap|done..|apply removeCategory_not_elem].
Qed.

(** On success the form's category is cleared exactly when it was the
    deleted one, the modal is closed and the target forgotten. *)
Lemma executeCategoryDeletion_resets categoryName type action st st' :
  executeCategoryDeletion st categoryName type action st = inr st' →
  newTransaction st' =
    (if decide (nt_category (newTransaction st) = categoryName)
     then clearFormCategory (newTransaction st) else newTransaction st) ∧
  deleteModalVisible st' = false ∧ categoryToDelete st' = None ∧
  reassignCategory st' = "".
Proof.
  unfold executeCategoryDeletion. destruct action; [|case_match];
    by intros [= <-].
Qed.

(** ** Integrity is preserved *)

Lemma referencesLive_delete categoryName type txs cats :
  referencesLive txs cats →
  referencesLive (deleteCategoryTransactions categoryName type txs)
    (removeCategory categoryName type cats).
Proof.
  unfold referencesLive. rewrite !Forall_forall.
  intros Hlive t [Hin Hnd]%elem_of_deleteCategoryTransactions.
  apply elem_of_removeCategory. split; [by apply Hlive|].
  intros Hty Hc. by apply Hnd.
Qed.

Lemma referencesLive_reassign categoryName type target txs cats :
  referencesLive txs cats →
  target ∈ reassignCandidates categoryName type cats →
  referencesLive (reassignTransactions categoryName type target txs)
    (removeCategory categoryName type cats).
Proof.
  unfold referencesLive, reassignTransactions.
  rewrite Forall_fmap, !Forall_forall.
  intros Hlive [Ht Hne]%elem_of_reassignCandidates t Hin. simpl.
  apply elem_of_removeCategory. case_decide as Hd; simpl.
  - destruct Hd as [_ ->]. done.
  - split; [by apply Hlive|]. intros Hty Hc. by apply Hd.
Qed.

(** The state an execution produces satisfies the invariant when the
    target it used, if any, was one of the chips offered. *)
Lemma executeCategoryDeletion_inv categoryName type action st st' :
  referencesLive (transactions st) (categories st) →
  (action = ActReassign →
   reassignCategory st ∈ reassignCandidates categoryName type (categories st)) →
  executeCategoryDeletion st categoryName type action st = inr st' →
  resolverInv (mkResolver st' None).
Proof.
  intros Hlive Htarget Hex. destruct action.
  - rewrite executeCategoryDeletion_delete in Hex. simplify_eq.
    split_and!; [|by left|done]. by apply referencesLive_delete.
  - destruct (decide (reassignCategory st = "")) as [He|He].
    { by rewrite executeCategoryDeletion_no_target in Hex. }
    rewrite executeCategoryDeletion_reassign in Hex by done. simplify_eq.
    split_and!; [|by left|done].
    by apply referencesLive_reassign; [|apply Htarget].
Qed.

(** In the idle phase no target is selected. *)
Lemma targetOffered_idle r :
  targetOffered (store r) → phase r = Idle → reassignCategory (store r) = "".
Proof.
  unfold phase. intros [?|(c & _ & Hv & _)]; [done|].
  rewrite Hv. by case_match.
Qed.

Lemma phase_conflict r :
  phase r = ConflictResolution →
  confirmAlert r = None ∧ deleteModalVisible (store r) = true.
Proof. unfold phase. by repeat case_match. Qed.

Lemma phase_confirm r :
  phase r = SimpleConfirm → ∃ a, confirmAlert r = Some a.
Proof. unfold phase. repeat case_match; naive_solver. Qed.

(** The invariant after the initiation handler, from the idle phase. *)
Lemma handleDeleteCategoryInitiation_inv categoryName r :
  resolverInv r → phase r = Idle →
  resolverInv (handleDeleteCategoryInitiation categoryName (store r)).
Proof.
  intros (Hlive & Htarget & _) Hph.
  pose proof (targetOffered_idle _ Htarget Hph) as Hempty.
  unfold handleDeleteCategoryInitiation.
  case_match; (split_and!; [done|by left|done]).
Qed.

(** The invariant after a button that calls [executeCategoryDeletion]. *)
Lemma orUnchanged_inv categoryName type action st :
  referencesLive (transactions st) (categories st) → targetOffered st →
  (action = ActReassign →
   reassignCategory st ∈ reassignCandidates categoryName type (categories st)) →
  resolverInv (mkResolver
    (orUnchanged st (executeCategoryDeletion st categoryName type action st))
    None).
Proof.
  intros Hlive Htarget Hin.
  destruct (executeCategoryDeletion st categoryName type action st) eqn:Hex.
  - by split_and!.
  - by eapply executeCategoryDeletion_inv.
Qed.

#[local] Arguments executeCategoryDeletion : simpl never.
#[local] Arguments handleDeleteCategoryInitiation : simpl never.

(** Every event except the modal's close request keeps the invariant. *)
Lemma resolverStep_inv e r r' :
  e ≠ ModalRequestClose → resolverStep e r = Some r' →
  resolverInv r → resolverInv r'.
Proof.
  intros He Hstep Hinv. pose proof Hinv as (Hlive & Htarget & Hfresh).
  unfold resolverStep in Hstep.
  destruct (phase r) eqn:Hph, e; lazy beta iota zeta in Hstep; try done;
    repeat (case_match; try done); apply (inj Some) in Hstep as <-.
  - by apply handleDeleteCategoryInitiation_inv.
  - by split_and!.
  - unfold alertFresh in Hfresh.
    match goal with Ha : confirmAlert r = Some _ |- _ => rewrite Ha in Hfresh end.
    rewrite Hfresh. by apply orUnchanged_inv.
  - by apply orUnchanged_inv.
  - apply phase_conflict in Hph as [_ Hv]. split_and!; [done| |done].
    right. eexists. split_and!; [done..|]. by apply includes_true.
  - apply orUnchanged_inv; [done..|]. intros _.
    destruct Htarget as [Hempty|(c' & Hc' & _ & Hin)]; [|by simplify_eq].
    match goal with Ht : truthy _ = true |- _ => by apply truthy_true in Ht end.
  - split_and!; [done|by left|done].
Qed.

(** C11: along any run without a close request the invariant holds:
    category references stay live, a selected target is one of the chips
    offered, and an open alert has seen the current state. *)
Theorem steps_inv r es r' :
  ModalRequestClose ∉ es → steps r es r' → resolverInv r → resolverInv r'.
Proof.
  intros Hes Hsteps.
  induction Hsteps as [|r e r' es r'' [e0 r0 r0' Hstep] _ IH]; [done|].
  apply not_elem_of_cons in Hes as [He Hes]. intros Hinv.
  apply IH; [done|]. by eapply resolverStep_inv.
Qed.

Lemma run_steps es r r' : run es r = Some r' ↔ steps r es r'.
Proof.
  split.
  - revert r. induction es as [|e es IH]; intros r; simpl.
    + intros [= ->]. constructor.
    + destruct (resolverStep e r) as [r1|] eqn:He; [|done].
      intros Hrun. econstructor; [by constructor|by apply IH].
  - induction 1 as [|r e r1 es r2 [e0 r0 r0' He] _ IH]; [done|].
    simpl. by rewrite He.
Qed.

(** ** The category selected in the form *)

(** The category selected in the form, when there is one, is listed for the
    form's type. *)
Definition formListed st : Prop :=
  nt_category (newTransaction st) = "" ∨
  nt_category (newTransaction st) ∈
    categoriesFor (categories st) (nt_type (newTransaction st)).

Lemma formListed_execute categoryName type action st st' :
  formListed st →
  executeCategoryDeletion st categoryName type action st = inr st' →
  formListed st'.
Proof.
  intros Hform Hex.
  assert (formListed (mkStore (transactions st')
    (removeCategory categoryName type (categories st))
    (if decide (nt_category (newTransaction st) = categoryName)
     then clearFormCategory (newTransaction st) else newTransaction st)
    false None "" (S (transactionsRef st)) (S (categoriesRef st)))) as Hgoal.
  { unfold formListed. simpl. case_decide as Hc; [by left|].
    destruct Hform as [?|Hin]; [by left|right].
    apply elem_of_removeCategory. by split. }
  destruct action; unfold executeCategoryDeletion in Hex;
    repeat case_match; by simplify_eq.
Qed.

Lemma formListed_orUnchanged categoryName type action st :
  formListed st →
  formListed (orUnchanged st (executeCategoryDeletion st categoryName type action st)).
Proof.
  intros Hform.
  destruct (executeCategoryDeletion st categoryName type action st) eqn:Hex;
    [done|by eapply formListed_execute].
Qed.

(** Every event of a deletion request keeps the form's category listed,
    as long as an open alert has seen the current state. *)
Lemma resolverStep_formListed e r r' :
  resolverStep e r = Some r' → alertFresh r →
  formListed (store r) → formListed (store r').
Proof.
  intros Hstep Hfresh Hform. unfold resolverStep in Hstep.
  destruct (phase r) eqn:Hph, e; lazy beta iota zeta in Hstep; try done;
    repeat (case_match; try done); apply (inj Some) in Hstep as <-;
    try done; try by apply formListed_orUnchanged.
  - unfold handleDeleteCategoryInitiation. by case_match.
  - unfold alertFresh in Hfresh.
    match goal with Ha : confirmAlert r = Some _ |- _ => rewrite Ha in Hfresh end.
    rewrite Hfresh. by apply formListed_orUnchanged.
Qed.

(** ** Shape of the state *)

(** An open modal is open on a category. *)
Definition modalHasCategory st : Prop :=
  deleteModalVisible st = true → is_Some (categoryToDelete st).

(** An execution either fails and changes nothing, or closes the modal and
    removes the category from the registry. *)
Lemma orUnchanged_shape seen categoryName type action st :
  orUnchanged st (executeCategoryDeletion seen categoryName type action st) = st ∨
  (deleteModalVisible (orUnchanged st
     (executeCategoryDeletion seen categoryName type action st)) = false ∧
   categoryToDelete (orUnchanged st
     (executeCategoryDeletion seen categoryName type action st)) = None ∧
   categories (orUnchanged st
     (executeCategoryDeletion seen categoryName type action st)) =
     removeCategory categoryName type (categories st)).
Proof.
  unfold executeCategoryDeletion. destruct action; simpl; [by right|].
  case_match; simpl; [by left|by right].
Qed.

Lemma phase_idle r :
  phase r = Idle → confirmAlert r = None ∧ deleteModalVisible (store r) = false.
Proof. unfold phase. by repeat case_match. Qed.

(** Every event keeps an open modal on a category and the names distinct;
    the alert is never over the modal; the modal or the alert is open
    afterwards only if the modal was open or the event is a long press. *)
Lemma resolverStep_shape e r r' :
  resolverStep e r = Some r' →
  modalHasCategory (store r) → uniqueCategories (categories (store r)) →
  modalHasCategory (store r') ∧ uniqueCategories (categories (store r')) ∧
  (is_Some (confirmAlert r') → deleteModalVisible (store r') = false) ∧
  (deleteModalVisible (store r') = true ∨ is_Some (confirmAlert r') →
   deleteModalVisible (store r) = true ∨ ∃ c, e = LongPressCategory c).
Proof.
  intros Hstep Hcat Hu. unfold resolverStep in Hstep.
  destruct (phase r) eqn:Hph, e; lazy beta iota zeta in Hstep; try done;
    repeat (case_match; try done); apply (inj Some) in Hstep as <-;
    try (apply phase_conflict in Hph as [_ Hph]);
    try (apply phase_idle in Hph as [_ Hph]);
    try (unfold handleDeleteCategoryInitiation; case_match);
    unfold modalHasCategory in *; cbn [store confirmAlert];
    try match goal with
        | |- context [orUnchanged ?st (executeCategoryDeletion ?s ?c ?ty ?a ?st)] =>
            destruct (orUnchanged_shape s c ty a st) as [->|(-> & -> & ->)]
        end;
    simpl;
    (split_and!; [by eauto|by auto using removeCategory_unique|by intros []|]);
    try (intros [?|[? ?]]); try by eauto.
Qed.

(** ** References *)

(** The value of a cell changes only with its reference. *)
Definition cellsTracked (st st' : Store T) : Prop :=
  (transactionsRef st' = transactionsRef st → transactions st' = transactions st) ∧
  (categoriesRef st' = categoriesRef st → categories st' = categories st).

#[export] Instance cellsTracked_refl : Reflexive cellsTracked.
Proof. by intros st. Qed.

Lemma orUnchanged_tracked seen categoryName type action st :
  cellsTracked st
    (orUnchanged st (executeCategoryDeletion seen categoryName type action st)).
Proof.
  unfold executeCategoryDeletion. destruct action; simpl;
    repeat case_match; split; simpl; intros; (done || lia).
Qed.

Lemma resolverStep_tracked e r r' :
  resolverStep e r = Some r' → cellsTracked (store r) (store r').
Proof.
  intros Hstep. unfold resolverStep in Hstep.
  destruct (phase r), e; lazy beta iota zeta in Hstep; try done;
    repeat (case_match; try done); apply (inj Some) in Hstep as <-;
    try (unfold handleDeleteCategoryInitiation; case_match);
    cbn [store]; by auto using orUnchanged_tracked.
Qed.

(** ** The close request of the modal *)

(** The modal closed by the system's back action, a long press on the
    category that was selected as target, and the Reassign button. *)
Definition closeThenReassign (target : string) : list ResolverEvent :=
  [ModalRequestClose; LongPressCategory target; ModalReassign].

(** A ledger with a transaction on a category that is not listed. *)
Lemma referencesLive_dangling c ty txs cats :
  hasTransactions c ty txs = true → c ∉ categoriesFor cats ty →
  ¬ referencesLive txs cats.
Proof.
  intros (t & Ht & Hc & Hty)%hasTransactions_true Hnot Hlive.
  apply (proj1 (Forall_forall _ _) Hlive) in Ht. by rewrite Hc, Hty in Ht.
Qed.

Lemma run_closeThenReassign r target :
  let st := store r in
  let type := nt_type (newTransaction st) in
  phase r = ConflictResolution → reassignCategory st = target → target ≠ "" →
  target ∈ categoriesFor (categories st) type →
  hasTransactions target type (transactions st) = true →
  run (closeThenReassign target) r =
  Some (mkResolver
          (mkStore (transactions st) (removeCategory target type (categories st))
             (if decide (nt_category (newTransaction st) = target)
              then clearFormCategory (newTransaction st) else newTransaction st)
             false None "" (S (transactionsRef st)) (S (categoriesRef st)))
          None).
Proof.
  intros st type Hph Ht Hne Hin Hdep. subst st type target.
  apply phase_conflict in Hph as Hopen. destruct Hopen as [Ha Hv].
  destruct r as [st a]. simpl in *. subst a.
  cbn [closeThenReassign run]. unfold resolverStep at 1. rewrite Hph.
  cbn [store]. unfold resolverStep at 1, phase at 1.
  cbn [store confirmAlert deleteModalVisible categories newTransaction].
  rewrite (proj2 (includes_true _ _) Hin).
  unfold handleDeleteCategoryInitiation. cbn [newTransaction transactions].
  rewrite Hdep. unfold resolverStep, phase.
  cbn [store confirmAlert deleteModalVisible categoryToDelete reassignCategory].
  rewrite (proj2 (truthy_true _) Hne).
  rewrite executeCategoryDeletion_reassign by done.
  cbn [reassignCategory transactions cr_name cr_type orUnchanged].
  by rewrite reassignTransactions_self.
Qed.

(** C28: the close request of the modal hides it without forgetting the
    target selected.  From every state with the modal open and a target
    selected that has transactions of its own, closing the modal with the
    system's back action and asking to delete the target finds the
    Reassign button enabled with the target selected for itself: the three
    presses are accepted, the ledger is left as it was, the target is no
    longer listed, and the invariant that held is broken, with
    transactions on a category that does not exist. *)
Theorem requestClose_stale_target r target :
  let st := store r in
  let type := nt_type (newTransaction st) in
  resolverInv r → phase r = ConflictResolution →
  reassignCategory st = target → target ≠ "" →
  target ∈ categoriesFor (categories st) type →
  hasTransactions target type (transactions st) = true →
  ∃ r', run (closeThenReassign target) r = Some r' ∧ phase r' = Idle ∧
        transactions (store r') = transactions st ∧
        (target ∉ categoriesFor (categories (store r')) type) ∧
        ¬ referencesLive (transactions (store r')) (categories (store r')) ∧
        ¬ resolverInv r'.
Proof.
  intros st type _ Hph Ht Hne Hin Hdep. eexists.
  split; [by apply run_closeThenReassign|]. cbn [store transactions categories].
  pose proof (removeCategory_not_elem target type (categories st)) as Hnot.
  pose proof (referencesLive_dangling _ _ _ _ Hdep Hnot) as Hdangling.
  split_and!; [done..|]. by intros [? _].
Qed.


End resolver.

(** ** Deleting Food and Bills *)

(** An electricity bill of 80 and a second meal, entered after the ledger
    of March. *)
Definition billMarch : Transaction xnum :=
  mkTransaction "1741000120000" (mkDate 2025 2 4 0) "3/4/2025" Expense
    (XFin (QArith_base.inject_Z 80)) "Bills" "electricity".

Definition dinnerMarch : Transaction xnum :=
  mkTransaction "1741000180000" (mkDate 2025 2 5 0) "3/5/2025" Expense
    (XFin (QArith_base.inject_Z 30)) "Food" "dinner".

(** The state with these four transactions, the default categories, and
    the form on Expense with Food selected. *)
Definition foodStore : Store xnum :=
  mkStore [dinnerMarch; billMarch; foodMarch; salaryMarch] defaultCategories
    (mkNewTransaction Expense "" "Food" "") false None "" 0 0.

(** The same with the reassign modal open on Food and Bills selected. *)
Definition foodToBills : Store xnum :=
  mkStore (transactions foodStore) defaultCategories (newTransaction foodStore)
    true (Some (mkCategoryRef "Food" Expense)) "Bills" 0 0.

Lemma foodStore_inv : resolverInv (mkResolver foodStore None).
Proof. split_and!; [by apply (bool_decide_unpack _)|by left|done]. Defined.

Lemma executeCategoryDeletion_no_dependents_witness :
  let st' := orUnchanged foodStore
    (executeCategoryDeletion foodStore "Shopping" Expense ActDelete foodStore) in
  transactions st' = transactions foodStore ∧
  "Shopping" ∉ categoriesFor (categories st') Expense.
Proof.
  exact (executeCategoryDeletion_no_dependents "Shopping" Expense foodStore _
           eq_refl eq_refl).
Defined.

Lemma executeCategoryDeletion_delete_all_witness :
  let st' := orUnchanged foodStore
    (executeCategoryDeletion foodStore "Food" Expense ActDelete foodStore) in
  length (transactions st') + 2 = 4 ∧
  hasTransactions "Food" Expense (transactions st') = false ∧
  "Food" ∉ categoriesFor (categories st') Expense.
Proof.
  exact (executeCategoryDeletion_delete_all "Food" Expense foodStore _ eq_refl).
Defined.

Lemma executeCategoryDeletion_reassign_spec_witness :
  let st' := orUnchanged foodToBills
    (executeCategoryDeletion foodToBills "Food" Expense ActReassign foodToBills) in
  length (transactions st') = 4 ∧
  dependents "Food" Expense (transactions st') = [] ∧
  length (dependents "Bills" Expense (transactions st')) = 1 + 2 ∧
  "Food" ∉ categoriesFor (categories st') Expense.
Proof.
  exact (executeCategoryDeletion_reassign_spec "Food" Expense foodToBills _
           ltac:(done) eq_refl).
Defined.

Lemma executeCategoryDeletion_resets_witness :
  let st' := orUnchanged foodToBills
    (executeCategoryDeletion foodToBills "Food" Expense ActReassign foodToBills) in
  newTransaction st' = mkNewTransaction Expense "" "" "" ∧
  deleteModalVisible st' = false ∧ categoryToDelete st' = None ∧
  reassignCategory st' = "".
Proof.
  exact (executeCategoryDeletion_resets "Food" Expense ActReassign foodToBills _
           eq_refl).
Defined.

(** The request that moves Food to Bills: long press, chip, button. *)
Definition moveFoodToBills : list ResolverEvent :=
  [LongPressCategory "Food"; ModalSelectTarget "Bills"; ModalReassign].

Lemma steps_inv_witness :
  resolverInv (default (mkResolver foodStore None)
                 (run moveFoodToBills (mkResolver foodStore None))).
Proof.
  exact (steps_inv (mkResolver foodStore None) moveFoodToBills
           (default (mkResolver foodStore None)
              (run moveFoodToBills (mkResolver foodStore None)))
           ltac:(by apply (bool_decide_unpack _))
           (proj1 (run_steps moveFoodToBills (mkResolver foodStore None) _)
              eq_refl)
           foodStore_inv).
Defined.

(** Food has two expense transactions; the request that reassigns
    them to Bills goes through the modal and leaves no transaction under
    Food, two more under Bills, the ledger as long as before, and Food no
    longer listed under Expense. *)
Example food_to_bills :
  ∃ r, run moveFoodToBills (mkResolver foodStore None) = Some r ∧
       phase r = Idle ∧
       length (transactions (store r)) = 4 ∧
       dependents "Food" Expense (transactions (store r)) = [] ∧
       tx_id <$> dependents "Bills" Expense (transactions (store r)) =
         ["1741000180000"; "1741000120000"; "1741000060000"] ∧
       categoriesFor (categories (store r)) Expense =
         ["Transport"; "Shopping"; "Bills"] ∧
       nt_category (newTransaction (store r)) = "".
Proof. eexists. split; [by vm_compute|]. by vm_compute. Qed.

(** The request that closes the modal with the system's back action after a
    target was chosen, then asks to delete the target itself. *)
Definition staleTarget : list ResolverEvent :=
  [LongPressCategory "Food"; ModalSelectTarget "Bills"; ModalRequestClose;
   LongPressCategory "Bills"; ModalReassign].

(** That run evaluated: after it Bills is no longer listed and the ledger
    still has the electricity bill on it. *)
Example stale_target_on_bills :
  resolverInv (mkResolver foodStore None) ∧
  ∃ r, run staleTarget (mkResolver foodStore None) = Some r ∧
       billMarch ∈ transactions (store r) ∧
       categoriesFor (categories (store r)) Expense =
         ["Food"; "Transport"; "Shopping"] ∧
       ¬ referencesLive (transactions (store r)) (categories (store r)).
Proof.
  split; [apply foodStore_inv|]. eexists. split; [by vm_compute|].
  split_and!; [by apply (bool_decide_unpack _)|by vm_compute|].
  by apply (bool_decide_unpack _).
Qed.

Lemma foodToBills_inv : resolverInv (mkResolver foodToBills None).
Proof.
  split_and!; [by apply (bool_decide_unpack _)| |done].
  right. eexists. split_and!; [done..|]. by apply (bool_decide_unpack _).
Defined.

Lemma requestClose_stale_target_witness :
  ∃ r', run (closeThenReassign "Bills") (mkResolver foodToBills None) = Some r' ∧
        phase r' = Idle ∧
        transactions (store r') = transactions foodToBills ∧
        ("Bills" ∉ categoriesFor (categories (store r')) Expense) ∧
        ¬ referencesLive (transactions (store r')) (categories (store r')) ∧
        ¬ resolverInv r'.
Proof.
  exact (requestClose_stale_target (mkResolver foodToBills None) "Bills"
           foodToBills_inv eq_refl eq_refl ltac:(done)
           ltac:(by apply (bool_decide_unpack _)) eq_refl).
Defined.
