(* ===== verification/App.v ===== *)
(** The [App] component of [src/App.js] as a whole: its state cells, every
    handler on the full state, the controls of the screen and of its three
    modals with the conditions under which each is on screen, the alerts,
    and the persistence effects over the three storage slots. *)

From stdpp Require Import gmap.
From S2P Require Import Prelude JSNumber JSDate Ledger Registry MonthView Resolver.

(** ** State *)

(** The alerts [Alert.alert] shows.  The two confirmations carry what their
    Delete button will act on. *)
Inductive AppAlert (T : Type) : Type :=
  | LoadFailedAlert
  | ValidationAlert (e : ValidationError)
  | DeleteTransactionAlert (id : string)
  | DeleteCategoryAlert (a : ConfirmAlert T).
Arguments LoadFailedAlert {T}.
Arguments ValidationAlert {T}.
Arguments DeleteTransactionAlert {T}.
Arguments DeleteCategoryAlert {T}.

(** The [useState] cells of [App].  The six cells the category deletion
    handlers use are the [Store] of the resolver; [alert] is the alert on
    screen, which is not a cell of the component but blocks its controls. *)
Record AppState (T : Type) : Type := mkApp {
  theme : string;
  isLoaded : bool;
  core : Store T;
  modalVisible : bool;
  newCategoryName : string;
  isAddingCategory : bool;
  currentDate : JSDate;
  pickerVisible : bool;
  pickerYear : Z;
  expandedCategories : gmap string bool;
  alert : option (AppAlert T);
}.
Arguments mkApp {T}.
Arguments theme {T}.
Arguments isLoaded {T}.
Arguments core {T}.
Arguments modalVisible {T}.
Arguments newCategoryName {T}.
Arguments isAddingCategory {T}.
Arguments currentDate {T}.
Arguments pickerVisible {T}.
Arguments pickerYear {T}.
Arguments expandedCategories {T}.
Arguments alert {T}.

(** A storage slot: absent, holding a value that parses, or holding text
    that does not. *)
Inductive Slot (A : Type) : Type :=
  | Missing
  | Stored (a : A)
  | Corrupt.
Arguments Missing {A}.
Arguments Stored {A}.
Arguments Corrupt {A}.

(** The three slots of [STORAGE_KEYS].  The theme is stored as it is, the
    other two through JSON. *)
Record Storage (T : Type) : Type := mkStorage {
  TRANSACTIONS : Slot (list (Transaction T));
  CATEGORIES : Slot Categories;
  THEME : option string;
}.
Arguments mkStorage {T}.
Arguments TRANSACTIONS {T}.
Arguments CATEGORIES {T}.
Arguments THEME {T}.

(** The component and the storage it persists to. *)
Record World (T : Type) : Type := mkWorld {
  app : AppState T;
  storage : Storage T;
}.
Arguments mkWorld {T}.
Arguments app {T}.
Arguments storage {T}.

(** What the user can do.  The events that read the clock carry its
    reading. *)
Inductive AppEvent : Type :=
  | PressTheme
  | PressChangeMonth (direction : Z)
  | PressMonthTitle
  | PressGroupHeader (key : string)
  | LongPressTransaction (id : string)
  | PressFab (now : JSDate)
  | AddModalClose
  | PressType (ty : TxType)
  | ChangeAmount (text : string)
  | PressAddNew
  | ChangeCategoryName (text : string)
  | PressAddCategory
  | PressCancelCategory
  | PressCategory (cat : string)
  | ChangeNote (text : string)
  | PressSave (now : JSDate) (nowMs : Z)
  | PickerYear (direction : Z)
  | PressMonthCell (index : Z)
  | PickerClose
  | AlertOk
  | AlertCancelDelete
  | AlertConfirmDelete
  | Deletion (e : ResolverEvent).

Section app.
Context {T : Type} `{JSNumber T, Locale, EqDecision T}.
Implicit Types (st : AppState T) (sto : Storage T) (w : World T).

(** ** Setters *)

Definition setTheme (x : string) st : AppState T :=
  mkApp x (isLoaded st) (core st) (modalVisible st) (newCategoryName st)
    (isAddingCategory st) (currentDate st) (pickerVisible st) (pickerYear st)
    (expandedCategories st) (alert st).

Definition setIsLoaded (x : bool) st : AppState T :=
  mkApp (theme st) x (core st) (modalVisible st) (newCategoryName st)
    (isAddingCategory st) (currentDate st) (pickerVisible st) (pickerYear st)
    (expandedCategories st) (alert st).

Definition setCore (x : Store T) st : AppState T :=
  mkApp (theme st) (isLoaded st) x (modalVisible st) (newCategoryName st)
    (isAddingCategory st) (currentDate st) (pickerVisible st) (pickerYear st)
    (expandedCategories st) (alert st).

Definition setModalVisible (x : bool) st : AppState T :=
  mkApp (theme st) (isLoaded st) (core st) x (newCategoryName st)
    (isAddingCategory st) (currentDate st) (pickerVisible st) (pickerYear st)
    (expandedCategories st) (alert st).

Definition setNewCategoryName (x : string) st : AppState T :=
  mkApp (theme st) (isLoaded st) (core st) (modalVisible st) x
    (isAddingCategory st) (currentDate st) (pickerVisible st) (pickerYear st)
    (expandedCategories st) (alert st).

Definition setIsAddingCategory (x : bool) st : AppState T :=
  mkApp (theme st) (isLoaded st) (core st) (modalVisible st) (newCategoryName st)
    x (currentDate st) (pickerVisible st) (pickerYear st)
    (expandedCategories st) (alert st).

Definition setCurrentDate (x : JSDate) st : AppState T :=
  mkApp (theme st) (isLoaded st) (core st) (modalVisible st) (newCategoryName st)
    (isAddingCategory st) x (pickerVisible st) (pickerYear st)
    (expandedCategories st) (alert st).

Definition setPickerVisible (x : bool) st : AppState T :=
  mkApp (theme st) (isLoaded st) (core st) (modalVisible st) (newCategoryName st)
    (isAddingCategory st) (currentDate st) x (pickerYear st)
    (expandedCategories st) (alert st).

Definition setPickerYear (x : Z) st : AppState T :=
  mkApp (theme st) (isLoaded st) (core st) (modalVisible st) (newCategoryName st)
    (isAddingCategory st) (currentDate st) (pickerVisible st) x
    (expandedCategories st) (alert st).

Definition setExpandedCategories (x : gmap string bool) st : AppState T :=
  mkApp (theme st) (isLoaded st) (core st) (modalVisible st) (newCategoryName st)
    (isAddingCategory st) (currentDate st) (pickerVisible st) (pickerYear st)
    x (alert st).

Definition setAlert (x : option (AppAlert T)) st : AppState T :=
  mkApp (theme st) (isLoaded st) (core st) (modalVisible st) (newCategoryName st)
    (isAddingCategory st) (currentDate st) (pickerVisible st) (pickerYear st)
    (expandedCategories st) x.

(** [setTransactions] and [setCategories] are only ever given a new array
    or object (the result of [JSON.parse], of a spread, of [filter]): the
    cell gets a new reference with the value. *)
Definition setTransactions (x : list (Transaction T)) st : AppState T :=
  setCore (mkStore x (categories (core st)) (newTransaction (core st))
             (deleteModalVisible (core st)) (categoryToDelete (core st))
             (reassignCategory (core st))
             (S (transactionsRef (core st))) (categoriesRef (core st))) st.

Definition setCategories (x : Categories) st : AppState T :=
  setCore (mkStore (transactions (core st)) x (newTransaction (core st))
             (deleteModalVisible (core st)) (categoryToDelete (core st))
             (reassignCategory (core st))
             (transactionsRef (core st)) (S (categoriesRef (core st)))) st.

Definition setNewTransaction (x : NewTransaction) st : AppState T :=
  setCore (mkStore (transactions (core st)) (categories (core st)) x
             (deleteModalVisible (core st)) (categoryToDelete (core st))
             (reassignCategory (core st))
             (transactionsRef (core st)) (categoriesRef (core st))) st.

(** ** Mounting and loading *)

(** The initial values of the cells; [now] is the clock at the first
    render. *)
Definition initialState (now : JSDate) : AppState T :=
  mkApp "light" false (mkStore [] defaultCategories emptyForm false None "" 0 0)
    false "" false now false (getFullYear now) ∅ None.

(** [loadData]: [readOk] is whether the three reads succeeded.  Each slot
    that holds something is parsed and set, in order; the first failure
    shows the alert and skips the rest; [isLoaded] is set in any case. *)
Definition loadData (readOk : bool) sto st : AppState T :=
  let failed s := setIsLoaded true (setAlert (Some LoadFailedAlert) s) in
  if negb readOk then failed st else
  match TRANSACTIONS sto with
  | Corrupt => failed st
  | slotT =>
      let st1 := match slotT with Stored txs => setTransactions txs st | _ => st end in
      match CATEGORIES sto with
      | Corrupt => failed st1
      | slotC =>
          let st2 := match slotC with Stored cats => setCategories cats st1 | _ => st1 end in
          let st3 := match THEME sto with
                     | Some x => if truthy x then setTheme x st2 else st2
                     | None => st2
                     end in
          setIsLoaded true st3
      end
  end.

(** What [JSON.parse] reads of the ledger [JSON.stringify] wrote: the
    strings as they were, the amounts as JSON carries numbers. *)
Definition jsonTransaction (t : Transaction T) : Transaction T :=
  mkTransaction (tx_id t) (tx_dateISO t) (tx_displayDate t) (tx_type t)
    (num_json (tx_amount t)) (tx_category t) (tx_note t).

Definition jsonTransactions (txs : list (Transaction T)) : list (Transaction T) :=
  jsonTransaction <$> txs.

(** The three save effects, run after the render that follows a change from
    [prev] to [next]: each writes its slot when one of its dependencies
    changed and the data is loaded.  Dependencies are compared with
    [Object.is]: the ledger and the registry by reference, so that an array
    with the same contents as the one before counts as a change, the theme
    and [isLoaded] by value. *)
Definition saveEffects (prev next : AppState T) sto : Storage T :=
  let loadedChanged := negb (bool_decide (isLoaded prev = isLoaded next)) in
  let fires {A} `{EqDecision A} (a b : A) : bool :=
    isLoaded next && (negb (bool_decide (a = b)) || loadedChanged) in
  mkStorage
    (if fires (transactionsRef (core prev)) (transactionsRef (core next))
     then Stored (jsonTransactions (transactions (core next)))
     else TRANSACTIONS sto)
    (if fires (categoriesRef (core prev)) (categoriesRef (core next))
     then Stored (categories (core next)) else CATEGORIES sto)
    (if fires (theme prev) (theme next) then Some (theme next) else THEME sto).

(** ** Handlers *)

(** [toggleTheme]. *)
Definition toggleTheme st : AppState T :=
  setTheme (if decide (theme st = "light") then "dark" else "light") st.

(** [handleAddTransaction], with the clock readings of [new Date()] and
    [Date.now()]. *)
Definition handleAddTransaction (now : JSDate) (nowMs : Z) st : AppState T :=
  match addTransaction now nowMs (currentDate st) (newTransaction (core st))
          (transactions (core st)) with
  | inl e => setAlert (Some (ValidationAlert e)) st
  | inr txs =>
      setIsAddingCategory false (setNewCategoryName ""
        (setNewTransaction emptyForm (setModalVisible false
          (setTransactions txs st))))
  end.

(** [confirmDelete(id)]: the confirmation alert. *)
Definition confirmDelete (id : string) st : AppState T :=
  setAlert (Some (DeleteTransactionAlert id)) st.

(** The Delete button of that alert. *)
Definition confirmDelete_onPress (id : string) st : AppState T :=
  setTransactions (removeTransaction id (transactions (core st))) st.

(** [handleAddNewCategory]. *)
Definition handleAddNewCategory st : AppState T :=
  let form := newTransaction (core st) in
  match addCategory (newCategoryName st) (nt_type form) (categories (core st)) with
  | inl e =>
      match alert_of e with
      | Some _ => setAlert (Some (ValidationAlert e)) st
      | None => st
      end
  | inr cats =>
      setIsAddingCategory false (setNewCategoryName ""
        (setNewTransaction
           (mkNewTransaction (nt_type form) (nt_amount form)
              (trim (newCategoryName st)) (nt_note form))
           (setCategories cats st)))
  end.

(** [openPicker]. *)
Definition openPicker st : AppState T :=
  setPickerVisible true (setPickerYear (getFullYear (currentDate st)) st).

(** [toggleCategory(key)]: a key that is absent reads as false. *)
Definition toggleCategory (key : string) st : AppState T :=
  setExpandedCategories
    (<[key := negb (default false (expandedCategories st !! key))]>
       (expandedCategories st)) st.

(** [isExpanded] of [renderCategoryBlock], [expandedCategories[item.key]]
    read as a condition. *)
Definition isExpanded (key : string) st : bool :=
  default false (expandedCategories st !! key).

(** ** The controls *)

(** The deletion request as the resolver sees it, and back. *)
Definition resolverOf st : Resolver T :=
  mkResolver (core st)
    (match alert st with Some (DeleteCategoryAlert a) => Some a | _ => None end).

Definition withResolver (r : Resolver T) st : AppState T :=
  setAlert (DeleteCategoryAlert <$> confirmAlert r) (setCore (store r) st).

(** The buttons of the alert on screen. *)
Definition alertStep (a : AppAlert T) (e : AppEvent) st : option (AppState T) :=
  match a, e with
  | (LoadFailedAlert | ValidationAlert _), AlertOk => Some (setAlert None st)
  | DeleteTransactionAlert _, AlertCancelDelete => Some (setAlert None st)
  | DeleteTransactionAlert id, AlertConfirmDelete =>
      Some (confirmDelete_onPress id (setAlert None st))
  | DeleteCategoryAlert _, Deletion ((AlertCancel | AlertDelete) as e') =>
      r ← resolverStep e' (resolverOf st); Some (withResolver r st)
  | _, _ => None
  end.

(** The controls of the Delete Category modal. *)
Definition deleteModalStep (e : AppEvent) st : option (AppState T) :=
  match e with
  | Deletion e' => r ← resolverStep e' (resolverOf st); Some (withResolver r st)
  | _ => None
  end.

(** The controls of the Add Transaction modal. *)
Definition addModalStep (e : AppEvent) st : option (AppState T) :=
  let form := newTransaction (core st) in
  match e with
  | AddModalClose => Some (setModalVisible false st)
  | PressType ty =>
      Some (setNewTransaction
              (mkNewTransaction ty (nt_amount form) "" (nt_note form)) st)
  | ChangeAmount text =>
      Some (setNewTransaction
              (mkNewTransaction (nt_type form) text (nt_category form)
                 (nt_note form)) st)
  | PressAddNew =>
      if isAddingCategory st then None else Some (setIsAddingCategory true st)
  | ChangeCategoryName text =>
      if isAddingCategory st then Some (setNewCategoryName text st) else None
  | PressAddCategory =>
      if isAddingCategory st then Some (handleAddNewCategory st) else None
  | PressCancelCategory =>
      if isAddingCategory st then Some (setIsAddingCategory false st) else None
  | PressCategory cat =>
      if negb (isAddingCategory st) &&
         includes cat (categoriesFor (categories (core st)) (nt_type form))
      then Some (setNewTransaction
                   (mkNewTransaction (nt_type form) (nt_amount form) cat
                      (nt_note form)) st)
      else None
  | Deletion (LongPressCategory cat) =>
      if isAddingCategory st then None
      else r ← resolverStep (LongPressCategory cat) (resolverOf st);
           Some (withResolver r st)
  | ChangeNote text =>
      Some (setNewTransaction
              (mkNewTransaction (nt_type form) (nt_amount form)
                 (nt_category form) text) st)
  | PressSave now nowMs => Some (handleAddTransaction now nowMs st)
  | _ => None
  end.

(** The controls of the month picker. *)
Definition pickerStep (e : AppEvent) st : option (AppState T) :=
  match e with
  | PickerYear direction =>
      if bool_decide (direction = 1 ∨ direction = -1)%Z
      then Some (setPickerYear (pickerYear st + direction) st) else None
  | PressMonthCell index =>
      if bool_decide (0 ≤ index < 12)%Z
      then Some (setPickerVisible false
                   (setCurrentDate (selectMonthYear (pickerYear st) index) st))
      else None
  | PickerClose => Some (setPickerVisible false st)
  | _ => None
  end.

(** The groups the list shows. *)
Definition shownGroups st : list (Group T) :=
  getGroupedTransactions
    (getFilteredTransactions (currentDate st) (transactions (core st))).

(** The theme button and the month selector of the header. *)
Definition headerStep (e : AppEvent) st : option (AppState T) :=
  match e with
  | PressTheme => Some (toggleTheme st)
  | PressChangeMonth direction =>
      if bool_decide (direction = 1 ∨ direction = -1)%Z
      then Some (setCurrentDate (changeMonth direction (currentDate st)) st)
      else None
  | PressMonthTitle => Some (openPicker st)
  | _ => None
  end.

(** The list: [renderCategoryBlock] toggles a group that is shown, and
    [renderTransactionItem] asks to delete a transaction of a group that is
    expanded. *)
Definition listStep (e : AppEvent) st : option (AppState T) :=
  match e with
  | PressGroupHeader key =>
      if includes key (g_key <$> shownGroups st)
      then Some (toggleCategory key st) else None
  | LongPressTransaction id =>
      if some (λ g, default false (expandedCategories st !! g_key g) = true ∧
                    id ∈ ids (g_transactions g)) (shownGroups st)
      then Some (confirmDelete id st) else None
  | _ => None
  end.

(** The add button, absent on a future month. *)
Definition fabStep (e : AppEvent) st : option (AppState T) :=
  match e with
  | PressFab now =>
      if isFutureMonth now (currentDate st) then None
      else Some (setModalVisible true st)
  | _ => None
  end.

(** The controls of the screen under the modals. *)
Definition screenStep (e : AppEvent) st : option (AppState T) :=
  match e with
  | PressTheme | PressChangeMonth _ | PressMonthTitle => headerStep e st
  | PressGroupHeader _ | LongPressTransaction _ => listStep e st
  | PressFab _ => fabStep e st
  | _ => None
  end.

(** What an event does to the component: the alert on screen comes first,
    then the Delete Category modal, the Add Transaction modal, the picker,
    and the screen; nothing can be pressed while the data is loading.  The
    loading test is the one of the render; that an alert or a modal takes
    the presses from what is under it is how React Native stacks them, and
    the order among them is the order in which they can be opened. *)
Definition appStep (e : AppEvent) st : option (AppState T) :=
  if negb (isLoaded st) then None else
  match alert st with
  | Some a => alertStep a e st
  | None =>
      if deleteModalVisible (core st) then deleteModalStep e st
      else if modalVisible st then addModalStep e st
      else if pickerVisible st then pickerStep e st
      else screenStep e st
  end.

(** ** The component with its storage *)

(** The effects of the first render: each of the three runs, and writes
    its slot when the data is loaded. *)
Definition mountEffects st sto : Storage T :=
  if isLoaded st
  then mkStorage (Stored (jsonTransactions (transactions (core st))))
         (Stored (categories (core st))) (Some (theme st))
  else sto.

(** Mounting: the first render with the initial state, then its effects. *)
Definition mount (now : JSDate) sto : World T :=
  mkWorld (initialState now) (mountEffects (initialState now) sto).

(** The completion of [loadData], then the effects of the next render. *)
Definition finishLoad (readOk : bool) w : World T :=
  let st' := loadData readOk (storage w) (app w) in
  mkWorld st' (saveEffects (app w) st' (storage w)).

(** An event, then the effects of the next render. *)
Definition worldStep (e : AppEvent) w : option (World T) :=
  st' ← appStep e (app w);
  Some (mkWorld st' (saveEffects (app w) st' (storage w))).

(** Running a list of events. *)
Fixpoint runWorld (es : list AppEvent) w : option (World T) :=
  match es with
  | [] => Some w
  | e :: es' => w' ← worldStep e w; runWorld es' w'
  end.

(** ** Invariants of the persistence *)

(** Once loaded, every slot holds the current value of its cell, as JSON
    carries it. *)
Definition synced w : Prop :=
  isLoaded (app w) = true →
  TRANSACTIONS (storage w) =
    Stored (jsonTransactions (transactions (core (app w)))) ∧
  CATEGORIES (storage w) = Stored (categories (core (app w))) ∧
  THEME (storage w) = Some (theme (app w)).

(** The cells a reload restores. *)
Definition persisted st : list (Transaction T) * Categories * string :=
  (transactions (core st), categories (core st), theme st).

(** ** Which cells the handlers leave alone *)

(** Unfold the controls down to the handlers and split on their guards. *)
Ltac app_cases :=
  unfold appStep, alertStep, deleteModalStep, addModalStep, pickerStep,
    screenStep, headerStep, listStep, fabStep, handleAddTransaction,
    handleAddNewCategory in *;
  repeat (case_match; simplify_option_eq; try done).

Lemma loadData_isLoaded readOk sto st : isLoaded (loadData readOk sto st) = true.
Proof. unfold loadData. by repeat case_match. Qed.

Lemma appStep_isLoaded e st st' :
  appStep e st = Some st' → isLoaded st = true ∧ isLoaded st' = true.
Proof.
  intros Hstep. assert (isLoaded st = true) as Hl.
  { unfold appStep in Hstep. by destruct (isLoaded st). }
  split; [done|]. rewrite <-Hl. by app_cases.
Qed.

(** Whether an event is a press on the header of the block [key]. *)
Definition pressesHeader (key : string) (e : AppEvent) : bool :=
  match e with PressGroupHeader k => bool_decide (k = key) | _ => false end.

(** Only a press on its header changes whether a block is expanded. *)
Lemma appStep_isExpanded e st st' key :
  appStep e st = Some st' →
  isExpanded key st' = xorb (isExpanded key st) (pressesHeader key e).
Proof.
  unfold isExpanded. intros Hstep.
  destruct e; simpl; try (rewrite xorb_false_r; by app_cases).
  case_bool_decide as Hk; app_cases; unfold toggleCategory; simpl.
  - rewrite lookup_insert_eq. simpl. by destruct (default _ _).
  - by rewrite lookup_insert_ne, xorb_false_r.
Qed.

(** ** Saving *)

(** Cells change through their setters only: a ledger or a registry with
    the reference it had holds what it held. *)
Lemma appStep_tracked e st st' :
  appStep e st = Some st' → cellsTracked (core st) (core st').
Proof.
  intros Hstep. app_cases;
    try (by eapply (resolverStep_tracked _ (resolverOf st)));
    split; simpl; intros; (done || lia).
Qed.

Lemma loadData_tracked readOk sto st :
  cellsTracked (core st) (core (loadData readOk sto st)).
Proof.
  unfold loadData. repeat case_match; split; simpl; intros; (done || lia).
Qed.

Lemma saveEffects_not_loaded prev next sto :
  isLoaded next = false → saveEffects prev next sto = sto.
Proof. intros Hl. unfold saveEffects. rewrite Hl. by destruct sto. Qed.

Lemma saveEffects_first prev next sto :
  isLoaded prev = false → isLoaded next = true →
  saveEffects prev next sto =
  mkStorage (Stored (jsonTransactions (transactions (core next))))
    (Stored (categories (core next))) (Some (theme next)).
Proof.
  intros Hp Hn. unfold saveEffects. rewrite Hp, Hn. simpl.
  by rewrite !orb_true_r.
Qed.

Lemma saveEffects_synced prev next sto :
  isLoaded next = true → cellsTracked (core prev) (core next) →
  synced (mkWorld prev sto) →
  synced (mkWorld next (saveEffects prev next sto)).
Proof.
  intros Hn [Ht' Hc'] Hs _. destruct (isLoaded prev) eqn:Hp.
  - destruct Hs as (Ht & Hc & Hth); [done|]. simpl in *.
    unfold saveEffects. rewrite Hp, Hn, Ht, Hc, Hth. simpl.
    rewrite !orb_false_r.
    split_and!; case_bool_decide; simpl; rewrite ?Ht', ?Hc' by done; congruence.
  - by rewrite saveEffects_first.
Qed.

Lemma finishLoad_synced readOk now sto :
  synced (finishLoad readOk (mount now sto)).
Proof.
  intros _. unfold finishLoad.
  by rewrite saveEffects_first by (done || apply loadData_isLoaded).
Qed.

Lemma runWorld_keeps_synced es : ∀ w0 w,
  synced w0 → runWorld es w0 = Some w → synced w.
Proof.
  induction es as [|e es IH]; intros w0 w Hs; simpl; [by intros [= <-]|].
  unfold worldStep. destruct (appStep e (app w0)) as [st'|] eqn:He; [|done].
  simpl. apply IH. destruct w0 as [st0 sto0].
  apply saveEffects_synced; [by eapply appStep_isLoaded| |done].
  by eapply appStep_tracked.
Qed.

(** C17: before the load completes no control responds and no effect
    writes: the storage is as it was found. *)
Theorem no_save_before_load now sto e :
  storage (mount now sto) = sto ∧ isLoaded (app (mount now sto)) = false ∧
  worldStep e (mount now sto) = None ∧
  ∀ st, isLoaded st = false → saveEffects (initialState now) st sto = sto.
Proof.
  split_and!; [done..|]. intros st Hl. by apply saveEffects_not_loaded.
Qed.

(** C14: the render that follows the load writes all three slots, and from
    then on every slot holds the current value of its cell, as JSON
    carries it, after every event. *)
Theorem runWorld_synced readOk now sto es w :
  runWorld es (finishLoad readOk (mount now sto)) = Some w → synced w.
Proof. eauto using runWorld_keeps_synced, finishLoad_synced. Qed.

(** A ledger whose amounts JSON carries as they are. *)
Definition jsonExact (txs : list (Transaction T)) : Prop :=
  Forall (λ t, num_json (tx_amount t) = tx_amount t) txs.

#[export] Instance jsonExact_dec txs : Decision (jsonExact txs).
Proof. unfold jsonExact. apply _. Defined.

Lemma jsonTransactions_exact txs : jsonTransactions txs = txs ↔ jsonExact txs.
Proof.
  unfold jsonTransactions, jsonExact. split.
  - induction txs as [|t txs IH]; intros Heq; [done|].
    rewrite fmap_cons in Heq. injection Heq as Ht Htxs.
    constructor; [|by apply IH]. by apply (f_equal tx_amount) in Ht.
  - intros Hex. apply fmap_fixed. eapply Forall_impl; [apply Hex|].
    intros [] Ha. unfold jsonTransaction. simpl in *. by rewrite Ha.
Qed.

Lemma ids_jsonTransactions txs : ids (jsonTransactions txs) = ids txs.
Proof. unfold ids, jsonTransactions. by rewrite <-list_fmap_compose. Qed.

Lemma loadData_synced now w :
  isLoaded (app w) = true → synced w → theme (app w) ≠ "" →
  loadData true (storage w) (initialState now) =
  setIsLoaded true (setTheme (theme (app w))
    (setCategories (categories (core (app w)))
       (setTransactions (jsonTransactions (transactions (core (app w))))
          (initialState now)))).
Proof.
  intros Hl Hs Hth. destruct (Hs Hl) as (Ht & Hc & Hm).
  unfold loadData. rewrite Ht, Hc, Hm. simpl.
  by rewrite (proj2 (truthy_true _) Hth).
Qed.

(** C15: a reload restores what was saved, as JSON carries it: loading the
    storage of a loaded, synced component into a fresh one brings back its
    registry, its theme when it is not the empty string, and its ledger
    with every amount that is not finite replaced; that is the ledger
    that was saved exactly when JSON carries all its amounts. *)
Theorem load_after_save now w :
  isLoaded (app w) = true → synced w → theme (app w) ≠ "" →
  let st' := loadData true (storage w) (initialState now) in
  persisted st' =
    (jsonTransactions (transactions (core (app w))), categories (core (app w)),
     theme (app w)) ∧
  alert st' = None ∧
  (persisted st' = persisted (app w) ↔ jsonExact (transactions (core (app w)))).
Proof.
  intros Hl Hs Hth st'. subst st'. rewrite loadData_synced by done.
  split; [done|split; [done|]]. rewrite <-jsonTransactions_exact.
  unfold persisted. simpl. split; [by intros [=]|by intros ->].
Qed.

(** C16: a load that fails, because the reads fail or because the stored
    ledger does not parse, shows the alert and marks the data as loaded;
    the save effects of the next render then replace whatever the three
    slots held with the initial values. *)
Theorem load_failure_overwrites now (readOk : bool)
    (slotT : Slot (list (Transaction T))) (slotC : Slot Categories) :
  let sto : Storage T :=
    mkStorage (if readOk then Corrupt else slotT) slotC (Some "dark") in
  let w := finishLoad readOk (mount now sto) in
  alert (app w) = Some LoadFailedAlert ∧ isLoaded (app w) = true ∧
  storage w = mkStorage (Stored []) (Stored defaultCategories) (Some "light").
Proof.
  intros sto w. subst w. unfold finishLoad.
  rewrite saveEffects_first by (done || apply loadData_isLoaded).
  by destruct readOk.
Qed.

(** ** Integrity of the whole component *)

(** The invariant of the deletion request on the cells it uses, and the
    form's category listed for the form's type. *)
Definition appInv st : Prop :=
  resolverInv (resolverOf st) ∧ formListed (core st).

Lemma resolverOf_withResolver (r : Resolver T) st :
  resolverOf (withResolver r st) = r.
Proof. by destruct r as [s [a|]]. Qed.

(** Without a category alert on screen the invariant is about the cells
    alone. *)
Lemma appInv_no_alert st :
  (∀ a, alert st ≠ Some (DeleteCategoryAlert a)) →
  appInv st ↔
  referencesLive (transactions (core st)) (categories (core st)) ∧
  targetOffered (core st) ∧ formListed (core st).
Proof.
  intros Ha. unfold appInv, resolverInv, alertFresh, resolverOf. simpl.
  destruct (alert st) as [[| | |a]|]; [tauto..| |tauto]. by destruct (Ha a).
Qed.

(** A change that leaves the six cells alone and opens no category alert
    keeps the invariant. *)
Lemma appInv_same_core st st' :
  core st' = core st →
  (∀ a, alert st' = Some (DeleteCategoryAlert a) → alert st' = alert st) →
  appInv st → appInv st'.
Proof.
  intros Hc Ha. unfold appInv, resolverInv, alertFresh, resolverOf. simpl.
  rewrite Hc. destruct (alert st') as [[| | |a]|]; [tauto..| |tauto].
  by rewrite <-(Ha a eq_refl).
Qed.

Lemma targetOffered_hidden (s : Store T) :
  deleteModalVisible s = false → targetOffered s ↔ reassignCategory s = "".
Proof.
  intros Hv. unfold targetOffered. split; [|by left].
  intros [?|(c & _ & Hv' & _)]; [done|congruence].
Qed.

(** A deletion event other than the close request keeps the invariant. *)
Lemma appInv_withResolver e (r' : Resolver T) st :
  e ≠ ModalRequestClose → resolverStep e (resolverOf st) = Some r' →
  appInv st → appInv (withResolver r' st).
Proof.
  intros He Hstep [Hinv Hform]. split.
  - rewrite resolverOf_withResolver. by eapply resolverStep_inv.
  - eapply resolverStep_formListed; [done|apply Hinv|done].
Qed.

(** A new ledger whose references are live. *)
Lemma appInv_setTransactions txs st :
  (∀ a, alert st ≠ Some (DeleteCategoryAlert a)) →
  referencesLive txs (categories (core st)) →
  appInv st → appInv (setTransactions txs st).
Proof.
  intros Ha Hlive. rewrite !appInv_no_alert by done. by intros (_ & ? & ?).
Qed.

(** A new form whose category is blank or listed. *)
Lemma appInv_setNewTransaction form st :
  (∀ a, alert st ≠ Some (DeleteCategoryAlert a)) →
  nt_category form = "" ∨
    nt_category form ∈ categoriesFor (categories (core st)) (nt_type form) →
  appInv st → appInv (setNewTransaction form st).
Proof.
  intros Ha Hform. rewrite !appInv_no_alert by done. by intros (? & ? & _).
Qed.

(** Close a goal on a state whose six cells are those of a state that
    satisfies the invariant. *)
Ltac same_core :=
  eapply appInv_same_core; [| |eassumption]; [done|by intros ?].

Lemma handleAddTransaction_inv now nowMs st :
  (∀ a, alert st ≠ Some (DeleteCategoryAlert a)) →
  appInv st → appInv (handleAddTransaction now nowMs st).
Proof.
  intros Ha Hinv. unfold handleAddTransaction, addTransaction.
  destruct (negb _ || negb _) eqn:Hguard; [same_core|].
  apply orb_false_iff in Hguard as [_ Hc%negb_false_iff%truthy_true].
  apply appInv_no_alert in Hinv as (Hlive & Htarget & Hform); [|done].
  apply appInv_no_alert; [done|]. split_and!; [|done|by left].
  apply Forall_cons. split; [|done]. by destruct Hform.
Qed.

Lemma handleAddNewCategory_inv st :
  alert st = None → deleteModalVisible (core st) = false →
  appInv st → appInv (handleAddNewCategory st).
Proof.
  intros Ha Hv Hinv. unfold handleAddNewCategory.
  assert (∀ a, alert st ≠ Some (DeleteCategoryAlert a)) as Ha'
    by (by rewrite Ha).
  destruct (addCategory _ _ _) as [e|cats'] eqn:Hadd.
  { case_match; [same_core|done]. }
  apply appInv_no_alert in Hinv as (Hlive & Htarget & Hform); [|done].
  apply appInv_no_alert; [done|]. split_and!.
  - eapply Forall_impl; [exact Hlive|]. intros t Ht. simpl.
    rewrite (elem_of_addCategory _ _ _ _ _ _ Hadd). by left.
  - apply targetOffered_hidden; [done|]. by apply targetOffered_hidden in Htarget.
  - right. simpl. rewrite (elem_of_addCategory _ _ _ _ _ _ Hadd). by right.
Qed.

Lemma alertStep_inv a e st st' :
  alert st = Some a → alertStep a e st = Some st' →
  e ≠ Deletion ModalRequestClose → appInv st → appInv st'.
Proof.
  intros Ha Hstep He Hinv. unfold alertStep in Hstep.
  repeat (case_match; simplify_option_eq; try done); try same_core;
    try (eapply appInv_withResolver; [|done..]; congruence).
  apply appInv_setTransactions; [done| |same_core].
  apply Forall_filter, Hinv.
Qed.

Lemma deleteModalStep_inv e st st' :
  deleteModalStep e st = Some st' →
  e ≠ Deletion ModalRequestClose → appInv st → appInv st'.
Proof.
  intros Hstep He Hinv. unfold deleteModalStep in Hstep.
  repeat (case_match; simplify_option_eq; try done).
  eapply appInv_withResolver; [|done..]. congruence.
Qed.

Lemma addModalStep_inv e st st' :
  alert st = None → deleteModalVisible (core st) = false →
  addModalStep e st = Some st' → appInv st → appInv st'.
Proof.
  intros Ha Hv Hstep Hinv.
  assert (∀ a, alert st ≠ Some (DeleteCategoryAlert a)) as Ha'
    by (by rewrite Ha).
  unfold addModalStep in Hstep.
  repeat (case_match; simplify_option_eq; try done); try same_core;
    try (by apply handleAddNewCategory_inv);
    try (by apply handleAddTransaction_inv);
    try (eapply appInv_withResolver; [|done..]; congruence);
    (apply appInv_setNewTransaction; [done| |done]); simpl;
    [by left|apply Hinv|right|apply Hinv].
  match goal with Hi : _ && _ = true |- _ =>
    apply andb_true_iff in Hi as [_ Hi]; by apply includes_true in Hi end.
Qed.

Lemma pickerStep_inv e st st' :
  pickerStep e st = Some st' → appInv st → appInv st'.
Proof.
  intros Hstep Hinv. unfold pickerStep in Hstep.
  repeat (case_match; simplify_option_eq; try done); same_core.
Qed.

Lemma screenStep_inv e st st' :
  screenStep e st = Some st' → appInv st → appInv st'.
Proof.
  intros Hstep Hinv. unfold screenStep, headerStep, listStep, fabStep in Hstep.
  repeat (case_match; simplify_option_eq; try done); same_core.
Qed.

(** C12: every control of the component except the close request of the
    Delete Category modal keeps its integrity: every transaction's category
    is listed for its type, the category selected in the form is listed
    for the form's type, and a reassignment target is one of the chips
    offered. *)
Theorem appStep_inv e st st' :
  e ≠ Deletion ModalRequestClose → appStep e st = Some st' →
  appInv st → appInv st'.
Proof.
  intros He Hstep Hinv. unfold appStep in Hstep.
  destruct (isLoaded st); [|done]. simpl in Hstep.
  destruct (alert st) as [a|] eqn:Ha; [by eapply alertStep_inv|].
  destruct (deleteModalVisible (core st)) eqn:Hv;
    [by eapply deleteModalStep_inv|].
  destruct (modalVisible st); [by eapply addModalStep_inv|].
  destruct (pickerVisible st);
    [by eapply pickerStep_inv|by eapply screenStep_inv].
Qed.

(** ** The Save button *)

(** C26: [handleAddTransaction] on the whole state.  With the amount text
    or the category empty it shows the Missing Info alert and changes no
    cell.  Otherwise the new transaction is put in front of the ledger,
    which is a new array, the modal is closed, the form, the new category name and the adding flag
    are reset, and every other cell is left as it was. *)
Theorem handleAddTransaction_spec now nowMs st :
  let form := newTransaction (core st) in
  handleAddTransaction now nowMs st =
  if decide (nt_amount form = "" ∨ nt_category form = "")
  then setAlert (Some (ValidationAlert MissingInfo)) st
  else mkApp (theme st) (isLoaded st)
         (mkStore
            (buildTransaction now nowMs (currentDate st) form
             :: transactions (core st))
            (categories (core st)) emptyForm (deleteModalVisible (core st))
            (categoryToDelete (core st)) (reassignCategory (core st))
            (S (transactionsRef (core st))) (categoriesRef (core st)))
         false "" false (currentDate st) (pickerVisible st) (pickerYear st)
         (expandedCategories st) (alert st).
Proof.
  intros form. unfold handleAddTransaction. case_decide as Hform.
  - by rewrite addTransaction_inl.
  - rewrite addTransaction_inr; [done|..]; intros ?; apply Hform; auto.
Qed.

(** ** The month under the Add Transaction modal *)

(** C27: the add button opens the modal only on a month that is not in the
    future of the clock, and while the modal is open no control changes
    the month viewed: a transaction can only be saved into the month the
    modal was opened on. *)
Theorem month_fixed_under_modal e st st' :
  appStep e st = Some st' →
  (∀ now, e = PressFab now →
     isFutureMonth now (currentDate st) = false ∧ modalVisible st' = true) ∧
  (modalVisible st = true → currentDate st' = currentDate st).
Proof.
  intros Hstep. split.
  - intros now ->. by app_cases.
  - intros Hm. unfold appStep in Hstep. rewrite Hm in Hstep. by app_cases.
Qed.

End app.

(** ** A first session *)

(** Nothing is stored; the component is mounted on March 31st, 2025. *)
Definition emptyStorage : Storage xnum := mkStorage Missing Missing None.

Definition march31 : JSDate := mkDate 2025 2 31 0.

Definition firstMount : World xnum :=
  finishLoad true (mount march31 emptyStorage).

(** The add button, an amount, the Food chip. *)
Definition fillForm : list AppEvent :=
  [PressFab march31; ChangeAmount "12.5"; PressCategory "Food"].

Definition saveForm : AppEvent := PressSave march31 1743400000000.

Definition readyToSave : World xnum :=
  default firstMount (runWorld fillForm firstMount).

Definition afterSave : World xnum :=
  default firstMount (runWorld (fillForm ++ [saveForm]) firstMount).

Lemma readyToSave_inv : appInv (app readyToSave).
Proof.
  apply appInv_no_alert; [done|].
  split_and!; [by apply (bool_decide_unpack _)|by left|right].
  by apply (bool_decide_unpack _).
Defined.

Lemma readyToSave_step : appStep saveForm (app readyToSave) = Some (app afterSave).
Proof. by vm_compute. Defined.

Lemma afterSave_synced : synced afterSave.
Proof. intros _. by vm_compute. Defined.

Lemma runWorld_synced_witness : synced afterSave.
Proof.
  exact (runWorld_synced true march31 emptyStorage (fillForm ++ [saveForm])
           afterSave ltac:(by vm_compute)).
Defined.

Lemma load_after_save_witness :
  let st' := loadData true (storage afterSave) (initialState march31) in
  persisted st' =
    (jsonTransactions (transactions (core (app afterSave))),
     categories (core (app afterSave)), theme (app afterSave)) ∧
  alert st' = None ∧
  (persisted st' = persisted (app afterSave) ↔
   jsonExact (transactions (core (app afterSave)))).
Proof.
  exact (load_after_save march31 afterSave eq_refl afterSave_synced
           ltac:(done)).
Defined.

(** An expense saved with the amount text [abc]: the ledger holds NaN, the
    slot what JSON makes of it, and a reload brings back an amount of 0. *)
Definition afterUnreadable : World xnum :=
  default firstMount
    (runWorld [PressFab march31; ChangeAmount "abc"; PressCategory "Food";
               saveForm] firstMount).

Example reload_loses_NaN :
  let st' := loadData true (storage afterUnreadable) (initialState march31) in
  tx_amount <$> transactions (core (app afterUnreadable)) = [XNaN] ∧
  tx_amount <$> transactions (core st') = [num_zero] ∧
  ¬ jsonExact (transactions (core (app afterUnreadable))).
Proof.
  split_and!; [by vm_compute..|]. by apply (bool_decide_unpack _).
Qed.

Lemma appStep_inv_witness : appInv (app afterSave).
Proof.
  exact (appStep_inv saveForm (app readyToSave) (app afterSave) ltac:(done)
           readyToSave_step readyToSave_inv).
Defined.

Lemma month_fixed_under_modal_witness :
  (∀ now, saveForm = PressFab now →
     isFutureMonth now (currentDate (app readyToSave)) = false ∧
     modalVisible (app afterSave) = true) ∧
  (modalVisible (app readyToSave) = true →
   currentDate (app afterSave) = currentDate (app readyToSave)).
Proof.
  exact (month_fixed_under_modal saveForm (app readyToSave) (app afterSave)
           readyToSave_step).
Defined.

(** The first session, from nothing stored: after the load the three
    slots hold the defaults; after the form is filled and saved the ledger
    holds one expense of 12.5 on Food dated March 31st, 2025, the modal is
    closed, the form is reset, and the transactions slot holds the
    ledger. *)
Example first_session :
  storage firstMount =
    mkStorage (Stored []) (Stored defaultCategories) (Some "light") ∧
  (λ t, (tx_id t, tx_dateISO t, tx_displayDate t, tx_type t, tx_category t)) <$>
    transactions (core (app afterSave)) =
    [("1743400000000", mkDate 2025 2 31 0, "3/31/2025", Expense, "Food")] ∧
  tx_amount <$> transactions (core (app afterSave)) ≡ [parseFloat "12.50"] ∧
  modalVisible (app afterSave) = false ∧
  newTransaction (core (app afterSave)) = emptyForm ∧
  TRANSACTIONS (storage afterSave) = Stored (transactions (core (app afterSave))).
Proof.
  split_and!; try by vm_compute. repeat constructor.
Qed.
