(* ===== verification/Session.v ===== *)
(** Sessions of the component of [src/App.js]: runs of events from the
    state [loadData] leaves, the shape every reachable state has (which
    overlays can be open together, what an alert on screen refers to),
    the way back to the plain screen from any state, the expansion of a
    block as the parity of the presses on its header, and the way to any
    month through the picker. *)

From stdpp Require Import gmap.
From S2P Require Import Prelude JSNumber JSDate Ledger Registry MonthView Resolver App.

Section session.
Context {T : Type} `{JSNumber T, Locale, EqDecision T}.
Implicit Types (st : AppState T) (sto : Storage T) (e : AppEvent).

(** ** Runs *)

(** Running a list of events on the state alone. *)
Fixpoint runApp (es : list AppEvent) st : option (AppState T) :=
  match es with
  | [] => Some st
  | e :: es' => st' ← appStep e st; runApp es' st'
  end.

(** The states of a session: what [loadData] leaves when it completes on
    the initial state, and what the events make of it. *)
Inductive reachable (now : JSDate) sto : AppState T → Prop :=
  | reach_load readOk : reachable now sto (loadData readOk sto (initialState now))
  | reach_step e st st' :
      reachable now sto st → appStep e st = Some st' → reachable now sto st'.

(** ** Shape *)

(** What the alert on screen lies over: the validation and category alerts
    are raised from the Add Transaction modal with the Delete Category
    modal closed; the transaction alert is raised from the list, on a
    transaction of the ledger. *)
Definition wfAlert st (a : AppAlert T) : Prop :=
  match a with
  | LoadFailedAlert => True
  | ValidationAlert _ | DeleteCategoryAlert _ =>
      modalVisible st = true ∧ deleteModalVisible (core st) = false
  | DeleteTransactionAlert id =>
      modalVisible st = false ∧ pickerVisible st = false ∧
      id ∈ ids (transactions (core st))
  end.

(** The shape of a state: the theme is one of the two of [THEMES], the
    month shown is a date, the picker is never under the Add Transaction
    modal, the Delete Category modal is over the Add Transaction modal and
    on a category, the alert lies over what raised it, and no category is
    listed twice. *)
Definition wfState st : Prop :=
  theme st ∈ ["light"; "dark"] ∧
  validDate (currentDate st) ∧
  (modalVisible st = true → pickerVisible st = false) ∧
  (deleteModalVisible (core st) = true →
   modalVisible st = true ∧ is_Some (categoryToDelete (core st))) ∧
  match alert st with Some a => wfAlert st a | None => True end ∧
  uniqueCategories (categories (core st)).

(** What the storage must hold for the loaded state to have that shape: a
    theme the component wrote, and categories listed once. *)
Definition wfStorage sto : Prop :=
  match THEME sto with Some x => x ∈ ["light"; "dark"] | None => True end ∧
  match CATEGORIES sto with Stored cats => uniqueCategories cats | _ => True end.

#[export] Instance wfAlert_dec st a : Decision (wfAlert st a).
Proof. destruct a; apply _. Defined.

#[export] Instance wfState_dec st : Decision (wfState st).
Proof. unfold wfState. destruct (alert st); apply _. Defined.

#[export] Instance wfStorage_dec sto : Decision (wfStorage sto).
Proof. unfold wfStorage. destruct (THEME sto), (CATEGORIES sto); apply _. Defined.

(** ** The way back to the screen *)

(** Nothing lies over the screen. *)
Definition onScreen st : Prop :=
  alert st = None ∧ deleteModalVisible (core st) = false ∧
  modalVisible st = false ∧ pickerVisible st = false.

#[export] Instance onScreen_dec st : Decision (onScreen st).
Proof. unfold onScreen. apply _. Defined.

(** The button of an alert that dismisses it without doing anything. *)
Definition dismissAlert (a : AppAlert T) : AppEvent :=
  match a with
  | LoadFailedAlert | ValidationAlert _ => AlertOk
  | DeleteTransactionAlert _ => AlertCancelDelete
  | DeleteCategoryAlert _ => Deletion AlertCancel
  end.

(** The presses that close what lies over the screen, top first. *)
Definition dismissals st : list AppEvent :=
  match alert st with Some a => [dismissAlert a] | None => [] end ++
  (if deleteModalVisible (core st) then [Deletion ModalCancel] else []) ++
  (if modalVisible st then [AddModalClose] else []) ++
  (if pickerVisible st then [PickerClose] else []).

(** ** Shape is kept *)

Ltac theme_in :=
  first [by apply list_elem_of_here
        |by apply list_elem_of_further, list_elem_of_here].

Lemma withResolver_wf (ev : ResolverEvent) r st :
  resolverStep ev (resolverOf st) = Some r →
  wfState st → modalVisible st = true → wfState (withResolver r st).
Proof.
  intros Hstep (Hth & Hd & Hp & Hm & Ha & Hu) Hmv.
  destruct (resolverStep_shape _ _ _ Hstep) as (Hc & Hu' & Hx & _); [|done|].
  { intros Hv. by apply Hm. }
  unfold wfState, withResolver. simpl. split_and!; try done.
  - intros Hv. split; [done|by apply Hc].
  - destruct (confirmAlert r); simpl; [|done]. split; [done|]. by apply Hx.
Qed.

Lemma alertStep_wf a e st st' :
  alert st = Some a → alertStep a e st = Some st' → wfState st → wfState st'.
Proof.
  intros Ha Hstep Hwf. pose proof Hwf as (Hth & Hd & Hp & Hm & Hal & Hu).
  rewrite Ha in Hal.
  destruct a, e; simplify_option_eq; try done.
  destruct Hal. repeat case_match; simplify_option_eq; eauto using withResolver_wf.
Qed.

Lemma deleteModalStep_wf e st st' :
  deleteModalVisible (core st) = true →
  deleteModalStep e st = Some st' → wfState st → wfState st'.
Proof.
  intros Hv Hstep Hwf. pose proof Hwf as (_ & _ & _ & Hm & _).
  destruct (Hm Hv). destruct e; simplify_option_eq; eauto using withResolver_wf.
Qed.

Lemma handleAddTransaction_wf now nowMs st :
  alert st = None → deleteModalVisible (core st) = false → modalVisible st = true →
  wfState st → wfState (handleAddTransaction now nowMs st).
Proof.
  intros Ha Hv Hmv (Hth & Hd & Hp & Hm & _ & Hu). unfold handleAddTransaction.
  destruct (addTransaction _ _ _ _ _); unfold wfState; simpl; by rewrite ?Hv, ?Ha.
Qed.

Lemma handleAddNewCategory_wf st :
  alert st = None → deleteModalVisible (core st) = false → modalVisible st = true →
  wfState st → wfState (handleAddNewCategory st).
Proof.
  intros Ha Hv Hmv Hwf. pose proof Hwf as (Hth & Hd & Hp & Hm & _ & Hu).
  unfold handleAddNewCategory.
  destruct (addCategory _ _ _) as [e|cats] eqn:Hadd; [destruct (alert_of e)|];
    unfold wfState; simpl; rewrite ?Hv, ?Ha; eauto 10 using addCategory_unique.
Qed.

Lemma addModalStep_wf e st st' :
  alert st = None → deleteModalVisible (core st) = false → modalVisible st = true →
  addModalStep e st = Some st' → wfState st → wfState st'.
Proof.
  intros Ha Hv Hmv Hstep Hwf. pose proof Hwf as (Hth & Hd & Hp & Hm & _ & Hu).
  unfold addModalStep in Hstep.
  repeat case_match; simplify_option_eq;
    eauto using handleAddTransaction_wf, handleAddNewCategory_wf, withResolver_wf;
    unfold wfState; simpl; by rewrite ?Hv, ?Ha.
Qed.

Lemma pickerStep_wf e st st' :
  alert st = None → deleteModalVisible (core st) = false → modalVisible st = false →
  pickerStep e st = Some st' → wfState st → wfState st'.
Proof.
  intros Ha Hv Hmv Hstep (Hth & Hd & Hp & Hm & _ & Hu). unfold pickerStep in Hstep.
  repeat case_match; simplify_option_eq;
    unfold wfState, selectMonthYear; simpl; rewrite ?Hv, ?Ha, ?Hmv;
    split_and!; auto with ledger; done.
Qed.

(** A transaction of a group on screen is a transaction of the ledger. *)
Lemma shownGroups_ids st g id :
  g ∈ shownGroups st → id ∈ ids (g_transactions g) → id ∈ ids (transactions (core st)).
Proof.
  unfold ids, shownGroups. rewrite !list_elem_of_fmap.
  intros Hg (t & -> & Ht). exists t. split; [done|].
  assert (t ∈ getFilteredTransactions (currentDate st) (transactions (core st)))
    as Hin by (apply elem_of_getGroupedTransactions; eauto).
  by apply elem_of_getFilteredTransactions in Hin as [? _].
Qed.

Lemma screenStep_wf e st st' :
  alert st = None → deleteModalVisible (core st) = false →
  modalVisible st = false → pickerVisible st = false →
  screenStep e st = Some st' → wfState st → wfState st'.
Proof.
  intros Ha Hv Hmv Hpv Hstep (Hth & Hd & Hp & Hm & _ & Hu).
  unfold screenStep, headerStep, listStep, fabStep in Hstep.
  repeat case_match; try done; apply (inj Some) in Hstep as <-;
    unfold wfState, toggleTheme, changeMonth; simpl; rewrite ?Hv, ?Ha, ?Hmv;
    split_and!; auto with ledger; try done.
  - case_decide; theme_in.
  - match goal with Hs : some _ _ = true |- _ =>
      apply some_true in Hs as (g & Hg & _ & Hid) end.
    eauto using shownGroups_ids.
Qed.

(** The shape is kept by every event. *)
Lemma appStep_wf e st st' : appStep e st = Some st' → wfState st → wfState st'.
Proof.
  unfold appStep. intros Hstep Hwf.
  repeat case_match; try done;
    eauto using alertStep_wf, deleteModalStep_wf, addModalStep_wf, pickerStep_wf,
      screenStep_wf.
Qed.

(** The state after loading has the shape when the storage is what the
    component writes. *)
Lemma loadData_wf readOk now sto :
  validDate now → wfStorage sto → wfState (loadData readOk sto (initialState now)).
Proof.
  intros Hd [Hth Hcats]. pose proof defaultCategories_unique. unfold loadData.
  destruct readOk, (TRANSACTIONS sto), (CATEGORIES sto), (THEME sto) as [x|];
    simpl; try destruct (truthy x); unfold wfState; simpl;
    split_and!; try done; theme_in.
Qed.

(** Runs keep the shape. *)
Lemma runApp_wf es : ∀ st st', runApp es st = Some st' → wfState st → wfState st'.
Proof.
  induction es as [|e es IH]; intros st st' Hrun Hwf; simplify_option_eq;
    eauto using appStep_wf.
Qed.

Lemma runApp_app es1 es2 st :
  runApp (es1 ++ es2) st = runApp es1 st ≫= runApp es2.
Proof.
  revert st. induction es1 as [|e es1 IH]; intros st; simpl; [done|].
  destruct (appStep e st); simpl; auto.
Qed.

Lemma runWorld_runApp es : ∀ w w',
  runWorld es w = Some w' → runApp es (app w) = Some (app w').
Proof.
  induction es as [|e es IH]; intros w w' Hrun; simpl in *; [by simplify_eq|].
  unfold worldStep in Hrun. destruct (appStep e (app w)) as [st1|]; [|done].
  simpl in *. by apply IH in Hrun.
Qed.

Lemma runApp_reachable now sto es : ∀ st st',
  reachable now sto st → runApp es st = Some st' → reachable now sto st'.
Proof.
  induction es as [|e es IH]; intros st st' Hst Hrun; simplify_option_eq;
    eauto using reach_step.
Qed.

(** A state of a session is the end of a run from the loaded state. *)
Lemma reachable_runApp now sto st :
  reachable now sto st →
  ∃ readOk es, runApp es (loadData readOk sto (initialState now)) = Some st.
Proof.
  induction 1 as [readOk|e st st' _ (readOk & es & Hrun) Hstep].
  - by exists readOk, [].
  - exists readOk, (es ++ [e]). rewrite runApp_app, Hrun. simpl. by rewrite Hstep.
Qed.

(** C13: every state of a session has the shape [wfState]: whatever the
    storage holds of transactions and whether or not the load fails, when
    the stored theme and categories are ones the component wrote, no
    sequence of presses leads to a state with an unknown theme, a month
    that is no date, the picker under the Add Transaction modal, the
    Delete Category modal without its category or without the Add
    Transaction modal under it, an alert over the wrong screen, or a
    category listed twice. *)
Theorem reachable_wf now sto st :
  validDate now → wfStorage sto → reachable now sto st → wfState st.
Proof.
  intros Hd Hsto. induction 1; eauto using loadData_wf, appStep_wf.
Qed.


(** ** Getting back to the screen *)

(** On the plain screen the events go to the controls of the screen. *)
Lemma appStep_onScreen e st :
  isLoaded st = true → onScreen st → appStep e st = screenStep e st.
Proof.
  intros Hl (Ha & Hv & Hm & Hp). unfold appStep. by rewrite Hl, Ha, Hv, Hm, Hp.
Qed.

(** C20: nothing traps the user: from every loaded state, the presses of
    [dismissals], at most four, are all accepted and lead to the plain
    screen, with the ledger, the registry, the theme and the month as they
    were. *)
Theorem dismissals_reach_screen st :
  isLoaded st = true →
  ∃ st', runApp (dismissals st) st = Some st' ∧ onScreen st' ∧
         persisted st' = persisted st ∧ currentDate st' = currentDate st ∧
         length (dismissals st) ≤ 4.
Proof.
  destruct st as [th il [txs cats form dmv ctd rc] mv ncn iac cd pv py ec al].
  simpl. intros ->. unfold dismissals, onScreen, persisted.
  destruct al as [[]|], dmv, mv, pv; simpl; eexists; split_and!;
    try reflexivity; lia.
Qed.

(** The category a deletion request in progress is about. *)
Definition requested (r : Resolver T) : option CategoryRef :=
  match confirmAlert r with
  | Some a => Some (ca_category a)
  | None => if deleteModalVisible (store r) then categoryToDelete (store r) else None
  end.

(** The button that completes the request by deleting. *)
Definition completion (r : Resolver T) : ResolverEvent :=
  if confirmAlert r is Some _ then AlertDelete else ModalDeleteAll.

(** C21: a deletion request that was started can always be completed: in
    the alert or in the modal, the delete button is accepted, ends the
    request and removes the requested category from the registry. *)
Theorem deletion_completes r :
  modalHasCategory (store r) → phase r ≠ Idle →
  ∃ c r', requested r = Some c ∧
          resolverStep (completion r) r = Some r' ∧ phase r' = Idle ∧
          categories (store r') =
            removeCategory (cr_name c) (cr_type c) (categories (store r)).
Proof.
  unfold modalHasCategory, phase, requested, completion, resolverStep, phase.
  intros Hc Hph. destruct (confirmAlert r) as [a|] eqn:Ha.
  - by eexists _, _.
  - destruct (deleteModalVisible (store r)); [|done].
    destruct Hc as [c ->]; [done|]. by eexists _, _.
Qed.

(** ** Expansion of the blocks *)

(** C35: whether a block is expanded is the parity of the presses on its
    header since the beginning: nothing else changes it, neither another
    month nor the deletion of its transactions or of its category, so a
    block that comes back is drawn as it was left. *)
Theorem runApp_isExpanded es key : ∀ st st',
  runApp es st = Some st' →
  isExpanded key st' =
  xorb (isExpanded key st)
       (Nat.odd (length (filter (λ e, pressesHeader key e = true) es))).
Proof.
  induction es as [|e es IH]; intros st st' Hrun; simplify_option_eq.
  { by rewrite xorb_false_r. }
  rewrite (IH _ _ Hrun), (appStep_isExpanded _ _ _ _ Heqo), xorb_assoc.
  f_equal. rewrite filter_cons. destruct (pressesHeader key e); simpl; [|done].
  by rewrite Nat.odd_succ, <-Nat.negb_odd.
Qed.

(** ** Any month can be shown *)

(** The presses on a year arrow of the picker that lead from one year to
    another. *)
Definition yearPresses (from to : Z) : list AppEvent :=
  replicate (Z.to_nat (Z.abs (to - from))) (PickerYear (Z.sgn (to - from))).

(** The presses that show the month [m] of the year [y]: the month title,
    the year arrows, the cell of the month. *)
Definition selectMonth (y m : Z) st : list AppEvent :=
  PressMonthTitle :: yearPresses (getFullYear (currentDate st)) y ++
  [PressMonthCell m].

(** With the picker open, the year arrows move its year and nothing else. *)
Lemma runApp_PickerYear (n : nat) (direction : Z) : ∀ st,
  isLoaded st = true → alert st = None → deleteModalVisible (core st) = false →
  modalVisible st = false → pickerVisible st = true →
  (n ≠ 0%nat → direction = 1 ∨ direction = -1)%Z →
  runApp (replicate n (PickerYear direction)) st =
  Some (setPickerYear (pickerYear st + Z.of_nat n * direction) st).
Proof.
  induction n as [|n IH]; intros st Hl Ha Hd Hm Hp Hdir.
  { destruct st. unfold setPickerYear. simpl. do 2 f_equal. lia. }
  simpl. unfold appStep. rewrite Hl, Ha, Hd, Hm, Hp. simpl.
  rewrite bool_decide_eq_true_2 by auto. simpl.
  rewrite IH by (done || auto). destruct st. unfold setPickerYear. simpl.
  do 2 f_equal. lia.
Qed.

(** C30: any month can be shown: from the plain screen the presses of
    [selectMonth] (the month title, the year arrow as often as the years
    are apart, the cell of the month) are all accepted and lead to the
    plain screen on the first day of the month asked for, with the ledger,
    the registry and the theme as they were; but for the years 0 to 99,
    which [new Date] reads as 1900 to 1999. *)
Theorem any_month_selectable st (y m : Z) :
  isLoaded st = true → onScreen st → (0 ≤ m < 12)%Z → ¬ (0 ≤ y ≤ 99)%Z →
  ∃ st', runApp (selectMonth y m st) st = Some st' ∧
         currentDate st' = mkDate y m 1 0 ∧ onScreen st' ∧
         persisted st' = persisted st.
Proof.
  intros Hl (Ha & Hd & Hm & Hp) Hmonth Hy. unfold selectMonth, yearPresses.
  cbn [runApp]. rewrite appStep_onScreen by done. simpl.
  rewrite runApp_app, runApp_PickerYear; try done; [|lia].
  simpl. unfold appStep. simpl. rewrite Hl, Ha, Hd, Hm. simpl.
  rewrite bool_decide_eq_true_2 by done. eexists. split; [done|]. simpl.
  rewrite Z2Nat.id, Z.abs_sgn by lia. unfold selectMonthYear.
  replace (_ + (y - _))%Z with y by lia.
  by rewrite newDate_first by (done || lia).
Qed.

End session.

(** ** The first session again *)

(** The state with the form filled is a state of the session on nothing
    stored. *)
Lemma readyToSave_reachable :
  reachable march31 emptyStorage (app readyToSave).
Proof.
  apply (runApp_reachable _ _ fillForm (app firstMount)); [|by vm_compute].
  apply (reach_load march31 emptyStorage true).
Defined.

Lemma reachable_wf_witness : wfState (app readyToSave).
Proof.
  exact (reachable_wf march31 emptyStorage (app readyToSave)
           ltac:(by apply (bool_decide_unpack _))
           ltac:(by apply (bool_decide_unpack _))
           readyToSave_reachable).
Defined.

(** With the Add Transaction modal open, one press leads back. *)
Lemma dismissals_reach_screen_witness :
  ∃ st', runApp [AddModalClose] (app readyToSave) = Some st' ∧ onScreen st' ∧
         persisted st' = persisted (app readyToSave) ∧
         currentDate st' = currentDate (app readyToSave) ∧
         length (dismissals (app readyToSave)) ≤ 4.
Proof. exact (dismissals_reach_screen (app readyToSave) eq_refl). Defined.

(** The request on Food with its two transactions, the modal open. *)
Definition foodRequest : Resolver xnum :=
  default (mkResolver foodStore None)
    (run [LongPressCategory "Food"] (mkResolver foodStore None)).

Lemma deletion_completes_witness :
  ∃ c r', requested foodRequest = Some c ∧
          resolverStep ModalDeleteAll foodRequest = Some r' ∧ phase r' = Idle ∧
          categories (store r') =
            removeCategory (cr_name c) (cr_type c) (categories (store foodRequest)).
Proof.
  exact (deletion_completes foodRequest ltac:(by intros _; eexists)
           ltac:(done)).
Defined.

(** The block of Food expanded, its only expense deleted, and another
    expense on Food saved a minute later. *)
Definition comesBack : list AppEvent :=
  [PressGroupHeader "Expense-Food"; LongPressTransaction "1743400000000";
   AlertConfirmDelete; PressFab march31; ChangeAmount "3";
   PressCategory "Food"; PressSave march31 1743400060000].

(** The state at the end of it. *)
Definition cameBack : AppState xnum :=
  default (app afterSave) (runApp comesBack (app afterSave)).

Lemma runApp_isExpanded_witness : isExpanded "Expense-Food" cameBack = true.
Proof.
  exact (runApp_isExpanded comesBack "Expense-Food" (app afterSave) cameBack
           ltac:(by vm_compute)).
Defined.

(** The block is gone with its expense, and when Food has an expense again
    it is drawn expanded, though this block has never been pressed. *)
Example expanded_block_comes_back :
  (st ← runApp (take 3 comesBack) (app afterSave);
   Some (g_key <$> shownGroups st)) = Some [] ∧
  (st ← runApp comesBack (app afterSave);
   Some ((λ g, (g_key g, isExpanded (g_key g) st)) <$> shownGroups st)) =
  Some [("Expense-Food", true)].
Proof. by vm_compute. Qed.

(** February 2024 from the screen of the first session: the title, the
    year arrow once, the cell. *)
Lemma any_month_selectable_witness :
  ∃ st', runApp (selectMonth 2024 1 (app afterSave)) (app afterSave) = Some st' ∧
         currentDate st' = mkDate 2024 1 1 0 ∧ onScreen st' ∧
         persisted st' = persisted (app afterSave).
Proof.
  exact (any_month_selectable (app afterSave) 2024 1 eq_refl
           ltac:(by_computation) ltac:(lia) ltac:(lia)).
Defined.

(** The presses for January of the year 50 are accepted as well, and show
    January 1950. *)
Example year_50_shows_1950 :
  length (selectMonth 50 0 (app afterSave)) = 1977%nat ∧
  (st ← runApp (selectMonth 50 0 (app afterSave)) (app afterSave);
   Some (currentDate st)) = Some (mkDate 1950 0 1 0).
Proof. split; by vm_compute. Qed.
