(* ===== verification/LedgerRuns.v ===== *)
(** The ledger along a session of the component of [src/App.js]: with a
    millisecond clock that moves on between two saves, every control keeps
    the ids of the ledger distinct and its records well formed, whatever
    the order of adds, deletions and category reassignments. *)

From stdpp Require Import gmap.
From S2P Require Import Prelude JSNumber JSDate Ledger Registry MonthView Resolver App.
From S2P Require Import Session.

Section ledger_runs.
Context {T : Type} `{JSNumber T, Locale, EqDecision T}.
Implicit Types (st : AppState T) (sto : Storage T) (e : AppEvent).
Implicit Types (r : Resolver T) (n : Z).

(** ** The clock *)

(** The reading of [Date.now()] an event carries. *)
Definition clockOf e : option Z :=
  match e with PressSave _ nowMs => Some nowMs | _ => None end.

(** The bound on the readings used, after an event. *)
Definition tick n e : Z := from_option Z.succ n (clockOf e).

(** The clock moves on: no reading of the run is below [n], and each is
    above the readings before it. *)
Fixpoint ticking n (es : list AppEvent) : Prop :=
  match es with
  | [] => True
  | e :: es' => from_option (Z.le n) True (clockOf e) ∧ ticking (tick n e) es'
  end.

(** The bound after a run. *)
Definition ticks n (es : list AppEvent) : Z := fold_left tick es n.

(** ** The invariant *)

(** The alert of a deletion request has seen the ledger as it is: nothing
    can be pressed under an alert. *)
Definition alertSeesLedger st : Prop :=
  match alert st with
  | Some (DeleteCategoryAlert a) =>
      transactions (ca_seen a) = transactions (core st)
  | _ => True
  end.

Definition ledgerInv n st : Prop :=
  wfLedger n (transactions (core st)) ∧ alertSeesLedger st.

(** What the storage must hold for the loaded ledger to be well formed. *)
Definition ledgerStored n sto : Prop :=
  match TRANSACTIONS sto with Stored txs => wfLedger n txs | _ => True end.

(** ** The deletion request *)

Lemma executeCategoryDeletion_wf n seen c ty action (st st' : Store T) :
  wfLedger n (transactions seen) →
  executeCategoryDeletion seen c ty action st = inr st' →
  wfLedger n (transactions st').
Proof.
  intros Hwf. unfold executeCategoryDeletion. destruct action.
  - intros [= <-]. by apply deleteCategoryTransactions_wf.
  - destruct (truthy (reassignCategory seen)) eqn:Ht; simpl; [|done].
    intros [= <-]. apply reassignTransactions_wf; [|done]. by apply truthy_true.
Qed.

Lemma orUnchanged_wf n seen c ty action (st : Store T) :
  wfLedger n (transactions seen) → wfLedger n (transactions st) →
  wfLedger n
    (transactions (orUnchanged st (executeCategoryDeletion seen c ty action st))).
Proof.
  intros Hseen Hst.
  destruct (executeCategoryDeletion _ _ _ _ _) eqn:Hex; simpl; [done|].
  eapply executeCategoryDeletion_wf; [exact Hseen|exact Hex].
Qed.

(** The ledger of the request and what its alert has seen. *)
Definition requestInv n r : Prop :=
  wfLedger n (transactions (store r)) ∧
  ∀ a, confirmAlert r = Some a → transactions (ca_seen a) = transactions (store r).

Lemma resolverStep_wf n ev r r' :
  resolverStep ev r = Some r' → requestInv n r → requestInv n r'.
Proof.
  intros Hstep [Hwf Hseen]. unfold resolverStep, phase in Hstep.
  destruct (confirmAlert r) as [a|] eqn:Ha.
  - specialize (Hseen a eq_refl).
    destruct ev; simplify_option_eq; (split; [|done]); simpl; try done;
      rewrite Hseen; by apply deleteCategoryTransactions_wf.
  - unfold handleDeleteCategoryInitiation in Hstep.
    repeat case_match; simplify_option_eq; (split; [|by intros ? [= <-]]);
      simpl; try done;
      first [by apply deleteCategoryTransactions_wf|by apply orUnchanged_wf].
Qed.

(** ** The component *)

Lemma ledgerInv_resolverOf n st :
  ledgerInv n st ↔ requestInv n (resolverOf st).
Proof.
  unfold ledgerInv, requestInv, alertSeesLedger, resolverOf. simpl.
  split; intros [Hwf Ha]; (split; [done|]).
  - intros a Heq. by destruct (alert st) as [[]|]; simplify_eq.
  - destruct (alert st) as [[]|]; try done. by apply Ha.
Qed.

Lemma withResolver_ledgerInv n (ev : ResolverEvent) r st :
  resolverStep ev (resolverOf st) = Some r → ledgerInv n st →
  ledgerInv n (withResolver r st).
Proof.
  intros Hstep Hinv%ledgerInv_resolverOf.
  apply ledgerInv_resolverOf. rewrite resolverOf_withResolver.
  by eapply resolverStep_wf.
Qed.

(** A state with the same ledger and no alert of a deletion request. *)
Lemma ledgerInv_same n st st' :
  transactions (core st') = transactions (core st) →
  (∀ a, alert st' ≠ Some (DeleteCategoryAlert a)) →
  ledgerInv n st → ledgerInv n st'.
Proof.
  intros Ht Ha [Hwf _]. split; [by rewrite Ht|]. unfold alertSeesLedger.
  destruct (alert st') as [[]|]; try done. by destruct (Ha a).
Qed.

Lemma handleAddTransaction_ledgerInv n now nowMs st :
  (n ≤ nowMs)%Z → alert st = None → ledgerInv n st →
  ledgerInv (tick n (PressSave now nowMs)) (handleAddTransaction now nowMs st).
Proof.
  intros Hn Ha [Hwf _]. change (tick _ _) with (nowMs + 1)%Z.
  unfold handleAddTransaction.
  destruct (addTransaction _ _ _ _ _) as [err|txs] eqn:Hadd.
  - split; [|done]. eapply wfLedger_mono; [|done]. lia.
  - split; [|unfold alertSeesLedger; simpl; by rewrite Ha].
    by eapply addTransaction_wf.
Qed.

(** Close a goal of the invariant on a state built by setters: the ledger
    is the old one or the old one without an id, and the alert is none of
    a deletion request. *)
Ltac ledger_step Ha :=
  first
    [ by eauto using withResolver_ledgerInv
    | split; simpl;
      [ first [done | by apply removeTransaction_wf]
      | unfold alertSeesLedger; simpl; by rewrite ?Ha ] ].

Lemma alertStep_ledgerInv n a e st st' :
  alert st = Some a → alertStep a e st = Some st' →
  ledgerInv n st → ledgerInv n st'.
Proof.
  intros Ha Hstep Hinv. pose proof Hinv as [Hwf _].
  destruct a, e; simplify_option_eq; repeat case_match; simplify_option_eq;
    ledger_step Ha.
Qed.

Lemma deleteModalStep_ledgerInv n e st st' :
  deleteModalStep e st = Some st' → ledgerInv n st → ledgerInv n st'.
Proof. intros Hstep Hinv. destruct e; simplify_option_eq; ledger_step Hinv. Qed.

Lemma handleAddNewCategory_ledgerInv n st :
  alert st = None → ledgerInv n st → ledgerInv n (handleAddNewCategory st).
Proof.
  intros Ha [Hwf _]. unfold handleAddNewCategory.
  destruct (addCategory _ _ _) as [err|cats]; [destruct (alert_of err)|];
    ledger_step Ha.
Qed.

Lemma addModalStep_ledgerInv n e st st' :
  alert st = None → addModalStep e st = Some st' →
  from_option (Z.le n) True (clockOf e) →
  ledgerInv n st → ledgerInv (tick n e) st'.
Proof.
  intros Ha Hstep Hn Hinv. pose proof Hinv as [Hwf _].
  unfold addModalStep in Hstep.
  destruct e; repeat case_match; simplify_option_eq;
    eauto using handleAddTransaction_ledgerInv, handleAddNewCategory_ledgerInv;
    ledger_step Ha.
Qed.

Lemma pickerStep_ledgerInv n e st st' :
  alert st = None → pickerStep e st = Some st' → ledgerInv n st → ledgerInv n st'.
Proof.
  intros Ha Hstep [Hwf _]. unfold pickerStep in Hstep.
  repeat case_match; simplify_option_eq; ledger_step Ha.
Qed.

Lemma screenStep_ledgerInv n e st st' :
  alert st = None → screenStep e st = Some st' → ledgerInv n st → ledgerInv n st'.
Proof.
  intros Ha Hstep [Hwf _].
  unfold screenStep, headerStep, listStep, fabStep in Hstep.
  repeat case_match; simplify_option_eq; ledger_step Ha.
Qed.

(** The bound moves only on a save. *)
Lemma tick_other e n : clockOf e = None → tick n e = n.
Proof. unfold tick. by intros ->. Qed.

Lemma tick_le n e : (n ≤ tick n e)%Z ∨ ∃ k, clockOf e = Some k.
Proof. unfold tick. destruct (clockOf e); [right; by eexists|left; simpl; lia]. Qed.

Lemma ledgerInv_mono n n' st : (n ≤ n')%Z → ledgerInv n st → ledgerInv n' st.
Proof. intros Hn [Hwf Ha]. split; [by eapply wfLedger_mono|done]. Qed.

(** Every control keeps the ledger well formed, at a reading of the clock
    that is not below the bound. *)
Lemma appStep_ledgerInv n e st st' :
  appStep e st = Some st' → from_option (Z.le n) True (clockOf e) →
  ledgerInv n st → ledgerInv (tick n e) st'.
Proof.
  intros Hstep Hn Hinv. unfold appStep in Hstep.
  destruct (isLoaded st); [|done]. simpl in Hstep.
  destruct (alert st) as [a|] eqn:Ha;
    [|destruct (deleteModalVisible (core st));
      [|destruct (modalVisible st);
        [by eapply addModalStep_ledgerInv|destruct (pickerVisible st)]]];
    (eapply ledgerInv_mono;
     [|eauto using alertStep_ledgerInv, deleteModalStep_ledgerInv,
         pickerStep_ledgerInv, screenStep_ledgerInv]);
    unfold tick; destruct (clockOf e); simpl in *; lia.
Qed.

Lemma loadData_ledgerInv n readOk now sto :
  ledgerStored n sto → ledgerInv n (loadData readOk sto (initialState now)).
Proof.
  unfold ledgerStored, loadData. intros Hsto.
  assert (wfLedger (T:=T) n []) by (split_and!; constructor).
  destruct readOk, (TRANSACTIONS sto), (CATEGORIES sto), (THEME sto) as [x|];
    simpl; try destruct (truthy x); by split.
Qed.

Lemma ticking_app n es1 es2 :
  ticking n (es1 ++ es2) ↔ ticking n es1 ∧ ticking (ticks n es1) es2.
Proof.
  revert n. induction es1 as [|e es1 IH]; intros n; simpl; [naive_solver|].
  rewrite IH. unfold ticks. naive_solver.
Qed.

Lemma runApp_ledgerInv es : ∀ n st st',
  ticking n es → runApp es st = Some st' →
  ledgerInv n st → ledgerInv (ticks n es) st'.
Proof.
  induction es as [|e es IH]; intros n st st' Ht Hrun Hinv; simpl in *;
    [by simplify_eq|].
  destruct (appStep e st) as [st1|] eqn:Hstep; [|done]. destruct Ht as [Hn Ht].
  eapply IH; eauto using appStep_ledgerInv.
Qed.

Lemma runApp_isLoaded es : ∀ st st',
  isLoaded st = true → runApp es st = Some st' → isLoaded st' = true.
Proof.
  induction es as [|e es IH]; intros st st' Hl Hrun; simpl in *;
    [by simplify_eq|].
  destruct (appStep e st) as [st1|] eqn:Hstep; [|done].
  apply appStep_isLoaded in Hstep as [_ ?]. eauto.
Qed.

(** What JSON carries of a well-formed ledger is well formed. *)
Lemma jsonTransactions_wf n txs : wfLedger n txs → wfLedger n (jsonTransactions txs).
Proof.
  intros (Hb & Hnd & Hwf). split_and!.
  - apply Forall_fmap. eapply Forall_impl; [exact Hb|]. by intros [].
  - by rewrite ids_jsonTransactions.
  - apply Forall_fmap. eapply Forall_impl; [exact Hwf|]. by intros [].
Qed.

(** C3: the ledger along a session: when the stored ledger is well formed
    with ids printed from readings of the clock below [n], and the clock
    moves on from [n] between the saves of the session, then after every
    run of presses the ids of the ledger are distinct and printed from
    readings used, every record has a valid date, the date text of the
    locale and a category; and the ledger in storage is again well formed,
    so that the next session starts as this one did. *)
Theorem session_ledger n readOk now sto es w :
  ledgerStored n sto → ticking n es →
  runWorld es (finishLoad readOk (mount now sto)) = Some w →
  wfLedger (ticks n es) (transactions (core (app w))) ∧
  ledgerStored (ticks n es) (storage w).
Proof.
  intros Hsto Ht Hrun.
  pose proof (runWorld_keeps_synced _ _ _ (finishLoad_synced readOk now sto) Hrun)
    as Hs.
  apply runWorld_runApp in Hrun as Hrun'.
  destruct (runApp_ledgerInv _ _ _ _ Ht Hrun'
              (loadData_ledgerInv n readOk now sto Hsto)) as [Hwf _].
  split; [done|]. unfold ledgerStored.
  destruct Hs as (-> & _); [|by apply jsonTransactions_wf].
  eapply runApp_isLoaded; [|exact Hrun']. apply loadData_isLoaded.
Qed.

End ledger_runs.

(** ** The first session *)

Lemma session_ledger_witness :
  wfLedger (ticks 1743400000000 (fillForm ++ [saveForm]))
    (transactions (core (app afterSave))) ∧
  ledgerStored (ticks 1743400000000 (fillForm ++ [saveForm])) (storage afterSave).
Proof.
  exact (session_ledger 1743400000000 true march31 emptyStorage
           (fillForm ++ [saveForm]) afterSave I ltac:(by vm_compute)
           ltac:(by vm_compute)).
Defined.

(** Two saves within one millisecond: the clock has not moved on, the two
    records share an id, and the Delete button of one deletes both. *)
Definition twoSaves : list AppEvent :=
  fillForm ++ [saveForm] ++ fillForm ++ [saveForm].

Example same_millisecond_ids :
  ¬ ticking 0 twoSaves ∧
  ∃ st st',
    runApp twoSaves (app firstMount) = Some st ∧
    ids (transactions (core st)) = ["1743400000000"; "1743400000000"] ∧
    runApp [PressGroupHeader "Expense-Food";
            LongPressTransaction "1743400000000"; AlertConfirmDelete] st =
      Some st' ∧
    transactions (core st') = [].
Proof.
  split; [vm_compute; intuition lia|]. eexists _, _. by vm_compute.
Qed.
