(* ===== verification/Faults.v ===== *)
(** Writes that fail.  Each save effect of [src/App.js] ends in
    [.catch(e => console.error(e))]: a [setItem] that fails is logged, the
    slot keeps what it held, the state in memory is not touched, and
    nothing retries the write until the cell is set again.  This file
    models the effects with the outcome of each write, and shows what a
    failure leaves in storage. *)

From stdpp Require Import gmap.
From S2P Require Import Prelude JSNumber JSDate Ledger Registry MonthView Resolver App.
From S2P Require Import Session.

(** Which of the three [setItem] calls of a render succeed. *)
Record Writes : Set := mkWrites {
  w_transactions : bool;
  w_categories : bool;
  w_theme : bool;
}.

#[export] Instance Writes_eq_dec : EqDecision Writes.
Proof. solve_decision. Defined.

Definition allWritten : Writes := mkWrites true true true.

Section faults.
Context {T : Type} `{JSNumber T, Locale, EqDecision T}.
Implicit Types (st : AppState T) (sto : Storage T) (w : World T) (ok : Writes).

(** The three save effects with the outcome of their writes: an effect
    whose write fails leaves its slot as it was. *)
Definition saveEffectsWith ok (prev next : AppState T) sto : Storage T :=
  let saved := saveEffects prev next sto in
  mkStorage
    (if w_transactions ok then TRANSACTIONS saved else TRANSACTIONS sto)
    (if w_categories ok then CATEGORIES saved else CATEGORIES sto)
    (if w_theme ok then THEME saved else THEME sto).

(** The completion of [loadData], then the effects of the next render. *)
Definition finishLoadWith ok (readOk : bool) w : World T :=
  let st' := loadData readOk (storage w) (app w) in
  mkWorld st' (saveEffectsWith ok (app w) st' (storage w)).

(** An event, then the effects of the next render. *)
Definition worldStepWith ok (e : AppEvent) w : option (World T) :=
  st' ← appStep e (app w);
  Some (mkWorld st' (saveEffectsWith ok (app w) st' (storage w))).

(** Running a list of events, each with the outcome of its writes. *)
Fixpoint runWorldWith (evs : list (AppEvent * Writes)) w : option (World T) :=
  match evs with
  | [] => Some w
  | (e, ok) :: evs' => w' ← worldStepWith ok e w; runWorldWith evs' w'
  end.

(** ** Writes that succeed *)

Lemma saveEffectsWith_all prev next sto :
  saveEffectsWith allWritten prev next sto = saveEffects prev next sto.
Proof.
  unfold saveEffectsWith, allWritten. cbn [w_transactions w_categories w_theme].
  by destruct (saveEffects prev next sto).
Qed.

Lemma worldStepWith_all e w : worldStepWith allWritten e w = worldStep e w.
Proof.
  unfold worldStepWith, worldStep. destruct (appStep e (app w)); [|done].
  simpl. by rewrite saveEffectsWith_all.
Qed.

(** With every write succeeding the runs are those of [runWorld]. *)
Lemma runWorldWith_all es : ∀ w,
  runWorldWith ((λ e, (e, allWritten)) <$> es) w = runWorld es w.
Proof.
  induction es as [|e es IH]; intros w; simpl; [done|].
  rewrite worldStepWith_all. destruct (worldStep e w); simpl; auto.
Qed.

(** ** The state in memory *)

(** The state does not depend on what the writes do. *)
Lemma runWorldWith_runApp evs : ∀ w w',
  runWorldWith evs w = Some w' → runApp evs.*1 (app w) = Some (app w').
Proof.
  induction evs as [|[e ok] evs IH]; intros w w' Hrun; simpl in *;
    [by simplify_eq|].
  unfold worldStepWith in Hrun. destruct (appStep e (app w)) as [st1|]; [|done].
  simpl in *. by apply IH in Hrun.
Qed.

(** ** The slot of a write that failed *)

Lemma saveEffectsWith_transactions ok prev next sto :
  TRANSACTIONS (saveEffectsWith ok prev next sto) =
  if w_transactions ok && isLoaded next &&
     (negb (bool_decide (transactionsRef (core prev) = transactionsRef (core next))) ||
      negb (bool_decide (isLoaded prev = isLoaded next)))
  then Stored (jsonTransactions (transactions (core next)))
  else TRANSACTIONS sto.
Proof.
  unfold saveEffectsWith, saveEffects. simpl.
  by destruct (w_transactions ok), (isLoaded next).
Qed.

(** No step of the run sets the ledger: the cell keeps the array it
    holds. *)
Fixpoint keepsLedger (es : list AppEvent) st : Prop :=
  match es with
  | [] => True
  | e :: es' =>
      match appStep e st with
      | Some st' =>
          transactionsRef (core st') = transactionsRef (core st) ∧
          keepsLedger es' st'
      | None => True
      end
  end.

(** The slot of the ledger holds the ledger. *)
Definition ledgerSynced w : Prop :=
  TRANSACTIONS (storage w) =
  Stored (jsonTransactions (transactions (core (app w)))).

(** The effect of the ledger runs exactly when the ledger was set. *)
Lemma saveEffects_transactions prev next sto :
  isLoaded prev = true → isLoaded next = true →
  TRANSACTIONS (saveEffects prev next sto) =
  if decide (transactionsRef (core next) = transactionsRef (core prev))
  then TRANSACTIONS sto
  else Stored (jsonTransactions (transactions (core next))).
Proof.
  intros Hp Hn. unfold saveEffects. simpl. rewrite Hp, Hn. simpl.
  rewrite orb_false_r. case_decide; case_bool_decide; (done || congruence).
Qed.

Lemma worldStep_ledger e w w' :
  worldStep e w = Some w' →
  appStep e (app w) = Some (app w') ∧
  TRANSACTIONS (storage w') =
  if decide (transactionsRef (core (app w')) = transactionsRef (core (app w)))
  then TRANSACTIONS (storage w)
  else Stored (jsonTransactions (transactions (core (app w')))).
Proof.
  unfold worldStep. destruct (appStep e (app w)) as [st1|] eqn:Hstep; [|done].
  intros [= <-]. split; [done|]. cbn [app storage].
  destruct (appStep_isLoaded _ _ _ Hstep). by apply saveEffects_transactions.
Qed.

Lemma worldStep_ledgerSynced e w w' :
  worldStep e w = Some w' → ledgerSynced w → ledgerSynced w'.
Proof.
  intros [Hstep Hslot]%worldStep_ledger Hs. unfold ledgerSynced.
  rewrite Hslot. case_decide as Href; [|done].
  by rewrite Hs, (proj1 (appStep_tracked _ _ _ Hstep) Href).
Qed.

Lemma runWorld_ledgerSynced es : ∀ w w',
  runWorld es w = Some w' → ledgerSynced w → ledgerSynced w'.
Proof.
  induction es as [|e es IH]; intros w w' Hrun Hs; simpl in *; [by simplify_eq|].
  destruct (worldStep e w) as [w1|] eqn:Hstep; [|done].
  eauto using worldStep_ledgerSynced.
Qed.

(** As long as the ledger is not set the slot is not written. *)
Lemma runWorld_keepsLedger es : ∀ w w',
  runWorld es w = Some w' → keepsLedger es (app w) →
  TRANSACTIONS (storage w') = TRANSACTIONS (storage w).
Proof.
  induction es as [|e es IH]; intros w w' Hrun Hk; simpl in *;
    [by simplify_eq|].
  destruct (worldStep e w) as [w1|] eqn:Hstep; [|done].
  destruct (worldStep_ledger _ _ _ Hstep) as [Hst Hslot].
  rewrite Hst in Hk. destruct Hk as [Href Hk].
  rewrite (IH w1 _ Hrun Hk), Hslot. by rewrite decide_True.
Qed.

(** The first step that sets the ledger writes the slot. *)
Lemma runWorld_setsLedger es : ∀ w w',
  runWorld es w = Some w' → ¬ keepsLedger es (app w) → ledgerSynced w'.
Proof.
  induction es as [|e es IH]; intros w w' Hrun Hk; simpl in *; [by destruct Hk|].
  destruct (worldStep e w) as [w1|] eqn:Hstep; [|done].
  destruct (worldStep_ledger _ _ _ Hstep) as [Hst Hslot].
  rewrite Hst in Hk. case_decide as Href.
  - apply (IH w1); [done|]. intros Hk'. by apply Hk.
  - by apply (runWorld_ledgerSynced es w1).
Qed.

(** C22: a write that fails is retried only when the ledger is set again.
    When the write of the ledger fails after an event, the state in memory
    is the one the event leads to and the slot holds what it held before.
    It goes on holding that through every later event whose handler does
    not call [setTransactions], although every later write succeeds; the
    first later event that sets the ledger, be it to an array with the
    same contents, writes the slot. *)
Theorem failed_write_not_retried ok e es w w1 w2 :
  w_transactions ok = false →
  worldStepWith ok e w = Some w1 → runWorld es w1 = Some w2 →
  appStep e (app w) = Some (app w1) ∧
  TRANSACTIONS (storage w1) = TRANSACTIONS (storage w) ∧
  (keepsLedger es (app w1) →
   TRANSACTIONS (storage w2) = TRANSACTIONS (storage w)) ∧
  (¬ keepsLedger es (app w1) → ledgerSynced w2).
Proof.
  intros Hok Hstep Hrun. unfold worldStepWith in Hstep.
  destruct (appStep e (app w)) as [st1|] eqn:He; [|done].
  apply (inj Some) in Hstep as <-. simpl in *.
  assert (TRANSACTIONS (saveEffectsWith ok (app w) st1 (storage w)) =
          TRANSACTIONS (storage w)) as Hslot.
  { by rewrite saveEffectsWith_transactions, Hok. }
  split_and!; [done..| |].
  - intros Hk. by rewrite (runWorld_keepsLedger _ _ _ Hrun Hk).
  - by apply (runWorld_setsLedger _ _ _ Hrun).
Qed.

(** ** A registry that is not written *)

(** The Add Transaction modal with the new category row open and nothing
    over it, a name typed that is not blank and not listed for the form's
    type, and an amount typed. *)
Definition readyForNewCategory st : Prop :=
  let form := newTransaction (core st) in
  isLoaded st = true ∧ alert st = None ∧ deleteModalVisible (core st) = false ∧
  modalVisible st = true ∧ isAddingCategory st = true ∧
  trim (newCategoryName st) ≠ "" ∧ nt_amount form ≠ "" ∧
  trim (newCategoryName st) ∉ categoriesFor (categories (core st)) (nt_type form).

#[export] Instance readyForNewCategory_dec st : Decision (readyForNewCategory st).
Proof. unfold readyForNewCategory. apply _. Defined.

(** The new name added to the registry and selected in the form. *)
Definition withNewCategory st : AppState T :=
  let form := newTransaction (core st) in
  let name := trim (newCategoryName st) in
  setIsAddingCategory false (setNewCategoryName ""
    (setNewTransaction
       (mkNewTransaction (nt_type form) (nt_amount form) name (nt_note form))
       (setCategories
          (setCategoriesFor (categories (core st)) (nt_type form)
             (categoriesFor (categories (core st)) (nt_type form) ++ [name]))
          st))).

Lemma handleAddNewCategory_new st :
  readyForNewCategory st → handleAddNewCategory st = withNewCategory st.
Proof.
  intros (_ & _ & _ & _ & _ & Hname & _ & Hfresh). unfold handleAddNewCategory.
  by rewrite (proj2 (addCategory_inr _ _ _ _) (conj Hname (conj Hfresh eq_refl))).
Qed.

Lemma appStep_PressAddCategory st :
  readyForNewCategory st →
  appStep PressAddCategory st = Some (withNewCategory st).
Proof.
  intros Hr. rewrite <-handleAddNewCategory_new by done.
  destruct Hr as (Hl & Ha & Hd & Hm & Hadd & _).
  unfold appStep. rewrite Hl, Ha, Hd, Hm. simpl. by rewrite Hadd.
Qed.

Lemma appStep_PressSave_new now nowMs st :
  readyForNewCategory st →
  appStep (PressSave now nowMs) (withNewCategory st) =
  Some (handleAddTransaction now nowMs (withNewCategory st)).
Proof.
  intros (Hl & Ha & Hd & Hm & _). unfold appStep. simpl.
  by rewrite Hl, Ha, Hd, Hm.
Qed.

Lemma handleAddTransaction_new now nowMs st :
  readyForNewCategory st →
  handleAddTransaction now nowMs (withNewCategory st) =
  setIsAddingCategory false (setNewCategoryName ""
    (setNewTransaction emptyForm (setModalVisible false
      (setTransactions
         (buildTransaction now nowMs (currentDate st)
            (newTransaction (core (withNewCategory st))) ::
          transactions (core st))
         (withNewCategory st))))).
Proof.
  intros (_ & _ & _ & _ & _ & Hname & Ham & _). unfold handleAddTransaction.
  simpl. by rewrite addTransaction_inr.
Qed.

(** The storage after the name is added with the write of the registry
    failing and the transaction is saved with every write succeeding: the
    ledger with the new transaction, the registry without the new name. *)
Lemma storage_after_new_category now nowMs w :
  readyForNewCategory (app w) → synced w →
  let st1 := withNewCategory (app w) in
  let st2 := handleAddTransaction now nowMs st1 in
  saveEffects st1 st2
    (saveEffectsWith (mkWrites true false true) (app w) st1 (storage w)) =
  mkStorage (Stored (jsonTransactions (transactions (core st2))))
    (Stored (categories (core (app w)))) (Some (theme (app w))).
Proof.
  intros Hr Hs st1 st2. subst st1 st2. rewrite handleAddTransaction_new by done.
  destruct Hr as (Hl & _). destruct (Hs Hl) as (Ht & Hc & Hth).
  unfold saveEffectsWith, saveEffects. simpl. rewrite Hl, Hc, Hth. simpl.
  f_equal; repeat case_bool_decide; simpl; (done || lia).
Qed.

(** Both handlers keep the integrity of the state in memory. *)
Lemma addThenSave_inv now nowMs st :
  readyForNewCategory st → appInv st →
  appInv (handleAddTransaction now nowMs (withNewCategory st)).
Proof.
  intros Hr Hinv. pose proof Hr as (_ & Ha & Hd & _).
  apply handleAddTransaction_inv; [by simpl; rewrite Ha|].
  rewrite <-handleAddNewCategory_new by done. by apply handleAddNewCategory_inv.
Qed.

(** A ledger whose first transaction is on a category that is not listed
    has a dangling reference, also after the round trip through JSON. *)
Lemma jsonTransactions_dangling t txs cats :
  tx_category t ∉ categoriesFor cats (tx_type t) →
  ¬ referencesLive (jsonTransactions (t :: txs)) cats.
Proof. intros Hnot Hlive. by apply Forall_cons in Hlive as [? _]. Qed.

(** C23: a write that fails can break the integrity of what is stored.
    When a new category is added while the write of the registry fails
    and a transaction is then saved on it, both presses are accepted and
    the state in memory keeps its integrity, but the storage holds the new
    transaction and not its category: the next start loads, without an
    alert, a ledger whose first transaction is on a category that is not
    listed. *)
Theorem failed_write_breaks_integrity now nowMs now' w :
  readyForNewCategory (app w) → synced w → appInv (app w) →
  ∃ w1 w2,
    worldStepWith (mkWrites true false true) PressAddCategory w = Some w1 ∧
    worldStep (PressSave now nowMs) w1 = Some w2 ∧
    appInv (app w2) ∧
    let st' := loadData true (storage w2) (initialState now') in
    alert st' = None ∧
    transactions (core st') = jsonTransactions (transactions (core (app w2))) ∧
    categories (core st') = categories (core (app w)) ∧
    ¬ referencesLive (transactions (core st')) (categories (core st')).
Proof.
  intros Hr Hs Hinv.
  pose proof (storage_after_new_category now nowMs w Hr Hs) as Hsto.
  eexists (mkWorld (withNewCategory (app w)) _), (mkWorld _ _).
  unfold worldStepWith, worldStep.
  rewrite appStep_PressAddCategory by done. split; [done|].
  cbn [app storage mbind option_bind].
  rewrite appStep_PressSave_new by done. split; [done|]. cbn [app storage].
  split; [by apply addThenSave_inv|]. rewrite Hsto. clear Hsto.
  unfold loadData. cbn [negb TRANSACTIONS CATEGORIES THEME].
  rewrite handleAddTransaction_new by done.
  destruct Hr as (_ & _ & _ & _ & _ & _ & _ & Hfresh).
  case_match; (split_and!; [done..|]); by apply jsonTransactions_dangling.
Qed.

End faults.

(** ** A category that is never written *)

(** The form opened, the category Pets added while the write of the
    registry fails, an amount typed, and the expense saved. *)
Definition petsRun : list (AppEvent * Writes) :=
  [(PressFab march31, allWritten); (PressAddNew, allWritten);
   (ChangeCategoryName "Pets", allWritten);
   (PressAddCategory, mkWrites true false true);
   (ChangeAmount "20", allWritten); (saveForm, allWritten)].

Definition afterPets : World xnum :=
  default firstMount (runWorldWith petsRun firstMount).

(** The same session with the write of the ledger failing at the save. *)
Definition saveNotWritten : World xnum :=
  default readyToSave (worldStepWith (mkWrites false true true) saveForm readyToSave).

Lemma failed_write_not_retried_witness :
  let w2 := default saveNotWritten (runWorld [PressTheme] saveNotWritten) in
  appStep saveForm (app readyToSave) = Some (app saveNotWritten) ∧
  TRANSACTIONS (storage saveNotWritten) = TRANSACTIONS (storage readyToSave) ∧
  (keepsLedger [PressTheme] (app saveNotWritten) →
   TRANSACTIONS (storage w2) = TRANSACTIONS (storage readyToSave)) ∧
  (¬ keepsLedger [PressTheme] (app saveNotWritten) → ledgerSynced w2).
Proof.
  exact (failed_write_not_retried (mkWrites false true true) saveForm [PressTheme]
           readyToSave saveNotWritten _ eq_refl ltac:(by vm_compute)
           ltac:(by vm_compute)).
Defined.

(** After the save that was not written, the theme button leaves the slot
    without the expense; deleting the category Shopping, which no
    transaction is on, sets the ledger to an array with the same contents
    and thereby writes the slot. *)
Example unused_category_rewrites_ledger :
  let deleteShopping :=
    [PressFab march31; Deletion (LongPressCategory "Shopping");
     Deletion AlertDelete] in
  TRANSACTIONS (storage saveNotWritten) = Stored [] ∧
  length (transactions (core (app saveNotWritten))) = 1 ∧
  keepsLedger [PressTheme] (app saveNotWritten) ∧
  ¬ keepsLedger deleteShopping (app saveNotWritten) ∧
  ∃ w, runWorld deleteShopping saveNotWritten = Some w ∧
       transactions (core (app w)) = transactions (core (app saveNotWritten)) ∧
       ledgerSynced w.
Proof.
  split_and!; [by vm_compute..| |].
  - vm_compute. by intros (? & _ & ? & _).
  - eexists. split_and!; by vm_compute.
Qed.

(** The form opened on March 31st, 2025 with the amount 20 and the name
    Pets typed in the new category row. *)
Definition petsTyped : World xnum :=
  default firstMount
    (runWorld [PressFab march31; ChangeAmount "20"; PressAddNew;
               ChangeCategoryName "Pets"] firstMount).

Lemma petsTyped_inv : appInv (app petsTyped).
Proof.
  apply appInv_no_alert; [done|].
  split_and!; [by apply (bool_decide_unpack _)|by left..].
Defined.

Lemma petsTyped_synced : synced petsTyped.
Proof. intros _. by vm_compute. Defined.

Lemma failed_write_breaks_integrity_witness :
  ∃ w1 w2,
    worldStepWith (mkWrites true false true) PressAddCategory petsTyped = Some w1 ∧
    worldStep saveForm w1 = Some w2 ∧
    appInv (app w2) ∧
    let st' := loadData true (storage w2) (initialState march31) in
    alert st' = None ∧
    transactions (core st') = jsonTransactions (transactions (core (app w2))) ∧
    categories (core st') = categories (core (app petsTyped)) ∧
    ¬ referencesLive (transactions (core st')) (categories (core st')).
Proof.
  exact (failed_write_breaks_integrity march31 1743400000000 march31 petsTyped
           ltac:(by apply (bool_decide_unpack _)) petsTyped_synced petsTyped_inv).
Defined.

(** The session [petsRun] evaluated: the state in memory is sound, the
    storage holds the ledger with the expense and the registry without
    Pets, and the next start loads a ledger whose expense is on a category
    that is not listed. *)
Example pets_never_written :
  let st := app afterPets in
  let st' := loadData true (storage afterPets) (initialState march31) in
  runWorldWith petsRun firstMount = Some afterPets ∧
  referencesLive (transactions (core st)) (categories (core st)) ∧
  tx_category <$> transactions (core st') = ["Pets"] ∧
  categories (core st') = defaultCategories ∧ alert st' = None ∧
  ¬ referencesLive (transactions (core st')) (categories (core st')).
Proof.
  split_and!; [by vm_compute|by apply (bool_decide_unpack _)|by vm_compute..|].
  by apply (bool_decide_unpack _).
Qed.
