(* ===== verification/Async.v ===== *)
(** The save effects of [src/App.js] as the asynchronous calls they are:
    an effect calls [AsyncStorage.setItem] and does not wait for it, so a
    write completes some time after the render that issued it, and the
    user may have pressed on in between.  The storage then lags behind the
    cells; this file says by how much, that the cells do not depend on it,
    and that the storage catches up when the writes of a slot complete in
    the order they were issued and may not when they do not. *)

From stdpp Require Import gmap.
From S2P Require Import Prelude JSNumber JSDate Ledger Registry MonthView Resolver App.
From S2P Require Import Session LedgerRuns.

(** ** Writes *)

(** The three slots. *)
Inductive SlotKey : Type := KeyTransactions | KeyCategories | KeyTheme.

#[export] Instance SlotKey_eq_dec : EqDecision SlotKey.
Proof. solve_decision. Defined.

(** A call of [setItem] that has not completed, with the value
    [JSON.parse] will read of its text. *)
Inductive SetItem (T : Type) : Type :=
  | ItemTransactions (txs : list (Transaction T))
  | ItemCategories (cats : Categories)
  | ItemTheme (theme : string).
Arguments ItemTransactions {T}.
Arguments ItemCategories {T}.
Arguments ItemTheme {T}.

#[export] Instance SetItem_eq_dec `{EqDecision T} : EqDecision (SetItem T).
Proof. solve_decision. Defined.

(** The component, the storage, and the writes under way in the order
    they were issued. *)
Record AsyncWorld (T : Type) : Type := mkAsync {
  a_app : AppState T;
  a_storage : Storage T;
  pending : list (SetItem T);
}.
Arguments mkAsync {T}.
Arguments a_app {T}.
Arguments a_storage {T}.
Arguments pending {T}.

(** What happens next: the user presses something, or the write at some
    position of the writes under way completes. *)
Inductive Action : Type :=
  | Press (e : AppEvent)
  | Complete (i : nat).

Section async.
Context {T : Type} `{JSNumber T, Locale, EqDecision T}.
Implicit Types (st : AppState T) (sto : Storage T) (wr : SetItem T).
Implicit Types (w : AsyncWorld T) (acts : list Action).

(** The slot a write goes to. *)
Definition slotOf wr : SlotKey :=
  match wr with
  | ItemTransactions _ => KeyTransactions
  | ItemCategories _ => KeyCategories
  | ItemTheme _ => KeyTheme
  end.

(** The completion of a write: its slot holds its value. *)
Definition complete wr sto : Storage T :=
  match wr with
  | ItemTransactions txs => mkStorage (Stored txs) (CATEGORIES sto) (THEME sto)
  | ItemCategories cats => mkStorage (TRANSACTIONS sto) (Stored cats) (THEME sto)
  | ItemTheme theme => mkStorage (TRANSACTIONS sto) (CATEGORIES sto) (Some theme)
  end.

(** The calls the three save effects make after the render that follows a
    change from [prev] to [next], in the order of the effects; the
    dependencies are compared as in [saveEffects]. *)
Definition issued (prev next : AppState T) : list (SetItem T) :=
  let loadedChanged := negb (bool_decide (isLoaded prev = isLoaded next)) in
  let fires {A} `{EqDecision A} (a b : A) : bool :=
    isLoaded next && (negb (bool_decide (a = b)) || loadedChanged) in
  (if fires (transactionsRef (core prev)) (transactionsRef (core next))
   then [ItemTransactions (jsonTransactions (transactions (core next)))]
   else []) ++
  (if fires (categoriesRef (core prev)) (categoriesRef (core next))
   then [ItemCategories (categories (core next))] else []) ++
  (if fires (theme prev) (theme next) then [ItemTheme (theme next)] else []).

(** The storage once the writes have completed in the order given. *)
Definition settle (wrs : list (SetItem T)) sto : Storage T :=
  foldl (λ s wr, complete wr s) sto wrs.

(** The storage once every write under way has completed in the order of
    issue. *)
Definition settled w : Storage T := settle (pending w) (a_storage w).

(** Mounting and the completion of [loadData]: the render that follows
    issues its writes. *)
Definition asyncLoad (readOk : bool) (now : JSDate) sto : AsyncWorld T :=
  let st' := loadData readOk sto (initialState now) in
  mkAsync st' sto (issued (initialState now) st').

(** One action: a press changes the cells and issues the writes of the
    next render; a completion changes the storage. *)
Definition asyncStep (a : Action) w : option (AsyncWorld T) :=
  match a with
  | Press e =>
      st' ← appStep e (a_app w);
      Some (mkAsync st' (a_storage w) (pending w ++ issued (a_app w) st'))
  | Complete i =>
      wr ← pending w !! i;
      Some (mkAsync (a_app w) (complete wr (a_storage w)) (delete i (pending w)))
  end.

Fixpoint runAsync acts w : option (AsyncWorld T) :=
  match acts with
  | [] => Some w
  | a :: acts' => w' ← asyncStep a w; runAsync acts' w'
  end.

(** The presses of a list of actions. *)
Definition presses acts : list AppEvent :=
  omap (λ a, match a with Press e => Some e | Complete _ => None end) acts.

(** A completion is in order when no write issued before it for the same
    slot is still under way. *)
Definition inOrder (a : Action) w : Prop :=
  match a with
  | Press _ => True
  | Complete i =>
      match pending w !! i with
      | Some wr => Forall (λ wr', slotOf wr' ≠ slotOf wr) (take i (pending w))
      | None => True
      end
  end.

#[export] Instance inOrder_dec a w : Decision (inOrder a w).
Proof. destruct a; simpl; [|destruct (pending w !! i)]; apply _. Defined.

(** Every completion of a run is in order. *)
Fixpoint runInOrder acts w : Prop :=
  match acts with
  | [] => True
  | a :: acts' =>
      inOrder a w ∧
      match asyncStep a w with Some w' => runInOrder acts' w' | None => True end
  end.

#[export] Instance runInOrder_dec acts : ∀ w, Decision (runInOrder acts w).
Proof.
  induction acts as [|a acts IH]; intros w; simpl; [apply _|].
  destruct (asyncStep a w); apply _.
Defined.

(** The completions of the writes under way, the oldest first. *)
Definition drain w : list Action := replicate (length (pending w)) (Complete 0).

(** ** Completions *)

Lemma complete_comm wr1 wr2 sto :
  slotOf wr1 ≠ slotOf wr2 →
  complete wr1 (complete wr2 sto) = complete wr2 (complete wr1 sto).
Proof. by destruct wr1, wr2. Qed.

Lemma settle_app wrs wrs' sto :
  settle (wrs ++ wrs') sto = settle wrs' (settle wrs sto).
Proof. apply foldl_app. Qed.

(** The synchronous effects are the writes issued, completed at once. *)
Lemma saveEffects_issued prev next sto :
  saveEffects prev next sto = settle (issued prev next) sto.
Proof.
  unfold saveEffects, issued. destruct sto.
  by repeat (destruct (_ && _); simpl).
Qed.

(** A write that completes in order leaves the settled storage as it was. *)
Lemma settle_delete i : ∀ wrs wr sto,
  wrs !! i = Some wr →
  Forall (λ wr', slotOf wr' ≠ slotOf wr) (take i wrs) →
  settle (delete i wrs) (complete wr sto) = settle wrs sto.
Proof.
  induction i as [|i IH]; intros [|wr0 wrs] wr sto Hi Hord; try done.
  { by simplify_eq/=. }
  simpl in *. apply Forall_cons in Hord as [Hne Hord].
  rewrite complete_comm by done. by apply IH.
Qed.

(** What an action in order does to the cells and to the settled storage:
    a press what it does when the writes complete at once, a completion
    nothing. *)
Lemma asyncStep_settled a w w' :
  asyncStep a w = Some w' → inOrder a w →
  match a with
  | Press e =>
      worldStep e (mkWorld (a_app w) (settled w)) =
      Some (mkWorld (a_app w') (settled w'))
  | Complete _ => a_app w' = a_app w ∧ settled w' = settled w
  end.
Proof.
  destruct a as [e|i]; simpl; intros Hstep Hord.
  - unfold worldStep. simpl. destruct (appStep e (a_app w)) as [st'|]; [|done].
    apply (inj Some) in Hstep as <-. simpl. unfold settled. simpl.
    by rewrite settle_app, saveEffects_issued.
  - destruct (pending w !! i) as [wr|] eqn:Hi; [|done].
    apply (inj Some) in Hstep as <-. split; [done|].
    unfold settled. simpl. by apply settle_delete.
Qed.

(** The cells do not depend on when the writes complete. *)
Lemma runAsync_app acts : ∀ w w',
  runAsync acts w = Some w' → runApp (presses acts) (a_app w) = Some (a_app w').
Proof.
  induction acts as [|a acts IH]; intros w w' Hrun; simpl in *.
  { by simplify_eq. }
  destruct (asyncStep a w) as [w1|] eqn:Hstep; [|done]. apply IH in Hrun.
  destruct a as [e|i]; simpl in *.
  - destruct (appStep e (a_app w)); by simplify_eq/=.
  - destruct (pending w !! i); by simplify_eq/=.
Qed.

(** A run whose completions are in order is, once its writes have
    completed, a run of the component whose writes complete at once. *)
Lemma runAsync_settled acts : ∀ w w',
  runAsync acts w = Some w' → runInOrder acts w →
  runWorld (presses acts) (mkWorld (a_app w) (settled w)) =
  Some (mkWorld (a_app w') (settled w')).
Proof.
  induction acts as [|a acts IH]; intros w w' Hrun Hord; simpl in *.
  { by simplify_eq. }
  destruct Hord as [Ha Hord].
  destruct (asyncStep a w) as [w1|] eqn:Hstep; [|done]. simpl in Hrun.
  pose proof (asyncStep_settled _ _ _ Hstep Ha) as Hs.
  destruct a as [e|i]; simpl.
  - rewrite Hs. simpl. by apply IH.
  - destruct Hs as [<- <-]. by apply IH.
Qed.

Lemma asyncLoad_settled readOk now sto :
  mkWorld (a_app (asyncLoad readOk now sto)) (settled (asyncLoad readOk now sto)) =
  finishLoad readOk (mount now sto).
Proof. unfold asyncLoad, settled, finishLoad. simpl. by rewrite saveEffects_issued. Qed.

(** ** Catching up *)

Lemma runAsync_drain wrs : ∀ st sto,
  runAsync (replicate (length wrs) (Complete 0)) (mkAsync st sto wrs) =
    Some (mkAsync st (settle wrs sto) []) ∧
  runInOrder (replicate (length wrs) (Complete 0)) (mkAsync st sto wrs).
Proof.
  induction wrs as [|wr wrs IH]; intros st sto; simpl; [done|].
  destruct (IH st (complete wr sto)) as [Hrun Hord].
  split; [done|]. split; [apply Forall_nil_2|done].
Qed.

(** C24: a session whose writes complete in order, slot by slot: the cells
    are those of the session whose writes complete at once; the storage
    lags behind them by the writes under way, and once these have
    completed every slot holds the value of its cell; and from every state
    the completions of [drain] are possible and lead there. *)
Theorem async_catches_up readOk now sto acts w :
  runAsync acts (asyncLoad readOk now sto) = Some w →
  runInOrder acts (asyncLoad readOk now sto) →
  runApp (presses acts) (loadData readOk sto (initialState now)) = Some (a_app w) ∧
  synced (mkWorld (a_app w) (settled w)) ∧
  runAsync (drain w) w = Some (mkAsync (a_app w) (settled w) []) ∧
  runInOrder (drain w) w.
Proof.
  intros Hrun Hord. split_and!.
  - by apply runAsync_app in Hrun.
  - apply runAsync_settled in Hrun; [|done]. rewrite asyncLoad_settled in Hrun.
    eapply runWorld_keeps_synced; [|done]. apply finishLoad_synced.
  - destruct w. apply runAsync_drain.
  - destruct w. apply runAsync_drain.
Qed.

(** ** Completions out of order *)

(** What a slot holds. *)
Definition slotHolds (k : SlotKey) sto : SetItem T + unit :=
  match k with
  | KeyTransactions =>
      match TRANSACTIONS sto with Stored txs => inl (ItemTransactions txs) | _ => inr () end
  | KeyCategories =>
      match CATEGORIES sto with Stored cats => inl (ItemCategories cats) | _ => inr () end
  | KeyTheme =>
      match THEME sto with Some x => inl (ItemTheme x) | None => inr () end
  end.

Lemma slotHolds_complete wr sto : slotHolds (slotOf wr) (complete wr sto) = inl wr.
Proof. by destruct wr. Qed.

(** Of two writes to a slot the one that completes last stays. *)
Lemma complete_overwrites wr1 wr2 sto :
  slotOf wr1 = slotOf wr2 →
  complete wr1 (complete wr2 sto) = complete wr1 sto.
Proof. by destruct wr1, wr2. Qed.

(** The cells determine the storage that is in sync with them. *)
Lemma synced_unique st sto sto' :
  isLoaded st = true → synced (mkWorld st sto) → synced (mkWorld st sto') →
  sto = sto'.
Proof.
  intros Hl Hs Hs'. destruct (Hs Hl) as (Ht & Hc & Hth).
  destruct (Hs' Hl) as (Ht' & Hc' & Hth'). destruct sto, sto'. simpl in *.
  congruence.
Qed.

(** The cells of a run from the load are loaded, and its settled storage
    is in sync with them. *)
Lemma runAsync_loaded_synced readOk now sto acts w :
  runAsync acts (asyncLoad readOk now sto) = Some w →
  runInOrder acts (asyncLoad readOk now sto) →
  isLoaded (a_app w) = true ∧ synced (mkWorld (a_app w) (settled w)).
Proof.
  intros Hrun Hord. split.
  - apply runAsync_app in Hrun. eapply runApp_isLoaded; [|exact Hrun].
    apply loadData_isLoaded.
  - apply runAsync_settled in Hrun; [|done]. rewrite asyncLoad_settled in Hrun.
    eapply runWorld_keeps_synced; [|done]. apply finishLoad_synced.
Qed.

(** C25: nothing orders the completions of two writes to one slot.  After
    any session whose completions were in order so far, when two
    different writes to the same slot are under way and the later one
    completes first, both completions are accepted, nothing fails and
    nothing is under way any more, the cells are as they were, and the
    slot holds the value of the earlier write: the storage is not in sync
    with the cells, and no write is left that would repair it. *)
Theorem out_of_order_loses_save readOk now sto acts w wr1 wr2 :
  runAsync acts (asyncLoad readOk now sto) = Some w →
  runInOrder acts (asyncLoad readOk now sto) →
  pending w = [wr1; wr2] → slotOf wr1 = slotOf wr2 → wr1 ≠ wr2 →
  ¬ runInOrder [Complete 1; Complete 0] w ∧
  ∃ w', runAsync [Complete 1; Complete 0] w = Some w' ∧
        pending w' = [] ∧ a_app w' = a_app w ∧
        a_storage w' = complete wr1 (a_storage w) ∧
        ¬ synced (mkWorld (a_app w') (a_storage w')).
Proof.
  intros Hrun Hord Hp Hslot Hne.
  destruct (runAsync_loaded_synced _ _ _ _ _ Hrun Hord) as [Hl Hs].
  split.
  { simpl. rewrite Hp. simpl. intros [Hfirst _].
    by apply Forall_cons in Hfirst as [? _]. }
  eexists. simpl. rewrite Hp. simpl. split_and!; [done..| |].
  { by apply complete_overwrites. }
  rewrite complete_overwrites by done. intros Hs'.
  unfold settled, settle in Hs. rewrite Hp in Hs. simpl in Hs, Hs'.
  pose proof (synced_unique _ _ _ Hl Hs Hs') as Heq.
  apply (f_equal (slotHolds (slotOf wr2))) in Heq.
  rewrite slotHolds_complete, <-Hslot, slotHolds_complete in Heq.
  by simplify_eq.
Qed.

End async.

(** ** Two saves in a row *)

(** The first session with a second expense saved a minute after the
    first; the writes of the load have completed, the two of the ledger
    have not. *)
Definition savedTwice : list Action :=
  [Complete 0; Complete 0; Complete 0] ++ (Press <$> fillForm) ++
  [Press saveForm; Press (PressFab march31); Press (ChangeAmount "3");
   Press (PressCategory "Food"); Press (PressSave march31 1743400060000)].

Definition twoUnderWay : AsyncWorld xnum :=
  default (asyncLoad true march31 emptyStorage)
    (runAsync savedTwice (asyncLoad true march31 emptyStorage)).

Lemma async_catches_up_witness :
  runApp (presses savedTwice) (loadData true emptyStorage (initialState march31)) =
    Some (a_app twoUnderWay) ∧
  synced (mkWorld (a_app twoUnderWay) (settled twoUnderWay)) ∧
  runAsync (drain twoUnderWay) twoUnderWay =
    Some (mkAsync (a_app twoUnderWay) (settled twoUnderWay) []) ∧
  runInOrder (drain twoUnderWay) twoUnderWay.
Proof.
  exact (async_catches_up true march31 emptyStorage savedTwice twoUnderWay
           ltac:(by vm_compute) ltac:(by_computation)).
Defined.

Lemma out_of_order_loses_save_witness :
  let wr1 := ItemTransactions (jsonTransactions (transactions (core (app afterSave)))) in
  let wr2 := ItemTransactions (jsonTransactions (transactions (core (a_app twoUnderWay)))) in
  ¬ runInOrder [Complete 1; Complete 0] twoUnderWay ∧
  ∃ w', runAsync [Complete 1; Complete 0] twoUnderWay = Some w' ∧
        pending w' = [] ∧ a_app w' = a_app twoUnderWay ∧
        a_storage w' = complete wr1 (a_storage twoUnderWay) ∧
        ¬ synced (mkWorld (a_app w') (a_storage w')).
Proof.
  exact (out_of_order_loses_save true march31 emptyStorage savedTwice twoUnderWay _ _
           ltac:(by vm_compute) ltac:(by_computation) ltac:(by vm_compute) eq_refl
           ltac:(by apply (bool_decide_unpack _))).
Defined.

(** The number of transactions a slot holds. *)
Definition storedCount (sto : Storage xnum) : option nat :=
  match TRANSACTIONS sto with Stored txs => Some (length txs) | _ => None end.

(** The two saves of [savedTwice] with the second write of the ledger
    completing before the first: the cells have two transactions, the
    storage one, and the next start shows one. *)
Example second_save_lost :
  length (pending twoUnderWay) = 2%nat ∧
  ∃ w, runAsync [Complete 1; Complete 0] twoUnderWay = Some w ∧
       length (transactions (core (a_app w))) = 2%nat ∧
       storedCount (a_storage w) = Some 1%nat ∧
       length (transactions (core
         (loadData true (a_storage w) (initialState march31)))) = 1%nat.
Proof.
  split; [by vm_compute|]. eexists. split; [by vm_compute|].
  split_and!; by vm_compute.
Qed.
