(* ===== verification/View.v ===== *)
(** What the component of [src/App.js] shows: the colour tables [THEMES],
    the month names [MONTHS], the helpers [formatCurrency] and
    [getMonthYear], the rows and blocks of the list, the summary card, the
    cells of the month picker and the chips of the two modals, as the data
    the JSX puts on screen; and that what is shown is what the controls of
    [App.v] accept. *)

From stdpp Require Import gmap pretty.
From S2P Require Import Prelude JSNumber Format JSDate Ledger Registry MonthView.
From S2P Require Import Resolver App Session.

(** ** Constants *)

(** A colour table of [THEMES]. *)
Module Theme.
Record Colors : Type := mkColors {
  primary : string;
  secondary : string;
  accent : string;
  background : string;
  card : string;
  text : string;
  subText : string;
  income : string;
  expense : string;
  border : string;
  statusBarStyle : string;
}.
End Theme.

Definition lightColors : Theme.Colors :=
  Theme.mkColors "#4A90E2" "#50E3C2" "#F5A623" "#F5F7FA" "#FFFFFF" "#333333"
    "#888888" "#2ECC71" "#E74C3C" "#E1E4E8" "dark-content".

Definition darkColors : Theme.Colors :=
  Theme.mkColors "#5A9DF2" "#50E3C2" "#F5A623" "#121212" "#1E1E1E" "#FFFFFF"
    "#AAAAAA" "#2ECC71" "#FF6B6B" "#333333" "light-content".

(** [THEMES[theme]] when it is one of the two tables.  [None] stands for
    every other key, on which the render has no colour table: the lookup
    gives [undefined], whose properties cannot be read, or, on a name that
    [Object.prototype] defines such as [constructor], a value whose colour
    properties are all [undefined]. *)
Definition THEMES (theme : string) : option Theme.Colors :=
  if decide (theme = "light") then Some lightColors
  else if decide (theme = "dark") then Some darkColors
  else None.

Definition MONTHS : list string :=
  ["January"; "February"; "March"; "April"; "May"; "June";
   "July"; "August"; "September"; "October"; "November"; "December"].

(** [date.toLocaleString('default', { month: 'long', year: 'numeric' })],
    which depends on the locale of the device. *)
Class LocaleLong := { toLocaleString_monthYear : JSDate → string }.

(** [s.slice(0, n)]. *)
Definition slice0 (n : nat) (s : string) : string := String.substring 0 n s.

(** The double quote character, as a string. *)
Definition dquote : string :=
  String (Ascii.Ascii false true false false false true false false) "".

(** ** What is on screen *)

(** A row of a block. *)
Record TransactionItem : Type := mkItem {
  item_key : string;
  item_date : string;
  item_note : option string;
  item_amount : string;
  item_amountColor : string;
}.

(** A block of the list; the rows are there when the block is expanded. *)
Record CategoryBlock : Type := mkBlock {
  block_key : string;
  block_iconColor : string;
  block_icon : string;
  block_title : string;
  block_count : string;
  block_total : string;
  block_totalColor : string;
  block_expandIcon : string;
  block_items : option (list TransactionItem);
}.

(** The summary card. *)
Record SummaryCard : Type := mkSummary {
  balanceAmount : string;
  incomeValue : string;
  expenseValue : string;
}.

(** A chip or a cell, and whether it is highlighted. *)
Record Chip : Type := mkChip { chip_label : string; chip_active : bool }.

(** The Delete Category modal. *)
Record DeleteModalView : Type := mkDeleteModalView {
  dm_message : string;
  dm_chips : list Chip;
  dm_reassignDisabled : bool;
}.

(** The screen once the data is loaded. *)
Record Screen : Type := mkScreen {
  scr_themeIcon : string;
  scr_monthText : string;
  scr_summary : SummaryCard;
  scr_blocks : list CategoryBlock;
  scr_empty : option string;
  scr_footer : string;
  scr_fab : bool;
  scr_addModal : option (list Chip);
  scr_picker : option (list Chip);
}.

(** What [App] returns: the spinner or the screen, and the Delete Category
    modal, which is outside the loading test. *)
Record Rendered : Type := mkRendered {
  r_statusBar : string;
  r_body : string + Screen;
  r_deleteModal : option DeleteModalView;
}.

Section view.
Context {T : Type} `{JSNumber T, JSNumberFormat T, Locale, LocaleLong, EqDecision T}.
Implicit Types (st : AppState T) (colors : Theme.Colors).

(** ** Helpers *)

(** [formatCurrency(amount)]. *)
Definition formatCurrency (amount : T) : string :=
  "$" +:+ num_toFixed 2 amount.

(** [getMonthYear(date)]. *)
Definition getMonthYear (date : JSDate) : string :=
  toLocaleString_monthYear date.

(** The colour of an amount of a type. *)
Definition typeColor colors (ty : TxType) : string :=
  match ty with Income => Theme.income colors | Expense => Theme.expense colors end.

(** ** The list *)

(** [renderTransactionItem(item)]. *)
Definition renderTransactionItem colors (item : Transaction T) : TransactionItem :=
  mkItem (tx_id item) (slice0 5 (tx_displayDate item))
    (if truthy (tx_note item) then Some ("- " +:+ tx_note item) else None)
    (formatCurrency (tx_amount item))
    (typeColor colors (tx_type item)).

(** [renderCategoryBlock({ item })]. *)
Definition renderCategoryBlock colors (expandedCategories : gmap string bool)
    (item : Group T) : CategoryBlock :=
  let isExpanded := default false (expandedCategories !! g_key item) in
  mkBlock (g_key item)
    (typeColor colors (g_type item) +:+ "20")
    (match g_type item with Income => "💰" | Expense => "💸" end)
    (g_category item)
    (pretty (length (g_transactions item)) +:+ " transactions")
    (formatCurrency (g_total item))
    (typeColor colors (g_type item))
    (if isExpanded then "▲" else "▼")
    (if isExpanded
     then Some (renderTransactionItem colors <$> g_transactions item)
     else None).

(** [renderFooter()]. *)
Definition renderFooter : string :=
  "© 2025 Spendy 👨‍💻 Developed by Loooploye 121".

(** ** The card, the picker, the modals *)

(** [totals], the value of [getTotals()] in the render. *)
Definition totals st : Totals T :=
  getTotals (getFilteredTransactions (currentDate st) (transactions (core st))).

(** The summary card. *)
Definition renderSummary st : SummaryCard :=
  mkSummary (formatCurrency (balance (totals st)))
    (formatCurrency (MonthView.income (totals st)))
    (formatCurrency (MonthView.expense (totals st))).

(** The month grid of the picker: the first three letters of each month,
    the month shown highlighted in its year. *)
Definition renderMonthGrid st : list Chip :=
  imap (λ index month,
          mkChip (slice0 3 month)
            (bool_decide (Z.of_nat index = getMonth (currentDate st)) &&
             bool_decide (pickerYear st = getFullYear (currentDate st))))
       MONTHS.

(** The category chips of the Add Transaction modal, hidden while a
    category is typed. *)
Definition renderCategoryChips st : list Chip :=
  if isAddingCategory st then []
  else (λ cat, mkChip cat
                 (bool_decide (nt_category (newTransaction (core st)) = cat)))
       <$> categoriesFor (categories (core st))
             (nt_type (newTransaction (core st))).

(** The Delete Category modal: the message, the reassign chips, and
    whether the reassign button is disabled.  Without a category the list
    of chips is [undefined?.filter], that is none. *)
Definition renderDeleteModal st : option DeleteModalView :=
  if deleteModalVisible (core st) then
    let name := from_option cr_name "" (categoryToDelete (core st)) in
    Some (mkDeleteModalView
      (dquote +:+ name +:+ dquote +:+
       " has transactions. What would you like to do?")
      (match categoryToDelete (core st) with
       | Some c =>
           (λ cat, mkChip cat (bool_decide (reassignCategory (core st) = cat)))
           <$> reassignCandidates (cr_name c) (cr_type c) (categories (core st))
       | None => []
       end)
      (negb (truthy (reassignCategory (core st)))))
  else None.

(** ** The render *)

(** The body of [App] with the colours [colors], at the clock [now]. *)
Definition render colors (now : JSDate) st : Rendered :=
  mkRendered (Theme.statusBarStyle colors)
    (if negb (isLoaded st) then inl (Theme.primary colors)
     else inr (mkScreen
       (if decide (theme st = "light") then "☀️" else "🌙")
       (getMonthYear (currentDate st))
       (renderSummary st)
       (renderCategoryBlock colors (expandedCategories st) <$> shownGroups st)
       (if shownGroups st is [] then Some "No transactions for this month."
        else None)
       renderFooter
       (negb (isFutureMonth now (currentDate st)))
       (if modalVisible st then Some (renderCategoryChips st) else None)
       (if pickerVisible st then Some (renderMonthGrid st) else None)))
    (renderDeleteModal st).

(** [App]: [colors] is [THEMES[theme]]; [None] when that is not a colour
    table. *)
Definition renderApp (now : JSDate) st : option Rendered :=
  colors ← THEMES (theme st); Some (render colors now st).

(** ** What is shown is what can be pressed *)

Lemma THEMES_is_Some theme : is_Some (THEMES theme) ↔ theme ∈ ["light"; "dark"].
Proof.
  unfold THEMES. rewrite !elem_of_cons, elem_of_nil.
  repeat case_decide; split; eauto; try done; try by intros [?|[?|?]].
Qed.

(** The states of a session are loaded. *)
Lemma reachable_isLoaded now sto st : reachable now sto st → isLoaded st = true.
Proof.
  destruct 1 as [readOk|e st st' _ Hstep]; [apply loadData_isLoaded|].
  by apply appStep_isLoaded in Hstep as [_ ?].
Qed.

(** C29: every state of a session renders the screen: when the stored
    theme is one the component wrote, [THEMES[theme]] is a colour table in
    every state the presses lead to, and the spinner is gone. *)
Theorem renderApp_reachable now now' sto st :
  validDate now → wfStorage sto → reachable now sto st →
  ∃ r s, renderApp now' st = Some r ∧ r_body r = inr s.
Proof.
  intros Hd Hsto Hr. destruct (reachable_runApp _ _ _ Hr) as (readOk & es & Hrun).
  pose proof (runApp_wf _ _ _ Hrun (loadData_wf readOk _ _ Hd Hsto)) as (Hth & _).
  apply THEMES_is_Some in Hth as [colors Hc]. unfold renderApp. rewrite Hc.
  eexists _, _. split; [done|]. simpl.
  by rewrite (reachable_isLoaded _ _ _ Hr).
Qed.

(** The rows on screen: the keys of the rows of the expanded blocks. *)
Definition shownItems (s : Screen) : list string :=
  b ← scr_blocks s; from_option (fmap item_key) [] (block_items b).

Lemma is_Some_guard {A} (b : bool) (x : A) :
  is_Some (if b then Some x else None) ↔ b = true.
Proof. destruct b; split; try done; by intros [??]. Qed.

Lemma item_keys colors (ts : list (Transaction T)) :
  item_key <$> (renderTransactionItem colors <$> ts) = ids ts.
Proof. unfold ids. by rewrite <-list_fmap_compose. Qed.

(** The rows are those of the transactions of the expanded groups. *)
Lemma elem_of_rows colors (ex : gmap string bool) (groups : list (Group T)) id :
  id ∈ (renderCategoryBlock colors ex <$> groups) ≫=
         (λ b, from_option (fmap item_key) [] (block_items b)) ↔
  ∃ g, g ∈ groups ∧ default false (ex !! g_key g) = true ∧
       id ∈ ids (g_transactions g).
Proof.
  rewrite list_elem_of_bind. split.
  - intros (b & Hid & (g & -> & Hg)%list_elem_of_fmap). exists g.
    unfold renderCategoryBlock in Hid. simpl in Hid.
    destruct (default false _); simpl in Hid; [|by apply elem_of_nil in Hid].
    by rewrite item_keys in Hid.
  - intros (g & Hg & Hex & Hid). eexists. split; [|by apply list_elem_of_fmap_2].
    unfold renderCategoryBlock. simpl. rewrite Hex. simpl. by rewrite item_keys.
Qed.

(** The list shows what the controls accept: on the plain screen a
    long press is accepted exactly on the transactions that have a row,
    the header of a group exactly on the blocks, the add button exactly
    when it is drawn; and the text for an empty month is there exactly
    when the month has no transaction. *)
Lemma render_controls colors now st s :
  r_body (render colors now st) = inr s →
  (∀ id, is_Some (listStep (LongPressTransaction id) st) ↔ id ∈ shownItems s) ∧
  (∀ key, is_Some (listStep (PressGroupHeader key) st) ↔
          key ∈ block_key <$> scr_blocks s) ∧
  (is_Some (fabStep (PressFab now) st) ↔ scr_fab s = true) ∧
  (is_Some (scr_empty s) ↔
   getFilteredTransactions (currentDate st) (transactions (core st)) = []).
Proof.
  unfold render. simpl. destruct (isLoaded st); [|done]. simpl.
  intros [= <-]. simpl. split_and!.
  - intros id. unfold listStep, shownItems. simpl.
    by rewrite is_Some_guard, some_true, elem_of_rows.
  - intros key. unfold listStep. rewrite is_Some_guard, includes_true.
    by rewrite <-list_fmap_compose.
  - unfold fabStep. rewrite <-(is_Some_guard _ (setModalVisible true st)).
    by destruct (isFutureMonth _ _).
  - rewrite <-getGroupedTransactions_nil. fold (shownGroups st).
    destruct (shownGroups st); split; try done; by intros [??].
Qed.


Lemma chip_labels {A} (f : A → Chip) (l : list A) (lbl : A → string) :
  (∀ x, chip_label (f x) = lbl x) → chip_label <$> (f <$> l) = lbl <$> l.
Proof.
  intros Hf. rewrite <-list_fmap_compose. apply list_fmap_ext. intros ???. apply Hf.
Qed.

(** The modals show what their controls accept: a category can be
    picked in the Add Transaction modal exactly when it has a chip; in the
    Delete Category modal a target can be picked exactly when it has a
    chip, and the reassign button is accepted exactly when it is not
    drawn disabled. *)
Lemma render_modal_controls st :
  (∀ cat, is_Some (addModalStep (PressCategory cat) st) ↔
          cat ∈ chip_label <$> renderCategoryChips st) ∧
  (∀ dm, renderDeleteModal st = Some dm → alert st = None →
         is_Some (categoryToDelete (core st)) →
     (∀ cat, is_Some (deleteModalStep (Deletion (ModalSelectTarget cat)) st) ↔
             cat ∈ chip_label <$> dm_chips dm) ∧
     (is_Some (deleteModalStep (Deletion ModalReassign) st) ↔
      dm_reassignDisabled dm = false)).
Proof.
  split.
  - intros cat. unfold addModalStep, renderCategoryChips.
    rewrite is_Some_guard. destruct (isAddingCategory st); simpl.
    { by rewrite elem_of_nil. }
    by rewrite includes_true, (chip_labels _ _ id), list_fmap_id.
  - intros dm Hdm Ha [c Hc]. unfold renderDeleteModal in Hdm.
    destruct (deleteModalVisible (core st)) eqn:Hv; [|done].
    apply (inj Some) in Hdm as <-. simpl. rewrite Hc.
    unfold deleteModalStep, resolverStep, phase, resolverOf. simpl.
    rewrite Ha, Hv, Hc. simpl. split.
    + intros cat. rewrite (chip_labels _ _ id), list_fmap_id by done.
      rewrite <-includes_true.
      destruct (includes _ _); simpl; split; try done; by intros [??].
    + destruct (truthy _); simpl; split; try done; by intros [??].
Qed.


End view.

(** ** Amounts on screen and in the form *)

(** An amount as the screen prints it, on the exact numbers: the
    digits after the dollar sign read back through [parseFloat] as the
    amount rounded to two decimals, while the printed text as a whole, typed
    into the amount field, reads as NaN. *)
Lemma formatCurrency_parseFloat (amount : xnum) :
  (∃ s, formatCurrency amount = "$" +:+ s ∧
        parseFloat s ≡ rounded 2 amount) ∧
  parseFloat (T:=xnum) (formatCurrency amount) = XNaN.
Proof.
  split; [|done]. eexists. split; [done|]. apply toFixed_parseFloat.
Qed.

(** ** The first session on screen *)

(** The month and year in the en-US locale. *)
Definition enUS_long : LocaleLong :=
  {| toLocaleString_monthYear date :=
       default "" (MONTHS !! Z.to_nat (getMonth date)) +:+ " " +:+
       pretty (getFullYear date) |}.

#[export] Existing Instance enUS_long.

(** The screen after the first expense is saved, in the light theme. *)
Definition afterSaveScreen : Screen :=
  match r_body (render lightColors march31 (app afterSave)) with
  | inr s => s
  | inl _ => mkScreen "" "" (mkSummary "" "" "") [] None "" false None None
  end.

(** The same with the block of Food expanded. *)
Definition expandedFood : AppState xnum :=
  toggleCategory "Expense-Food" (app afterSave).

Lemma renderApp_reachable_witness :
  ∃ r s, renderApp march31 (app readyToSave) = Some r ∧ r_body r = inr s.
Proof.
  exact (renderApp_reachable march31 march31 emptyStorage (app readyToSave)
           ltac:(by apply (bool_decide_unpack _))
           ltac:(by apply (bool_decide_unpack _))
           readyToSave_reachable).
Defined.

Lemma render_controls_witness :
  (∀ id, is_Some (listStep (LongPressTransaction id) (app afterSave)) ↔
         id ∈ shownItems afterSaveScreen) ∧
  (∀ key, is_Some (listStep (PressGroupHeader key) (app afterSave)) ↔
          key ∈ block_key <$> scr_blocks afterSaveScreen) ∧
  (is_Some (fabStep (PressFab march31) (app afterSave)) ↔
   scr_fab afterSaveScreen = true) ∧
  (is_Some (scr_empty afterSaveScreen) ↔
   getFilteredTransactions (currentDate (app afterSave))
     (transactions (core (app afterSave))) = []).
Proof.
  exact (render_controls lightColors march31 (app afterSave) afterSaveScreen
           ltac:(by vm_compute)).
Defined.

(** The screen of the first session: the month, the card with a balance
    below zero, one collapsed block of one transaction, the add button. *)
Example first_session_screen :
  scr_monthText afterSaveScreen = "March 2025" ∧
  scr_summary afterSaveScreen = mkSummary "$-12.50" "$0.00" "$12.50" ∧
  (λ b, (block_key b, block_title b, block_count b, block_total b,
         block_items b)) <$> scr_blocks afterSaveScreen =
    [("Expense-Food", "Food", "1 transactions", "$12.50", None)] ∧
  scr_empty afterSaveScreen = None ∧ scr_fab afterSaveScreen = true.
Proof. by vm_compute. Qed.

(** The row of the expense once its block is expanded: the date is the
    first five characters of the date as stored. *)
Example expanded_row :
  (λ b, block_items b) <$>
    match r_body (render lightColors march31 expandedFood) with
    | inr s => scr_blocks s
    | inl _ => []
    end =
  [Some [mkItem "1743400000000" "3/31/" None "$12.50" "#E74C3C"]].
Proof. by vm_compute. Qed.

(** An amount that is not a number on the card: NaN while the session
    lasts, and zero once the ledger has been through the storage. *)
Example unreadable_amount_screen :
  let summary st :=
    match r_body (render lightColors march31 st) with
    | inr s => Some (scr_summary s)
    | inl _ => None
    end in
  summary (app afterUnreadable) = Some (mkSummary "$NaN" "$0.00" "$NaN") ∧
  summary (loadData true (storage afterUnreadable) (initialState march31)) =
    Some (mkSummary "$0.00" "$0.00" "$0.00").
Proof. by vm_compute. Qed.

(** A theme in storage that is not one of the two leaves the render
    without colours. *)
Example stored_theme_unknown :
  let sto := mkStorage Missing Missing (Some "blue") in
  let st : AppState xnum := loadData true sto (initialState march31) in
  theme st = "blue" ∧ renderApp march31 st = None ∧ ¬ wfStorage sto.
Proof. split_and!; [done..|]. by apply (bool_decide_unpack _). Qed.

(** The Delete Category modal open on Food over the form of the first
    session. *)
Definition deleteFoodOpen : AppState xnum :=
  setCore (store foodRequest) (app readyToSave).

Lemma render_modal_controls_witness :
  (∀ cat, is_Some (deleteModalStep (Deletion (ModalSelectTarget cat))
                     deleteFoodOpen) ↔
          cat ∈ ["Transport"; "Shopping"; "Bills"]) ∧
  (is_Some (deleteModalStep (Deletion ModalReassign) deleteFoodOpen) ↔
   true = false).
Proof.
  exact (proj2 (render_modal_controls deleteFoodOpen)
           (default (mkDeleteModalView "" [] true) (renderDeleteModal deleteFoodOpen))
           eq_refl eq_refl ltac:(by eexists)).
Defined.
