(* ===== verification/Styles.v ===== *)
(** The style sheet [styles] of [src/App.js] ([StyleSheet.create], from
    line 791): every entry with its properties in the order of the source,
    the two values it takes from the device ([Platform.OS] and
    [StatusBar.currentHeight]), the inline styles of the list, and the
    names the JSX reads from the sheet; with the semantics of the objects
    the JSX builds from them: a property read takes the last binding of a
    key, and a style array is flattened from left to right, entries that
    are [undefined] or [false] skipped; as finite maps, the array is the
    union of its entries in which the later entry wins. *)

From Stdlib Require Import QArith.
From stdpp Require Import gmap.
From S2P Require Import Prelude.

(** ** Objects *)

(** An object literal or a merge of objects, as the list of its bindings
    in the order they are written. *)
Definition Obj (V : Type) : Type := list (string * V).

(** [obj[key]]: of the bindings of a key the last one wins. *)
Fixpoint getProp {V} (obj : Obj V) (key : string) : option V :=
  match obj with
  | [] => None
  | (k, v) :: rest =>
      match getProp rest key with
      | Some v' => Some v'
      | None => if decide (k = key) then Some v else None
      end
  end.

(** [Object.keys(obj)], with repetitions when a key is written twice. *)
Definition keys {V} (obj : Obj V) : list string := obj.*1.

(** The object as the finite map from its keys to what they read. *)
Fixpoint toMap {V} (obj : Obj V) : gmap string V :=
  match obj with
  | [] => ∅
  | (k, v) :: rest => toMap rest ∪ {[k := v]}
  end.

(** Two objects are the same to a reader when every key reads the same. *)
#[export] Instance obj_equiv {V} : Equiv (Obj V) :=
  λ a b, ∀ key, getProp a key = getProp b key.

(** ** Styles *)

(** The values of the sheet: numbers, strings (colours, keywords,
    percentages), and the [{ width, height }] of [shadowOffset]. *)
Inductive StyleValue : Type :=
  | SNum (q : Q)
  | SStr (s : string)
  | SOffset (width height : Q).

Arguments SNum q%_Q.
Arguments SOffset (width height)%_Q.

#[export] Instance Q_eq_dec : EqDecision Q.
Proof. solve_decision. Defined.

#[export] Instance StyleValue_eq_dec : EqDecision StyleValue.
Proof. solve_decision. Defined.

Definition Style : Type := Obj StyleValue.
Definition StyleSheet : Type := Obj Style.

(** What the sheet reads of the device: [Platform.OS] and
    [StatusBar.currentHeight]. *)
Record Platform : Type := mkPlatform { OS : string; currentHeight : Q }.

(** [styles.name]; [None] is [undefined]. *)
Definition styleOf (sheet : StyleSheet) (name : string) : option Style :=
  getProp sheet name.

(** [cond && style] as an entry of a style array: [false] when the
    condition fails. *)
Definition when (cond : bool) (style : Style) : option Style :=
  if cond then Some style else None.

(** [StyleSheet.flatten(entries)], what a component does with
    [style={[...]}]: the entries merged from left to right, the entries
    that are [undefined] or [false] skipped. *)
Fixpoint flatten (entries : list (option Style)) : Style :=
  match entries with
  | [] => []
  | Some style :: rest => style ++ flatten rest
  | None :: rest => flatten rest
  end.

(** A numeric property. *)
Definition numProp (style : Style) (key : string) : option Q :=
  match getProp style key with Some (SNum q) => Some q | _ => None end.

(** ** The sheet *)

(** Lines 792 to 834: the screen, the header and the month selector. *)
Definition screenStyles (p : Platform) : StyleSheet := [
  ("container",
     [("flex", SNum 1);
      ("paddingTop", SNum (if decide (OS p = "android") then currentHeight p else 0))]);
  ("header",
     [("flexDirection", SStr "row"); ("justifyContent", SStr "space-between");
      ("alignItems", SStr "center"); ("padding", SNum 20);
      ("paddingBottom", SNum 10)]);
  ("headerTitle",
     [("fontSize", SNum 28); ("fontWeight", SStr "bold")]);
  ("themeButton",
     [("padding", SNum 8); ("borderRadius", SNum 20)]);
  ("monthSelector",
     [("flexDirection", SStr "row"); ("justifyContent", SStr "center");
      ("alignItems", SStr "center"); ("marginBottom", SNum 15)]);
  ("monthText",
     [("fontSize", SNum 18); ("fontWeight", SStr "600"); ("width", SNum 150);
      ("textAlign", SStr "center")]);
  ("loadingContainer",
     [("flex", SNum 1); ("justifyContent", SStr "center");
      ("alignItems", SStr "center")]);
  ("arrowButton",
     [("padding", SNum 10)]);
  ("arrowText",
     [("fontSize", SNum 24); ("fontWeight", SStr "bold")])
  ].

(** Lines 835 to 886: the summary card. *)
Definition summaryStyles : StyleSheet := [
  ("summaryCard",
     [("marginHorizontal", SNum 20); ("borderRadius", SNum 20);
      ("padding", SNum 20); ("shadowColor", SStr "#000");
      ("shadowOffset", SOffset 0 4); ("shadowOpacity", SNum 0.1);
      ("shadowRadius", SNum 10); ("elevation", SNum 5)]);
  ("balanceContainer",
     [("marginBottom", SNum 20); ("alignItems", SStr "center")]);
  ("balanceLabel",
     [("fontSize", SNum 14); ("marginBottom", SNum 5)]);
  ("balanceAmount",
     [("fontSize", SNum 36); ("fontWeight", SStr "800")]);
  ("statsRow",
     [("flexDirection", SStr "row"); ("justifyContent", SStr "space-between");
      ("alignItems", SStr "center")]);
  ("statItem",
     [("flexDirection", SStr "row"); ("alignItems", SStr "center");
      ("flex", SNum 1)]);
  ("divider",
     [("width", SNum 1); ("height", SNum 30); ("marginHorizontal", SNum 15)]);
  ("statIcon",
     [("width", SNum 32); ("height", SNum 32); ("borderRadius", SNum 16);
      ("justifyContent", SStr "center"); ("alignItems", SStr "center");
      ("marginRight", SNum 10)]);
  ("statLabel",
     [("fontSize", SNum 12)]);
  ("statValue",
     [("fontSize", SNum 16); ("fontWeight", SStr "bold")])
  ].

(** Lines 887 to 959: the list, the rows of the earlier flat list, the empty state and the add button. *)
Definition listStyles : StyleSheet := [
  ("listContainer",
     [("flex", SNum 1); ("paddingHorizontal", SNum 20); ("marginTop", SNum 20)]);
  ("sectionTitle",
     [("fontSize", SNum 18); ("fontWeight", SStr "bold");
      ("marginBottom", SNum 15)]);
  ("transactionItem",
     [("flexDirection", SStr "row"); ("justifyContent", SStr "space-between");
      ("alignItems", SStr "center"); ("marginBottom", SNum 12);
      ("padding", SNum 15); ("borderRadius", SNum 12)]);
  ("transactionLeft",
     [("flexDirection", SStr "row"); ("alignItems", SStr "center")]);
  ("iconPlaceholder",
     [("width", SNum 40); ("height", SNum 40); ("borderRadius", SNum 20);
      ("justifyContent", SStr "center"); ("alignItems", SStr "center");
      ("marginRight", SNum 12)]);
  ("transactionCategory",
     [("fontSize", SNum 16); ("fontWeight", SStr "600")]);
  ("transactionNote",
     [("fontSize", SNum 12)]);
  ("transactionAmount",
     [("fontSize", SNum 16); ("fontWeight", SStr "bold");
      ("textAlign", SStr "right")]);
  ("transactionDate",
     [("fontSize", SNum 12); ("textAlign", SStr "right");
      ("marginTop", SNum 4)]);
  ("emptyState",
     [("alignItems", SStr "center"); ("marginTop", SNum 50)]);
  ("emptyStateText",
     [("fontSize", SNum 16)]);
  ("fab",
     [("position", SStr "absolute"); ("bottom", SNum 30); ("right", SNum 30);
      ("width", SNum 60); ("height", SNum 60); ("borderRadius", SNum 30);
      ("justifyContent", SStr "center"); ("alignItems", SStr "center");
      ("shadowOffset", SOffset 0 4); ("shadowOpacity", SNum 0.3);
      ("shadowRadius", SNum 8); ("elevation", SNum 8)]);
  ("fabIcon",
     [("fontSize", SNum 32); ("color", SStr "white"); ("marginTop", SNum (-2))])
  ].

(** Lines 961 to 1005: the modals and the amount field. *)
Definition modalStyles : StyleSheet := [
  ("modalOverlay",
     [("flex", SNum 1); ("backgroundColor", SStr "rgba(0,0,0,0.5)");
      ("justifyContent", SStr "center"); ("alignItems", SStr "center")]);
  ("modalContent",
     [("width", SStr "100%"); ("borderTopLeftRadius", SNum 25);
      ("borderTopRightRadius", SNum 25); ("padding", SNum 25);
      ("minHeight", SNum 500); ("marginTop", SStr "auto")]);
  ("pickerContent",
     [("width", SStr "90%"); ("borderRadius", SNum 20); ("padding", SNum 20);
      ("alignItems", SStr "center")]);
  ("modalTitle",
     [("fontSize", SNum 22); ("fontWeight", SStr "bold");
      ("marginBottom", SNum 20); ("textAlign", SStr "center")]);
  ("inputContainer",
     [("flexDirection", SStr "row"); ("alignItems", SStr "center");
      ("borderBottomWidth", SNum 1); ("marginBottom", SNum 20)]);
  ("currencySymbol",
     [("fontSize", SNum 24); ("marginRight", SNum 10)]);
  ("amountInput",
     [("flex", SNum 1); ("fontSize", SNum 24); ("paddingVertical", SNum 10)]);
  ("label",
     [("fontSize", SNum 14); ("paddingVertical", SNum 10)])
  ].

(** Lines 1006 to 1061: the category blocks and their rows. *)
Definition blockStyles : StyleSheet := [
  ("categoryBlock",
     [("borderRadius", SNum 12); ("marginBottom", SNum 12);
      ("overflow", SStr "hidden")]);
  ("categoryHeader",
     [("flexDirection", SStr "row"); ("justifyContent", SStr "space-between");
      ("alignItems", SStr "center"); ("padding", SNum 15)]);
  ("categoryHeaderLeft",
     [("flexDirection", SStr "row"); ("alignItems", SStr "center")]);
  ("categoryTitle",
     [("fontSize", SNum 16); ("fontWeight", SStr "600")]);
  ("categoryCount",
     [("fontSize", SNum 12); ("marginTop", SNum 2)]);
  ("categoryHeaderRight",
     [("alignItems", SStr "flex-end")]);
  ("categoryTotal",
     [("fontSize", SNum 16); ("fontWeight", SStr "bold")]);
  ("expandIcon",
     [("fontSize", SNum 12); ("marginTop", SNum 4)]);
  ("transactionList",
     [("borderTopWidth", SNum 1); ("paddingVertical", SNum 5)]);
  ("subTransactionItem",
     [("paddingVertical", SNum 10); ("paddingHorizontal", SNum 15)]);
  ("subTransactionContent",
     [("flexDirection", SStr "row"); ("justifyContent", SStr "space-between");
      ("alignItems", SStr "center")]);
  ("subTransactionLeft",
     [("flexDirection", SStr "row"); ("alignItems", SStr "center");
      ("flex", SNum 1)]);
  ("subTransactionAmount",
     [("fontSize", SNum 14); ("fontWeight", SStr "600")])
  ].

(** Lines 1062 to 1157: the form of the Add Transaction modal. *)
Definition formStyles : StyleSheet := [
  ("input",
     [("borderRadius", SNum 10); ("padding", SNum 15); ("fontSize", SNum 16);
      ("marginBottom", SNum 20)]);
  ("typeSwitcher",
     [("flexDirection", SStr "row"); ("marginBottom", SNum 25);
      ("padding", SNum 4); ("borderRadius", SNum 12)]);
  ("typeButton",
     [("flex", SNum 1); ("paddingVertical", SNum 12);
      ("alignItems", SStr "center"); ("borderRadius", SNum 10)]);
  ("typeButtonText",
     [("fontSize", SNum 16); ("fontWeight", SStr "600")]);
  ("categoryScroll",
     [("marginBottom", SNum 20); ("maxHeight", SNum 50)]);
  ("categoryChip",
     [("paddingHorizontal", SNum 16); ("paddingVertical", SNum 10);
      ("borderRadius", SNum 20); ("marginRight", SNum 10)]);
  ("categoryChipText",
     [("fontWeight", SStr "500")]);
  ("categoryChipTextActive",
     [("color", SStr "white"); ("fontWeight", SStr "bold")]);
  ("modalButtons",
     [("flexDirection", SStr "row"); ("justifyContent", SStr "space-between");
      ("marginTop", SNum 20)]);
  ("modalButton",
     [("flex", SNum 1); ("paddingVertical", SNum 15);
      ("borderRadius", SNum 12); ("alignItems", SStr "center")]);
  ("cancelButton",
     [("marginRight", SNum 10)]);
  ("saveButton",
     [("marginLeft", SNum 10)]);
  ("cancelButtonText",
     [("fontSize", SNum 16); ("fontWeight", SStr "600")]);
  ("saveButtonText",
     [("fontSize", SNum 16); ("fontWeight", SStr "bold");
      ("color", SStr "white")]);
  ("rowBetween",
     [("flexDirection", SStr "row"); ("justifyContent", SStr "space-between");
      ("alignItems", SStr "center"); ("marginBottom", SNum 10);
      ("marginTop", SNum 10)]);
  ("linkText",
     [("fontWeight", SStr "600")]);
  ("addCategoryContainer",
     [("flexDirection", SStr "row"); ("alignItems", SStr "center");
      ("marginBottom", SNum 20)]);
  ("smallButton",
     [("paddingHorizontal", SNum 15); ("paddingVertical", SNum 15);
      ("borderRadius", SNum 10); ("marginLeft", SNum 10)]);
  ("smallButtonDestructive",
     [("paddingHorizontal", SNum 15); ("paddingVertical", SNum 15);
      ("borderRadius", SNum 10); ("marginLeft", SNum 5)]);
  ("smallButtonText",
     [("color", SStr "white"); ("fontWeight", SStr "bold")])
  ].

(** Lines 1158 to 1192: the month picker. *)
Definition pickerStyles : StyleSheet := [
  ("yearRow",
     [("flexDirection", SStr "row"); ("justifyContent", SStr "space-between");
      ("alignItems", SStr "center"); ("marginBottom", SNum 20);
      ("width", SStr "100%")]);
  ("yearText",
     [("fontSize", SNum 24); ("fontWeight", SStr "bold")]);
  ("monthGrid",
     [("flexDirection", SStr "row"); ("flexWrap", SStr "wrap");
      ("justifyContent", SStr "space-between")]);
  ("monthCell",
     [("width", SStr "30%"); ("padding", SNum 10);
      ("alignItems", SStr "center"); ("borderRadius", SNum 10);
      ("marginBottom", SNum 15)]);
  ("monthCellText",
     [("fontSize", SNum 16)]);
  ("closeButton",
     [("marginTop", SNum 10); ("paddingVertical", SNum 10);
      ("paddingHorizontal", SNum 30); ("borderRadius", SNum 20)]);
  ("closeButtonText",
     [("fontWeight", SStr "bold")])
  ].

(** Lines 1193 to 1214: the footer and the buttons of the Delete Category modal. *)
Definition footerStyles : StyleSheet := [
  ("footerContainer",
     [("padding", SNum 20); ("alignItems", SStr "center");
      ("justifyContent", SStr "center")]);
  ("footerText",
     [("fontSize", SNum 12); ("textAlign", SStr "center")]);
  ("actionButton",
     [("padding", SNum 15); ("borderRadius", SNum 12);
      ("alignItems", SStr "center"); ("marginBottom", SNum 10);
      ("width", SStr "100%")]);
  ("actionButtonText",
     [("color", SStr "white"); ("fontSize", SNum 16);
      ("fontWeight", SStr "bold")])
  ].
(** [styles], the value of [StyleSheet.create({ ... })]. *)
Definition styles (p : Platform) : StyleSheet :=
  screenStyles p ++ summaryStyles ++ listStyles ++ modalStyles ++
  blockStyles ++ formStyles ++ pickerStyles ++ footerStyles.

(** The names the JSX reads from [styles], in the order of their first
    use. *)
Definition usedStyles : list string :=
  ["subTransactionItem"; "subTransactionContent"; "subTransactionLeft";
   "transactionDate"; "transactionNote"; "subTransactionAmount";
   "categoryBlock"; "categoryHeader"; "categoryHeaderLeft"; "iconPlaceholder";
   "categoryTitle"; "categoryCount"; "categoryHeaderRight"; "categoryTotal";
   "expandIcon"; "transactionList"; "footerContainer"; "footerText";
   "container"; "loadingContainer"; "header"; "headerTitle"; "themeButton";
   "monthSelector"; "arrowButton"; "arrowText"; "monthText"; "summaryCard";
   "balanceContainer"; "balanceLabel"; "balanceAmount"; "statsRow";
   "statItem"; "statIcon"; "statLabel"; "statValue"; "divider";
   "listContainer"; "sectionTitle"; "emptyState"; "emptyStateText"; "fab";
   "fabIcon"; "modalOverlay"; "modalContent"; "modalTitle"; "typeSwitcher";
   "typeButton"; "typeButtonText"; "label"; "inputContainer";
   "currencySymbol"; "amountInput"; "rowBetween"; "linkText";
   "addCategoryContainer"; "input"; "smallButton"; "smallButtonText";
   "smallButtonDestructive"; "categoryScroll"; "categoryChip";
   "categoryChipText"; "categoryChipTextActive"; "modalButtons";
   "modalButton"; "cancelButton"; "cancelButtonText"; "saveButton";
   "saveButtonText"; "pickerContent"; "yearRow"; "yearText"; "monthGrid";
   "monthCell"; "monthCellText"; "closeButton"; "closeButtonText";
   "actionButton"; "actionButtonText"].

(** The inline styles of the list: [contentContainerStyle] and
    [ListFooterComponentStyle]. *)
Definition contentContainerStyle : Style :=
  [("flexGrow", SNum 1); ("paddingBottom", SNum 100)].

Definition ListFooterComponentStyle : Style :=
  [("flex", SNum 1); ("justifyContent", SStr "flex-end")].

(** ** Reading objects *)

Section objects.
Context {V : Type}.
Implicit Types (obj a b : Obj V) (key : string) (v : V).

Lemma getProp_app a b key :
  getProp (a ++ b) key = from_option Some (getProp a key) (getProp b key).
Proof.
  induction a as [|[k v] a IH]; simpl; [by destruct (getProp b key)|].
  rewrite IH. by destruct (getProp b key).
Qed.

Lemma getProp_cons_ne k v obj key :
  k ≠ key → getProp ((k, v) :: obj) key = getProp obj key.
Proof. intros Hk. simpl. rewrite decide_False by done. by destruct getProp. Qed.

Lemma getProp_is_Some obj key : is_Some (getProp obj key) ↔ key ∈ keys obj.
Proof.
  unfold keys. induction obj as [|[k v] obj IH]; simpl.
  - rewrite elem_of_nil, <-not_eq_None_Some. naive_solver.
  - rewrite elem_of_cons, <-IH. destruct (getProp obj key); [naive_solver|].
    case_decide; naive_solver.
Qed.

Lemma getProp_None obj key : getProp obj key = None ↔ key ∉ keys obj.
Proof. by rewrite <-getProp_is_Some, eq_None_not_Some. Qed.

(** What is read is a binding of the object. *)
Lemma getProp_elem_of obj key v : getProp obj key = Some v → (key, v) ∈ obj.
Proof.
  induction obj as [|[k v'] obj IH]; simpl; [done|].
  destruct (getProp obj key) eqn:Hg.
  - intros [= ->]. right. by apply IH.
  - case_decide; [|done]. intros [= ->]. subst. left.
Qed.

(** Where no key is written twice every binding is read. *)
Lemma getProp_NoDup obj key v :
  NoDup (keys obj) → (key, v) ∈ obj → getProp obj key = Some v.
Proof.
  unfold keys. induction obj as [|[k v'] obj IH]; simpl.
  { by rewrite elem_of_nil. }
  rewrite NoDup_cons, elem_of_cons. intros [Hk Hnd] [[= -> ->]|Hin].
  - apply getProp_None in Hk. unfold keys in Hk. rewrite Hk.
    by rewrite decide_True.
  - by rewrite (IH Hnd Hin).
Qed.

#[export] Instance obj_equivalence : Equivalence (≡@{Obj V}).
Proof.
  split; [by intros a key|by intros a b Hab key|].
  intros a b c Hab Hbc key. by rewrite (Hab key).
Qed.

#[export] Instance getProp_proper : Proper ((≡) ==> (=) ==> (=)) (getProp (V:=V)).
Proof. by intros a b Hab key ? <-. Qed.

#[export] Instance obj_app_proper :
  Proper ((≡) ==> (≡) ==> (≡)) (app (A:=string * V)).
Proof. intros a a' Ha b b' Hb key. by rewrite !getProp_app, (Ha key), (Hb key). Qed.

(** Writing an object twice changes nothing, and objects that share no key
    may be merged in either order. *)
Lemma obj_app_idemp a : a ++ a ≡ a.
Proof. intros key. rewrite getProp_app. by destruct (getProp a key). Qed.

Lemma obj_app_comm a b : keys a ## keys b → a ++ b ≡ b ++ a.
Proof.
  intros Hd key. rewrite !getProp_app.
  destruct (getProp a key) eqn:Ha, (getProp b key) eqn:Hb; try done.
  destruct (Hd key); apply getProp_is_Some; eauto.
Qed.

(** *** Objects as finite maps *)

Lemma lookup_toMap obj key : toMap obj !! key = getProp obj key.
Proof.
  induction obj as [|[k v] obj IH]; simpl; [done|].
  rewrite lookup_union, IH. destruct (getProp obj key); simpl.
  - by destruct ({[k := v]} !! key).
  - case_decide as Hk; [subst; by rewrite lookup_singleton_eq|].
    by rewrite lookup_singleton_ne.
Qed.

Lemma obj_equiv_toMap a b : a ≡ b ↔ toMap a = toMap b.
Proof.
  split.
  - intros Hab. apply map_eq. intros key. by rewrite !lookup_toMap.
  - intros Hab key. by rewrite <-!lookup_toMap, Hab.
Qed.

(** Appending an object is a union in which the appended bindings win. *)
Lemma toMap_app a b : toMap (a ++ b) = toMap b ∪ toMap a.
Proof.
  apply map_eq. intros key.
  rewrite lookup_union, !lookup_toMap, getProp_app.
  by destruct (getProp b key), (getProp a key).
Qed.

End objects.

(** ** Style arrays *)

Lemma flatten_cons entry entries :
  flatten (entry :: entries) = default [] entry ++ flatten entries.
Proof. by destruct entry. Qed.

Lemma flatten_app es es' : flatten (es ++ es') = flatten es ++ flatten es'.
Proof.
  induction es as [|e es IH]; [done|].
  by rewrite <-app_comm_cons, !flatten_cons, IH, (assoc_L (++)).
Qed.

(** An entry that is [false] is as good as absent. *)
Lemma flatten_when_false es style es' :
  flatten (es ++ when false style :: es') = flatten (es ++ es').
Proof. by rewrite !flatten_app, flatten_cons. Qed.

(** A property of the last entry is the property of the array. *)
Lemma getProp_flatten_last es style key v :
  getProp style key = Some v →
  getProp (flatten (es ++ [Some style])) key = Some v.
Proof.
  intros Hv. rewrite flatten_app, getProp_app, flatten_cons. simpl.
  by rewrite app_nil_r, Hv.
Qed.

(** A property the later entries leave alone is read from the front. *)
Lemma getProp_flatten_front es es' key :
  getProp (flatten es') key = None →
  getProp (flatten (es ++ es')) key = getProp (flatten es) key.
Proof. intros Hn. by rewrite flatten_app, getProp_app, Hn. Qed.

(** A binding written again right after itself is as good as the second
    alone; so an entry of one property followed by a conditional one of
    the same property is one entry with a conditional value. *)
Lemma obj_shadow {V} (a : Obj V) key (v v' : V) :
  a ++ [(key, v)] ++ [(key, v')] ≡ a ++ [(key, v')].
Proof.
  f_equiv. intros k. simpl. by destruct (decide (key = k)).
Qed.

Lemma flatten_default_when entries key (v v' : StyleValue) cond :
  flatten (entries ++ [Some [(key, v)]; when cond [(key, v')]]) ≡
  flatten (entries ++ [Some [(key, if cond then v' else v)]]).
Proof.
  rewrite !flatten_app. destruct cond; simpl; [|done].
  apply obj_shadow.
Qed.

(** The array as a fold of unions: [Object.assign({}, ...entries)], each
    entry written over what the earlier ones left. *)
Lemma flatten_toMap_from entries (m : gmap string StyleValue) :
  foldl (λ m entry, from_option toMap ∅ entry ∪ m) m entries =
  toMap (flatten entries) ∪ m.
Proof.
  revert m. induction entries as [|[style|] entries IH]; intros m; simpl.
  - by rewrite (left_id_L ∅ (∪)).
  - by rewrite IH, toMap_app, (assoc_L (∪)).
  - by rewrite IH, (left_id_L ∅ (∪)).
Qed.

(** A style array stands for the union of its entries from left to
    right, in which a later entry wins and an entry that is [undefined] or
    [false] adds nothing: reading a property of the flattened array is a
    lookup in that union. *)
Lemma flatten_toMap entries key :
  getProp (flatten entries) key =
  foldl (λ m entry, from_option toMap ∅ entry ∪ m) ∅ entries !! key.
Proof.
  by rewrite flatten_toMap_from, (right_id_L ∅ (∪)), lookup_toMap.
Qed.

(** ** The sheet *)

(** Only [container] reads the device. *)
Lemma styles_container p :
  styles p =
  ("container",
   [("flex", SNum 1);
    ("paddingTop",
     SNum (if decide (OS p = "android") then currentHeight p else 0))])
  :: tail (styles (mkPlatform "" 0)).
Proof. reflexivity. Qed.

Lemma styles_platform p p' name :
  name ≠ "container" → styleOf (styles p) name = styleOf (styles p') name.
Proof.
  intros Hn. unfold styleOf.
  rewrite (styles_container p), (styles_container p').
  by rewrite !getProp_cons_ne.
Qed.

Section sheet.
Context (p : Platform).

(** The names of the sheet do not depend on the device. *)
Lemma styles_keys : keys (styles p) = keys (styles (mkPlatform "" 0)).
Proof. reflexivity. Qed.

(** No entry of the sheet is written twice. *)
Lemma styles_NoDup : NoDup (keys (styles p)).
Proof. rewrite styles_keys. by_computation. Qed.

(** [styles.name] is the entry written under the name. *)
Lemma styleOf_styles name style :
  styleOf (styles p) name = Some style ↔ (name, style) ∈ styles p.
Proof.
  split; [apply getProp_elem_of|apply getProp_NoDup, styles_NoDup].
Qed.

(** No property is written twice in an entry. *)
Lemma styles_props_NoDup name style :
  styleOf (styles p) name = Some style → NoDup (keys style).
Proof.
  intros Hs%getProp_elem_of.
  apply (proj1 (Forall_forall (λ e, NoDup (keys e.2)) (styles p))) in Hs; [done|].
  unfold styles. rewrite !Forall_app. split_and!; by_computation.
Qed.

(** Every style the JSX reads is an entry of the sheet, on every
    device: no element is given [undefined] for its style. *)
Lemma styles_defined name :
  name ∈ usedStyles → is_Some (styleOf (styles p) name).
Proof.
  unfold styleOf. rewrite getProp_is_Some, styles_keys. revert name.
  apply Forall_forall. by_computation.
Qed.

(** The entries of the sheet no element reads are the four of the rows
    of the earlier flat list ([transactionItem], [transactionLeft],
    [transactionCategory], [transactionAmount]), which the category blocks
    replaced. *)
Lemma styles_unused :
  filter (λ name, name ∉ usedStyles) (keys (styles p)) =
  ["transactionItem"; "transactionLeft"; "transactionCategory";
   "transactionAmount"].
Proof. reflexivity. Qed.

(** The list leaves room for the add button: the padding under the last
    row ([contentContainerStyle]) is at least the height of the button
    plus its distance from the bottom of the screen, so the last row can
    be scrolled clear of it. *)
Lemma fab_clear_of_list fab :
  styleOf (styles p) "fab" = Some fab →
  ∃ bottom height padding,
    numProp fab "bottom" = Some bottom ∧ numProp fab "height" = Some height ∧
    numProp contentContainerStyle "paddingBottom" = Some padding ∧
    (bottom + height <= padding)%Q.
Proof. intros [= <-]. by exists 30%Q, 60%Q, 100%Q. Qed.

End sheet.

Lemma styles_defined_witness :
  is_Some (styleOf (styles (mkPlatform "android" 24)) "fab").
Proof. apply styles_defined. by_computation. Defined.

Lemma fab_clear_of_list_witness :
  ∃ bottom height padding,
    numProp (default [] (styleOf (styles (mkPlatform "ios" 0)) "fab")) "bottom"
      = Some bottom ∧
    numProp (default [] (styleOf (styles (mkPlatform "ios" 0)) "fab")) "height"
      = Some height ∧
    numProp contentContainerStyle "paddingBottom" = Some padding ∧
    (bottom + height <= padding)%Q.
Proof. by apply (fab_clear_of_list (mkPlatform "ios" 0)). Defined.
