(* ===== verification/Elements.v ===== *)
(** The styles of the controls of [src/App.js]: the style arrays the JSX
    gives the elements that can be pressed or typed into and the texts in
    them, built from the sheet ([Styles.v]), the colours of the theme and
    the flags of the view ([View.v]); that in both themes such a text is
    in another colour than what it is drawn on, and that the chip the view
    marks and the button it disables are the ones drawn differently.  The
    two emoji (the icon of the theme button and the icon of a block) are
    drawn without a colour of their own and are left out. *)

From Stdlib Require Import QArith.
From stdpp Require Import gmap.
From S2P Require Import Prelude JSNumber Format JSDate Ledger Registry MonthView.
From S2P Require Import Resolver App Session View Styles.

(** A text of a control: the colour of what is behind the control, the
    style of the element that is pressed and the style of the text. *)
Record Control : Type := mkControl {
  ctl_behind : string;
  ctl_box : Style;
  ctl_text : Style;
}.

(** The colour a colour text stands for: the sheet names [white], the
    themes write six hexadecimal digits. *)
Definition namedColor (c : string) : string :=
  if decide (c = "white") then "#FFFFFF" else c.

(** A string property. *)
Definition strProp (style : Style) (key : string) : option string :=
  match getProp style key with Some (SStr s) => Some s | _ => None end.

(** What a control's text is drawn on: its own background when it has
    one, what is behind it otherwise. *)
Definition backgroundOf (c : Control) : string :=
  default (ctl_behind c) (strProp (ctl_box c) "backgroundColor").

(** The text has a colour, and another one than its background. *)
Definition contrasts (c : Control) : Prop :=
  ∃ col, strProp (ctl_text c) "color" = Some col ∧
         namedColor col ≠ namedColor (backgroundOf c).

#[export] Instance contrasts_dec c : Decision (contrasts c).
Proof.
  unfold contrasts. destruct (strProp (ctl_text c) "color") as [col|].
  - destruct (decide (namedColor col ≠ namedColor (backgroundOf c)));
      [left; eauto|right; by intros (? & [= <-] & ?)].
  - right. by intros (? & [=] & _).
Defined.

Section elements.
Context (p : Platform) (colors : Theme.Colors).

Local Notation "'sheet' name" := (styleOf (styles p) name)
  (at level 10, name at level 9, only parsing).
Local Notation "key ::= c" := (key, SStr c) (at level 60, only parsing).

(** The add button and its [+]. *)
Definition fab : Control :=
  mkControl (Theme.background colors)
    (flatten [sheet "fab";
              Some ["backgroundColor" ::= Theme.primary colors;
                    "shadowColor" ::= Theme.primary colors]])
    (flatten [sheet "fabIcon"]).

(** A button of the type switcher, for the type [type] while the form has
    the type [selected]; it lies on the switcher. *)
Definition typeButton (type selected : TxType) : Control :=
  mkControl (Theme.background colors)
    (flatten [sheet "typeButton";
              when (bool_decide (selected = type))
                ["backgroundColor" ::= Theme.card colors;
                 "borderColor" ::= typeColor colors type;
                 ("borderWidth", SNum 1)]])
    (flatten [sheet "typeButtonText";
              Some ["color" ::= Theme.subText colors];
              when (bool_decide (selected = type))
                ["color" ::= Theme.text colors]]).

(** The Add and X buttons beside the field for a new category name. *)
Definition smallButton : Control :=
  mkControl (Theme.card colors)
    (flatten [sheet "smallButton";
              Some ["backgroundColor" ::= Theme.primary colors]])
    (flatten [sheet "smallButtonText"]).

Definition smallButtonDestructive : Control :=
  mkControl (Theme.card colors)
    (flatten [sheet "smallButtonDestructive";
              Some ["backgroundColor" ::= Theme.background colors]])
    (flatten [sheet "smallButtonText"; Some ["color" ::= Theme.text colors]]).

(** A category chip of the Add Transaction modal, for the type of the
    form, highlighted when it is the category of the form. *)
Definition categoryChip (type : TxType) (active : bool) : Control :=
  mkControl (Theme.card colors)
    (flatten [sheet "categoryChip";
              Some ["backgroundColor" ::= Theme.background colors];
              when active ["backgroundColor" ::= typeColor colors type]])
    (flatten [sheet "categoryChipText";
              Some ["color" ::= Theme.text colors];
              if active then sheet "categoryChipTextActive" else None]).

(** The Cancel and Save Transaction buttons. *)
Definition cancelButton : Control :=
  mkControl (Theme.card colors)
    (flatten [sheet "modalButton"; sheet "cancelButton";
              Some ["backgroundColor" ::= Theme.background colors]])
    (flatten [sheet "cancelButtonText"; Some ["color" ::= Theme.text colors]]).

Definition saveButton : Control :=
  mkControl (Theme.card colors)
    (flatten [sheet "modalButton"; sheet "saveButton";
              Some ["backgroundColor" ::= Theme.primary colors]])
    (flatten [sheet "saveButtonText"]).

(** A cell of the month grid, highlighted for the month shown. *)
Definition monthCell (active : bool) : Control :=
  mkControl (Theme.card colors)
    (flatten [sheet "monthCell";
              Some ["backgroundColor" ::= Theme.background colors];
              when active ["backgroundColor" ::= Theme.primary colors]])
    (flatten [sheet "monthCellText";
              Some ["color" ::= Theme.text colors];
              when active ["color" ::= "white"; "fontWeight" ::= "bold"]]).

(** The Close button of the picker. *)
Definition closeButton : Control :=
  mkControl (Theme.card colors)
    (flatten [sheet "closeButton";
              Some ["backgroundColor" ::= Theme.background colors]])
    (flatten [sheet "closeButtonText"; Some ["color" ::= Theme.text colors]]).

(** The sheets of the Add Transaction and of the Delete Category modal. *)
Definition addModalContent : Style :=
  flatten [sheet "modalContent";
           Some ["backgroundColor" ::= Theme.card colors]].

Definition deleteModalContent : Style :=
  flatten [sheet "modalContent";
           Some ["backgroundColor" ::= Theme.card colors;
                 ("minHeight", SNum 300)]].

(** Delete All Transactions. *)
Definition deleteAllButton : Control :=
  mkControl (Theme.card colors)
    (flatten [sheet "actionButton";
              Some ["backgroundColor" ::= Theme.expense colors]])
    (flatten [sheet "actionButtonText"]).

(** A chip of the Delete Category modal, highlighted when it is the
    target selected. *)
Definition reassignChip (active : bool) : Control :=
  mkControl (Theme.card colors)
    (flatten [sheet "categoryChip";
              Some ["backgroundColor" ::= Theme.background colors];
              when active ["backgroundColor" ::= Theme.primary colors]])
    (flatten [sheet "categoryChipText";
              Some ["color" ::= Theme.text colors];
              when active ["color" ::= "white"; "fontWeight" ::= "bold"]]).

(** Reassign & Delete Category, dimmed while no target is selected. *)
Definition reassignButton (reassignCategory : string) : Control :=
  mkControl (Theme.card colors)
    (flatten [sheet "actionButton";
              Some ["backgroundColor" ::= Theme.primary colors;
                    ("marginTop", SNum 10);
                    ("opacity",
                     SNum (if truthy reassignCategory then 1 else 0.5))]])
    (flatten [sheet "actionButtonText"]).

(** The Cancel button of the Delete Category modal. *)
Definition deleteCancelButton : Control :=
  mkControl (Theme.card colors)
    (flatten [sheet "closeButton";
              Some ["backgroundColor" ::= Theme.background colors;
                    ("marginTop", SNum 20)]])
    (flatten [sheet "closeButtonText"; Some ["color" ::= Theme.text colors]]).

(** The arrows and the month of the month selector. *)
Definition monthArrow : Control :=
  mkControl (Theme.background colors)
    (flatten [sheet "arrowButton"])
    (flatten [sheet "arrowText"; Some ["color" ::= Theme.primary colors]]).

Definition monthButton : Control :=
  mkControl (Theme.background colors) []
    (flatten [sheet "monthText"; Some ["color" ::= Theme.text colors]]).

(** The header of a block: title, count, total and arrow. *)
Definition blockTitle : Control :=
  mkControl (Theme.card colors)
    (flatten [sheet "categoryHeader"])
    (flatten [sheet "categoryTitle"; Some ["color" ::= Theme.text colors]]).

Definition blockCount : Control :=
  mkControl (Theme.card colors)
    (flatten [sheet "categoryHeader"])
    (flatten [sheet "categoryCount"; Some ["color" ::= Theme.subText colors]]).

Definition blockTotal (type : TxType) : Control :=
  mkControl (Theme.card colors)
    (flatten [sheet "categoryHeader"])
    (flatten [sheet "categoryTotal"; Some ["color" ::= typeColor colors type]]).

Definition blockExpandIcon : Control :=
  mkControl (Theme.card colors)
    (flatten [sheet "categoryHeader"])
    (flatten [sheet "expandIcon"; Some ["color" ::= Theme.subText colors]]).

(** A row of a block: date, note and amount. *)
Definition rowDate : Control :=
  mkControl (Theme.card colors)
    (flatten [sheet "subTransactionItem"])
    (flatten [sheet "transactionDate";
              Some ["color" ::= Theme.subText colors;
                    ("marginRight", SNum 8); ("marginTop", SNum 0)]]).

Definition rowNote : Control :=
  mkControl (Theme.card colors)
    (flatten [sheet "subTransactionItem"])
    (flatten [sheet "transactionNote"; Some ["color" ::= Theme.subText colors]]).

Definition rowAmount (type : TxType) : Control :=
  mkControl (Theme.card colors)
    (flatten [sheet "subTransactionItem"])
    (flatten [sheet "subTransactionAmount";
              Some ["color" ::= typeColor colors type]]).

(** The amount field, the field for a new category name and the note
    field: the text typed is drawn in the style of the field. *)
Definition amountInput : Control :=
  let style :=
    flatten [sheet "amountInput"; Some ["color" ::= Theme.text colors]] in
  mkControl (Theme.card colors) style style.

Definition newCategoryInput : Control :=
  let style :=
    flatten [sheet "input";
             Some [("flex", SNum 1); ("marginBottom", SNum 0);
                   "backgroundColor" ::= Theme.background colors;
                   "color" ::= Theme.text colors]] in
  mkControl (Theme.card colors) style style.

Definition noteInput : Control :=
  let style :=
    flatten [sheet "input";
             Some ["backgroundColor" ::= Theme.background colors;
                   "color" ::= Theme.text colors]] in
  mkControl (Theme.card colors) style style.

(** [+ Add New]. *)
Definition addNewLink : Control :=
  mkControl (Theme.card colors) []
    (flatten [sheet "linkText"; Some ["color" ::= Theme.primary colors]]).

(** The arrows of the year in the picker. *)
Definition yearArrow : Control :=
  mkControl (Theme.card colors)
    (flatten [sheet "arrowButton"])
    (flatten [sheet "arrowText"; Some ["color" ::= Theme.primary colors]]).

End elements.

(** ** The controls of a state *)

Section screen.
Context {T : Type} `{JSNumber T, JSNumberFormat T, Locale, LocaleLong, EqDecision T}.
Context (p : Platform) (colors : Theme.Colors).
Implicit Types (st : AppState T).

(** [renderTransactionItem(item)]: the note is there when it is not empty. *)
Definition rowControls (item : Transaction T) : list Control :=
  [rowDate p colors] ++
  (if truthy (tx_note item) then [rowNote p colors] else []) ++
  [rowAmount p colors (tx_type item)].

(** [renderCategoryBlock({ item })]: the header, and the rows when the
    block is expanded. *)
Definition blockControls (expandedCategories : gmap string bool)
    (item : Group T) : list Control :=
  [blockTitle p colors; blockCount p colors; blockTotal p colors (g_type item);
   blockExpandIcon p colors] ++
  (if default false (expandedCategories !! g_key item)
   then g_transactions item ≫= rowControls else []).

(** The Add Transaction modal. *)
Definition addModalControls st : list Control :=
  let type := nt_type (newTransaction (core st)) in
  [typeButton p colors Income type; typeButton p colors Expense type;
   amountInput p colors] ++
  (if isAddingCategory st
   then [newCategoryInput p colors; smallButton p colors;
         smallButtonDestructive p colors]
   else addNewLink p colors ::
        (categoryChip p colors type ∘ chip_active <$> renderCategoryChips st)) ++
  [noteInput p colors; cancelButton p colors; saveButton p colors].

(** The month picker. *)
Definition pickerControls st : list Control :=
  [yearArrow p colors; yearArrow p colors] ++
  (monthCell p colors ∘ chip_active <$> renderMonthGrid st) ++
  [closeButton p colors].

(** The Delete Category modal. *)
Definition deleteModalControls st : list Control :=
  match renderDeleteModal st with
  | Some dm =>
      [deleteAllButton p colors] ++
      (reassignChip p colors ∘ chip_active <$> dm_chips dm) ++
      [reassignButton p colors (reassignCategory (core st));
       deleteCancelButton p colors]
  | None => []
  end.

(** The coloured texts of everything that can be pressed or typed into in
    a state, at the clock [now]: nothing while the spinner shows but the
    Delete Category modal, which is outside the loading test. *)
Definition controls (now : JSDate) st : list Control :=
  (if isLoaded st then
     [monthArrow p colors; monthButton p colors; monthArrow p colors] ++
     (shownGroups st ≫= blockControls (expandedCategories st)) ++
     (if isFutureMonth now (currentDate st) then [] else [fab p colors]) ++
     (if modalVisible st then addModalControls st else []) ++
     (if pickerVisible st then pickerControls st else [])
   else []) ++
  deleteModalControls st.

End screen.

(** ** Colours *)

Lemma THEMES_cases theme colors :
  THEMES theme = Some colors → colors = lightColors ∨ colors = darkColors.
Proof. unfold THEMES. repeat case_decide; naive_solver. Qed.

Section legibility.
Context (p : Platform) (theme : string) (colors : Theme.Colors).
Context (Hcolors : THEMES theme = Some colors).

(** Run through the two themes and the flags of a control. *)
Ltac control_cases :=
  destruct (THEMES_cases _ _ Hcolors) as [-> | ->];
  repeat match goal with x : TxType |- _ => destruct x
                       | x : bool |- _ => destruct x end;
  by_computation.

Lemma typeButton_contrasts type selected :
  contrasts (typeButton p colors type selected).
Proof. control_cases. Qed.

Lemma categoryChip_contrasts type active :
  contrasts (categoryChip p colors type active).
Proof. control_cases. Qed.

Lemma monthCell_contrasts active : contrasts (monthCell p colors active).
Proof. control_cases. Qed.

Lemma reassignChip_contrasts active : contrasts (reassignChip p colors active).
Proof. control_cases. Qed.

Lemma reassignButton_contrasts target : contrasts (reassignButton p colors target).
Proof. control_cases. Qed.

Lemma blockTotal_contrasts type : contrasts (blockTotal p colors type).
Proof. control_cases. Qed.

Lemma rowAmount_contrasts type : contrasts (rowAmount p colors type).
Proof. control_cases. Qed.

(** The controls that look the same in every state. *)
Lemma fixed_contrasts :
  Forall contrasts
    [fab p colors; smallButton p colors; smallButtonDestructive p colors;
     cancelButton p colors; saveButton p colors; closeButton p colors;
     deleteAllButton p colors; deleteCancelButton p colors;
     monthArrow p colors; monthButton p colors; blockTitle p colors;
     blockCount p colors; blockExpandIcon p colors; rowDate p colors;
     rowNote p colors; amountInput p colors; newCategoryInput p colors;
     noteInput p colors; addNewLink p colors; yearArrow p colors].
Proof. control_cases. Qed.

End legibility.

(** ** Every control of every state *)

Section screen_contrast.
Context {T : Type} `{JSNumber T, JSNumberFormat T, Locale, LocaleLong, EqDecision T}.
Context (p : Platform) (theme : string) (colors : Theme.Colors).
Context (Hcolors : THEMES theme = Some colors).
Implicit Types (st : AppState T).

(** Split a list of controls into its parts and settle each control by
    the lemmas above. *)
Ltac contrast_auto :=
  let Hfixed := fresh in
  pose proof (fixed_contrasts p theme colors Hcolors) as Hfixed;
  repeat (apply Forall_cons_1 in Hfixed as [? Hfixed]);
  repeat case_match;
  repeat first
    [ apply Forall_nil_2 | apply Forall_cons_2 | apply Forall_app_2
    | apply Forall_fmap, Forall_true; intros ?; simpl ];
  eauto using typeButton_contrasts, categoryChip_contrasts, monthCell_contrasts,
    reassignChip_contrasts, reassignButton_contrasts, blockTotal_contrasts,
    rowAmount_contrasts.

Lemma rowControls_contrasts (item : Transaction T) :
  Forall contrasts (rowControls p colors item).
Proof. unfold rowControls. contrast_auto. Qed.

Lemma blockControls_contrasts expanded (item : Group T) :
  Forall contrasts (blockControls p colors expanded item).
Proof.
  unfold blockControls. apply Forall_app_2; [contrast_auto|].
  case_match; [|done]. apply Forall_bind, Forall_true, rowControls_contrasts.
Qed.

Lemma addModalControls_contrasts st : Forall contrasts (addModalControls p colors st).
Proof. unfold addModalControls. contrast_auto. Qed.

Lemma pickerControls_contrasts st : Forall contrasts (pickerControls p colors st).
Proof. unfold pickerControls. contrast_auto. Qed.

Lemma deleteModalControls_contrasts st :
  Forall contrasts (deleteModalControls p colors st).
Proof. unfold deleteModalControls. contrast_auto. Qed.

(** C39: in both themes, in every state and on every device, every text
    of a control that is given a colour (the buttons, chips, cells and
    fields, the headers and rows of the list) has another colour than what
    it is drawn on, highlighted or not, enabled or not. *)
Theorem controls_contrast now st : Forall contrasts (controls p colors now st).
Proof.
  unfold controls.
  apply Forall_app_2; [|apply deleteModalControls_contrasts].
  case_match; [|done]. repeat apply Forall_app_2.
  - contrast_auto.
  - apply Forall_bind, Forall_true, blockControls_contrasts.
  - contrast_auto.
  - case_match; [apply addModalControls_contrasts|done].
  - case_match; [apply pickerControls_contrasts|done].
Qed.

End screen_contrast.

(** ** What the view marks is what is drawn *)

Section selection.
Context {T : Type} `{JSNumber T, JSNumberFormat T, Locale, LocaleLong, EqDecision T}.
Context (p : Platform) (theme : string) (colors : Theme.Colors).
Context (Hcolors : THEMES theme = Some colors).
Implicit Types (st : AppState T).

Lemma categoryChip_background type active :
  backgroundOf (categoryChip p colors type active) =
  if active then typeColor colors type else Theme.background colors.
Proof. by destruct active. Qed.

Lemma reassignChip_background active :
  backgroundOf (reassignChip p colors active) =
  if active then Theme.primary colors else Theme.background colors.
Proof. by destruct active. Qed.

(** The text of a type button is drawn with one colour entry, whose value
    depends on the type of the form. *)
Lemma typeButton_text type selected :
  ctl_text (typeButton p colors type selected) ≡
  flatten [styleOf (styles p) "typeButtonText";
           Some [("color", SStr (if bool_decide (selected = type)
                                 then Theme.text colors
                                 else Theme.subText colors))]].
Proof.
  unfold typeButton. cbn [ctl_text].
  etrans; [apply (flatten_default_when [_])|].
  by destruct (bool_decide _).
Qed.

Lemma typeButton_text_color type selected :
  strProp (ctl_text (typeButton p colors type selected)) "color" =
  Some (if bool_decide (selected = type) then Theme.text colors
        else Theme.subText colors).
Proof.
  unfold strProp. rewrite typeButton_text.
  set (c := if bool_decide _ then _ else _).
  change (flatten [?a; ?b]) with (flatten ([a] ++ [b])).
  by erewrite (getProp_flatten_last [_] [("color", SStr c)]) by done.
Qed.

(** The highlight colours are not the colour of a plain chip. *)
Lemma highlight_differs type :
  typeColor colors type ≠ Theme.background colors ∧
  Theme.primary colors ≠ Theme.background colors.
Proof. by destruct (THEMES_cases _ _ Hcolors) as [-> | ->], type. Qed.

Lemma elem_of_renderCategoryChips st c :
  c ∈ renderCategoryChips st →
  chip_active c =
  bool_decide (nt_category (newTransaction (core st)) = chip_label c).
Proof.
  unfold renderCategoryChips. case_match; [by rewrite elem_of_nil|].
  by intros (cat & -> & _)%list_elem_of_fmap.
Qed.

Lemma elem_of_dm_chips st dm c :
  renderDeleteModal st = Some dm → c ∈ dm_chips dm →
  chip_active c = bool_decide (reassignCategory (core st) = chip_label c).
Proof.
  unfold renderDeleteModal. case_match; [|done]. intros [= <-]. simpl.
  case_match; [|by rewrite elem_of_nil].
  by intros (cat & -> & _)%list_elem_of_fmap.
Qed.

(** What the view marks is what is drawn, in both themes: a category
    chip has the colour of the form's type exactly when it is the category
    of the form, a chip of the Delete Category modal has the primary
    colour exactly when it is the target selected, and the reassign button
    is dimmed exactly when the view disables it. *)
Lemma selection_shown st :
  (∀ c, c ∈ renderCategoryChips st →
     let type := nt_type (newTransaction (core st)) in
     backgroundOf (categoryChip p colors type (chip_active c)) =
       typeColor colors type ↔
     chip_label c = nt_category (newTransaction (core st))) ∧
  (∀ dm, renderDeleteModal st = Some dm →
     (∀ c, c ∈ dm_chips dm →
        backgroundOf (reassignChip p colors (chip_active c)) =
          Theme.primary colors ↔
        chip_label c = reassignCategory (core st)) ∧
     numProp (ctl_box (reassignButton p colors (reassignCategory (core st))))
       "opacity" = Some (if dm_reassignDisabled dm then 0.5 else 1)%Q).
Proof.
  split; [intros c Hc type|intros dm Hdm; split; [intros c Hc|]].
  - rewrite categoryChip_background, (elem_of_renderCategoryChips _ _ Hc).
    destruct (highlight_differs type). case_bool_decide; naive_solver.
  - rewrite reassignChip_background, (elem_of_dm_chips _ _ _ Hdm Hc).
    destruct (highlight_differs Income). case_bool_decide; naive_solver.
  - unfold renderDeleteModal in Hdm. case_match; [|done].
    apply (inj Some) in Hdm as <-. simpl. by destruct (truthy _).
Qed.

End selection.

(** ** Overrides *)

(** The inline object of an element goes last in its array: the Delete
    Category modal is lower than the sheet says and the Add Transaction
    modal is not; the field for a new category name and the date of a row
    lose a margin of the sheet. *)
Lemma inline_overrides p colors :
  numProp (addModalContent p colors) "minHeight" = Some 500%Q ∧
  numProp (deleteModalContent p colors) "minHeight" = Some 300%Q ∧
  numProp (ctl_box (noteInput p colors)) "marginBottom" = Some 20%Q ∧
  numProp (ctl_box (newCategoryInput p colors)) "marginBottom" = Some 0%Q ∧
  numProp (ctl_text (rowDate p colors)) "marginTop" = Some 0%Q.
Proof. done. Qed.

(** ** The first session, drawn *)

Lemma controls_contrast_witness :
  Forall contrasts
    (controls (mkPlatform "android" 24) darkColors march31 expandedFood).
Proof.
  exact (controls_contrast (mkPlatform "android" 24) "dark" darkColors eq_refl
           march31 expandedFood).
Defined.

Lemma selection_shown_witness :
  ∀ dm, renderDeleteModal deleteFoodOpen = Some dm →
    (∀ c, c ∈ dm_chips dm →
       backgroundOf (reassignChip (mkPlatform "ios" 0) lightColors (chip_active c)) =
         Theme.primary lightColors ↔
       chip_label c = reassignCategory (core deleteFoodOpen)) ∧
    numProp (ctl_box (reassignButton (mkPlatform "ios" 0) lightColors
                        (reassignCategory (core deleteFoodOpen))))
      "opacity" = Some (if dm_reassignDisabled dm then 0.5 else 1)%Q.
Proof.
  exact (proj2 (selection_shown (mkPlatform "ios" 0) "light" lightColors eq_refl
                  deleteFoodOpen)).
Defined.

(** The controls of the first session with the block of Food expanded:
    the month selector, the header and the row of the block, and the add
    button. *)
Example expandedFood_controls :
  let p := mkPlatform "android" 24 in
  controls p darkColors march31 expandedFood =
  [monthArrow p darkColors; monthButton p darkColors; monthArrow p darkColors;
   blockTitle p darkColors; blockCount p darkColors;
   blockTotal p darkColors Expense; blockExpandIcon p darkColors;
   rowDate p darkColors; rowAmount p darkColors Expense; fab p darkColors].
Proof. by vm_compute. Qed.

(** The Save Transaction button on the colour of the sheet would be white
    on white in the light theme. *)
Example save_on_card_unreadable :
  let c := saveButton (mkPlatform "ios" 0) lightColors in
  contrasts c ∧
  ¬ contrasts (mkControl (ctl_behind c)
                 (ctl_box c ++ [("backgroundColor", SStr (Theme.card lightColors))])
                 (ctl_text c)).
Proof. split; by_computation. Qed.
