(* ===== verification/Legacy.v ===== *)
(** The earlier revision of the component, [src/unnamed/part_000]: the same
    ledger, registry, month selection and persistence, a flat list of the
    month's transactions instead of category groups, no category deletion,
    and no duplicate check when a category is added.  Module [V0] models
    its state, handlers, controls, screen and style sheet with the names
    of its source, followed by the agreement of its list with its
    controls and the comparison of its sheet with the current one;
    [Refinement.v] relates the current component to it. *)

From Stdlib Require Import QArith.
From stdpp Require Import gmap.
From S2P Require Import Prelude JSNumber Format JSDate Ledger Registry MonthView.
From S2P Require Import Resolver App Session View Styles.

Module V0.

(** ** State *)

(** The alerts of the earlier revision. *)
Inductive Alert : Type :=
  | LoadFailedAlert
  | ValidationAlert (e : ValidationError)
  | DeleteTransactionAlert (id : string).

#[export] Instance Alert_eq_dec : EqDecision Alert.
Proof. solve_decision. Defined.

(** Its [useState] cells, the alert on screen, and the references of the
    array and the object the ledger and the registry hold. *)
Record AppState (T : Type) : Type := mkApp {
  theme : string;
  isLoaded : bool;
  transactions : list (Transaction T);
  categories : Categories;
  modalVisible : bool;
  newTransaction : NewTransaction;
  newCategoryName : string;
  isAddingCategory : bool;
  currentDate : JSDate;
  pickerVisible : bool;
  pickerYear : Z;
  alert : option Alert;
  transactionsRef : nat;
  categoriesRef : nat;
}.
Arguments mkApp {T}.
Arguments theme {T}.
Arguments isLoaded {T}.
Arguments transactions {T}.
Arguments categories {T}.
Arguments modalVisible {T}.
Arguments newTransaction {T}.
Arguments newCategoryName {T}.
Arguments isAddingCategory {T}.
Arguments currentDate {T}.
Arguments pickerVisible {T}.
Arguments pickerYear {T}.
Arguments alert {T}.
Arguments transactionsRef {T}.
Arguments categoriesRef {T}.

(** What the user can do. *)
Inductive Event : Type :=
  | PressTheme
  | PressChangeMonth (direction : Z)
  | PressMonthTitle
  | LongPressTransaction (id : string)
  | PressFab (now : JSDate)
  | AddModalClose
  | PressType (ty : TxType)
  | ChangeAmount (text : string)
  | PressAddNew
  | ChangeCategoryName (text : string)
  | PressAddCategory
  | PressCancelCategory
  | PressCategory (cat : string)
  | ChangeNote (text : string)
  | PressSave (now : JSDate) (nowMs : Z)
  | PickerYear (direction : Z)
  | PressMonthCell (index : Z)
  | PickerClose
  | AlertOk
  | AlertCancelDelete
  | AlertConfirmDelete.

Section legacy.
Context {T : Type} `{JSNumber T, Locale, EqDecision T}.
Implicit Types (st : AppState T) (sto : Storage T).

(** ** Setters *)

Definition setTheme (x : string) st : AppState T :=
  mkApp x (isLoaded st) (transactions st) (categories st) (modalVisible st)
    (newTransaction st) (newCategoryName st) (isAddingCategory st)
    (currentDate st) (pickerVisible st) (pickerYear st) (alert st)
    (transactionsRef st) (categoriesRef st).

Definition setIsLoaded (x : bool) st : AppState T :=
  mkApp (theme st) x (transactions st) (categories st) (modalVisible st)
    (newTransaction st) (newCategoryName st) (isAddingCategory st)
    (currentDate st) (pickerVisible st) (pickerYear st) (alert st)
    (transactionsRef st) (categoriesRef st).

(** The ledger and the registry are set to new arrays and objects only:
    their setters store a new reference, as in the current revision. *)
Definition setTransactions (x : list (Transaction T)) st : AppState T :=
  mkApp (theme st) (isLoaded st) x (categories st) (modalVisible st)
    (newTransaction st) (newCategoryName st) (isAddingCategory st)
    (currentDate st) (pickerVisible st) (pickerYear st) (alert st)
    (S (transactionsRef st)) (categoriesRef st).

Definition setCategories (x : Categories) st : AppState T :=
  mkApp (theme st) (isLoaded st) (transactions st) x (modalVisible st)
    (newTransaction st) (newCategoryName st) (isAddingCategory st)
    (currentDate st) (pickerVisible st) (pickerYear st) (alert st)
    (transactionsRef st) (S (categoriesRef st)).

Definition setModalVisible (x : bool) st : AppState T :=
  mkApp (theme st) (isLoaded st) (transactions st) (categories st) x
    (newTransaction st) (newCategoryName st) (isAddingCategory st)
    (currentDate st) (pickerVisible st) (pickerYear st) (alert st)
    (transactionsRef st) (categoriesRef st).

Definition setNewTransaction (x : NewTransaction) st : AppState T :=
  mkApp (theme st) (isLoaded st) (transactions st) (categories st)
    (modalVisible st) x (newCategoryName st) (isAddingCategory st)
    (currentDate st) (pickerVisible st) (pickerYear st) (alert st)
    (transactionsRef st) (categoriesRef st).

Definition setNewCategoryName (x : string) st : AppState T :=
  mkApp (theme st) (isLoaded st) (transactions st) (categories st)
    (modalVisible st) (newTransaction st) x (isAddingCategory st)
    (currentDate st) (pickerVisible st) (pickerYear st) (alert st)
    (transactionsRef st) (categoriesRef st).

Definition setIsAddingCategory (x : bool) st : AppState T :=
  mkApp (theme st) (isLoaded st) (transactions st) (categories st)
    (modalVisible st) (newTransaction st) (newCategoryName st) x
    (currentDate st) (pickerVisible st) (pickerYear st) (alert st)
    (transactionsRef st) (categoriesRef st).

Definition setCurrentDate (x : JSDate) st : AppState T :=
  mkApp (theme st) (isLoaded st) (transactions st) (categories st)
    (modalVisible st) (newTransaction st) (newCategoryName st)
    (isAddingCategory st) x (pickerVisible st) (pickerYear st) (alert st)
    (transactionsRef st) (categoriesRef st).

Definition setPickerVisible (x : bool) st : AppState T :=
  mkApp (theme st) (isLoaded st) (transactions st) (categories st)
    (modalVisible st) (newTransaction st) (newCategoryName st)
    (isAddingCategory st) (currentDate st) x (pickerYear st) (alert st)
    (transactionsRef st) (categoriesRef st).

Definition setPickerYear (x : Z) st : AppState T :=
  mkApp (theme st) (isLoaded st) (transactions st) (categories st)
    (modalVisible st) (newTransaction st) (newCategoryName st)
    (isAddingCategory st) (currentDate st) (pickerVisible st) x (alert st)
    (transactionsRef st) (categoriesRef st).

Definition setAlert (x : option Alert) st : AppState T :=
  mkApp (theme st) (isLoaded st) (transactions st) (categories st)
    (modalVisible st) (newTransaction st) (newCategoryName st)
    (isAddingCategory st) (currentDate st) (pickerVisible st) (pickerYear st)
    x (transactionsRef st) (categoriesRef st).

(** ** Mounting, loading, saving *)

Definition initialState (now : JSDate) : AppState T :=
  mkApp "light" false [] defaultCategories false emptyForm "" false now false
    (getFullYear now) None 0 0.

(** [loadData], as in the current revision. *)
Definition loadData (readOk : bool) sto st : AppState T :=
  let failed s := setIsLoaded true (setAlert (Some LoadFailedAlert) s) in
  if negb readOk then failed st else
  match TRANSACTIONS sto with
  | Corrupt => failed st
  | slotT =>
      let st1 := match slotT with Stored txs => setTransactions txs st | _ => st end in
      match CATEGORIES sto with
      | Corrupt => failed st1
      | slotC =>
          let st2 := match slotC with Stored cats => setCategories cats st1 | _ => st1 end in
          let st3 := match THEME sto with
                     | Some x => if truthy x then setTheme x st2 else st2
                     | None => st2
                     end in
          setIsLoaded true st3
      end
  end.

(** The three save effects, the ledger and the registry compared by
    reference. *)
Definition saveEffects (prev next : AppState T) sto : Storage T :=
  let loadedChanged := negb (bool_decide (isLoaded prev = isLoaded next)) in
  let fires {A} `{EqDecision A} (a b : A) : bool :=
    isLoaded next && (negb (bool_decide (a = b)) || loadedChanged) in
  mkStorage
    (if fires (transactionsRef prev) (transactionsRef next)
     then Stored (jsonTransactions (transactions next)) else TRANSACTIONS sto)
    (if fires (categoriesRef prev) (categoriesRef next)
     then Stored (categories next) else CATEGORIES sto)
    (if fires (theme prev) (theme next) then Some (theme next) else THEME sto).

(** ** Helpers and handlers *)

(** [getFilteredTransactions()] on the state. *)
Definition filteredTransactions st : list (Transaction T) :=
  getFilteredTransactions (currentDate st) (transactions st).

(** [getTotals()] on the state. *)
Definition totals st : Totals T := getTotals (filteredTransactions st).

(** [toggleTheme]. *)
Definition toggleTheme st : AppState T :=
  setTheme (if decide (theme st = "light") then "dark" else "light") st.

(** [handleAddTransaction]. *)
Definition handleAddTransaction (now : JSDate) (nowMs : Z) st : AppState T :=
  match addTransaction now nowMs (currentDate st) (newTransaction st)
          (transactions st) with
  | inl e => setAlert (Some (ValidationAlert e)) st
  | inr txs =>
      setIsAddingCategory false (setNewCategoryName ""
        (setNewTransaction emptyForm (setModalVisible false
          (setTransactions txs st))))
  end.

(** [confirmDelete(id)] and the Delete button of its alert. *)
Definition confirmDelete (id : string) st : AppState T :=
  setAlert (Some (DeleteTransactionAlert id)) st.

Definition confirmDelete_onPress (id : string) st : AppState T :=
  setTransactions (removeTransaction id (transactions st)) st.

(** [handleAddNewCategory]: a blank name returns; any other name is
    appended, trimmed, whether or not it is already listed. *)
Definition handleAddNewCategory st : AppState T :=
  let form := newTransaction st in
  let name := trim (newCategoryName st) in
  if negb (truthy name) then st
  else
    setIsAddingCategory false (setNewCategoryName ""
      (setNewTransaction
         (mkNewTransaction (nt_type form) (nt_amount form) name (nt_note form))
         (setCategories
            (setCategoriesFor (categories st) (nt_type form)
               (categoriesFor (categories st) (nt_type form) ++ [name]))
            st))).

(** [changeMonth(direction)] on the state. *)
Definition changeMonth (direction : Z) st : AppState T :=
  setCurrentDate (JSDate.changeMonth direction (currentDate st)) st.

(** [openPicker]. *)
Definition openPicker st : AppState T :=
  setPickerVisible true (setPickerYear (getFullYear (currentDate st)) st).

(** [selectMonthYear(monthIndex)] on the state. *)
Definition selectMonthYear (monthIndex : Z) st : AppState T :=
  setPickerVisible false
    (setCurrentDate (JSDate.selectMonthYear (pickerYear st) monthIndex) st).

(** ** The controls *)

Definition alertStep (a : Alert) (e : Event) st : option (AppState T) :=
  match a, e with
  | (LoadFailedAlert | ValidationAlert _), AlertOk => Some (setAlert None st)
  | DeleteTransactionAlert _, AlertCancelDelete => Some (setAlert None st)
  | DeleteTransactionAlert id, AlertConfirmDelete =>
      Some (confirmDelete_onPress id (setAlert None st))
  | _, _ => None
  end.

(** The Add Transaction modal. *)
Definition addModalStep (e : Event) st : option (AppState T) :=
  let form := newTransaction st in
  match e with
  | AddModalClose => Some (setModalVisible false st)
  | PressType ty =>
      Some (setNewTransaction
              (mkNewTransaction ty (nt_amount form) "" (nt_note form)) st)
  | ChangeAmount text =>
      Some (setNewTransaction
              (mkNewTransaction (nt_type form) text (nt_category form)
                 (nt_note form)) st)
  | PressAddNew =>
      if isAddingCategory st then None else Some (setIsAddingCategory true st)
  | ChangeCategoryName text =>
      if isAddingCategory st then Some (setNewCategoryName text st) else None
  | PressAddCategory =>
      if isAddingCategory st then Some (handleAddNewCategory st) else None
  | PressCancelCategory =>
      if isAddingCategory st then Some (setIsAddingCategory false st) else None
  | PressCategory cat =>
      if negb (isAddingCategory st) &&
         includes cat (categoriesFor (categories st) (nt_type form))
      then Some (setNewTransaction
                   (mkNewTransaction (nt_type form) (nt_amount form) cat
                      (nt_note form)) st)
      else None
  | ChangeNote text =>
      Some (setNewTransaction
              (mkNewTransaction (nt_type form) (nt_amount form)
                 (nt_category form) text) st)
  | PressSave now nowMs => Some (handleAddTransaction now nowMs st)
  | _ => None
  end.

(** The month picker. *)
Definition pickerStep (e : Event) st : option (AppState T) :=
  match e with
  | PickerYear direction =>
      if bool_decide (direction = 1 ∨ direction = -1)%Z
      then Some (setPickerYear (pickerYear st + direction) st) else None
  | PressMonthCell index =>
      if bool_decide (0 ≤ index < 12)%Z
      then Some (selectMonthYear index st) else None
  | PickerClose => Some (setPickerVisible false st)
  | _ => None
  end.

(** The theme button and the month selector. *)
Definition headerStep (e : Event) st : option (AppState T) :=
  match e with
  | PressTheme => Some (toggleTheme st)
  | PressChangeMonth direction =>
      if bool_decide (direction = 1 ∨ direction = -1)%Z
      then Some (changeMonth direction st) else None
  | PressMonthTitle => Some (openPicker st)
  | _ => None
  end.

(** The list: [renderTransactionItem] on every transaction of the month. *)
Definition listStep (e : Event) st : option (AppState T) :=
  match e with
  | LongPressTransaction id =>
      if includes id (ids (filteredTransactions st))
      then Some (confirmDelete id st) else None
  | _ => None
  end.

(** The add button, absent on a future month. *)
Definition fabStep (e : Event) st : option (AppState T) :=
  match e with
  | PressFab now =>
      if isFutureMonth now (currentDate st) then None
      else Some (setModalVisible true st)
  | _ => None
  end.

(** What an event does to the component. *)
Definition appStep (e : Event) st : option (AppState T) :=
  if negb (isLoaded st) then None else
  match alert st with
  | Some a => alertStep a e st
  | None =>
      if modalVisible st then addModalStep e st
      else if pickerVisible st then pickerStep e st
      else match e with
           | PressTheme | PressChangeMonth _ | PressMonthTitle => headerStep e st
           | LongPressTransaction _ => listStep e st
           | PressFab _ => fabStep e st
           | _ => None
           end
  end.

End legacy.

(** ** What is on screen *)

(** A row of the list. *)
Record TransactionRow : Type := mkRow {
  row_key : string;
  row_iconColor : string;
  row_icon : string;
  row_category : string;
  row_note : option string;
  row_amount : string;
  row_amountColor : string;
  row_date : string;
}.

(** The screen once the data is loaded. *)
Record Screen : Type := mkScreen {
  scr_themeIcon : string;
  scr_monthText : string;
  scr_summary : SummaryCard;
  scr_rows : list TransactionRow;
  scr_empty : option string;
  scr_footer : string;
  scr_fab : bool;
  scr_addModal : option (list Chip);
  scr_picker : option (list Chip);
}.

Section legacy_view.
Context {T : Type} `{JSNumber T, JSNumberFormat T, Locale, LocaleLong, EqDecision T}.
Implicit Types (st : AppState T) (colors : Theme.Colors).

(** [renderTransactionItem({ item })]: the amount carries the sign of its
    type and the date is shown whole. *)
Definition renderTransactionItem colors (item : Transaction T) : TransactionRow :=
  mkRow (tx_id item)
    (typeColor colors (tx_type item) +:+ "20")
    (match tx_type item with Income => "💰" | Expense => "💸" end)
    (tx_category item)
    (if truthy (tx_note item) then Some (tx_note item) else None)
    ((match tx_type item with Income => "+" | Expense => "-" end) +:+ " " +:+
     formatCurrency (tx_amount item))
    (typeColor colors (tx_type item))
    (tx_displayDate item).

(** The summary card. *)
Definition renderSummary st : SummaryCard :=
  mkSummary (formatCurrency (balance (totals st)))
    (formatCurrency (income (totals st)))
    (formatCurrency (expense (totals st))).

(** The month grid of the picker. *)
Definition renderMonthGrid st : list Chip :=
  imap (λ index month,
          mkChip (slice0 3 month)
            (bool_decide (Z.of_nat index = getMonth (currentDate st)) &&
             bool_decide (pickerYear st = getFullYear (currentDate st))))
       MONTHS.

(** The category chips of the Add Transaction modal. *)
Definition renderCategoryChips st : list Chip :=
  if isAddingCategory st then []
  else (λ cat, mkChip cat (bool_decide (nt_category (newTransaction st) = cat)))
       <$> categoriesFor (categories st) (nt_type (newTransaction st)).

(** The body of [App] with the colours [colors], at the clock [now]: the
    spinner's colour, or the screen. *)
Definition render colors (now : JSDate) st : string + Screen :=
  if negb (isLoaded st) then inl (Theme.primary colors)
  else inr (mkScreen
    (if decide (theme st = "light") then "☀️" else "🌙")
    (getMonthYear (currentDate st))
    (renderSummary st)
    (renderTransactionItem colors <$> filteredTransactions st)
    (if filteredTransactions st is [] then Some "No transactions for this month."
     else None)
    renderFooter
    (negb (isFutureMonth now (currentDate st)))
    (if modalVisible st then Some (renderCategoryChips st) else None)
    (if pickerVisible st then Some (renderMonthGrid st) else None)).

(** [App]: [colors] is [THEMES[theme]]. *)
Definition renderApp (now : JSDate) st : option (string + Screen) :=
  colors ← THEMES (theme st); Some (render colors now st).

End legacy_view.

(** ** The style sheet *)

(** Lines 584 to 626: the screen, the header and the month selector. *)
Definition screenStyles (p : Platform) : StyleSheet := [
  ("container",
     [("flex", SNum 1);
      ("paddingTop", SNum (if decide (OS p = "android") then currentHeight p else 0))]);
  ("header",
     [("flexDirection", SStr "row"); ("justifyContent", SStr "space-between");
      ("alignItems", SStr "center"); ("padding", SNum 20);
      ("paddingBottom", SNum 10)]);
  ("headerTitle",
     [("fontSize", SNum 28); ("fontWeight", SStr "bold")]);
  ("themeButton",
     [("padding", SNum 8); ("borderRadius", SNum 20)]);
  ("monthSelector",
     [("flexDirection", SStr "row"); ("justifyContent", SStr "center");
      ("alignItems", SStr "center"); ("marginBottom", SNum 15)]);
  ("monthText",
     [("fontSize", SNum 18); ("fontWeight", SStr "600"); ("width", SNum 150);
      ("textAlign", SStr "center")]);
  ("loadingContainer",
     [("flex", SNum 1); ("justifyContent", SStr "center");
      ("alignItems", SStr "center")]);
  ("arrowButton",
     [("padding", SNum 10)]);
  ("arrowText",
     [("fontSize", SNum 24); ("fontWeight", SStr "bold")])
  ].

(** Lines 627 to 678: the summary card. *)
Definition summaryStyles : StyleSheet := [
  ("summaryCard",
     [("marginHorizontal", SNum 20); ("borderRadius", SNum 20);
      ("padding", SNum 20); ("shadowColor", SStr "#000");
      ("shadowOffset", SOffset 0 4); ("shadowOpacity", SNum 0.1);
      ("shadowRadius", SNum 10); ("elevation", SNum 5)]);
  ("balanceContainer",
     [("marginBottom", SNum 20); ("alignItems", SStr "center")]);
  ("balanceLabel",
     [("fontSize", SNum 14); ("marginBottom", SNum 5)]);
  ("balanceAmount",
     [("fontSize", SNum 36); ("fontWeight", SStr "800")]);
  ("statsRow",
     [("flexDirection", SStr "row"); ("justifyContent", SStr "space-between");
      ("alignItems", SStr "center")]);
  ("statItem",
     [("flexDirection", SStr "row"); ("alignItems", SStr "center");
      ("flex", SNum 1)]);
  ("divider",
     [("width", SNum 1); ("height", SNum 30); ("marginHorizontal", SNum 15)]);
  ("statIcon",
     [("width", SNum 32); ("height", SNum 32); ("borderRadius", SNum 16);
      ("justifyContent", SStr "center"); ("alignItems", SStr "center");
      ("marginRight", SNum 10)]);
  ("statLabel",
     [("fontSize", SNum 12)]);
  ("statValue",
     [("fontSize", SNum 16); ("fontWeight", SStr "bold")])
  ].

(** Lines 679 to 751: the list, the rows of the earlier flat list, the empty state and the add button. *)
Definition listStyles : StyleSheet := [
  ("listContainer",
     [("flex", SNum 1); ("paddingHorizontal", SNum 20); ("marginTop", SNum 20)]);
  ("sectionTitle",
     [("fontSize", SNum 18); ("fontWeight", SStr "bold");
      ("marginBottom", SNum 15)]);
  ("transactionItem",
     [("flexDirection", SStr "row"); ("justifyContent", SStr "space-between");
      ("alignItems", SStr "center"); ("marginBottom", SNum 12);
      ("padding", SNum 15); ("borderRadius", SNum 12)]);
  ("transactionLeft",
     [("flexDirection", SStr "row"); ("alignItems", SStr "center")]);
  ("iconPlaceholder",
     [("width", SNum 40); ("height", SNum 40); ("borderRadius", SNum 20);
      ("justifyContent", SStr "center"); ("alignItems", SStr "center");
      ("marginRight", SNum 12)]);
  ("transactionCategory",
     [("fontSize", SNum 16); ("fontWeight", SStr "600")]);
  ("transactionNote",
     [("fontSize", SNum 12)]);
  ("transactionAmount",
     [("fontSize", SNum 16); ("fontWeight", SStr "bold");
      ("textAlign", SStr "right")]);
  ("transactionDate",
     [("fontSize", SNum 12); ("textAlign", SStr "right");
      ("marginTop", SNum 4)]);
  ("emptyState",
     [("alignItems", SStr "center"); ("marginTop", SNum 50)]);
  ("emptyStateText",
     [("fontSize", SNum 16)]);
  ("fab",
     [("position", SStr "absolute"); ("bottom", SNum 30); ("right", SNum 30);
      ("width", SNum 60); ("height", SNum 60); ("borderRadius", SNum 30);
      ("justifyContent", SStr "center"); ("alignItems", SStr "center");
      ("shadowOffset", SOffset 0 4); ("shadowOpacity", SNum 0.3);
      ("shadowRadius", SNum 8); ("elevation", SNum 8)]);
  ("fabIcon",
     [("fontSize", SNum 32); ("color", SStr "white"); ("marginTop", SNum (-2))])
  ].

(** Lines 753 to 799: the modals and the amount field. *)
Definition modalStyles : StyleSheet := [
  ("modalOverlay",
     [("flex", SNum 1); ("backgroundColor", SStr "rgba(0,0,0,0.5)");
      ("justifyContent", SStr "center"); ("alignItems", SStr "center")]);
  ("modalContent",
     [("width", SStr "100%"); ("borderTopLeftRadius", SNum 25);
      ("borderTopRightRadius", SNum 25); ("padding", SNum 25);
      ("minHeight", SNum 500); ("marginTop", SStr "auto")]);
  ("pickerContent",
     [("width", SStr "90%"); ("borderRadius", SNum 20); ("padding", SNum 20);
      ("alignItems", SStr "center")]);
  ("modalTitle",
     [("fontSize", SNum 22); ("fontWeight", SStr "bold");
      ("marginBottom", SNum 20); ("textAlign", SStr "center")]);
  ("inputContainer",
     [("flexDirection", SStr "row"); ("alignItems", SStr "center");
      ("borderBottomWidth", SNum 1); ("marginBottom", SNum 20)]);
  ("currencySymbol",
     [("fontSize", SNum 24); ("marginRight", SNum 10)]);
  ("amountInput",
     [("flex", SNum 1); ("fontSize", SNum 24); ("paddingVertical", SNum 10)]);
  ("label",
     [("fontSize", SNum 14); ("fontWeight", SStr "600");
      ("marginBottom", SNum 10); ("marginTop", SNum 10)])
  ].

(** Lines 800 to 895: the form of the Add Transaction modal. *)
Definition formStyles : StyleSheet := [
  ("input",
     [("borderRadius", SNum 10); ("padding", SNum 15); ("fontSize", SNum 16);
      ("marginBottom", SNum 20)]);
  ("typeSwitcher",
     [("flexDirection", SStr "row"); ("marginBottom", SNum 25);
      ("padding", SNum 4); ("borderRadius", SNum 12)]);
  ("typeButton",
     [("flex", SNum 1); ("paddingVertical", SNum 12);
      ("alignItems", SStr "center"); ("borderRadius", SNum 10)]);
  ("typeButtonText",
     [("fontSize", SNum 16); ("fontWeight", SStr "600")]);
  ("categoryScroll",
     [("marginBottom", SNum 20); ("maxHeight", SNum 50)]);
  ("categoryChip",
     [("paddingHorizontal", SNum 16); ("paddingVertical", SNum 10);
      ("borderRadius", SNum 20); ("marginRight", SNum 10)]);
  ("categoryChipText",
     [("fontWeight", SStr "500")]);
  ("categoryChipTextActive",
     [("color", SStr "white"); ("fontWeight", SStr "bold")]);
  ("modalButtons",
     [("flexDirection", SStr "row"); ("justifyContent", SStr "space-between");
      ("marginTop", SNum 20)]);
  ("modalButton",
     [("flex", SNum 1); ("paddingVertical", SNum 15);
      ("borderRadius", SNum 12); ("alignItems", SStr "center")]);
  ("cancelButton",
     [("marginRight", SNum 10)]);
  ("saveButton",
     [("marginLeft", SNum 10)]);
  ("cancelButtonText",
     [("fontSize", SNum 16); ("fontWeight", SStr "600")]);
  ("saveButtonText",
     [("fontSize", SNum 16); ("fontWeight", SStr "bold");
      ("color", SStr "white")]);
  ("rowBetween",
     [("flexDirection", SStr "row"); ("justifyContent", SStr "space-between");
      ("alignItems", SStr "center"); ("marginBottom", SNum 10);
      ("marginTop", SNum 10)]);
  ("linkText",
     [("fontWeight", SStr "600")]);
  ("addCategoryContainer",
     [("flexDirection", SStr "row"); ("alignItems", SStr "center");
      ("marginBottom", SNum 20)]);
  ("smallButton",
     [("paddingHorizontal", SNum 15); ("paddingVertical", SNum 15);
      ("borderRadius", SNum 10); ("marginLeft", SNum 10)]);
  ("smallButtonDestructive",
     [("paddingHorizontal", SNum 15); ("paddingVertical", SNum 15);
      ("borderRadius", SNum 10); ("marginLeft", SNum 5)]);
  ("smallButtonText",
     [("color", SStr "white"); ("fontWeight", SStr "bold")])
  ].

(** Lines 896 to 930: the month picker. *)
Definition pickerStyles : StyleSheet := [
  ("yearRow",
     [("flexDirection", SStr "row"); ("justifyContent", SStr "space-between");
      ("alignItems", SStr "center"); ("marginBottom", SNum 20);
      ("width", SStr "100%")]);
  ("yearText",
     [("fontSize", SNum 24); ("fontWeight", SStr "bold")]);
  ("monthGrid",
     [("flexDirection", SStr "row"); ("flexWrap", SStr "wrap");
      ("justifyContent", SStr "space-between")]);
  ("monthCell",
     [("width", SStr "30%"); ("padding", SNum 10);
      ("alignItems", SStr "center"); ("borderRadius", SNum 10);
      ("marginBottom", SNum 15)]);
  ("monthCellText",
     [("fontSize", SNum 16)]);
  ("closeButton",
     [("marginTop", SNum 10); ("paddingVertical", SNum 10);
      ("paddingHorizontal", SNum 30); ("borderRadius", SNum 20)]);
  ("closeButtonText",
     [("fontWeight", SStr "bold")])
  ].

(** Lines 931 to 940: the footer and the buttons of the Delete Category modal. *)
Definition footerStyles : StyleSheet := [
  ("footerContainer",
     [("padding", SNum 20); ("alignItems", SStr "center");
      ("justifyContent", SStr "center")]);
  ("footerText",
     [("fontSize", SNum 12); ("textAlign", SStr "center")])
  ].
(** [styles], the value of [StyleSheet.create({ ... })] (from line 583). *)
Definition styles (p : Platform) : StyleSheet :=
  screenStyles p ++ summaryStyles ++ listStyles ++ modalStyles ++
  formStyles ++ pickerStyles ++ footerStyles.

(** The names the JSX reads from [styles], in the order of their first
    use. *)
Definition usedStyles : list string :=
  ["transactionItem"; "transactionLeft"; "iconPlaceholder";
   "transactionCategory"; "transactionNote"; "transactionAmount";
   "transactionDate"; "footerContainer"; "footerText"; "container";
   "loadingContainer"; "header"; "headerTitle"; "themeButton";
   "monthSelector"; "arrowButton"; "arrowText"; "monthText"; "summaryCard";
   "balanceContainer"; "balanceLabel"; "balanceAmount"; "statsRow";
   "statItem"; "statIcon"; "statLabel"; "statValue"; "divider";
   "listContainer"; "sectionTitle"; "emptyState"; "emptyStateText"; "fab";
   "fabIcon"; "modalOverlay"; "modalContent"; "modalTitle"; "typeSwitcher";
   "typeButton"; "typeButtonText"; "label"; "inputContainer";
   "currencySymbol"; "amountInput"; "rowBetween"; "linkText";
   "addCategoryContainer"; "input"; "smallButton"; "smallButtonText";
   "smallButtonDestructive"; "categoryScroll"; "categoryChip";
   "categoryChipText"; "categoryChipTextActive"; "modalButtons";
   "modalButton"; "cancelButton"; "cancelButtonText"; "saveButton";
   "saveButtonText"; "pickerContent"; "yearRow"; "yearText"; "monthGrid";
   "monthCell"; "monthCellText"; "closeButton"; "closeButtonText"].

End V0.

(** ** The list and its controls *)

Section legacy_controls.
Context {T : Type} `{JSNumber T, JSNumberFormat T, Locale, LocaleLong, EqDecision T}.

Lemma V0_row_keys colors (ts : list (Transaction T)) :
  V0.row_key <$> (V0.renderTransactionItem colors <$> ts) = ids ts.
Proof. unfold ids. by rewrite <-list_fmap_compose. Qed.

(** The earlier list shows what its controls accept: a long press is
    accepted exactly on the transactions that have a row, the add button
    exactly when it is drawn, and the text for an empty month is there
    exactly when the month has no transaction. *)
Lemma V0_render_controls colors now (s : V0.AppState T) scr :
  V0.render colors now s = inr scr →
  (∀ id, is_Some (V0.listStep (V0.LongPressTransaction id) s) ↔
         id ∈ V0.row_key <$> V0.scr_rows scr) ∧
  (is_Some (V0.fabStep (V0.PressFab now) s) ↔ V0.scr_fab scr = true) ∧
  (is_Some (V0.scr_empty scr) ↔ V0.filteredTransactions s = []).
Proof.
  unfold V0.render. destruct (V0.isLoaded s); [|done]. simpl.
  intros [= <-]. simpl. split_and!.
  - intros id. unfold V0.listStep.
    by rewrite is_Some_guard, includes_true, V0_row_keys.
  - unfold V0.fabStep. rewrite <-(is_Some_guard _ (V0.setModalVisible true s)).
    by destruct (isFutureMonth _ _).
  - destruct (V0.filteredTransactions s); split; try done; by intros [??].
Qed.

End legacy_controls.

(** ** A first session *)

(** From nothing stored, on March 31st 2025: the form filled with an
    expense of 12.5 on Food, and saved. *)
Definition savedV0 : V0.AppState xnum :=
  V0.handleAddTransaction march31 1743400000000
    (V0.setNewTransaction (mkNewTransaction Expense "12.5" "Food" "")
       (V0.setModalVisible true
          (V0.loadData true emptyStorage (V0.initialState march31)))).

Definition savedScreenV0 : V0.Screen :=
  match V0.render lightColors march31 savedV0 with
  | inr s => s
  | inl _ => V0.mkScreen "" "" (mkSummary "" "" "") [] None "" false None None
  end.

Lemma V0_render_controls_witness :
  (∀ id, is_Some (V0.listStep (V0.LongPressTransaction id) savedV0) ↔
         id ∈ V0.row_key <$> V0.scr_rows savedScreenV0) ∧
  (is_Some (V0.fabStep (V0.PressFab march31) savedV0) ↔
   V0.scr_fab savedScreenV0 = true) ∧
  (is_Some (V0.scr_empty savedScreenV0) ↔ V0.filteredTransactions savedV0 = []).
Proof.
  exact (V0_render_controls lightColors march31 savedV0 savedScreenV0
           ltac:(by vm_compute)).
Defined.

(** ** The style sheet of the earlier revision *)

Section legacy_sheet.
Context (p : Platform).

Lemma V0_styles_container :
  V0.styles p =
  ("container",
   [("flex", SNum 1);
    ("paddingTop",
     SNum (if decide (OS p = "android") then currentHeight p else 0))])
  :: tail (V0.styles (mkPlatform "" 0)).
Proof. reflexivity. Qed.

(** Every style the earlier JSX reads is an entry of its sheet, and every
    entry is read. *)
Lemma V0_styles_defined name :
  name ∈ V0.usedStyles ↔ is_Some (styleOf (V0.styles p) name).
Proof.
  unfold styleOf. rewrite getProp_is_Some.
  change (keys (V0.styles p)) with (keys (V0.styles (mkPlatform "" 0))).
  split; revert name; apply Forall_forall; by_computation.
Qed.

(** The styles the earlier JSX reads and the current one does not are the
    four of the flat rows. *)
Lemma V0_usedStyles_dropped :
  filter (λ name, name ∉ usedStyles) V0.usedStyles =
  ["transactionItem"; "transactionLeft"; "transactionCategory";
   "transactionAmount"].
Proof. reflexivity. Qed.

Lemma styles_extend_V0_rest :
  Forall (λ name, name ≠ "label" →
            getProp (tail (styles (mkPlatform "" 0))) name =
            getProp (tail (V0.styles (mkPlatform "" 0))) name)
         (keys (tail (V0.styles (mkPlatform "" 0)))).
Proof. by_computation. Qed.

(** The current sheet keeps every entry of the earlier one as it was,
    but for [label], on every device. *)
Lemma styles_extend_V0 name :
  name ∈ keys (V0.styles p) → name ≠ "label" →
  styleOf (styles p) name = styleOf (V0.styles p) name.
Proof.
  rewrite V0_styles_container at 1. unfold keys at 1.
  rewrite fmap_cons, elem_of_cons. intros [->|Hin] Hne; [done|].
  destruct (decide (name = "container")) as [->|Hc]; [done|].
  unfold styleOf. rewrite (styles_container p), V0_styles_container.
  rewrite !getProp_cons_ne by done.
  by apply (proj1 (Forall_forall _ _) styles_extend_V0_rest).
Qed.

End legacy_sheet.

Lemma styles_extend_V0_witness :
  styleOf (styles (mkPlatform "android" 24)) "fab" =
  styleOf (V0.styles (mkPlatform "android" 24)) "fab".
Proof. apply styles_extend_V0; by_computation. Defined.

(** [label] lost its weight and its margins for a vertical padding. *)
Example label_restyled p :
  styleOf (V0.styles p) "label" =
    Some [("fontSize", SNum 14); ("fontWeight", SStr "600");
          ("marginBottom", SNum 10); ("marginTop", SNum 10)] ∧
  styleOf (styles p) "label" =
    Some [("fontSize", SNum 14); ("paddingVertical", SNum 10)].
Proof. done. Qed.
