(* ===== verification/Refinement.v ===== *)
(** The two revisions of the component related: the projection of the
    current state on the cells of the earlier one, lock-step refinement on
    the controls they share, the simulation of the earlier revision by the
    current one, the defect of the earlier [handleAddNewCategory] that the
    current one repairs, and what the two screens have in common. *)

From stdpp Require Import gmap.
From S2P Require Import Prelude JSNumber Format JSDate Ledger Registry MonthView.
From S2P Require Import Resolver App Session View Legacy.

(** ** From the current component to the earlier one *)

Section refinement.
Context {T : Type} `{JSNumber T, Locale, EqDecision T}.
Implicit Types (st : AppState T) (e : V0.Event).

(** The alert as the earlier revision has it; the category confirmation
    has no counterpart. *)
Definition projectAlert (a : option (AppAlert T)) : option V0.Alert :=
  match a with
  | Some LoadFailedAlert => Some V0.LoadFailedAlert
  | Some (ValidationAlert e) => Some (V0.ValidationAlert e)
  | Some (DeleteTransactionAlert id) => Some (V0.DeleteTransactionAlert id)
  | Some (DeleteCategoryAlert _) | None => None
  end.

(** The cells the two revisions share. *)
Definition project st : V0.AppState T :=
  V0.mkApp (theme st) (isLoaded st) (transactions (core st))
    (categories (core st)) (modalVisible st) (newTransaction (core st))
    (newCategoryName st) (isAddingCategory st) (currentDate st)
    (pickerVisible st) (pickerYear st) (projectAlert (alert st))
    (transactionsRef (core st)) (categoriesRef (core st)).

(** The controls the two revisions share. *)
Definition embed e : AppEvent :=
  match e with
  | V0.PressTheme => PressTheme
  | V0.PressChangeMonth direction => PressChangeMonth direction
  | V0.PressMonthTitle => PressMonthTitle
  | V0.LongPressTransaction id => LongPressTransaction id
  | V0.PressFab now => PressFab now
  | V0.AddModalClose => AddModalClose
  | V0.PressType ty => PressType ty
  | V0.ChangeAmount text => ChangeAmount text
  | V0.PressAddNew => PressAddNew
  | V0.ChangeCategoryName text => ChangeCategoryName text
  | V0.PressAddCategory => PressAddCategory
  | V0.PressCancelCategory => PressCancelCategory
  | V0.PressCategory cat => PressCategory cat
  | V0.ChangeNote text => ChangeNote text
  | V0.PressSave now nowMs => PressSave now nowMs
  | V0.PickerYear direction => PickerYear direction
  | V0.PressMonthCell index => PressMonthCell index
  | V0.PickerClose => PickerClose
  | V0.AlertOk => AlertOk
  | V0.AlertCancelDelete => AlertCancelDelete
  | V0.AlertConfirmDelete => AlertConfirmDelete
  end.

(** The states of the current component in which no category deletion is
    under way. *)
Definition legacyVisible st : Prop :=
  deleteModalVisible (core st) = false ∧
  ∀ a, alert st ≠ Some (DeleteCategoryAlert a).

(** The name typed is not yet a category of the form's type. *)
Definition freshName st : Prop :=
  trim (newCategoryName st) ∉
  categoriesFor (categories (core st)) (nt_type (newTransaction (core st))).

(** *** The handlers commute with the projection *)

Lemma project_handleAddTransaction now nowMs st :
  project (handleAddTransaction now nowMs st) =
  V0.handleAddTransaction now nowMs (project st).
Proof.
  unfold handleAddTransaction, V0.handleAddTransaction. simpl. by case_match.
Qed.

Lemma project_handleAddNewCategory st :
  freshName st →
  project (handleAddNewCategory st) = V0.handleAddNewCategory (project st).
Proof.
  intros Hn. unfold handleAddNewCategory, V0.handleAddNewCategory, addCategory.
  simpl. destruct (truthy (trim _)); simpl; [|done].
  by rewrite (proj2 (includes_false _ _) Hn).
Qed.

Lemma project_loadData readOk sto st :
  project (loadData readOk sto st) = V0.loadData readOk sto (project st).
Proof.
  unfold loadData, V0.loadData. destruct readOk; [|done]. simpl.
  destruct (TRANSACTIONS sto), (CATEGORIES sto), (THEME sto) as [x|];
    try done; simpl; by destruct (truthy x).
Qed.

Lemma saveEffects_project prev next sto :
  V0.saveEffects (project prev) (project next) sto = saveEffects prev next sto.
Proof. done. Qed.

(** A transaction the groups show is one of the month's. *)
Lemma shown_filtered id st :
  some (λ g, default false (expandedCategories st !! g_key g) = true ∧
             id ∈ ids (g_transactions g)) (shownGroups st) = true →
  includes id (ids (V0.filteredTransactions (project st))) = true.
Proof.
  rewrite some_true, includes_true.
  intros (g & Hg & _ & (t & -> & Ht)%list_elem_of_fmap).
  apply list_elem_of_fmap. exists t. split; [done|].
  apply elem_of_getGroupedTransactions. eauto.
Qed.

(** *** The controls commute with the projection *)

(** Unfold the controls of both revisions and split on their guards. *)
Ltac step_cases :=
  unfold alertStep, addModalStep, pickerStep, screenStep, headerStep, listStep,
    fabStep, V0.alertStep, V0.addModalStep, V0.pickerStep, V0.headerStep,
    V0.listStep, V0.fabStep in *;
  simpl in *; repeat case_match; simplify_eq/=; try done.

Lemma alertStep_refines a e st st' :
  alert st = Some a → alertStep a (embed e) st = Some st' →
  ∃ a0, projectAlert (alert st) = Some a0 ∧
        V0.alertStep a0 e (project st) = Some (project st').
Proof.
  intros Ha Hstep. rewrite Ha.
  destruct a, e; simpl in Hstep; simplify_eq; try done;
    eexists; (split; [done|]); simpl; by rewrite ?Ha.
Qed.

Lemma addModalStep_refines e st st' :
  alert st = None → (e = V0.PressAddCategory → freshName st) →
  addModalStep (embed e) st = Some st' →
  V0.addModalStep e (project st) = Some (project st').
Proof.
  intros Ha Hfresh Hstep.
  destruct e; simpl in Hstep; unfold V0.addModalStep; simpl;
    repeat case_match; simplify_eq/=; try done.
  - by rewrite project_handleAddNewCategory by auto.
  - by rewrite project_handleAddTransaction.
Qed.

Lemma pickerStep_refines e st st' :
  alert st = None → pickerStep (embed e) st = Some st' →
  V0.pickerStep e (project st) = Some (project st').
Proof. intros Ha Hstep. by destruct e; step_cases. Qed.

Lemma screenStep_refines e st st' :
  alert st = None → screenStep (embed e) st = Some st' →
  match e with
  | V0.PressTheme | V0.PressChangeMonth _ | V0.PressMonthTitle =>
      V0.headerStep e (project st)
  | V0.LongPressTransaction _ => V0.listStep e (project st)
  | V0.PressFab _ => V0.fabStep e (project st)
  | _ => None
  end = Some (project st').
Proof.
  intros Ha Hstep. destruct e; simpl in Hstep; try done.
  - by step_cases.
  - by step_cases.
  - by step_cases.
  - unfold listStep in Hstep. case_match eqn:Hs; [|done]. simplify_eq.
    unfold V0.listStep. by rewrite (shown_filtered _ _ Hs).
  - by step_cases.
Qed.

(** A change that leaves the modal's flag alone and opens no category alert
    starts no category deletion. *)
Lemma legacyVisible_same st st' :
  deleteModalVisible (core st') = deleteModalVisible (core st) →
  (∀ a, alert st' = Some (DeleteCategoryAlert a) → alert st' = alert st) →
  legacyVisible st → legacyVisible st'.
Proof.
  intros Hd Ha [Hv Hal]. split; [congruence|].
  intros a Hst'. apply (Hal a). by rewrite <-(Ha a Hst').
Qed.

Ltac visible_same :=
  eapply legacyVisible_same; [| |eassumption]; [done|by intros ?].

Lemma handleAddTransaction_visible now nowMs st :
  legacyVisible st → legacyVisible (handleAddTransaction now nowMs st).
Proof. intros Hv. unfold handleAddTransaction. case_match; visible_same. Qed.

Lemma handleAddNewCategory_visible st :
  legacyVisible st → legacyVisible (handleAddNewCategory st).
Proof.
  intros Hv. unfold handleAddNewCategory. repeat case_match; try done;
    visible_same.
Qed.

(** A control of the earlier revision starts no category deletion. *)
Lemma appStep_legacyVisible e st st' :
  legacyVisible st → appStep (embed e) st = Some st' → legacyVisible st'.
Proof.
  intros Hvis Hstep. pose proof Hvis as [Hv _].
  unfold appStep in Hstep. rewrite Hv in Hstep.
  destruct (isLoaded st); [|done]. simpl in Hstep.
  destruct e; step_cases;
    auto using handleAddTransaction_visible, handleAddNewCategory_visible;
    visible_same.
Qed.

(** A shared control does to the earlier revision what it does to the
    current one. *)
Lemma appStep_project e st st' :
  legacyVisible st → (e = V0.PressAddCategory → freshName st) →
  appStep (embed e) st = Some st' →
  V0.appStep e (project st) = Some (project st').
Proof.
  intros [Hv Ha] Hfresh Hstep. unfold appStep in Hstep. unfold V0.appStep.
  rewrite Hv in Hstep. simpl. destruct (isLoaded st); [|done]. simpl in *.
  destruct (alert st) as [a|] eqn:Hal.
  - destruct (alertStep_refines a e st st' Hal Hstep) as (a0 & Ha0 & Hs0).
    rewrite Hal in Ha0. by rewrite Ha0.
  - simpl. destruct (modalVisible st); [by apply addModalStep_refines|].
    destruct (pickerVisible st); [by apply pickerStep_refines|].
    by apply screenStep_refines.
Qed.

(** C18: the current component refines the earlier revision on the
    controls they share: outside a category deletion, whatever a shared
    control does to the current component it does to the earlier one on
    the shared cells, as long as a category that is added is not already
    listed; and no shared control starts a category deletion. *)
Theorem appStep_refines_V0 e st st' :
  legacyVisible st → (e = V0.PressAddCategory → freshName st) →
  appStep (embed e) st = Some st' →
  V0.appStep e (project st) = Some (project st') ∧ legacyVisible st'.
Proof. eauto using appStep_project, appStep_legacyVisible. Qed.

(** ** From the earlier component to the current one *)

(** The group of the month's list that holds a transaction. *)
Definition groupHolding (id : string) st : option string :=
  g_key <$> head (filter (λ g, id ∈ ids (g_transactions g)) (shownGroups st)).

(** What the user of the current revision presses for a control of the
    earlier one: the same control, after the header of its group when a
    transaction is in a group that is collapsed. *)
Definition simulate e st : list AppEvent :=
  match e with
  | V0.LongPressTransaction id =>
      if some (λ g, default false (expandedCategories st !! g_key g) = true ∧
                    id ∈ ids (g_transactions g)) (shownGroups st)
      then [embed e]
      else match groupHolding id st with
           | Some key => [PressGroupHeader key; embed e]
           | None => [embed e]
           end
  | _ => [embed e]
  end.

(** A control the earlier revision accepts is accepted by the current
    one, a long press on a transaction apart. *)
Lemma V0_enabled e st s0 :
  legacyVisible st → (∀ id, e ≠ V0.LongPressTransaction id) →
  V0.appStep e (project st) = Some s0 → is_Some (appStep (embed e) st).
Proof.
  intros [Hv Ha] Hne Hstep. unfold appStep. unfold V0.appStep in Hstep.
  rewrite Hv. simpl in *. destruct (isLoaded st); [|done]. simpl in *.
  destruct (alert st) as [[]|] eqn:Hal; simpl in *;
    try (by destruct (Ha _ eq_refl));
    destruct e; step_cases; eauto; by destruct (Hne _ eq_refl).
Qed.

(** A transaction of the month is in a group of the list. *)
Lemma groupHolding_Some id st :
  includes id (ids (V0.filteredTransactions (project st))) = true →
  ∃ g, groupHolding id st = Some (g_key g) ∧ g ∈ shownGroups st ∧
       id ∈ ids (g_transactions g).
Proof.
  rewrite includes_true. intros (t & -> & Ht)%list_elem_of_fmap.
  apply elem_of_getGroupedTransactions in Ht as (g & Hg & Ht).
  assert (g ∈ filter (λ g, tx_id t ∈ ids (g_transactions g)) (shownGroups st))
    as Hin by (apply list_elem_of_filter; split; [by apply list_elem_of_fmap_2|done]).
  unfold groupHolding. destruct (filter _ _) as [|g' l] eqn:Hf; [by inversion Hin|].
  assert (g' ∈ g' :: l) as Hg' by left. rewrite <-Hf in Hg'.
  apply list_elem_of_filter in Hg' as [? ?]. by exists g'.
Qed.

(** The long press after the header press, on a group that is collapsed. *)
Lemma longPress_collapsed id g st :
  isLoaded st = true → onScreen st →
  g ∈ shownGroups st → id ∈ ids (g_transactions g) →
  default false (expandedCategories st !! g_key g) = false →
  runApp [PressGroupHeader (g_key g); LongPressTransaction id] st =
    Some (confirmDelete id (toggleCategory (g_key g) st)).
Proof.
  intros Hl Hon Hg Hid Hex. simpl.
  rewrite appStep_onScreen by done. simpl.
  rewrite (proj2 (includes_true _ _)) by by apply list_elem_of_fmap_2.
  simpl. rewrite appStep_onScreen by done. simpl.
  rewrite (proj2 (some_true _ _)); [done|].
  exists g. split; [done|]. split; [|done]. simpl.
  by rewrite lookup_insert_eq, Hex.
Qed.

(** The long press on a transaction, after the header of its group when
    that is collapsed. *)
Lemma V0_longPress id st s0 :
  legacyVisible st →
  V0.appStep (V0.LongPressTransaction id) (project st) = Some s0 →
  ∃ st', runApp (simulate (V0.LongPressTransaction id) st) st = Some st' ∧
         project st' = s0 ∧ legacyVisible st'.
Proof.
  intros [Hv Ha] Hstep. unfold V0.appStep in Hstep. simpl in Hstep.
  destruct (isLoaded st) eqn:Hl; [|done].
  destruct (alert st) as [[]|] eqn:Hal; try done; [by destruct (Ha _ eq_refl)|].
  simpl in Hstep.
  destruct (modalVisible st) eqn:Hm; [done|].
  destruct (pickerVisible st) eqn:Hp; [done|]. simpl in Hstep.
  unfold V0.listStep in Hstep. case_match eqn:Hin; [|done].
  apply (inj Some) in Hstep as <-.
  assert (onScreen st) as Hon by done.
  destruct (groupHolding_Some _ _ Hin) as (g & Hgo & Hg & Hid).
  unfold simulate. case_match eqn:Hs.
  - exists (confirmDelete id st). simpl. rewrite appStep_onScreen by done.
    simpl. unfold listStep. rewrite Hs. simpl.
    split_and!; [done|by unfold project; simpl; rewrite Hal|by split].
  - rewrite Hgo. eexists. split; [apply longPress_collapsed; try done|].
    + destruct (default false _) eqn:Hex; [|done].
      by destruct (proj1 (some_false _ _) Hs g Hg).
    + simpl. split; [by unfold project; simpl; rewrite Hal|by split].
Qed.

Lemma simulate_other e st :
  (∀ id, e ≠ V0.LongPressTransaction id) → simulate e st = [embed e].
Proof. intros Hne. destruct e; try done. by destruct (Hne id). Qed.

(** C19: the current component simulates the earlier revision: outside a
    category deletion, every control the earlier revision accepts on the
    shared cells is matched by the current component, by the same control
    or, for a transaction in a collapsed group, by the header of the group
    and then the control; the shared cells end as in the earlier revision,
    provided a category that is added is not already listed. *)
Theorem V0_simulated e st s0 :
  legacyVisible st → (e = V0.PressAddCategory → freshName st) →
  V0.appStep e (project st) = Some s0 →
  ∃ st', runApp (simulate e st) st = Some st' ∧ project st' = s0 ∧
         legacyVisible st'.
Proof.
  intros Hvis Hfresh Hstep.
  assert ((∃ id, e = V0.LongPressTransaction id) ∨
          ∀ id, e ≠ V0.LongPressTransaction id) as [[id ->]|Hne]
    by (destruct e; eauto).
  { eauto using V0_longPress. }
  destruct (V0_enabled e st s0) as [st' Hst']; [done..|].
  exists st'. rewrite simulate_other by done. simpl. rewrite Hst'. simpl.
  pose proof (appStep_project _ _ _ Hvis Hfresh Hst') as Hp.
  split_and!; [done|congruence|eauto using appStep_legacyVisible].
Qed.

(** The defect of the earlier revision that the current one repairs:
    adding a name that is already listed for the type of the form lists it
    twice in the earlier revision, while the current revision keeps the
    names distinct. *)
Lemma V0_handleAddNewCategory_duplicate st :
  uniqueCategories (categories (core st)) →
  trim (newCategoryName st) ≠ "" →
  trim (newCategoryName st) ∈
    categoriesFor (categories (core st)) (nt_type (newTransaction (core st))) →
  uniqueCategories (categories (core (handleAddNewCategory st))) ∧
  ¬ uniqueCategories (V0.categories (V0.handleAddNewCategory (project st))).
Proof.
  intros Hu Hne%truthy_true Hin. split.
  - unfold handleAddNewCategory.
    destruct (addCategory _ _ _) as [e|cats] eqn:Hadd;
      [by destruct (alert_of e)|]. simpl. eauto using addCategory_unique.
  - unfold V0.handleAddNewCategory. simpl. rewrite Hne. simpl.
    intros Hu'.
    pose proof (proj1 (uniqueCategories_for _) Hu'
                  (nt_type (newTransaction (core st)))) as Hn.
    rewrite categoriesFor_set_eq in Hn. apply NoDup_app in Hn as (_ & Hdis & _).
    apply (Hdis _ Hin). left.
Qed.

End refinement.

(** ** The two screens *)

Section views.
Context {T : Type} `{JSNumber T, JSNumberFormat T, Locale, LocaleLong, EqDecision T}.
Implicit Types (st : AppState T).

(** C40: the two revisions show the same month: the same theme icon,
    month, summary card, add button, chips and picker cells; the earlier
    list is empty exactly when the current one is; it has as many rows as
    the counts on the current blocks add up to; and every row of an
    expanded block is a row of the earlier list. *)
Theorem render_project colors now st scr0 scr :
  V0.render colors now (project st) = inr scr0 →
  r_body (render colors now st) = inr scr →
  (V0.scr_themeIcon scr0, V0.scr_monthText scr0, V0.scr_summary scr0,
   V0.scr_fab scr0, V0.scr_addModal scr0, V0.scr_picker scr0) =
  (scr_themeIcon scr, scr_monthText scr, scr_summary scr,
   scr_fab scr, scr_addModal scr, scr_picker scr) ∧
  (is_Some (V0.scr_empty scr0) ↔ is_Some (scr_empty scr)) ∧
  length (V0.scr_rows scr0) =
    sum_list ((λ g, length (g_transactions g)) <$> shownGroups st) ∧
  (∀ id, id ∈ shownItems scr → id ∈ V0.row_key <$> V0.scr_rows scr0).
Proof.
  unfold V0.render, render. simpl. destruct (isLoaded st); [|done]. simpl.
  intros [= <-] [= <-]. simpl. split_and!.
  - done.
  - unfold V0.filteredTransactions, shownGroups. simpl.
    pose proof (getGroupedTransactions_nil
      (getFilteredTransactions (currentDate st) (transactions (core st)))) as Hn.
    destruct (getGroupedTransactions _), (getFilteredTransactions _ _);
      split; try done; intros _; destruct Hn as [Hn1 Hn2];
      by (discriminate Hn1 || discriminate Hn2).
  - rewrite length_fmap. unfold shownGroups. by rewrite group_counts_sum.
  - intros id (g & Hg & _ & (t & -> & Ht)%list_elem_of_fmap)%elem_of_rows.
    rewrite V0_row_keys. apply list_elem_of_fmap_2.
    apply elem_of_getGroupedTransactions. eauto.
Qed.

End views.

(** ** The first session in both revisions *)

Lemma readyToSave_legacyVisible : legacyVisible (app readyToSave).
Proof. split; [done|by intros ?]. Defined.

Lemma afterSave_legacyVisible : legacyVisible (app afterSave).
Proof. split; [done|by intros ?]. Defined.

Lemma appStep_refines_V0_witness :
  V0.appStep (V0.PressSave march31 1743400000000) (project (app readyToSave)) =
    Some (project (app afterSave)) ∧
  legacyVisible (app afterSave).
Proof.
  exact (appStep_refines_V0 (V0.PressSave march31 1743400000000)
           (app readyToSave) (app afterSave) readyToSave_legacyVisible
           ltac:(done) readyToSave_step).
Defined.

(** The expense of the first session is in a collapsed group: the earlier
    revision's long press is matched by two presses. *)
Lemma V0_simulated_witness :
  ∃ st', runApp (simulate (V0.LongPressTransaction "1743400000000")
                   (app afterSave)) (app afterSave) = Some st' ∧
         project st' =
           V0.confirmDelete "1743400000000" (project (app afterSave)) ∧
         legacyVisible st'.
Proof.
  exact (V0_simulated (V0.LongPressTransaction "1743400000000") (app afterSave)
           (V0.confirmDelete "1743400000000" (project (app afterSave)))
           afterSave_legacyVisible ltac:(done) ltac:(by vm_compute)).
Defined.

(** The two presses. *)
Example afterSave_simulate :
  simulate (V0.LongPressTransaction "1743400000000") (app afterSave) =
  [PressGroupHeader "Expense-Food"; LongPressTransaction "1743400000000"].
Proof. by vm_compute. Qed.

(** Food typed again in the category field of the first session. *)
Definition foodAgain : AppState xnum :=
  setNewCategoryName " Food " (setIsAddingCategory true (app readyToSave)).

Lemma V0_handleAddNewCategory_duplicate_witness :
  uniqueCategories (categories (core (handleAddNewCategory foodAgain))) ∧
  ¬ uniqueCategories
      (V0.categories (V0.handleAddNewCategory (project foodAgain))).
Proof.
  exact (V0_handleAddNewCategory_duplicate foodAgain
           ltac:(by apply (bool_decide_unpack _)) ltac:(done)
           ltac:(by apply (bool_decide_unpack _))).
Defined.

(** The earlier screen after the first expense is saved. *)
Definition afterSaveScreenV0 : V0.Screen :=
  match V0.render lightColors march31 (project (app afterSave)) with
  | inr s => s
  | inl _ => V0.mkScreen "" "" (mkSummary "" "" "") [] None "" false None None
  end.

Lemma render_project_witness :
  (V0.scr_themeIcon afterSaveScreenV0, V0.scr_monthText afterSaveScreenV0,
   V0.scr_summary afterSaveScreenV0, V0.scr_fab afterSaveScreenV0,
   V0.scr_addModal afterSaveScreenV0, V0.scr_picker afterSaveScreenV0) =
  (scr_themeIcon afterSaveScreen, scr_monthText afterSaveScreen,
   scr_summary afterSaveScreen, scr_fab afterSaveScreen,
   scr_addModal afterSaveScreen, scr_picker afterSaveScreen) ∧
  (is_Some (V0.scr_empty afterSaveScreenV0) ↔
   is_Some (scr_empty afterSaveScreen)) ∧
  length (V0.scr_rows afterSaveScreenV0) =
    sum_list ((λ g, length (g_transactions g)) <$> shownGroups (app afterSave)) ∧
  (∀ id, id ∈ shownItems afterSaveScreen →
         id ∈ V0.row_key <$> V0.scr_rows afterSaveScreenV0).
Proof.
  exact (render_project lightColors march31 (app afterSave) afterSaveScreenV0
           afterSaveScreen ltac:(by vm_compute) ltac:(by vm_compute)).
Defined.

(** The row of the expense in the earlier list: the sign of the type
    before the amount, the date whole. *)
Example first_session_row :
  (λ r, (V0.row_key r, V0.row_category r, V0.row_amount r, V0.row_date r)) <$>
    V0.scr_rows afterSaveScreenV0 =
  [("1743400000000", "Food", "- $12.50", "3/31/2025")].
Proof. by vm_compute. Qed.
