(* ===== verification/Double.v ===== *)
(** The numbers [src/App.js] computes with: IEEE 754 binary64, on the
    specification of floating-point arithmetic of the Standard Library
    ([SpecFloat]).  The instance of the interface [JSNumber]: [+] and [-]
    rounded to nearest even, decimal literals rounded once, the sign a
    comparator returns, JSON, and [toFixed] on the exact value of a double.
    The law the sort needs holds of doubles; the laws of exact arithmetic
    do not, but whole numbers below 2^53 are added exactly, so the sums
    of the month view agree on whole amounts.  What [parseFloat] reads of
    a printed double, and that an amount typed with two decimals is shown
    as typed. *)

From Stdlib Require Import Floats.SpecFloat QArith.
From S2P Require Import Prelude JSNumber Format JSDate Ledger MonthView View.

(** ** The instance *)

(** A binary64 number. *)
Definition double : Type := spec_float.

#[export] Instance double_eq_dec : EqDecision double.
Proof. solve_decision. Defined.

Definition d_add : double → double → double := SFadd 53 1024.
Definition d_sub : double → double → double := SFsub 53 1024.

(** The double nearest to [m * 10^e], the even one of two: an integer is
    rounded as it is, a quotient by a power of ten is rounded once, from
    the quotient and the remainder of the division. *)
Definition d_of_decimal (neg : bool) (m : N) (e : Z) : double :=
  match m with
  | N0 => S754_zero neg
  | Npos p =>
      match e with
      | Zneg k =>
          SFdiv 53 1024 (S754_finite neg p 0) (S754_finite false (10 ^ k) 0)
      | Z0 => binary_round 53 1024 neg p 0
      | Zpos k => binary_round 53 1024 neg (p * 10 ^ k) 0
      end
  end.

(** The sign of a number as a comparator's result: zero for both zeros and
    for NaN. *)
Definition d_sgn (x : double) : Z :=
  match x with
  | S754_zero _ | S754_nan => 0
  | S754_infinity s | S754_finite s _ _ => if s then -1 else 1
  end.

(** A finite double is written with the digits that read back as itself,
    the negative zero as [0]; NaN and the infinities are written as
    [null]. *)
Definition d_json (x : double) : double :=
  match x with
  | S754_finite _ _ _ => x
  | S754_zero _ | S754_nan | S754_infinity _ => S754_zero false
  end.

#[export] Instance double_number : JSNumber double := {
  num_zero := S754_zero false;
  num_nan := S754_nan;
  num_inf := S754_infinity;
  num_of_decimal := d_of_decimal;
  num_add := d_add;
  num_sub := d_sub;
  num_sgn := d_sgn;
  num_json := d_json;
}.

(** The exact value of a double. *)
Definition d_value (x : double) : xnum :=
  match x with
  | S754_zero _ => XFin 0
  | S754_nan => XNaN
  | S754_infinity s => XInf s
  | S754_finite s m e =>
      let n := if s then Zneg m else Zpos m in
      XFin (match e with
            | Zneg k => Qmake n (2 ^ k)
            | Z0 => inject_Z n
            | Zpos k => inject_Z (n * 2 ^ Zpos k)
            end)
  end.

(** [toFixed] rounds the exact value of the double. *)
#[export] Instance double_format : JSNumberFormat double :=
  {| num_toFixed f x := xnum_toFixed f (d_value x) |}.

(** What [parseFloat] reads of [x.toFixed(f)]: the double nearest to the
    decimal printed, with its sign; NaN and the infinities as they are. *)
Definition d_rounded (f : nat) (x : double) : double :=
  match d_value x with
  | XNaN => S754_nan
  | XInf s => S754_infinity s
  | XFin q =>
      if Qle_bool 0 q then d_of_decimal false (scaled f q) (- Z.of_nat f)
      else d_of_decimal true (scaled f (- q)) (- Z.of_nat f)
  end.

(** Whether the double nearest to [n / 100] prints, with two decimals, the
    digits of [n]. *)
Definition printsBack (n : N) : bool :=
  match d_value (d_of_decimal false n (-2)) with
  | XFin q => Qle_bool 0 q && (scaled 2 q =? n)%N
  | _ => false
  end.

(** The double of an integer: the integer itself when it has at most 53
    binary digits, the nearest double otherwise. *)
Definition d_of_Z (n : Z) : double := binary_normalize 53 1024 n 0 false.

(** The integer part of a double, towards zero; [0] for NaN and the
    infinities. *)
Definition d_to_Z (x : double) : Z :=
  match x with
  | S754_finite s m e => cond_Zopp s (Z.shiftl (Zpos m) e)
  | _ => 0%Z
  end.

(** ** The law of the sort *)

Lemma d_sgn_opp x : d_sgn (SFopp x) = (- d_sgn x)%Z.
Proof. by destruct x as [| [] | | [] ? ?]. Qed.

Lemma binary_round_aux_negb s m e l :
  binary_round_aux 53 1024 (negb s) m e l =
  SFopp (binary_round_aux 53 1024 s m e l).
Proof.
  unfold binary_round_aux. destruct (shr_fexp _ _ _ _ _) as [mrs e'].
  destruct (shr_fexp _ _ _ _ _) as [mrs' e'']. destruct (shr_m mrs'); [done| |done].
  by destruct (Z.leb _ _).
Qed.

Lemma binary_round_negb s m e :
  binary_round 53 1024 (negb s) m e = SFopp (binary_round 53 1024 s m e).
Proof.
  unfold binary_round. destruct (shl_align _ _ _). apply binary_round_aux_negb.
Qed.

Lemma binary_normalize_opp z e :
  d_sgn (binary_normalize 53 1024 (- z) e false) =
  (- d_sgn (binary_normalize 53 1024 z e false))%Z.
Proof.
  destruct z as [|p|p]; simpl; [done| |].
  - by rewrite (binary_round_negb false), d_sgn_opp.
  - rewrite (binary_round_negb false), d_sgn_opp. lia.
Qed.

(** Swapping the operands of a subtraction of doubles flips its sign. *)
Lemma d_sgn_sub_antisym (a b : double) :
  d_sgn (d_sub a b) = (- d_sgn (d_sub b a))%Z.
Proof.
  destruct a as [sa|sa| |sa ma ea], b as [sb|sb| |sb mb eb];
    try done; try (by destruct sa, sb); try (by destruct sa); try (by destruct sb).
  unfold d_sub, SFsub. rewrite (Z.min_comm eb ea).
  rewrite <-binary_normalize_opp. f_equal. f_equal. lia.
Qed.

#[export] Instance double_compare : JSNumberCompare double.
Proof. constructor. apply d_sgn_sub_antisym. Qed.

(** ** Doubles at work *)

(** One tenth, and the sum that is not three tenths but prints as such. *)
Example double_tenths :
  parseFloat "0.1" = S754_finite false 7205759403792794 (-56) ∧
  num_add (parseFloat "0.1") (parseFloat "0.2") ≠ parseFloat (T:=double) "0.3" ∧
  num_toFixed 2 (num_add (parseFloat "0.1") (parseFloat (T:=double) "0.2")) = "0.30".
Proof. split_and!; [by vm_compute| |by vm_compute]. by vm_compute. Qed.

(** Sums of doubles cannot be regrouped. *)
Example double_add_not_assoc :
  let a : double := parseFloat "0.1" in
  let b : double := parseFloat "0.2" in
  let c : double := parseFloat "2.2" in
  num_add a (num_add b c) ≠ num_add (num_add a b) c.
Proof. by vm_compute. Qed.

(** ** The month view on doubles *)

(** On the numbers the program computes with, the list of groups is
    sorted by the comparator of [getGroupedTransactions]: each group goes
    before the next, income before expense and the larger total first,
    whatever the amounts, NaN and the infinities included. *)
Lemma double_groups_sorted (l : list (Transaction double)) :
  Sorted (λ a b, compareGroups a b ≤ 0)%Z (getGroupedTransactions l).
Proof. apply getGroupedTransactions_sorted. Qed.

(** Three expenses of one month: 0.1 and 2.2 on Food, 0.2 on Bills. *)
Definition tenthsLedger : list (Transaction double) :=
  [mkTransaction "1741000120000" (mkDate 2025 2 5 0) "3/5/2025" Expense
     (parseFloat "0.1") "Food" "";
   mkTransaction "1741000060000" (mkDate 2025 2 4 0) "3/4/2025" Expense
     (parseFloat "0.2") "Bills" "";
   mkTransaction "1741000000000" (mkDate 2025 2 3 0) "3/3/2025" Expense
     (parseFloat "2.2") "Food" ""].

(** On doubles the totals of the groups need not add up to the month's
    income plus its expense: the groups are added up one by one and the
    month as a whole, and the two sums round differently.  For
    [tenthsLedger] the totals of the groups add up to 2.5000000000000004
    and the month's expense is 2.5; both print as 2.50. *)
Example double_group_totals_differ :
  let groups := getGroupedTransactions tenthsLedger in
  let totals := getTotals tenthsLedger in
  reduce_add (g_total <$> groups) ≠ num_add (income totals) (expense totals) ∧
  expense totals = parseFloat "2.5" ∧
  reduce_add (g_total <$> groups) = parseFloat "2.5000000000000004" ∧
  num_toFixed 2 (reduce_add (g_total <$> groups)) = "2.50" ∧
  num_toFixed 2 (expense totals) = "2.50".
Proof. split_and!; by vm_compute. Qed.

(** ** Whole amounts *)

(** Doubles add integers exactly as long as the integers have at most 53
    binary digits: the sum of two such doubles is computed on their
    mantissas brought to one exponent and rounded once, and rounding does
    not depend on the exponent an integer is written with. *)

Section whole_doubles.
#[local] Open Scope Z_scope.

(** The number of binary digits. *)
Lemma digits2_pos_size p : digits2_pos p = Pos.size p.
Proof. induction p as [p IH|p IH|]; simpl; by rewrite ?IH. Qed.

Lemma digits2_pos_iter_xO p d :
  Zpos (digits2_pos (Pos.iter xO p d)) = Zpos (digits2_pos p) + Zpos d.
Proof.
  induction d as [|d IH] using Pos.peano_ind.
  - simpl. lia.
  - rewrite Pos.iter_succ. simpl. lia.
Qed.

Lemma iter_pos_iter {A} (f : A → A) p : ∀ x, SpecFloat.iter_pos f p x = Pos.iter f x p.
Proof.
  induction p as [p IH|p IH|]; intros x; simpl; [|by rewrite !IH|done].
  by rewrite !IH, !Pos.iter_swap.
Qed.

Lemma iter_pos_succ {A} (f : A → A) p x :
  SpecFloat.iter_pos f (Pos.succ p) x = SpecFloat.iter_pos f p (f x).
Proof. by rewrite !iter_pos_iter, Pos.iter_succ_r. Qed.

(** Shifting out a zero that was shifted in. *)
Lemma shr_fexp_xO m e :
  shr_fexp 53 1024 (Zpos (xO m)) (e - 1) loc_Exact =
  (if decide (fexp 53 1024 (Zpos (digits2_pos m) + e) - e < 0)
   then (Build_shr_record (Zpos (xO m)) false false, e - 1)
   else shr_fexp 53 1024 (Zpos m) e loc_Exact).
Proof.
  unfold shr_fexp. cbn [Zdigits2 digits2_pos shr_record_of_loc].
  replace (Z.pos (Pos.succ (digits2_pos m)) + (e - 1))
    with (Z.pos (digits2_pos m) + e) by lia.
  set (fe := fexp 53 1024 (Z.pos (digits2_pos m) + e)).
  unfold shr.
  destruct (fe - (e - 1)) as [|d|d] eqn:H1, (fe - e) as [|d'|d'] eqn:H2;
    case_decide; try lia; try done.
  - assert (d = 1%positive) as -> by lia. simpl. f_equal. lia.
  - assert (d = Pos.succ d') as -> by lia.
    rewrite iter_pos_succ. simpl. f_equal. lia.
Qed.

(** A mantissa with one more zero at the end and the exponent one less is
    rounded to the same double. *)
Lemma binary_round_xO s m e :
  binary_round 53 1024 s (xO m) (e - 1) = binary_round 53 1024 s m e.
Proof.
  unfold binary_round. cbn [digits2_pos].
  replace (Z.pos (Pos.succ (digits2_pos m)) + (e - 1)) with (Z.pos (digits2_pos m) + e) by lia.
  set (fe := fexp 53 1024 (Z.pos (digits2_pos m) + e)).
  unfold shl_align.
  destruct (fe - (e - 1)) as [|d|d] eqn:H1, (fe - e) as [|d'|d'] eqn:H2; try lia.
  - assert (d' = 1%positive) as -> by lia. simpl. do 2 f_equal. lia.
  - unfold binary_round_aux. rewrite shr_fexp_xO. fold fe. by rewrite decide_False by lia.
  - unfold binary_round_aux. rewrite shr_fexp_xO. fold fe. by rewrite decide_False by lia.
  - assert (d' = Pos.succ d) as -> by lia. by rewrite Pos.iter_succ_r.
Qed.

Lemma binary_round_shift s m e (k : positive) :
  binary_round 53 1024 s (Pos.iter xO m k) (e - Zpos k) = binary_round 53 1024 s m e.
Proof.
  revert e. induction k as [|k IH] using Pos.peano_ind; intros e.
  - apply binary_round_xO.
  - rewrite Pos.iter_succ.
    replace (e - Z.pos (Pos.succ k)) with (e - Zpos k - 1) by lia.
    by rewrite binary_round_xO, IH.
Qed.

Lemma Zpos_iter_xO m k : Zpos (Pos.iter xO m k) = Zpos m * 2 ^ Zpos k.
Proof.
  induction k as [|k IH] using Pos.peano_ind; [simpl; lia|].
  rewrite Pos.iter_succ, Pos2Z.inj_xO, IH, Pos2Z.inj_succ, Z.pow_succ_r by lia. lia.
Qed.

(** An integer times a power of two, with the exponent taken back. *)
Lemma binary_normalize_shift n (k : Z) :
  0 ≤ k → binary_normalize 53 1024 (n * 2 ^ k) (- k) false = d_of_Z n.
Proof.
  intros Hk. unfold d_of_Z. destruct k as [|k|k]; [|clear Hk|lia].
  { by rewrite Z.mul_1_r. }
  destruct n as [|p|p]; [done|..].
  - rewrite <-Zpos_iter_xO. simpl. apply (binary_round_shift false p 0 k).
  - assert (Z.neg p * 2 ^ Z.pos k = Z.neg (Pos.iter xO p k)) as ->
      by (pose proof (Zpos_iter_xO p k); lia).
    apply (binary_round_shift true p 0 k).
Qed.

(** A mantissa that has the exponent of its size is not rounded. *)
Lemma binary_round_aux_canonical s m e :
  fexp 53 1024 (Zpos (digits2_pos m) + e) = e → e ≤ 971 →
  binary_round_aux 53 1024 s (Zpos m) e loc_Exact = S754_finite s m e.
Proof.
  intros Hfe He. unfold binary_round_aux, shr_fexp.
  cbn [Zdigits2 shr_record_of_loc]. rewrite Hfe, Z.sub_diag.
  cbn [shr shr_m loc_of_shr_record round_nearest_even Zdigits2 shr_record_of_loc].
  rewrite Hfe, Z.sub_diag. cbn [shr shr_m].
  by rewrite (proj2 (Z.leb_le _ _)) by done.
Qed.

Lemma digits2_pos_le_53 p : Zpos p < 2 ^ 53 → Zpos (digits2_pos p) ≤ 53.
Proof.
  intros Hp. rewrite digits2_pos_size. pose proof (Pos.size_le p) as Hs.
  apply Z.lt_succ_r, Z.nle_gt. intros Hge.
  assert (2 ^ 54 ≤ 2 ^ Zpos (Pos.size p)) by (apply Z.pow_le_mono_r; lia).
  assert (Zpos (2 ^ Pos.size p) ≤ Zpos p~0) as Hle by (apply Pos2Z.pos_le_pos, Hs).
  rewrite Pos2Z.inj_pow in Hle. lia.
Qed.

(** The double of an integer below 2^53 is the integer: its mantissa is
    the integer with the zeros that fill 53 digits, and its exponent takes
    them back. *)
Lemma binary_round_integer s p :
  Zpos p < 2 ^ 53 →
  ∃ m e, binary_round 53 1024 s p 0 = S754_finite s m e ∧ e ≤ 0 ∧
         Zpos m = Zpos p * 2 ^ (- e).
Proof.
  intros Hd%digits2_pos_le_53. unfold binary_round. rewrite Z.add_0_r.
  assert (fexp 53 1024 (Zpos (digits2_pos p)) = Zpos (digits2_pos p) - 53) as ->
    by (unfold fexp, emin; lia).
  unfold shl_align. rewrite Z.sub_0_r.
  destruct (Zpos (digits2_pos p) - 53) as [|d|d] eqn:Hdiff; [|lia|].
  - exists p, 0. rewrite binary_round_aux_canonical; [split_and!; [done|lia|simpl; lia]| |lia].
    rewrite Z.add_0_r. unfold fexp, emin. lia.
  - exists (Pos.iter xO p d), (Zneg d).
    rewrite binary_round_aux_canonical; [split_and!; [done|lia|]| |lia].
    + by rewrite Zpos_iter_xO.
    + rewrite digits2_pos_iter_xO. unfold fexp, emin. lia.
Qed.

Lemma shl_align_fst m e e' :
  e' ≤ e → Zpos (fst (shl_align m e e')) = Zpos m * 2 ^ (e - e').
Proof.
  intros He. unfold shl_align. destruct (e' - e) as [|d|d] eqn:Hd; [|lia|].
  - replace (e - e') with 0 by lia. simpl. lia.
  - replace (e - e') with (Zpos d) by lia. apply Zpos_iter_xO.
Qed.

Lemma cond_Zopp_mul s z k : cond_Zopp s z * k = cond_Zopp s (z * k).
Proof. destruct s; simpl; lia. Qed.

Lemma shl_align_value s m e e' c :
  e' ≤ e → e ≤ 0 → cond_Zopp s (Zpos m) = c * 2 ^ (- e) →
  cond_Zopp s (Zpos (fst (shl_align m e e'))) = c * 2 ^ (- e').
Proof.
  intros He' He Hc.
  rewrite shl_align_fst, <-cond_Zopp_mul, Hc, <-Z.mul_assoc, <-Z.pow_add_r by lia.
  do 2 f_equal. lia.
Qed.

(** The sum of two doubles that are whole numbers is the double of the
    sum of the numbers. *)
Lemma d_add_finite sx mx ex sy my ey a b :
  ex ≤ 0 → ey ≤ 0 →
  cond_Zopp sx (Zpos mx) = a * 2 ^ (- ex) →
  cond_Zopp sy (Zpos my) = b * 2 ^ (- ey) →
  d_add (S754_finite sx mx ex) (S754_finite sy my ey) = d_of_Z (a + b).
Proof.
  intros Hex Hey Ha Hb. unfold d_add, SFadd.
  rewrite <-(binary_normalize_shift (a + b) (- Z.min ex ey)) by lia.
  rewrite Z.opp_involutive. f_equal.
  rewrite (shl_align_value sx mx ex _ a), (shl_align_value sy my ey _ b) by lia.
  lia.
Qed.

(** A whole number below 2^53 in absolute value, as a double. *)
Lemma d_of_Z_cases a :
  Z.abs a < 2 ^ 53 →
  (a = 0 ∧ d_of_Z a = S754_zero false) ∨
  ∃ s m e, d_of_Z a = S754_finite s m e ∧ e ≤ 0 ∧
           cond_Zopp s (Zpos m) = a * 2 ^ (- e).
Proof.
  intros Ha. destruct a as [|p|p]; [by left|right..]; unfold d_of_Z; simpl.
  - destruct (binary_round_integer false p) as (m & e & -> & He & Hm); [lia|].
    exists false, m, e. by split_and!.
  - destruct (binary_round_integer true p) as (m & e & -> & He & Hm); [lia|].
    exists true, m, e. split_and!; [done..|]. simpl. lia.
Qed.

(** Doubles add whole numbers exactly: the sum of the doubles of two
    integers below 2^53 in absolute value is the double of their sum,
    whatever the sum is. *)
Lemma d_add_of_Z a b :
  Z.abs a < 2 ^ 53 → Z.abs b < 2 ^ 53 →
  d_add (d_of_Z a) (d_of_Z b) = d_of_Z (a + b).
Proof.
  intros Ha Hb.
  destruct (d_of_Z_cases a Ha) as [[-> Hza]|(sa & ma & ea & Hfa & Hea & Hma)],
    (d_of_Z_cases b Hb) as [[-> Hzb]|(sb & mb & eb & Hfb & Heb & Hmb)].
  - done.
  - by rewrite Hza, Hfb.
  - by rewrite Z.add_0_r, Hzb, Hfa.
  - rewrite Hfa, Hfb. by apply d_add_finite.
Qed.

(** The integer of the double of an integer below 2^53 is the integer. *)
Lemma d_to_Z_of_Z a : Z.abs a < 2 ^ 53 → d_to_Z (d_of_Z a) = a.
Proof.
  intros [[-> ->]|(s & m & e & -> & He & Hm)]%d_of_Z_cases; [done|].
  unfold d_to_Z. rewrite <-(Z.opp_involutive e), Z.shiftl_opp_r.
  rewrite Z.shiftr_div_pow2 by lia.
  assert (0 < 2 ^ (- e)) by (apply Z.pow_pos_nonneg; lia).
  destruct s; simpl in *.
  - replace (Z.pos m) with ((- a) * 2 ^ (- e)) by lia. rewrite Z.div_mul; lia.
  - rewrite Hm, Z.div_mul; lia.
Qed.

(** What [parseFloat] reads of a text of digits is the double of the
    integer written. *)
Lemma d_of_decimal_whole neg p :
  d_of_decimal neg (Npos p) 0 = d_of_Z (cond_Zopp neg (Zpos p)).
Proof. by destruct neg. Qed.

End whole_doubles.

#[export] Instance double_whole : JSNumberWhole double := {
  num_of_Z := d_of_Z;
  num_to_Z := d_to_Z;
  num_whole_bound := (2 ^ 53)%Z;
  num_of_Z_0 := eq_refl;
  num_add_of_Z := d_add_of_Z;
}.

(** The month of the witness: two expenses on Food and a salary, typed as
    whole numbers. *)
Definition wholeLedger : list (Transaction double) :=
  [mkTransaction "1741000120000" (mkDate 2025 2 5 0) "3/5/2025" Expense
     (parseFloat "50") "Food" "";
   mkTransaction "1741000060000" (mkDate 2025 2 4 0) "3/4/2025" Income
     (parseFloat "1200") "Salary" "";
   mkTransaction "1741000000000" (mkDate 2025 2 3 0) "3/3/2025" Expense
     (parseFloat "20") "Food" ""].

(** C8: on the numbers the program computes with, the totals of the groups
    of the month view add up to the income plus the expense of the summary
    card when every amount is a whole number and the absolute values of
    the amounts stay below 2^53 in all: both sums are the double of the sum
    of the amounts as integers, though the groups are added up one by one
    and in another order than the month as a whole. *)
Theorem double_group_totals_sum (l : list (Transaction double)) :
  Forall (λ t, tx_amount t = d_of_Z (d_to_Z (tx_amount t))) l →
  (Zsum (λ t, Z.abs (d_to_Z (tx_amount t))) l < 2 ^ 53)%Z →
  let total := d_of_Z (Zsum (λ t, d_to_Z (tx_amount t)) l) in
  reduce_add (g_total <$> getGroupedTransactions l) = total ∧
  num_add (income (getTotals l)) (expense (getTotals l)) = total.
Proof.
  intros Hw Hb.
  split; [exact (group_totals_sum_whole l Hw Hb)|exact (getTotals_whole l Hw Hb)].
Qed.

Lemma double_group_totals_sum_witness :
  reduce_add (g_total <$> getGroupedTransactions wholeLedger) = d_of_Z 1270 ∧
  num_add (income (getTotals wholeLedger)) (expense (getTotals wholeLedger)) =
    d_of_Z 1270.
Proof.
  refine (double_group_totals_sum wholeLedger _ _); [|by vm_compute].
  repeat constructor; by vm_compute.
Defined.

(** ** Printing and reading back *)

(** On doubles a number printed with [f] decimals reads back as the
    double nearest to the decimal printed, which need not be the number
    printed; NaN and the infinities read back as themselves. *)
Lemma double_toFixed_parseFloat f (x : double) :
  parseFloat (num_toFixed f x) = d_rounded f x.
Proof.
  unfold d_rounded. cbn [num_toFixed double_format].
  destruct (d_value x) as [|[]|q]; [done..|]. unfold xnum_toFixed.
  destruct (Qle_bool 0 q).
  - exact (parseFloat_pointed (T:=double) false f _).
  - exact (parseFloat_pointed (T:=double) true f _).
Qed.

(** The sum of a tenth and two tenths prints as 0.30 and reads back as
    three tenths, which it is not. *)
Example double_tenths_read_back :
  let x : double := num_add (parseFloat "0.1") (parseFloat "0.2") in
  parseFloat (num_toFixed 2 x) = parseFloat (T:=double) "0.3" ∧
  parseFloat (num_toFixed 2 x) ≠ x.
Proof. split; by vm_compute. Qed.

Lemma printsBack_toFixed n :
  printsBack n = true → num_toFixed 2 (d_of_decimal false n (-2)) = pointed 2 n.
Proof.
  unfold printsBack. cbn [num_toFixed double_format].
  destruct (d_value _) as [| |q]; [done..|]. unfold xnum_toFixed.
  by intros [-> ->%N.eqb_eq]%andb_prop.
Qed.

(** Every amount of cents below the bound prints back, by evaluation. *)
Lemma printsBack_below : allBelow printsBack 10000 = true.
Proof. vm_cast_no_check (eq_refl true). Qed.

(** C31: an amount typed with two decimals, below 100, is shown as typed:
    the double [parseFloat] reads of the text is printed by
    [formatCurrency] with the digits typed, though most of these doubles
    are not the decimal typed. *)
Theorem typed_amount_shown (n : N) :
  (n < 10000)%N →
  formatCurrency (parseFloat (T:=double) (pointed 2 n)) = "$" +:+ pointed 2 n.
Proof.
  intros Hn. unfold formatCurrency. f_equal.
  rewrite (parseFloat_pointed (T:=double) false).
  apply printsBack_toFixed, (allBelow_spec _ _ _ printsBack_below Hn).
Qed.

Lemma typed_amount_shown_witness :
  formatCurrency (parseFloat (T:=double) "12.50") = "$12.50".
Proof. exact (typed_amount_shown 1250 eq_refl). Defined.
